(** * Student-records pipeline: a shallow embedding and its verified properties

    The development follows the Python sources module by module:

    - [Py]            the few Python built-ins the sources rely on
                      (truthiness, [str], [strip], [lower], [title], [round],
                      [hashlib.md5]);
    - [Enrollment]    modules/enrollment.py  (span overlap and normalisation);
    - [Reconciliation] reconciliation/engine.py (count check, summary);
    - [Identity]      modules/identity.py    (matching and golden records);
    - [Grades]        modules/grades.py      (GPA);
    - [Attendance]    modules/attendance.py  (code mapping, daily status, rate).

    Conventions.  A [datetime.date] is its proleptic ordinal (a [Z]); only
    order and day differences are used by the code.  Python dictionaries that
    are only looked up are [gmap]s; the golden-record table, whose iteration
    order decides which record wins, is an insertion-ordered association
    list.  Mutating methods return the new object state next to their result.
    The match score of the identity resolver is a sum of float literals and
    is computed on binary64 floats.  Ratios of integer counts and the GPA
    sums are modelled by exact rationals, and [round(x, n)] by rounding the
    rational to [n] decimals, ties to even.  Text is ASCII; [hashlib.md5] is
    the function of RFC 1321. *)

From Stdlib Require Import ZArith QArith Qround Bool List Lia Lqa Floats.
From Stdlib Require Import String Ascii.
From stdpp Require Import gmap strings.

Import ListNotations.

Set Warnings "-inexact-float".

(* ===================================================================== *)
(** * Python built-ins *)
(* ===================================================================== *)

Module Py.

Open Scope string_scope.
Open Scope Z_scope.

(** Values found in the untyped key-value records. *)
Inductive value : Type :=
| VNone
| VStr (s : string)
| VInt (z : Z).

(** [bool(v)]. *)
Definition truthy (v : value) : bool :=
  match v with
  | VNone => false
  | VStr s => negb (String.eqb s "")
  | VInt z => negb (z =? 0)
  end.

Definition digit_char (d : Z) : ascii := ascii_of_nat (48 + Z.to_nat d).

Fixpoint digits_fuel (fuel : nat) (n : Z) (acc : string) : string :=
  match fuel with
  | O => acc
  | S k =>
      let acc' := String (digit_char (n mod 10)) acc in
      if n / 10 =? 0 then acc' else digits_fuel k (n / 10) acc'
  end.

(** [str(n)] for an integer. *)
Definition str_int (z : Z) : string :=
  let n := Z.abs z in
  let ds := digits_fuel (S (Z.to_nat (Z.log2 n))) n "" in
  if z <? 0 then String "-" ds else ds.

(** [str(v)]. *)
Definition str (v : value) : string :=
  match v with
  | VNone => "None"
  | VStr s => s
  | VInt z => str_int z
  end.

(** [d.get(k)] and [d.get(k, default)]. *)
Definition get (d : gmap string value) (k : string) : value :=
  default VNone (d !! k).

Definition get_or (d : gmap string value) (k : string) (dflt : value) : value :=
  default dflt (d !! k).

(** Character classes, on ASCII text. *)
Definition code (c : ascii) : nat := nat_of_ascii c.

Definition isspace (c : ascii) : bool :=
  let n := code c in
  ((9 <=? n) && (n <=? 13) || (28 <=? n) && (n <=? 32))%nat.

Definition isdigit (c : ascii) : bool :=
  let n := code c in ((48 <=? n) && (n <=? 57))%nat.

Definition isupper (c : ascii) : bool :=
  let n := code c in ((65 <=? n) && (n <=? 90))%nat.

Definition islower (c : ascii) : bool :=
  let n := code c in ((97 <=? n) && (n <=? 122))%nat.

Definition isalpha (c : ascii) : bool := isupper c || islower c.

(** [\w] of the [re] module. *)
Definition isword (c : ascii) : bool :=
  isalpha c || isdigit c || (code c =? 95)%nat.

Definition lower_char (c : ascii) : ascii :=
  if isupper c then ascii_of_nat (code c + 32) else c.

Definition upper_char (c : ascii) : ascii :=
  if islower c then ascii_of_nat (code c - 32) else c.

Fixpoint map_string (f : ascii -> ascii) (s : string) : string :=
  match s with
  | EmptyString => EmptyString
  | String c r => String (f c) (map_string f r)
  end.

Fixpoint filter_string (f : ascii -> bool) (s : string) : string :=
  match s with
  | EmptyString => EmptyString
  | String c r => if f c then String c (filter_string f r) else filter_string f r
  end.

(** [s.lower()] and [s.upper()]. *)
Definition lower (s : string) : string := map_string lower_char s.
Definition upper (s : string) : string := map_string upper_char s.

Fixpoint lstrip (s : string) : string :=
  match s with
  | EmptyString => EmptyString
  | String c r => if isspace c then lstrip r else s
  end.

Fixpoint rev_string (s : string) (acc : string) : string :=
  match s with
  | EmptyString => acc
  | String c r => rev_string r (String c acc)
  end.

Definition rstrip (s : string) : string :=
  rev_string (lstrip (rev_string s "")) "".

(** [s.strip()]. *)
Definition strip (s : string) : string := rstrip (lstrip s).

(** [s.title()]: a letter is upper-cased when the character before it is not
    a letter, lower-cased otherwise. *)
Fixpoint title_from (prev_cased : bool) (s : string) : string :=
  match s with
  | EmptyString => EmptyString
  | String c r =>
      let c' := if isalpha c
                then (if prev_cased then lower_char c else upper_char c)
                else c in
      String c' (title_from (isalpha c) r)
  end.

Definition title (s : string) : string := title_from false s.

(** [s[:n]] and [s[-n:]] for [n >= 0]. *)
Definition prefix (n : nat) (s : string) : string := String.substring 0 n s.

Definition suffix (n : nat) (s : string) : string :=
  let len := String.length s in
  String.substring (len - n) n s.

(** [round(x, n)]: the number with [n] decimals nearest to [x], ties to the
    even last digit. *)
Definition round_half_even (x : Q) : Z :=
  let f := Qfloor x in
  let r := (x - inject_Z f)%Q in
  match (r ?= 1 # 2)%Q with
  | Lt => f
  | Gt => f + 1
  | Eq => if Z.even f then f else f + 1
  end.

Definition round (x : Q) (ndigits : nat) : Q :=
  let scale := 10 ^ Z.of_nat ndigits in
  (inject_Z (round_half_even (x * inject_Z scale)) / inject_Z scale)%Q.

(** [a < b] on rationals. *)
Definition Qltb (a b : Q) : bool := negb (Qle_bool b a).

(** [date(y, m, d).toordinal()]. *)
Definition is_leap (y : Z) : bool :=
  (y mod 4 =? 0) && (negb (y mod 100 =? 0) || (y mod 400 =? 0)).

Definition days_before_year (y : Z) : Z :=
  let y1 := y - 1 in y1 * 365 + y1 / 4 - y1 / 100 + y1 / 400.

Definition days_before_month (y m : Z) : Z :=
  nth (Z.to_nat (m - 1)) [0; 31; 59; 90; 120; 151; 181; 212; 243; 273; 304; 334] 0
  + (if (2 <? m) && is_leap y then 1 else 0).

Definition ordinal (y m d : Z) : Z :=
  days_before_year y + days_before_month y m + d.

(** [hashlib.md5(s.encode()).hexdigest()] (RFC 1321), on 32-bit words held
    in [Z]. *)
Definition word (x : Z) : Z := x mod 4294967296.

Definition rotl (x : Z) (n : Z) : Z :=
  word (Z.lor (Z.shiftl x n) (Z.shiftr x (32 - n))).

Definition md5_sines : list Z :=
  [3614090360; 3905402710; 606105819; 3250441966; 4118548399; 1200080426;
   2821735955; 4249261313; 1770035416; 2336552879; 4294925233; 2304563134;
   1804603682; 4254626195; 2792965006; 1236535329; 4129170786; 3225465664;
   643717713; 3921069994; 3593408605; 38016083; 3634488961; 3889429448;
   568446438; 3275163606; 4107603335; 1163531501; 2850285829; 4243563512;
   1735328473; 2368359562; 4294588738; 2272392833; 1839030562; 4259657740;
   2763975236; 1272893353; 4139469664; 3200236656; 681279174; 3936430074;
   3572445317; 76029189; 3654602809; 3873151461; 530742520; 3299628645;
   4096336452; 1126891415; 2878612391; 4237533241; 1700485571; 2399980690;
   4293915773; 2240044497; 1873313359; 4264355552; 2734768916; 1309151649;
   4149444226; 3174756917; 718787259; 3951481745].

Definition md5_shifts : list Z :=
  [7; 12; 17; 22; 7; 12; 17; 22; 7; 12; 17; 22; 7; 12; 17; 22;
   5; 9; 14; 20; 5; 9; 14; 20; 5; 9; 14; 20; 5; 9; 14; 20;
   4; 11; 16; 23; 4; 11; 16; 23; 4; 11; 16; 23; 4; 11; 16; 23;
   6; 10; 15; 21; 6; 10; 15; 21; 6; 10; 15; 21; 6; 10; 15; 21].

Definition lnot32 (x : Z) : Z := Z.lxor x 4294967295.

(** One of the 64 steps on the state [(a, b, c, d)] for the block [m]. *)
Definition md5_step (m : list Z) (st : Z * Z * Z * Z) (i : Z) : Z * Z * Z * Z :=
  let '(a, b, c, d) := st in
  let '(f, g) :=
    if i <? 16 then (Z.lor (Z.land b c) (Z.land (lnot32 b) d), i)
    else if i <? 32 then (Z.lor (Z.land d b) (Z.land (lnot32 d) c), (5 * i + 1) mod 16)
    else if i <? 48 then (Z.lxor (Z.lxor b c) d, (3 * i + 5) mod 16)
    else (Z.lxor c (Z.lor b (lnot32 d)), (7 * i) mod 16) in
  let f' := word (f + a + nth (Z.to_nat i) md5_sines 0 + nth (Z.to_nat g) m 0) in
  (d, word (b + rotl f' (nth (Z.to_nat i) md5_shifts 0)), b, c).

Fixpoint le_words (bytes : list Z) : list Z :=
  match bytes with
  | b0 :: b1 :: b2 :: b3 :: rest =>
      (b0 + 256 * b1 + 65536 * b2 + 16777216 * b3) :: le_words rest
  | _ => []
  end.

Definition md5_block (h : Z * Z * Z * Z) (block : list Z) : Z * Z * Z * Z :=
  let m := le_words block in
  let '(a0, b0, c0, d0) := h in
  let '(a, b, c, d) :=
    fold_left (md5_step m) (map Z.of_nat (seq 0 64)) h in
  (word (a0 + a), word (b0 + b), word (c0 + c), word (d0 + d)).

Fixpoint le_bytes (n : nat) (x : Z) : list Z :=
  match n with
  | O => []
  | S k => (x mod 256) :: le_bytes k (x / 256)
  end.

Definition md5_pad (bytes : list Z) : list Z :=
  let len := Z.of_nat (List.length bytes) in
  let zeros := Z.to_nat ((55 - len) mod 64) in
  (bytes ++ [128] ++ repeat 0 zeros ++ le_bytes 8 (8 * len))%list.

Fixpoint md5_blocks (n : nat) (h : Z * Z * Z * Z) (bytes : list Z) : Z * Z * Z * Z :=
  match n with
  | O => h
  | S k => md5_blocks k (md5_block h (firstn 64 bytes)) (skipn 64 bytes)
  end.

Definition hex_digit (d : Z) : ascii :=
  ascii_of_nat (Z.to_nat (if d <? 10 then 48 + d else 87 + d)).

Fixpoint hex_of_bytes (bytes : list Z) : string :=
  match bytes with
  | [] => EmptyString
  | b :: rest =>
      String (hex_digit (b / 16)) (String (hex_digit (b mod 16)) (hex_of_bytes rest))
  end.

Definition md5_hexdigest (s : string) : string :=
  let bytes := map (fun c => Z.of_nat (nat_of_ascii c)) (list_ascii_of_string s) in
  let padded := md5_pad bytes in
  let '(a, b, c, d) :=
    md5_blocks (Nat.div (List.length padded) 64)
      (1732584193, 4023233417, 2562383102, 271733878) padded in
  hex_of_bytes (le_bytes 4 a ++ le_bytes 4 b ++ le_bytes 4 c ++ le_bytes 4 d)%list.

Example md5_empty : md5_hexdigest "" = "d41d8cd98f00b204e9800998ecf8427e".
Proof. vm_compute. reflexivity. Qed.

Example md5_abc : md5_hexdigest "abc" = "900150983cd24fb0d6963f7d28e17f72".
Proof. vm_compute. reflexivity. Qed.

Example md5_two_blocks :
  md5_hexdigest "aaaaaaaaaaaaaaaaaaaaaaaaaaaaaaaaaaaaaaaaaaaaaaaaaaaaaaaaaaaaaaaa"
  = "014842d480b571495a4a0363793f7367".
Proof. vm_compute. reflexivity. Qed.

Arguments md5_hexdigest : simpl never.

Open Scope Q_scope.

(** ** Facts about the rational model of numbers *)

Lemma Qltb_lt a b : Qltb a b = true <-> a < b.
Proof.
  unfold Qltb. rewrite negb_true_iff.
  split.
  - intros H. apply Qnot_le_lt. intros Hle. apply Qle_bool_iff in Hle. congruence.
  - intros H. destruct (Qle_bool b a) eqn:E; [|reflexivity].
    apply Qle_bool_iff in E. exfalso. now apply (Qlt_not_le a b).
Qed.

Lemma round_half_even_le x n : (x <= inject_Z n)%Q -> (round_half_even x <= n)%Z.
Proof.
  intros Hx. unfold round_half_even.
  pose proof (Qfloor_le x) as Hf.
  assert (Hfn : (Qfloor x <= n)%Z).
  { rewrite Zle_Qle. now apply Qle_trans with x. }
  destruct (Z.eq_dec (Qfloor x) n) as [E|E].
  - assert (Hr : (x - inject_Z (Qfloor x) ?= 1 # 2)%Q = Lt).
    { apply Qlt_alt. rewrite E.
      apply Qle_lt_trans with 0%Q; [|reflexivity].
      apply (Qplus_le_l _ _ (inject_Z n)). ring_simplify. exact Hx. }
    rewrite Hr. lia.
  - destruct (x - inject_Z (Qfloor x) ?= 1 # 2)%Q; [destruct (Z.even _)| |]; lia.
Qed.

Lemma round_half_even_ge x n : (inject_Z n <= x)%Q -> (n <= round_half_even x)%Z.
Proof.
  intros Hx. unfold round_half_even.
  assert (Hfn : (n <= Qfloor x)%Z).
  { rewrite <- (Qfloor_Z n). now apply Qfloor_resp_le. }
  destruct (x - inject_Z (Qfloor x) ?= 1 # 2)%Q; [destruct (Z.even _)| |]; lia.
Qed.

Lemma round_half_even_Z n : round_half_even (inject_Z n) = n.
Proof.
  apply Z.le_antisymm.
  - apply round_half_even_le. apply Qle_refl.
  - apply round_half_even_ge. apply Qle_refl.
Qed.

Lemma scale_pos ndigits : (0 < 10 ^ Z.of_nat ndigits)%Z.
Proof. apply Z.pow_pos_nonneg; lia. Qed.

(** Rounding keeps a number between two integers between them. *)
Lemma round_between x lo hi ndigits :
  (inject_Z lo <= x)%Q -> (x <= inject_Z hi)%Q ->
  (inject_Z lo <= round x ndigits)%Q /\ (round x ndigits <= inject_Z hi)%Q.
Proof.
  intros Hlo Hhi. unfold round.
  set (s := (10 ^ Z.of_nat ndigits)%Z).
  assert (Hs : (0 < s)%Z) by apply scale_pos.
  assert (Hq : (0 < inject_Z s)%Q)
    by (change 0%Q with (inject_Z 0); now rewrite <- Zlt_Qlt).
  split.
  - apply Qle_shift_div_l; [exact Hq|].
    rewrite <- inject_Z_mult, <- Zle_Qle.
    apply round_half_even_ge. rewrite inject_Z_mult.
    apply Qmult_le_compat_r; [exact Hlo | now apply Qlt_le_weak].
  - apply Qle_shift_div_r; [exact Hq|].
    rewrite <- inject_Z_mult, <- Zle_Qle.
    apply round_half_even_le. rewrite inject_Z_mult.
    apply Qmult_le_compat_r; [exact Hhi | now apply Qlt_le_weak].
Qed.

(** Rounding an integer gives the integer. *)
Lemma round_Z n ndigits : (round (inject_Z n) ndigits == inject_Z n)%Q.
Proof.
  unfold round.
  set (s := (10 ^ Z.of_nat ndigits)%Z).
  assert (Hs : (0 < s)%Z) by apply scale_pos.
  rewrite <- inject_Z_mult, round_half_even_Z, inject_Z_mult.
  field. intros H. apply (inject_Z_injective s 0) in H. lia.
Qed.

Close Scope Q_scope.

End Py.

(* ===================================================================== *)
(** * Binary64 numbers *)
(* ===================================================================== *)

Module Binary64.

Open Scope Z_scope.

(** Python floats are binary64 numbers: [spec_float] with the operations of
    the IEEE 754 specification at precision 53 and maximal exponent 1024. *)
Definition float64 : Type := spec_float.

Definition zero : float64 := S754_zero false.

Definition add (x y : float64) : float64 := SFadd prec emax x y.
Definition mul (x y : float64) : float64 := SFmul prec emax x y.
Definition div (x y : float64) : float64 := SFdiv prec emax x y.

(** [x < y]. *)
Definition ltb (x y : float64) : bool := SFltb x y.

(** [float(n)] for an integer [n] within the range of binary64. *)
Definition of_int (n : Z) : float64 := binary_normalize prec emax n 0 false.

(** An integer as it stands, before any rounding. *)
Definition Z2SF (n : Z) : spec_float :=
  match n with
  | Z0 => S754_zero false
  | Zpos p => S754_finite false p 0
  | Zneg p => S754_finite true p 0
  end.

(** [a / b] for two integers, [b] not zero and the quotient within the
    range of binary64: the binary64 number nearest to the quotient. *)
Definition int_div (a b : Z) : float64 := SFdiv prec emax (Z2SF a) (Z2SF b).

(** The number a finite float stands for. *)
Definition magnitude (m : positive) (e : Z) : Q :=
  if 0 <=? e then inject_Z (Zpos m * 2 ^ e)
  else (inject_Z (Zpos m) / inject_Z (2 ^ (- e)))%Q.

Definition exact (x : float64) : option Q :=
  match x with
  | S754_zero _ => Some 0%Q
  | S754_finite s m e =>
      Some (if s then - magnitude m e else magnitude m e)%Q
  | _ => None
  end.

(** [round(x, ndigits)] for a float [x] and [ndigits >= 0]: the number of
    [ndigits] decimals nearest to the number [x] stands for, ties to the
    even last digit, and then the binary64 number nearest to that
    decimal.  Infinities, NaN and zeros are returned as they are. *)
Definition round (x : float64) (ndigits : nat) : float64 :=
  match x with
  | S754_finite s m e =>
      let scale := 10 ^ Z.of_nat ndigits in
      let n := Py.round_half_even (magnitude m e * inject_Z scale)%Q in
      match n with
      | Zpos p => SFdiv prec emax (S754_finite s p 0) (Z2SF scale)
      | _ => S754_zero s
      end
  | _ => x
  end.


(** ** Bounds on rounded results *)

(** The float is not negative and the number it stands for is at most the
    integer [Y]. *)
Definition below (Y : Z) (f : float64) : Prop :=
  match f with
  | S754_zero false => True
  | S754_finite false m e => e <= 0 /\ Zpos m <= Y * 2 ^ (- e)
  | _ => False
  end.

Lemma digits2_pos_size p : digits2_pos p = Pos.size p.
Proof. induction p; simpl; congruence. Qed.

Lemma Zdigits2_bound m : 0 < m -> 2 ^ (Zdigits2 m - 1) <= m.
Proof.
  destruct m as [|p|p]; try lia. intros _. cbn [Zdigits2].
  rewrite digits2_pos_size.
  pose proof (Pos.size_le p) as H.
  assert (E : Zpos (2 ^ Pos.size p) = 2 ^ Zpos (Pos.size p))
    by (now rewrite Pos2Z.inj_pow).
  assert (H2 : 2 ^ Zpos (Pos.size p) = 2 * 2 ^ (Zpos (Pos.size p) - 1)).
  { rewrite <- Z.pow_succ_r by lia. f_equal. lia. }
  lia.
Qed.

(** A number below [2^53] is rounded at an exponent that is not
    positive. *)
Lemma fexp_below Y m e :
  0 < Y < 2 ^ 53 -> 0 <= m -> e <= 0 -> m <= Y * 2 ^ (- e) ->
  fexp prec emax (Zdigits2 m + e) <= 0.
Proof.
  intros HY Hm He Hb. unfold fexp, SpecFloat.emin, prec, emax.
  destruct (Z.eq_dec m 0) as [->|Hne]; [cbn [Zdigits2]; lia|].
  pose proof (Zdigits2_bound m ltac:(lia)) as Hd.
  assert (Hp : 0 < 2 ^ (- e)) by (apply Z.pow_pos_nonneg; lia).
  assert (Hlt : 2 ^ (Zdigits2 m - 1) < 2 ^ (53 - e)).
  { replace (53 - e) with (53 + - e) by lia. rewrite Z.pow_add_r by lia. nia. }
  assert (Hdig : 0 <= Zdigits2 m) by (destruct m; cbn; lia).
  apply Z.pow_lt_mono_r_iff in Hlt; lia.
Qed.

(** The mantissa of a shift record, counted one higher when bits were
    shifted out. *)
Definition ceiling (mrs : shr_record) : Z :=
  shr_m mrs + (if shr_r mrs || shr_s mrs then 1 else 0).

Definition inexact (l : location) : Z :=
  match l with
  | loc_Exact => 0
  | loc_Inexact _ => 1
  end.

Lemma ceiling_of_loc m l : ceiling (shr_record_of_loc m l) = m + inexact l.
Proof. now destruct l as [|[]]. Qed.

Lemma shr_1_ceiling mrs B :
  0 <= shr_m mrs -> ceiling mrs <= 2 * B ->
  0 <= shr_m (shr_1 mrs) /\ ceiling (shr_1 mrs) <= B.
Proof.
  destruct mrs as [m r s]. unfold ceiling. cbn [shr_m shr_r shr_s].
  intros Hm Hc. destruct m as [|[p|p|]|p]; cbn [shr_1 shr_m shr_r shr_s];
    destruct r, s; cbn [orb] in *; lia.
Qed.

Lemma iter_pos_ceiling p : forall mrs B,
  0 <= shr_m mrs -> ceiling mrs <= B * 2 ^ Zpos p ->
  0 <= shr_m (SpecFloat.iter_pos shr_1 p mrs) /\ ceiling (SpecFloat.iter_pos shr_1 p mrs) <= B.
Proof.
  induction p as [p IH|p IH|]; intros mrs B Hm Hc; cbn [SpecFloat.iter_pos].
  - assert (E : B * 2 ^ Zpos p~1 = 2 * ((B * 2 ^ Zpos p) * 2 ^ Zpos p)).
    { replace (Zpos p~1) with (1 + (Zpos p + Zpos p)) by lia.
      rewrite !Z.pow_add_r, Z.pow_1_r by lia. ring. }
    rewrite E in Hc. destruct (shr_1_ceiling _ _ Hm Hc) as [H1 H2].
    destruct (IH _ _ H1 H2) as [H3 H4]. now apply IH.
  - assert (E : B * 2 ^ Zpos p~0 = (B * 2 ^ Zpos p) * 2 ^ Zpos p).
    { replace (Zpos p~0) with (Zpos p + Zpos p) by lia.
      rewrite Z.pow_add_r by lia. ring. }
    rewrite E in Hc. destruct (IH _ _ Hm Hc) as [H3 H4]. now apply IH.
  - apply shr_1_ceiling; [exact Hm|]. rewrite Z.pow_1_r in Hc. lia.
Qed.

Lemma shr_ceiling Y mrs e n :
  0 <= shr_m mrs -> e <= 0 -> e + n <= 0 -> ceiling mrs <= Y * 2 ^ (- e) ->
  0 <= shr_m (fst (shr mrs e n)) /\ snd (shr mrs e n) <= 0
  /\ ceiling (fst (shr mrs e n)) <= Y * 2 ^ (- snd (shr mrs e n)).
Proof.
  intros Hm He Hn Hc. destruct n as [|p|p]; cbn [shr fst snd]; auto.
  assert (E : Y * 2 ^ (- e) = (Y * 2 ^ (- (e + Zpos p))) * 2 ^ Zpos p).
  { rewrite <- Z.mul_assoc, <- Z.pow_add_r by lia. do 2 f_equal. lia. }
  rewrite E in Hc. destruct (iter_pos_ceiling p _ _ Hm Hc) as [H1 H2]. auto.
Qed.

Lemma round_nearest_even_ceiling mrs :
  0 <= shr_m mrs ->
  0 <= round_nearest_even (shr_m mrs) (loc_of_shr_record mrs) <= ceiling mrs.
Proof.
  destruct mrs as [m r s]. unfold ceiling. cbn [shr_m shr_r shr_s].
  intros Hm. destruct r, s; cbn [loc_of_shr_record round_nearest_even orb];
    try destruct (Z.even m); lia.
Qed.

(** Rounding a number that is at most [Y] gives a float that is at most
    [Y]. *)
Lemma binary_round_aux_below Y mx ex lx :
  0 < Y < 2 ^ 53 -> 0 <= mx -> ex <= 0 -> mx + inexact lx <= Y * 2 ^ (- ex) ->
  below Y (binary_round_aux prec emax false mx ex lx).
Proof.
  intros HY Hm He Hb. unfold binary_round_aux, shr_fexp.
  assert (Hl : 0 <= inexact lx) by (destruct lx; simpl; lia).
  pose proof (fexp_below Y mx ex HY Hm He ltac:(lia)) as Hf.
  destruct (shr_ceiling Y (shr_record_of_loc mx lx) ex
              (fexp prec emax (Zdigits2 mx + ex) - ex))
    as (H1 & H2 & H3);
    [now destruct lx as [|[]] | exact He | lia | now rewrite ceiling_of_loc |].
  destruct (shr (shr_record_of_loc mx lx) ex _) as [mrs' e'].
  cbn [fst snd] in H1, H2, H3.
  pose proof (round_nearest_even_ceiling mrs' H1) as [Hr0 Hr1].
  set (m2 := round_nearest_even (shr_m mrs') (loc_of_shr_record mrs')) in *.
  pose proof (fexp_below Y m2 e' HY Hr0 H2 ltac:(lia)) as Hf2.
  destruct (shr_ceiling Y (shr_record_of_loc m2 loc_Exact) e'
              (fexp prec emax (Zdigits2 m2 + e') - e'))
    as (G1 & G2 & G3);
    [exact Hr0 | exact H2 | lia | rewrite ceiling_of_loc; simpl; lia |].
  destruct (shr (shr_record_of_loc m2 loc_Exact) e' _) as [mrs'' e''].
  cbn [fst snd] in G1, G2, G3.
  assert (Hc : shr_m mrs'' <= ceiling mrs'')
    by (unfold ceiling; destruct (_ || _); lia).
  destruct (shr_m mrs'') as [|m|m] eqn:E; cbn [below]; [exact I| |lia].
  assert (Hle : (e'' <=? emax - prec) = true)
    by (apply Z.leb_le; unfold emax, prec; lia).
  rewrite Hle. cbn [below]. split; [exact G2 | lia].
Qed.

Lemma new_location_inexact nb k :
  inexact (new_location nb k) = if k =? 0 then 0 else 1.
Proof.
  unfold new_location, new_location_even, new_location_odd.
  destruct (Z.even nb), (k =? 0); reflexivity.
Qed.

(** The quotient of two integers, rounded. *)
Lemma int_div_below Y a b :
  0 < Y < 2 ^ 53 -> 0 <= a -> 0 < b -> a <= Y * b -> below Y (int_div a b).
Proof.
  intros HY Ha Hb Hab. unfold int_div.
  destruct b as [|pb|pb]; try lia. destruct a as [|pa|pa]; try lia; [exact I|].
  cbn [Z2SF SFdiv xorb]. unfold SFdiv_core_binary.
  set (e' := Z.min _ _).
  assert (He : e' <= 0) by (unfold e'; lia).
  replace (0 - 0 - e') with (- e') by lia.
  set (m' := match - e' with Z0 => Zpos pa | Zpos _ => Z.shiftl (Zpos pa) (- e')
                           | Zneg _ => 0 end).
  assert (Hm' : m' = Zpos pa * 2 ^ (- e')).
  { unfold m'. destruct (- e') as [|p|p] eqn:E; try lia.
    now rewrite Z.shiftl_mul_pow2 by lia. }
  pose proof (Z.div_eucl_eq m' (Zpos pb) ltac:(lia)) as Hdiv.
  pose proof (Z.mod_pos_bound m' (Zpos pb) ltac:(lia)) as Hmod.
  unfold Z.modulo in Hmod.
  destruct (Z.div_eucl m' (Zpos pb)) as [q r].
  assert (Hp : 0 < 2 ^ (- e')) by (apply Z.pow_pos_nonneg; lia).
  assert (Hq : 0 <= q) by nia.
  apply binary_round_aux_below; auto.
  rewrite new_location_inexact.
  destruct (Z.eqb_spec r 0) as [->|Hr]; nia.
Qed.

(** The product with a constant. *)
Lemma mul_below Y1 Y2 x c :
  0 < Y1 -> 0 < Y2 -> Y1 * Y2 < 2 ^ 53 ->
  below Y1 x -> below Y2 c -> c <> S754_zero false ->
  below (Y1 * Y2) (mul x c).
Proof.
  intros H1 H2 HY Hx Hc Hnz. unfold mul.
  destruct c as [[|]|[|]| |[|] mc ec]; cbn [below] in Hc; try tauto;
    try congruence.
  destruct x as [[|]|[|]| |[|] mx ex]; cbn [below] in Hx; try tauto.
  cbn [SFmul xorb]. destruct Hx as [Hex Hmx], Hc as [Hec Hmc].
  apply binary_round_aux_below; try lia.
  cbn [inexact]. rewrite Z.add_0_r.
  replace (- (ex + ec)) with (- ex + - ec) by lia.
  rewrite Z.pow_add_r by lia. rewrite Pos2Z.inj_mul.
  assert (0 < 2 ^ (- ex)) by (apply Z.pow_pos_nonneg; lia).
  assert (0 < 2 ^ (- ec)) by (apply Z.pow_pos_nonneg; lia).
  nia.
Qed.

Lemma magnitude_below Y m e :
  e <= 0 -> Zpos m <= Y * 2 ^ (- e) ->
  (0 < magnitude m e)%Q /\ (magnitude m e <= inject_Z Y)%Q.
Proof.
  intros He Hm. unfold magnitude.
  assert (Hp : 0 < 2 ^ (- e)) by (apply Z.pow_pos_nonneg; lia).
  destruct (Z.leb_spec 0 e) as [H0|H0].
  - assert (e = 0) by lia. subst e. rewrite Z.pow_0_r, Z.mul_1_r in *.
    split; [change 0%Q with (inject_Z 0); rewrite <- Zlt_Qlt; lia
           | rewrite <- Zle_Qle; lia].
  - assert (Hq : (0 < inject_Z (2 ^ (- e)))%Q)
      by (change 0%Q with (inject_Z 0); rewrite <- Zlt_Qlt; lia).
    split.
    + apply Qlt_shift_div_l; [exact Hq|]. rewrite Qmult_0_l.
      change 0%Q with (inject_Z 0). rewrite <- Zlt_Qlt. lia.
    + apply Qle_shift_div_r; [exact Hq|].
      rewrite <- inject_Z_mult, <- Zle_Qle. lia.
Qed.

(** Rounding to decimals. *)
Lemma round_below Y x ndigits :
  0 < Y -> Y < 2 ^ 53 -> below Y x -> below Y (round x ndigits).
Proof.
  intros HY0 HY Hx. destruct x as [[|]|[|]| |[|] m e]; cbn [below] in Hx; try tauto.
  destruct Hx as [He Hm]. cbn [round].
  set (scale := 10 ^ Z.of_nat ndigits).
  assert (Hs : 0 < scale) by apply Py.scale_pos.
  destruct (magnitude_below Y m e He Hm) as [Hlo Hhi].
  assert (Hn : Py.round_half_even (magnitude m e * inject_Z scale) <= Y * scale).
  { apply Py.round_half_even_le. rewrite inject_Z_mult.
    apply Qmult_le_compat_r; [exact Hhi|].
    change 0%Q with (inject_Z 0). rewrite <- Zle_Qle. lia. }
  destruct (Py.round_half_even _) as [|p|p] eqn:E; cbn [below]; try exact I.
  change (SFdiv prec emax (S754_finite false p 0) (Z2SF scale))
    with (int_div (Zpos p) scale).
  apply int_div_below; lia.
Qed.

(** A float below [Y] stands for a number between 0 and [Y]. *)
Lemma below_exact Y x :
  0 <= Y -> below Y x ->
  exists q, exact x = Some q /\ (0 <= q)%Q /\ (q <= inject_Z Y)%Q.
Proof.
  intros HY. destruct x as [[|]|[|]| |[|] m e]; cbn [below]; try tauto.
  - intros _. exists 0%Q. split; [reflexivity|]. split; [apply Qle_refl|].
    change 0%Q with (inject_Z 0). rewrite <- Zle_Qle. lia.
  - intros [He Hm]. destruct (magnitude_below Y m e He Hm) as [Hlo Hhi].
    exists (magnitude m e). split; [reflexivity|].
    split; [now apply Qlt_le_weak | exact Hhi].
Qed.

(** A positive integer divided by itself is 1.0. *)
Lemma int_div_same n : 0 < n -> int_div n n = of_int 1.
Proof.
  intros Hn. destruct n as [|p|p]; try lia. unfold int_div.
  cbn [Z2SF SFdiv xorb]. unfold SFdiv_core_binary.
  replace (Zdigits2 (Zpos p) + 0 - (Zdigits2 (Zpos p) + 0)) with 0 by lia.
  change (Z.min (fexp prec emax 0) (0 - 0)) with (-53).
  change (0 - 0 - -53) with 53.
  cbv iota.
  assert (E : Z.div_eucl (Z.shiftl (Zpos p) 53) (Zpos p) = (2 ^ 53, 0)).
  { pose proof (Z.div_eucl_eq (Z.shiftl (Zpos p) 53) (Zpos p) ltac:(lia)) as Hd.
    pose proof (Z.mod_pos_bound (Z.shiftl (Zpos p) 53) (Zpos p) ltac:(lia)) as Hm.
    unfold Z.modulo in Hm. rewrite Z.shiftl_mul_pow2 in * by lia.
    destruct (Z.div_eucl (Zpos p * 2 ^ 53) (Zpos p)) as [q r].
    assert (q = 2 ^ 53) by nia. subst q. f_equal. lia. }
  rewrite E.
  assert (Hl : new_location (Zpos p) 0 = loc_Exact)
    by (unfold new_location; destruct (Z.even _); reflexivity).
  rewrite Hl. reflexivity.
Qed.

End Binary64.

(* ===================================================================== *)
(** * modules/enrollment.py *)
(* ===================================================================== *)

Module Enrollment.

Open Scope Z_scope.

(** [EnrollmentSpan]; [end_date = None] is an ongoing enrollment. *)
Record EnrollmentSpan : Type := mkSpan {
  id : string;
  student_id : string;
  school_id : string;
  school_name : string;
  grade_level : Z;
  start_date : Z;
  end_date : option Z;
  status : string;
  entry_reason : option string;
  exit_reason : option string;
  source_system : option string
}.

(** The assignment [span.end_date = e]. *)
Definition set_end_date (s : EnrollmentSpan) (e : option Z) : EnrollmentSpan :=
  {| id := id s; student_id := student_id s; school_id := school_id s;
     school_name := school_name s; grade_level := grade_level s;
     start_date := start_date s; end_date := e; status := status s;
     entry_reason := entry_reason s; exit_reason := exit_reason s;
     source_system := source_system s |}.

(** [EnrollmentSpan.is_active(as_of)]. *)
Definition is_active (s : EnrollmentSpan) (as_of : Z) : bool :=
  match end_date s with
  | Some e => (start_date s <=? as_of) && (as_of <=? e)
  | None => start_date s <=? as_of
  end.

(** [EnrollmentSpan.overlaps_with(other)]; [today] is [date.today()]. *)
Definition overlaps_with (today : Z) (self other : EnrollmentSpan) : bool * Z :=
  match end_date self, end_date other with
  | None, None => (String.eqb (school_id self) (school_id other), 0)
  | _, _ =>
      let self_end := default today (end_date self) in
      let other_end := default today (end_date other) in
      if (start_date self <=? other_end) && (start_date other <=? self_end)
      then
        let overlap_start := Z.max (start_date self) (start_date other) in
        let overlap_end := Z.min self_end other_end in
        (true, overlap_end - overlap_start + 1)
      else (false, 0)
  end.

(** [EnrollmentSpan.gap_with(other)]. *)
Definition gap_with (self other : EnrollmentSpan) : bool * Z :=
  match end_date self, end_date other with
  | Some se, Some oe =>
      if se <? start_date other then
        let gap_days := start_date other - se - 1 in (0 <? gap_days, gap_days)
      else if oe <? start_date self then
        let gap_days := start_date self - oe - 1 in (0 <? gap_days, gap_days)
      else (false, 0)
  | _, _ => (false, 0)
  end.

(** [sorted(enrollments, key=lambda e: e.start_date)]: the stable sort. *)
Fixpoint insert_by_start (x : EnrollmentSpan) (l : list EnrollmentSpan)
  : list EnrollmentSpan :=
  match l with
  | [] => [x]
  | y :: l' =>
      if start_date x <=? start_date y then x :: y :: l'
      else y :: insert_by_start x l'
  end.

Fixpoint sorted_by_start (l : list EnrollmentSpan) : list EnrollmentSpan :=
  match l with
  | [] => []
  | x :: l' => insert_by_start x (sorted_by_start l')
  end.

(** One turn of the loop of [normalize_enrollments]: [resolved] is the list
    built so far, [enrollment] the next span in start order.  The span
    [resolved[-1]] is updated in place when the two are merged. *)
Definition resolve_step (today : Z) (resolved : list EnrollmentSpan)
  (enrollment : EnrollmentSpan) : list EnrollmentSpan :=
  match last resolved with
  | None => [enrollment]
  | Some lst =>
      let '(overlaps, _) := overlaps_with today lst enrollment in
      if overlaps && String.eqb (school_id lst) (school_id enrollment) then
        match end_date enrollment with
        | Some e =>
            if match end_date lst with
               | None => true
               | Some le => le <? e
               end
            then removelast resolved ++ [set_end_date lst (Some e)]
            else resolved
        | None => resolved
        end
      else resolved ++ [enrollment]
  end.

Definition resolve_overlaps (today : Z) (sorted_enrollments : list EnrollmentSpan)
  : list EnrollmentSpan :=
  fold_left (resolve_step today) sorted_enrollments [].

(** [EnrollmentProcessor]: the table [student_id -> spans] and the issue
    log (left untouched by normalisation). *)
Record EnrollmentProcessor : Type := mkProcessor {
  enrollments : gmap string (list EnrollmentSpan);
  issues : list (string * string * string * string * Z)
}.

(** [EnrollmentProcessor.normalize_enrollments(student_id)]: the new
    processor state and the returned list. *)
Definition normalize_enrollments (today : Z) (self : EnrollmentProcessor)
  (sid : string) : EnrollmentProcessor * list EnrollmentSpan :=
  match default [] (enrollments self !! sid) with
  | [] => (self, [])
  | spans =>
      let resolved := resolve_overlaps today (sorted_by_start spans) in
      ({| enrollments := <[sid := resolved]> (enrollments self);
          issues := issues self |}, resolved)
  end.

(** [EnrollmentProcessor.get_active_enrollment(student_id, as_of)]. *)
Definition get_active_enrollment (self : EnrollmentProcessor) (sid : string)
  (as_of : Z) : option EnrollmentSpan :=
  find (fun e => is_active e as_of) (default [] (enrollments self !! sid)).

(** A day is covered by a list of spans when some span is active on it. *)
Definition covered (spans : list EnrollmentSpan) (day : Z) : bool :=
  existsb (fun s => is_active s day) spans.

(** The number of covered days in the window [lo, lo + n). *)
Fixpoint covered_days (spans : list EnrollmentSpan) (lo : Z) (n : nat) : nat :=
  match n with
  | O => O
  | S k => ((if covered spans lo then 1 else 0) + covered_days spans (lo + 1) k)%nat
  end.

Definition closed (s : EnrollmentSpan) : Prop := is_Some (end_date s).

Definition well_formed (s : EnrollmentSpan) : Prop :=
  match end_date s with
  | Some e => start_date s <= e
  | None => True
  end.

(** ** Properties of the sort *)

Lemma insert_by_start_In x y l :
  In y (insert_by_start x l) <-> y = x \/ In y l.
Proof.
  induction l as [|z l IH]; simpl.
  - intuition.
  - destruct (start_date x <=? start_date z); simpl; rewrite ?IH; intuition.
Qed.

Lemma sorted_by_start_In x l : In x (sorted_by_start l) <-> In x l.
Proof.
  induction l as [|y l IH]; simpl; [tauto|].
  rewrite insert_by_start_In, IH. intuition.
Qed.

(** [ascending l]: every span starts no later than the spans after it. *)
Fixpoint ascending (l : list EnrollmentSpan) : Prop :=
  match l with
  | [] => True
  | x :: l' => Forall (fun y => start_date x <= start_date y) l' /\ ascending l'
  end.

Lemma insert_by_start_ascending x l :
  ascending l -> ascending (insert_by_start x l).
Proof.
  induction l as [|y l IH]; simpl; intros Hl.
  - split; [constructor | exact I].
  - destruct Hl as [Hy Hl].
    destruct (Z.leb_spec (start_date x) (start_date y)) as [Hxy|Hxy]; simpl.
    + repeat split; auto.
      constructor; [lia|].
      eapply Forall_impl; [exact Hy|]. simpl. intros; lia.
    + split; [|auto].
      apply List.Forall_forall. intros z Hz.
      apply insert_by_start_In in Hz. destruct Hz as [->|Hz]; [lia|].
      rewrite List.Forall_forall in Hy. auto.
Qed.

Lemma sorted_by_start_ascending l : ascending (sorted_by_start l).
Proof.
  induction l as [|x l IH]; simpl; [exact I|].
  now apply insert_by_start_ascending.
Qed.

Lemma covered_In spans day :
  covered spans day = true <-> exists s, In s spans /\ is_active s day = true.
Proof. unfold covered. apply existsb_exists. Qed.

Lemma covered_app l1 l2 day :
  covered (l1 ++ l2) day = covered l1 day || covered l2 day.
Proof. unfold covered. apply existsb_app. Qed.

Lemma covered_sorted spans day :
  covered (sorted_by_start spans) day = covered spans day.
Proof.
  apply eq_true_iff_eq. rewrite !covered_In.
  split; intros (s & Hs & Ha); exists s; split; auto;
    now apply sorted_by_start_In.
Qed.

(** ** The merge step on spans that carry an end date *)

Ltac reflect_Z :=
  repeat match goal with
  | |- context [?a <=? ?b] => destruct (Z.leb_spec a b)
  | |- context [?a <? ?b] => destruct (Z.ltb_spec a b)
  | H : context [?a <=? ?b] |- _ => destruct (Z.leb_spec a b)
  | H : context [?a <? ?b] |- _ => destruct (Z.ltb_spec a b)
  end; simpl in *; try discriminate; try lia; auto.

Lemma resolve_step_snoc today init lst e :
  resolve_step today (init ++ [lst]) e =
  let '(overlaps, _) := overlaps_with today lst e in
  if overlaps && String.eqb (school_id lst) (school_id e) then
    match end_date e with
    | Some d =>
        if match end_date lst with None => true | Some le => le <? d end
        then init ++ [set_end_date lst (Some d)]
        else init ++ [lst]
    | None => init ++ [lst]
    end
  else (init ++ [lst]) ++ [e].
Proof.
  unfold resolve_step. rewrite last_snoc, removelast_last. reflexivity.
Qed.

Lemma is_active_closed s e day :
  end_date s = Some e ->
  is_active s day = (start_date s <=? day) && (day <=? e).
Proof. unfold is_active. now intros ->. Qed.

Lemma covered_snoc l s day :
  covered (l ++ [s]) day = covered l day || is_active s day.
Proof. rewrite covered_app. simpl. now rewrite orb_false_r. Qed.

Lemma resolve_step_covered today resolved e day :
  Forall closed resolved -> closed e ->
  Forall (fun s => start_date s <= start_date e) resolved ->
  covered (resolve_step today resolved e) day
  = covered resolved day || is_active e day.
Proof.
  intros Hcl [ee Hee] Hst.
  destruct resolved as [|lst init _] using rev_ind; [simpl; now rewrite orb_false_r|].
  apply Forall_app in Hcl as [_ Hl]. apply Forall_app in Hst as [_ Hs].
  inversion Hl as [|? ? [le Hle] _]; subst.
  inversion Hs as [|? ? Hse _]; subst.
  rewrite resolve_step_snoc. unfold overlaps_with. rewrite Hle, Hee. simpl.
  destruct ((start_date lst <=? ee) && (start_date e <=? le)) eqn:Hov; simpl.
  - destruct (String.eqb (school_id lst) (school_id e)); simpl.
    + apply andb_true_iff in Hov as [H1 H2]. apply Z.leb_le in H1, H2.
      destruct (Z.ltb_spec le ee) as [Hlt|Hge].
      * rewrite !covered_snoc, <- orb_assoc. f_equal.
        rewrite (is_active_closed lst le), (is_active_closed e ee),
          (is_active_closed (set_end_date lst (Some ee)) ee); auto.
        simpl. reflect_Z.
      * rewrite !covered_snoc, <- orb_assoc. f_equal.
        rewrite (is_active_closed lst le), (is_active_closed e ee); auto.
        reflect_Z.
    + now rewrite !covered_snoc.
  - now rewrite !covered_snoc.
Qed.

Lemma resolve_step_closed today resolved e :
  Forall closed resolved -> closed e ->
  Forall closed (resolve_step today resolved e).
Proof.
  intros Hcl He.
  destruct resolved as [|lst init _] using rev_ind; [repeat constructor; auto|].
  rewrite resolve_step_snoc.
  destruct (overlaps_with today lst e) as [ov n].
  apply Forall_app in Hcl as Hcl2. destruct Hcl2 as [Hi Hl].
  destruct (ov && String.eqb (school_id lst) (school_id e)).
  - destruct (end_date e) as [d|]; auto.
    destruct (match end_date lst with None => true | Some le => le <? d end); auto.
    apply Forall_app; split; auto. repeat constructor. now exists d.
  - apply Forall_app; split; auto.
Qed.

Lemma resolve_step_starts today resolved e (P : Z -> Prop) :
  Forall (fun s => P (start_date s)) resolved -> P (start_date e) ->
  Forall (fun s => P (start_date s)) (resolve_step today resolved e).
Proof.
  intros Hr He.
  destruct resolved as [|lst init _] using rev_ind; [repeat constructor; auto|].
  rewrite resolve_step_snoc.
  destruct (overlaps_with today lst e) as [ov n].
  apply Forall_app in Hr as Hr2. destruct Hr2 as [Hi Hl].
  inversion Hl; subst.
  destruct (ov && String.eqb (school_id lst) (school_id e)).
  - destruct (end_date e) as [d|]; auto.
    destruct (match end_date lst with None => true | Some le => le <? d end); auto.
    apply Forall_app; split; auto.
  - apply Forall_app; split; auto.
Qed.

Lemma resolve_fold_covered today todo : forall resolved day,
  ascending todo -> Forall closed todo -> Forall closed resolved ->
  Forall (fun s => Forall (fun y => start_date s <= start_date y) todo) resolved ->
  covered (fold_left (resolve_step today) todo resolved) day
  = covered resolved day || covered todo day.
Proof.
  induction todo as [|e todo IH]; intros resolved day Hasc Hct Hcr Hb; simpl.
  - now rewrite orb_false_r.
  - destruct Hasc as [He Hasc]. inversion Hct as [|? ? Hce Hct']; subst.
    rewrite IH; auto.
    + rewrite resolve_step_covered; auto.
      * now rewrite orb_assoc.
      * eapply Forall_impl; [exact Hb|]. simpl. intros s Hs. now inversion Hs.
    + now apply resolve_step_closed.
    + apply (resolve_step_starts today resolved e
               (fun z => Forall (fun y => z <= start_date y) todo)); auto.
      eapply Forall_impl; [exact Hb|]. simpl. intros s Hs. now inversion Hs.
Qed.

(** On spans that all carry an end date the merge keeps exactly the covered
    days. *)
Lemma resolve_overlaps_covered_closed today spans day :
  Forall closed spans ->
  covered (resolve_overlaps today (sorted_by_start spans)) day = covered spans day.
Proof.
  intros Hcl. unfold resolve_overlaps.
  rewrite resolve_fold_covered; simpl.
  - apply covered_sorted.
  - apply sorted_by_start_ascending.
  - apply List.Forall_forall. intros s Hs.
    apply (proj1 (sorted_by_start_In _ _)) in Hs.
    revert s Hs. now apply List.Forall_forall.
  - constructor.
  - constructor.
Qed.

Lemma covered_days_ext l1 l2 n : forall lo,
  (forall day, covered l1 day = covered l2 day) ->
  covered_days l1 lo n = covered_days l2 lo n.
Proof.
  induction n as [|n IH]; intros lo H; simpl; [reflexivity|].
  now rewrite H, (IH (lo + 1) H).
Qed.


(** ** Merging never creates a span that ends before it starts *)

Lemma In_snoc (x y : EnrollmentSpan) l : In x (l ++ [y]) <-> In x l \/ y = x.
Proof. rewrite in_app_iff. simpl. tauto. Qed.

Lemma resolve_step_In today resolved e s :
  In s (resolve_step today resolved e) ->
  In s resolved \/ s = e \/
  exists d, end_date s = Some d /\ start_date s <= d.
Proof.
  destruct resolved as [|lst init _] using rev_ind.
  - simpl. intuition.
  - rewrite resolve_step_snoc. unfold overlaps_with.
    destruct (end_date lst) as [le|] eqn:Hle, (end_date e) as [ee|] eqn:Hee;
      simpl;
      repeat match goal with
      | |- context [if ?b then _ else _] => destruct b eqn:?
      | |- context [?a && ?b] => destruct a eqn:?; simpl
      end;
      rewrite ?In_snoc; try (intuition congruence);
      intros [H'|<-]; auto; right; right; exists ee; simpl; split; auto;
      reflect_Z.
Qed.

Lemma resolve_fold_In today todo : forall resolved s,
  In s (fold_left (resolve_step today) todo resolved) ->
  In s resolved \/ In s todo \/
  exists d, end_date s = Some d /\ start_date s <= d.
Proof.
  induction todo as [|e todo IH]; intros resolved s Hs; simpl in *; auto.
  apply IH in Hs as [Hs|[Hs|Hs]]; auto.
  apply resolve_step_In in Hs as [Hs|[Hs|Hs]]; auto.
Qed.

(** ** [normalize_enrollments] on a processor *)

Lemma normalize_enrollments_result today self sid :
  snd (normalize_enrollments today self sid)
  = match default [] (enrollments self !! sid) with
    | [] => []
    | spans => resolve_overlaps today (sorted_by_start spans)
    end.
Proof.
  unfold normalize_enrollments.
  now destruct (default [] (enrollments self !! sid)).
Qed.

(** When every span of the student carries an end date, normalisation keeps
    exactly the days on which the student is enrolled. *)
Lemma normalize_enrollments_covered_closed today self sid day :
  Forall closed (default [] (enrollments self !! sid)) ->
  covered (snd (normalize_enrollments today self sid)) day
  = covered (default [] (enrollments self !! sid)) day.
Proof.
  intros Hcl. rewrite normalize_enrollments_result.
  destruct (default [] (enrollments self !! sid)) as [|x l] eqn:E; [reflexivity|].
  now apply resolve_overlaps_covered_closed.
Qed.

(** Whatever the spans, a span of the result either is a span of the input,
    unchanged, or has an end date that does not precede its start. *)
Lemma normalize_enrollments_no_inverted_span today self sid s :
  In s (snd (normalize_enrollments today self sid)) ->
  In s (default [] (enrollments self !! sid)) \/
  exists d, end_date s = Some d /\ start_date s <= d.
Proof.
  rewrite normalize_enrollments_result.
  destruct (default [] (enrollments self !! sid)) as [|x l] eqn:E; [simpl; tauto|].
  unfold resolve_overlaps. intros Hs.
  apply resolve_fold_In in Hs as [[]|[Hs|Hs]]; auto.
  left. now apply (proj1 (sorted_by_start_In _ _)).
Qed.

Lemma normalize_enrollments_well_formed today self sid :
  Forall well_formed (default [] (enrollments self !! sid)) ->
  Forall well_formed (snd (normalize_enrollments today self sid)).
Proof.
  intros Hwf. apply List.Forall_forall. intros s Hs.
  apply normalize_enrollments_no_inverted_span in Hs as [Hs|(d & Hd & Hle)].
  - revert s Hs. now apply List.Forall_forall.
  - unfold well_formed. now rewrite Hd.
Qed.

(** ** Concrete runs *)

Definition example_span (eid school : string) (s : Z) (e : option Z)
  : EnrollmentSpan :=
  {| id := eid; student_id := "STU1"; school_id := school;
     school_name := "School"; grade_level := 9; start_date := s;
     end_date := e; status := "Active"; entry_reason := None;
     exit_reason := None; source_system := Some "default" |}.

Definition example_processor (spans : list EnrollmentSpan) : EnrollmentProcessor :=
  {| enrollments := {[ "STU1"%string := spans ]}; issues := [] |}.

Definition example_today : Z := Py.ordinal 2026 11 3.

(** The scenario of the specification: two overlapping spans at one school
    become the single span from the first start to the later end. *)
Example normalize_enrollments_scenario :
  snd (normalize_enrollments example_today
         (example_processor
            [example_span "E1" "SCH1" (Py.ordinal 2023 1 1) (Some (Py.ordinal 2023 6 1));
             example_span "E2" "SCH1" (Py.ordinal 2023 5 1) (Some (Py.ordinal 2023 12 1))])
         "STU1")
  = [example_span "E1" "SCH1" (Py.ordinal 2023 1 1) (Some (Py.ordinal 2023 12 1))].
Proof. vm_compute. reflexivity. Qed.

(** C1.  Ongoing enrollments lose days.  An ongoing enrollment (no end
    date) that is merged with a dated span of the same school comes out
    with that span's end date, and an ongoing enrollment that starts
    inside a dated span of the same school is dropped: in both runs a day
    on which the student was enrolled before normalisation is no longer
    covered afterwards, and the number of covered days decreases. *)
Lemma normalize_enrollments_loses_ongoing_days :
  let d := Py.ordinal in
  let ongoing_first :=
    [example_span "E1" "SCH1" (d 2023 1 1) None;
     example_span "E2" "SCH1" (d 2023 2 1) (Some (d 2023 3 1))] in
  let ongoing_second :=
    [example_span "E1" "SCH1" (d 2023 1 1) (Some (d 2023 6 1));
     example_span "E2" "SCH1" (d 2023 5 1) None] in
  let run spans :=
    snd (normalize_enrollments example_today (example_processor spans) "STU1") in
  run ongoing_first = [example_span "E1" "SCH1" (d 2023 1 1) (Some (d 2023 3 1))]
  /\ covered ongoing_first (d 2024 1 1) = true
  /\ covered (run ongoing_first) (d 2024 1 1) = false
  /\ run ongoing_second = [example_span "E1" "SCH1" (d 2023 1 1) (Some (d 2023 6 1))]
  /\ covered ongoing_second (d 2024 1 1) = true
  /\ covered (run ongoing_second) (d 2024 1 1) = false
  /\ Nat.lt (covered_days (run ongoing_first) (d 2023 1 1) 1400)
            (covered_days ongoing_first (d 2023 1 1) 1400).
Proof. vm_compute. repeat split; reflexivity || lia. Qed.

(** When every span of the student carries an end date, normalisation keeps
    exactly the covered days, so their number in any window never
    decreases; and whatever the spans, it creates no span whose end date
    precedes its start date: a span of the result either is a span of the
    input, unchanged, or ends on or after its start, so well-formed spans
    stay well-formed. *)
Theorem normalize_enrollments_covered_days (today : Z)
  (self : EnrollmentProcessor) (sid : string) :
  let spans := default [] (enrollments self !! sid) in
  let resolved := snd (normalize_enrollments today self sid) in
  (Forall closed spans ->
   (forall day, covered resolved day = covered spans day)
   /\ (forall lo n, covered_days resolved lo n = covered_days spans lo n))
  /\ (forall s, In s resolved ->
        In s spans \/ exists d, end_date s = Some d /\ start_date s <= d)
  /\ (Forall well_formed spans -> Forall well_formed resolved).
Proof.
  cbv zeta. split; [|split].
  - intros Hcl.
    assert (H : forall day,
               covered (snd (normalize_enrollments today self sid)) day
               = covered (default [] (enrollments self !! sid)) day)
      by (intros day; now apply normalize_enrollments_covered_closed).
    split; [exact H|]. intros lo n. now apply covered_days_ext.
  - apply normalize_enrollments_no_inverted_span.
  - apply normalize_enrollments_well_formed.
Qed.

Definition scenario_spans : list EnrollmentSpan :=
  [example_span "E1" "SCH1" (Py.ordinal 2023 1 1) (Some (Py.ordinal 2023 6 1));
   example_span "E2" "SCH1" (Py.ordinal 2023 5 1) (Some (Py.ordinal 2023 12 1))].

(** The scenario of the specification covers the same days before and after
    normalisation. *)
Lemma normalize_enrollments_scenario_days :
  covered_days
    (snd (normalize_enrollments example_today (example_processor scenario_spans)
            "STU1"))
    (Py.ordinal 2023 1 1) 400
  = covered_days scenario_spans (Py.ordinal 2023 1 1) 400.
Proof.
  refine (proj2 (proj1 (normalize_enrollments_covered_days example_today
                          (example_processor scenario_spans) "STU1") _) _ _).
  repeat constructor; eexists; reflexivity.
Defined.

(** ** Overlaps and gaps between two spans *)

(** [a] and [b] are merged by [normalize_enrollments] when they stand next
    to each other: they overlap and belong to the same school. *)
Definition merges (today : Z) (a b : EnrollmentSpan) : bool :=
  fst (overlaps_with today a b) && String.eqb (school_id a) (school_id b).

(** No span of the list is merged with the one after it. *)
Fixpoint separated (today : Z) (l : list EnrollmentSpan) : Prop :=
  match l with
  | a :: l' =>
      match l' with
      | b :: _ => merges today a b = false /\ separated today l'
      | [] => True
      end
  | [] => True
  end.

(** The entries of the issue log: type, student, the ids of the two spans
    and the number of days. *)
Definition issue (kind sid : string) (found : EnrollmentSpan * EnrollmentSpan * Z)
  : string * string * string * string * Z :=
  let '(e1, e2, days) := found in (kind, sid, id e1, id e2, days).

(** The inner loop of [find_overlaps]: [e1] against the spans after it. *)
Fixpoint overlaps_after (today : Z) (e1 : EnrollmentSpan)
  (rest : list EnrollmentSpan) : list (EnrollmentSpan * EnrollmentSpan * Z) :=
  match rest with
  | [] => []
  | e2 :: rest' =>
      let '(overlaps_flag, days) := overlaps_with today e1 e2 in
      if overlaps_flag && (0 <? days)
      then (e1, e2, days) :: overlaps_after today e1 rest'
      else overlaps_after today e1 rest'
  end.

Fixpoint all_overlaps (today : Z) (l : list EnrollmentSpan)
  : list (EnrollmentSpan * EnrollmentSpan * Z) :=
  match l with
  | [] => []
  | e1 :: rest => overlaps_after today e1 rest ++ all_overlaps today rest
  end.

(** [EnrollmentProcessor.find_overlaps(student_id)]. *)
Definition find_overlaps (today : Z) (self : EnrollmentProcessor) (sid : string)
  : EnrollmentProcessor * list (EnrollmentSpan * EnrollmentSpan * Z) :=
  let overlaps := all_overlaps today (default [] (enrollments self !! sid)) in
  ({| enrollments := enrollments self;
      issues := issues self ++ map (issue "overlap" sid) overlaps |},
   overlaps).

(** The loop of [find_gaps] over the pairs of neighbours. *)
Fixpoint neighbour_gaps (l : list EnrollmentSpan)
  : list (EnrollmentSpan * EnrollmentSpan * Z) :=
  match l with
  | e1 :: l' =>
      match l' with
      | e2 :: _ =>
          let '(has_gap, gap_days) := gap_with e1 e2 in
          if has_gap && (5 <? gap_days)
          then (e1, e2, gap_days) :: neighbour_gaps l'
          else neighbour_gaps l'
      | [] => []
      end
  | [] => []
  end.

(** [EnrollmentProcessor.find_gaps(student_id)]. *)
Definition find_gaps (self : EnrollmentProcessor) (sid : string)
  : EnrollmentProcessor * list (EnrollmentSpan * EnrollmentSpan * Z) :=
  let gaps :=
    neighbour_gaps (sorted_by_start (default [] (enrollments self !! sid))) in
  ({| enrollments := enrollments self;
      issues := issues self ++ map (issue "gap" sid) gaps |},
   gaps).

(** ** Two spans *)

Lemma overlaps_with_sym today a b :
  overlaps_with today a b = overlaps_with today b a.
Proof.
  unfold overlaps_with.
  destruct (end_date a) as [ea|], (end_date b) as [eb|]; simpl;
    try (now rewrite String.eqb_sym);
    repeat match goal with
           | |- context [?x <=? ?y] => destruct (Z.leb_spec x y)
           end; simpl; try reflexivity; try lia; f_equal; lia.
Qed.

Lemma gap_with_sym a b :
  well_formed a -> well_formed b -> gap_with a b = gap_with b a.
Proof.
  unfold gap_with, well_formed.
  destruct (end_date a) as [ea|], (end_date b) as [eb|]; simpl; try reflexivity.
  intros Ha Hb.
  repeat match goal with
         | |- context [?x <? ?y] => destruct (Z.ltb_spec x y)
         end; simpl; try reflexivity; try lia; f_equal; lia.
Qed.

(** The days two dated, well-formed spans have in common. *)
Lemma overlaps_with_common today a b ea eb :
  end_date a = Some ea -> end_date b = Some eb ->
  start_date a <= ea -> start_date b <= eb ->
  let lo := Z.max (start_date a) (start_date b) in
  let hi := Z.min ea eb in
  (forall day, is_active a day && is_active b day = (lo <=? day) && (day <=? hi))
  /\ overlaps_with today a b = if lo <=? hi then (true, hi - lo + 1) else (false, 0).
Proof.
  intros Ha Hb Hwa Hwb lo hi. split.
  - intros day. rewrite (is_active_closed a ea), (is_active_closed b eb) by assumption.
    subst lo hi.
    repeat match goal with
           | |- context [?x <=? ?y] => destruct (Z.leb_spec x y)
           end; simpl; try reflexivity; lia.
  - unfold overlaps_with. rewrite Ha, Hb. simpl. subst lo hi.
    repeat match goal with
           | |- context [?x <=? ?y] => destruct (Z.leb_spec x y)
           end; simpl; try reflexivity; lia.
Qed.

Lemma overlaps_after_In today e1 rest x y days :
  In (x, y, days) (overlaps_after today e1 rest) <->
  x = e1 /\ In y rest /\ overlaps_with today e1 y = (true, days) /\ 0 < days.
Proof.
  induction rest as [|e2 rest IH]; simpl; [tauto|].
  destruct (overlaps_with today e1 e2) as [flag d] eqn:E.
  destruct flag; simpl.
  - destruct (Z.ltb_spec 0 d) as [Hd|Hd]; simpl; rewrite IH; split.
    + intros [H|H]; [injection H as <- <- <-; rewrite E; auto | intuition].
    + intros (-> & [->|Hy] & Ho & Hpos); [left; rewrite E in Ho; congruence | right; auto].
    + intuition.
    + intros (-> & [->|Hy] & Ho & Hpos); [rewrite E in Ho; injection Ho as <-; lia | auto].
  - rewrite IH. split; [intuition|].
    intros (-> & [->|Hy] & Ho & Hpos); [rewrite E in Ho; discriminate | auto].
Qed.

Lemma all_overlaps_In today l x y days :
  In (x, y, days) (all_overlaps today l) <->
  (exists l1 l2, l = l1 ++ x :: l2 /\ In y l2)
  /\ overlaps_with today x y = (true, days) /\ 0 < days.
Proof.
  induction l as [|e l IH]; simpl.
  - split; [tauto|]. intros [(l1 & l2 & H & _) _]. now destruct l1.
  - rewrite in_app_iff, overlaps_after_In, IH. split.
    + intros [(-> & Hy & Ho & Hd)|[(l1 & l2 & -> & Hy) [Ho Hd]]].
      * split; auto. exists [], l. auto.
      * split; auto. exists (e :: l1), l2. auto.
    + intros [(l1 & l2 & Hl & Hy) [Ho Hd]].
      destruct l1 as [|z l1]; simpl in Hl; injection Hl as -> ->.
      * left. auto.
      * right. split; eauto.
Qed.

Lemma overlaps_after_length today e1 rest :
  (length (overlaps_after today e1 rest) <= length rest)%nat.
Proof.
  induction rest as [|e2 rest IH]; simpl; [lia|].
  destruct (overlaps_with today e1 e2) as [flag d].
  destruct (flag && (0 <? d)); simpl; lia.
Qed.

Lemma all_overlaps_length today l :
  (2 * length (all_overlaps today l) <= length l * (length l - 1))%nat.
Proof.
  induction l as [|e l IH]; simpl; [lia|].
  rewrite length_app. pose proof (overlaps_after_length today e l).
  rewrite Nat.sub_0_r. nia.
Qed.

Lemma overlaps_with_ongoing today a b days :
  overlaps_with today a b = (true, days) -> 0 < days ->
  is_Some (end_date a) \/ is_Some (end_date b).
Proof.
  unfold overlaps_with.
  destruct (end_date a) as [ea|], (end_date b) as [eb|]; eauto.
  intros H Hd. injection H as _ <-. lia.
Qed.

Lemma neighbour_gaps_In l x y n :
  In (x, y, n) (neighbour_gaps l) ->
  (exists l1 l2, l = l1 ++ x :: y :: l2) /\ gap_with x y = (true, n) /\ 5 < n.
Proof.
  induction l as [|e1 l IH]; [simpl; tauto|].
  destruct l as [|e2 l]; [simpl; tauto|].
  cbn [neighbour_gaps].
  destruct (gap_with e1 e2) as [flag d] eqn:E.
  assert (Hrest : In (x, y, n) (neighbour_gaps (e2 :: l)) ->
                  (exists l1 l2, e1 :: e2 :: l = l1 ++ x :: y :: l2)
                  /\ gap_with x y = (true, n) /\ 5 < n).
  { intros H. destruct (IH H) as [(l1 & l2 & Hl) Hg]. split; auto.
    exists (e1 :: l1), l2. now rewrite Hl. }
  destruct flag; simpl; [|exact Hrest].
  destruct (Z.ltb_spec 5 d) as [H5|H5]; simpl; [|exact Hrest].
  intros [Hx|Hx]; [|auto].
  injection Hx as <- <- <-. split; [|auto]. now exists [], l.
Qed.

Lemma neighbour_gaps_cons e1 e2 l :
  neighbour_gaps (e1 :: e2 :: l)
  = let '(has_gap, gap_days) := gap_with e1 e2 in
    if has_gap && (5 <? gap_days)
    then (e1, e2, gap_days) :: neighbour_gaps (e2 :: l)
    else neighbour_gaps (e2 :: l).
Proof. reflexivity. Qed.

Lemma neighbour_gaps_length l :
  (length (neighbour_gaps l) <= length l - 1)%nat.
Proof.
  induction l as [|e1 l IH]; [simpl; lia|].
  destruct l as [|e2 l]; [simpl; lia|].
  rewrite neighbour_gaps_cons. destruct (gap_with e1 e2) as [flag d].
  cbn [length] in *. destruct (flag && (5 <? d)); cbn [length]; lia.
Qed.

Lemma ascending_app l1 l2 :
  ascending (l1 ++ l2) ->
  ascending l1 /\ ascending l2
  /\ (forall x y, In x l1 -> In y l2 -> start_date x <= start_date y).
Proof.
  induction l1 as [|a l1 IH]; simpl.
  - intros H. repeat split; auto. intros x y [].
  - intros [Ha Hl]. apply Forall_app in Ha as [Ha1 Ha2].
    destruct (IH Hl) as (H1 & H2 & H3). repeat split; auto.
    intros x y [<-|Hx] Hy; [|auto].
    rewrite List.Forall_forall in Ha2. auto.
Qed.

(** ** The result of the merge *)

(** [s] lies within [r]: same school, [r] starts no later and ends no
    earlier. *)
Definition within (s r : EnrollmentSpan) : Prop :=
  school_id r = school_id s /\ start_date r <= start_date s
  /\ exists es er, end_date s = Some es /\ end_date r = Some er /\ es <= er.

Lemma within_refl s : closed s -> within s s.
Proof. intros [e He]. repeat split; try lia. exists e, e. repeat split; auto; lia. Qed.

Lemma within_trans a b c : within a b -> within b c -> within a c.
Proof.
  intros (H1 & H2 & ea & eb & Ha & Hb & Hab) (H3 & H4 & eb' & ec & Hb' & Hc & Hbc).
  rewrite Hb in Hb'. injection Hb' as <-.
  repeat split; [congruence | lia |]. exists ea, ec. repeat split; auto; lia.
Qed.

Lemma within_active s r day :
  within s r -> is_active s day = true -> is_active r day = true.
Proof.
  intros (_ & Hs & es & er & Hes & Her & Hle).
  rewrite (is_active_closed s es), (is_active_closed r er) by assumption.
  rewrite !andb_true_iff, !Z.leb_le. lia.
Qed.

Lemma merges_closed a b ea eb today :
  end_date a = Some ea -> end_date b = Some eb ->
  merges today a b
  = (start_date a <=? eb) && (start_date b <=? ea)
    && String.eqb (school_id a) (school_id b).
Proof.
  intros Ha Hb. unfold merges, overlaps_with. rewrite Ha, Hb. simpl.
  now destruct ((start_date a <=? eb) && (start_date b <=? ea)).
Qed.

Lemma separated_app today l1 a l2 :
  separated today (l1 ++ a :: l2)
  <-> separated today (l1 ++ [a]) /\ separated today (a :: l2).
Proof.
  induction l1 as [|x l1 IH].
  - simpl. tauto.
  - destruct l1 as [|y l1].
    + cbn [app separated]. tauto.
    + change ((x :: y :: l1) ++ a :: l2) with (x :: (y :: l1) ++ a :: l2).
      change ((x :: y :: l1) ++ [a]) with (x :: (y :: l1) ++ [a]).
      change (separated today (x :: (y :: l1) ++ a :: l2))
        with (merges today x y = false /\ separated today ((y :: l1) ++ a :: l2)).
      change (separated today (x :: (y :: l1) ++ [a]))
        with (merges today x y = false /\ separated today ((y :: l1) ++ [a])).
      rewrite IH. tauto.
Qed.

Lemma separated_snoc today l x y :
  separated today ((l ++ [x]) ++ [y])
  <-> separated today (l ++ [x]) /\ merges today x y = false.
Proof.
  rewrite <- app_assoc. cbn [app]. rewrite separated_app. simpl. tauto.
Qed.

Lemma ascending_starts l l' :
  map start_date l = map start_date l' -> ascending l -> ascending l'.
Proof.
  revert l'. induction l as [|x l IH]; intros [|y l'] E; try discriminate; auto.
  simpl in E. injection E as Exy E. simpl. intros [Hx Hl]. split; [|eauto].
  rewrite List.Forall_forall in *. intros z Hz.
  apply (in_map start_date) in Hz. rewrite <- E in Hz.
  apply in_map_iff in Hz as (w & Hw & Hin). specialize (Hx w Hin). lia.
Qed.

Lemma ascending_snoc l x :
  ascending l -> Forall (fun s => start_date s <= start_date x) l ->
  ascending (l ++ [x]).
Proof.
  induction l as [|y l IH]; simpl; intros Hl Hx.
  - split; [constructor | exact I].
  - destruct Hl as [Hy Hl]. inversion Hx as [|? ? Hyx Hx']; subst.
    split; [|auto]. apply Forall_app. split; [exact Hy|]. now constructor.
Qed.

Lemma resolve_step_separated today resolved e :
  Forall closed resolved -> Forall well_formed resolved -> closed e ->
  ascending resolved ->
  Forall (fun s => start_date s <= start_date e) resolved ->
  separated today resolved ->
  separated today (resolve_step today resolved e)
  /\ ascending (resolve_step today resolved e).
Proof.
  intros Hcl Hwf [ee Hee] Hasc Hst Hsep.
  destruct resolved as [|lst init _] using rev_ind; [simpl; repeat split; constructor|].
  rewrite resolve_step_snoc.
  destruct (overlaps_with today lst e) as [ov n] eqn:Eov.
  assert (Hm : merges today lst e = ov && String.eqb (school_id lst) (school_id e))
    by (unfold merges; now rewrite Eov).
  destruct (ov && String.eqb (school_id lst) (school_id e)) eqn:Em.
  - rewrite Hee.
    apply Forall_app in Hcl as [Hci Hcl]. inversion Hcl as [|? ? [le Hle] _]; subst.
    apply Forall_app in Hwf as [Hwi Hwl]. inversion Hwl as [|? ? Hwlst _]; subst.
    unfold well_formed in Hwlst. rewrite Hle in Hwlst.
    rewrite Hle. destruct (Z.ltb_spec le ee) as [Hlt|Hge]; [|auto].
    split.
    + destruct init as [|p init' _] using rev_ind; [simpl; exact I|].
      apply separated_snoc in Hsep as [Hs1 Hs2].
      apply separated_snoc. split; [exact Hs1|].
      apply Forall_app in Hci as [_ Hcp]. inversion Hcp as [|? ? [pe Hpe] _]; subst.
      rewrite (merges_closed p lst pe le today Hpe Hle) in Hs2.
      rewrite (merges_closed p (set_end_date lst (Some ee)) pe ee today Hpe eq_refl).
      simpl.
      apply ascending_app in Hasc as (_ & _ & Hord).
      assert (Hpl : start_date p <= start_date lst).
      { apply Hord; [apply in_or_app; right; now left | now left]. }
      destruct (String.eqb (school_id p) (school_id lst));
        [|now rewrite andb_false_r].
      rewrite andb_true_r in *. apply andb_false_iff in Hs2.
      apply andb_false_iff.
      destruct Hs2 as [Hs2|Hs2]; [apply Z.leb_gt in Hs2; lia | now right].
    + eapply ascending_starts; [|exact Hasc]. now rewrite !map_app.
  - split.
    + apply separated_snoc. split; [exact Hsep | exact Hm].
    + now apply ascending_snoc.
Qed.

Lemma resolve_step_well_formed today resolved e :
  Forall well_formed resolved -> well_formed e ->
  Forall well_formed (resolve_step today resolved e).
Proof.
  intros Hr He. apply List.Forall_forall. intros s Hs.
  apply resolve_step_In in Hs as [Hs|[->|(d & Hd & Hle)]]; auto.
  - revert s Hs. now apply List.Forall_forall.
  - unfold well_formed. now rewrite Hd.
Qed.

Lemma resolve_fold_separated today todo : forall resolved,
  ascending todo -> Forall closed todo -> Forall well_formed todo ->
  Forall closed resolved -> Forall well_formed resolved ->
  ascending resolved ->
  Forall (fun s => Forall (fun y => start_date s <= start_date y) todo) resolved ->
  separated today resolved ->
  separated today (fold_left (resolve_step today) todo resolved)
  /\ ascending (fold_left (resolve_step today) todo resolved).
Proof.
  induction todo as [|e todo IH]; intros resolved Hasc Hct Hwt Hcr Hwr Har Hb Hsep;
    simpl; [auto|].
  destruct Hasc as [He Hasc].
  inversion Hct as [|? ? Hce Hct']; subst. inversion Hwt as [|? ? Hwe Hwt']; subst.
  assert (Hbe : Forall (fun s => start_date s <= start_date e) resolved).
  { eapply Forall_impl; [exact Hb|]. simpl. intros s Hs. now inversion Hs. }
  destruct (resolve_step_separated today resolved e) as [Hs1 Ha1]; auto.
  apply IH; auto.
  - now apply resolve_step_closed.
  - now apply resolve_step_well_formed.
  - apply (resolve_step_starts today resolved e
             (fun z => Forall (fun y => z <= start_date y) todo)); auto.
    eapply Forall_impl; [exact Hb|]. simpl. intros s Hs. now inversion Hs.
Qed.

Lemma Forall_sorted (P : EnrollmentSpan -> Prop) l :
  Forall P l -> Forall P (sorted_by_start l).
Proof.
  intros H. apply List.Forall_forall. intros s Hs.
  apply (proj1 (sorted_by_start_In _ _)) in Hs. revert s Hs.
  now apply List.Forall_forall.
Qed.

Lemma resolve_overlaps_separated today spans :
  Forall closed spans -> Forall well_formed spans ->
  separated today (resolve_overlaps today (sorted_by_start spans))
  /\ ascending (resolve_overlaps today (sorted_by_start spans)).
Proof.
  intros Hc Hw. unfold resolve_overlaps.
  apply resolve_fold_separated; simpl; auto using Forall_sorted.
  apply sorted_by_start_ascending.
Qed.

(** Whatever the spans, the result is in start order. *)
Lemma resolve_step_ascending today resolved e :
  ascending resolved ->
  Forall (fun s => start_date s <= start_date e) resolved ->
  ascending (resolve_step today resolved e).
Proof.
  intros Hasc Hst.
  destruct resolved as [|lst init _] using rev_ind; [simpl; repeat split; constructor|].
  rewrite resolve_step_snoc.
  destruct (overlaps_with today lst e) as [ov n].
  destruct (ov && String.eqb (school_id lst) (school_id e)).
  - destruct (end_date e) as [d|]; auto.
    destruct (match end_date lst with None => true | Some le => le <? d end); auto.
    eapply ascending_starts; [|exact Hasc]. now rewrite !map_app.
  - now apply ascending_snoc.
Qed.

Lemma resolve_fold_ascending today todo : forall resolved,
  ascending todo -> ascending resolved ->
  Forall (fun s => Forall (fun y => start_date s <= start_date y) todo) resolved ->
  ascending (fold_left (resolve_step today) todo resolved).
Proof.
  induction todo as [|e todo IH]; intros resolved Hasc Har Hb; simpl; [auto|].
  destruct Hasc as [He Hasc].
  assert (Hbe : Forall (fun s => start_date s <= start_date e) resolved).
  { eapply Forall_impl; [exact Hb|]. simpl. intros s Hs. now inversion Hs. }
  apply IH; auto.
  - now apply resolve_step_ascending.
  - apply (resolve_step_starts today resolved e
             (fun z => Forall (fun y => z <= start_date y) todo)); auto.
    eapply Forall_impl; [exact Hb|]. simpl. intros s Hs. now inversion Hs.
Qed.

Lemma resolve_step_length today resolved e :
  (length (resolve_step today resolved e) <= S (length resolved))%nat
  /\ resolve_step today resolved e <> [].
Proof.
  destruct resolved as [|lst init _] using rev_ind; [simpl; split; [lia|discriminate]|].
  rewrite resolve_step_snoc.
  destruct (overlaps_with today lst e) as [ov n].
  destruct (ov && String.eqb (school_id lst) (school_id e)).
  - destruct (end_date e) as [d|];
      [destruct (match end_date lst with None => true | Some le => le <? d end)|];
      rewrite ?length_app; simpl; (split; [lia | now destruct init]).
  - rewrite !length_app. simpl. split; [lia|].
    intros H. apply app_eq_nil in H as [_ H]. discriminate.
Qed.

Lemma resolve_fold_length today todo : forall resolved,
  (length (fold_left (resolve_step today) todo resolved)
   <= length resolved + length todo)%nat
  /\ (resolved <> [] \/ todo <> [] ->
      fold_left (resolve_step today) todo resolved <> []).
Proof.
  induction todo as [|e todo IH]; intros resolved; simpl.
  - split; [lia|]. intros [H|H]; congruence.
  - destruct (IH (resolve_step today resolved e)) as [H1 H2].
    pose proof (resolve_step_length today resolved e) as [H3 H4].
    split; [lia|]. intros _. apply H2. now left.
Qed.

Lemma sorted_by_start_length l : length (sorted_by_start l) = length l.
Proof.
  induction l as [|x l IH]; simpl; [reflexivity|]. rewrite <- IH.
  generalize (sorted_by_start l). intros s.
  induction s as [|y s IHs]; simpl; [reflexivity|].
  destruct (start_date x <=? start_date y); simpl; lia.
Qed.

(** Every span handled so far lies within a span of the list built so far. *)
Definition absorbed (resolved seen : list EnrollmentSpan) : Prop :=
  forall s, In s seen -> exists r, In r resolved /\ within s r.

Lemma resolve_step_absorbed today resolved e seen :
  Forall closed resolved -> closed e ->
  Forall (fun s => start_date s <= start_date e) resolved ->
  absorbed resolved seen ->
  absorbed (resolve_step today resolved e) (seen ++ [e]).
Proof.
  intros Hcl He Hst Habs.
  destruct resolved as [|lst init _] using rev_ind.
  - intros s Hs. apply in_app_or in Hs as [Hs|[<-|[]]].
    + destruct (Habs s Hs) as (r & [] & _).
    + exists e. split; [now left | now apply within_refl].
  - rewrite resolve_step_snoc.
    destruct (overlaps_with today lst e) as [ov n].
    apply Forall_app in Hcl as [Hci Hcl]. inversion Hcl as [|? ? Hlst _]; subst.
    apply Forall_app in Hst as [_ Hst]. inversion Hst as [|? ? Hle _]; subst.
    destruct (ov && String.eqb (school_id lst) (school_id e)) eqn:Em.
    + apply andb_true_iff in Em as [_ Hsch]. apply String.eqb_eq in Hsch.
      destruct He as [ee Hee]. destruct Hlst as [le Hlst]. rewrite Hee, Hlst.
      destruct (Z.ltb_spec le ee) as [Hlt|Hge].
      * assert (Hnew : within lst (set_end_date lst (Some ee))).
        { repeat split; simpl; try lia. exists le, ee. repeat split; auto; lia. }
        intros s Hs. apply in_app_or in Hs as [Hs|[<-|[]]].
        -- destruct (Habs s Hs) as (r & Hr & Hw).
           apply in_app_or in Hr as [Hr|[<-|[]]].
           ++ exists r. split; [apply in_or_app; now left | exact Hw].
           ++ exists (set_end_date lst (Some ee)).
              split; [apply in_or_app; right; now left|].
              now apply (within_trans s lst).
        -- exists (set_end_date lst (Some ee)).
           split; [apply in_or_app; right; now left|].
           repeat split; simpl; auto. exists ee, ee. repeat split; auto; lia.
      * intros s Hs. apply in_app_or in Hs as [Hs|[<-|[]]]; [auto|].
        exists lst. split; [apply in_or_app; right; now left|].
        repeat split; auto. exists ee, le. repeat split; auto.
    + intros s Hs. apply in_app_or in Hs as [Hs|[<-|[]]].
      * destruct (Habs s Hs) as (r & Hr & Hw). exists r. split; [|exact Hw].
        apply in_or_app. now left.
      * exists e. split; [apply in_or_app; right; now left | now apply within_refl].
Qed.

Lemma resolve_fold_absorbed today todo : forall resolved seen,
  ascending todo -> Forall closed todo -> Forall closed resolved ->
  Forall (fun s => Forall (fun y => start_date s <= start_date y) todo) resolved ->
  absorbed resolved seen ->
  absorbed (fold_left (resolve_step today) todo resolved) (seen ++ todo).
Proof.
  induction todo as [|e todo IH]; intros resolved seen Hasc Hct Hcr Hb Habs; simpl.
  - now rewrite app_nil_r.
  - destruct Hasc as [He Hasc]. inversion Hct as [|? ? Hce Hct']; subst.
    assert (Hbe : Forall (fun s => start_date s <= start_date e) resolved).
    { eapply Forall_impl; [exact Hb|]. simpl. intros s Hs. now inversion Hs. }
    replace (seen ++ e :: todo) with ((seen ++ [e]) ++ todo)
      by (now rewrite <- app_assoc).
    apply IH; auto.
    + now apply resolve_step_closed.
    + apply (resolve_step_starts today resolved e
               (fun z => Forall (fun y => z <= start_date y) todo)); auto.
      eapply Forall_impl; [exact Hb|]. simpl. intros s Hs. now inversion Hs.
    + now apply resolve_step_absorbed.
Qed.

Lemma resolve_overlaps_absorbed today spans :
  Forall closed spans ->
  absorbed (resolve_overlaps today (sorted_by_start spans)) spans.
Proof.
  intros Hc s Hs. unfold resolve_overlaps.
  apply (resolve_fold_absorbed today (sorted_by_start spans) [] []); simpl;
    auto using Forall_sorted, sorted_by_start_ascending.
  - intros x [].
  - now apply sorted_by_start_In.
Qed.

Lemma normalize_enrollments_keeps_in today self sid s :
  Forall closed (default [] (enrollments self !! sid)) ->
  In s (default [] (enrollments self !! sid)) ->
  exists r, In r (snd (normalize_enrollments today self sid)) /\ within s r.
Proof.
  intros Hc Hs. rewrite normalize_enrollments_result.
  destruct (default [] (enrollments self !! sid)) as [|x l] eqn:E; [destruct Hs|].
  exact (resolve_overlaps_absorbed today (x :: l) Hc s Hs).
Qed.

(** ** Normalising twice *)

Lemma sorted_by_start_fixed l : ascending l -> sorted_by_start l = l.
Proof.
  induction l as [|x l IH]; simpl; [reflexivity|].
  intros [Hx Hl]. rewrite (IH Hl).
  destruct l as [|y l]; [reflexivity|]. simpl.
  inversion Hx as [|? ? Hxy _]; subst.
  now destruct (Z.leb_spec (start_date x) (start_date y)); [|lia].
Qed.

Lemma resolve_fold_fixed today todo : forall resolved,
  separated today (resolved ++ todo) ->
  fold_left (resolve_step today) todo resolved = resolved ++ todo.
Proof.
  induction todo as [|e todo IH]; intros resolved Hsep; simpl.
  - now rewrite app_nil_r.
  - assert (Hstep : resolve_step today resolved e = resolved ++ [e]).
    { destruct resolved as [|lst init _] using rev_ind; [reflexivity|].
      rewrite resolve_step_snoc.
      rewrite <- app_assoc in Hsep. cbn [app] in Hsep.
      apply separated_app in Hsep as [_ Hsep]. destruct Hsep as [Hm _].
      unfold merges in Hm. destruct (overlaps_with today lst e) as [ov n].
      simpl in Hm. now rewrite Hm. }
    rewrite Hstep, IH; rewrite <- app_assoc; [reflexivity | exact Hsep].
Qed.

Lemma separated_today t1 t2 l :
  Forall closed l -> separated t1 l -> separated t2 l.
Proof.
  induction l as [|a l IH]; [auto|].
  destruct l as [|b l]; [auto|].
  intros Hc. inversion Hc as [|? ? [ea Ha] Hc']; subst.
  inversion Hc' as [|? ? [eb Hb] _]; subst.
  change (separated t1 (a :: b :: l))
    with (merges t1 a b = false /\ separated t1 (b :: l)).
  change (separated t2 (a :: b :: l))
    with (merges t2 a b = false /\ separated t2 (b :: l)).
  intros [Hm Hs]. split; [|now apply IH].
  now rewrite (merges_closed a b ea eb t2 Ha Hb), <- (merges_closed a b ea eb t1 Ha Hb).
Qed.

Lemma resolve_overlaps_closed today l :
  Forall closed l -> Forall closed (resolve_overlaps today l).
Proof.
  unfold resolve_overlaps. assert (H : Forall closed []) by constructor.
  revert H. generalize (@nil EnrollmentSpan).
  induction l as [|e l IH]; intros r Hr Hl; simpl; [exact Hr|].
  inversion Hl; subst. apply IH; auto. now apply resolve_step_closed.
Qed.

Lemma normalize_enrollments_nonempty today self sid spans :
  default [] (enrollments self !! sid) = spans -> spans <> [] ->
  normalize_enrollments today self sid
  = ({| enrollments :=
          <[sid := resolve_overlaps today (sorted_by_start spans)]> (enrollments self);
        issues := issues self |},
     resolve_overlaps today (sorted_by_start spans)).
Proof.
  intros E Hne. unfold normalize_enrollments. rewrite E.
  destruct spans; [congruence | reflexivity].
Qed.

Lemma resolve_overlaps_nonempty today spans :
  spans <> [] -> resolve_overlaps today (sorted_by_start spans) <> [].
Proof.
  intros Hne. unfold resolve_overlaps.
  apply (resolve_fold_length today (sorted_by_start spans) []).
  right. intros H. apply (f_equal (@length _)) in H.
  rewrite sorted_by_start_length in H. now destruct spans.
Qed.

(** X7.  When every span of the student is dated and none ends before it
    starts, normalising a second time, on whatever day, changes neither
    the processor nor the list returned. *)
Theorem normalize_enrollments_idempotent (today today' : Z)
  (self : EnrollmentProcessor) (sid : string) :
  Forall closed (default [] (enrollments self !! sid)) ->
  Forall well_formed (default [] (enrollments self !! sid)) ->
  normalize_enrollments today' (fst (normalize_enrollments today self sid)) sid
  = normalize_enrollments today self sid.
Proof.
  intros Hc Hw.
  destruct (default [] (enrollments self !! sid)) as [|x l] eqn:E.
  - assert (H0 : normalize_enrollments today self sid = (self, []))
      by (unfold normalize_enrollments; now rewrite E).
    rewrite H0. cbn [fst]. unfold normalize_enrollments. now rewrite E.
  - assert (Hne : x :: l <> []) by discriminate.
    rewrite (normalize_enrollments_nonempty today self sid _ E Hne). cbn [fst].
    set (resolved := resolve_overlaps today (sorted_by_start (x :: l))).
    destruct (resolve_overlaps_separated today (x :: l) Hc Hw) as [Hsep Hasc].
    fold resolved in Hsep, Hasc.
    assert (Hcr : Forall closed resolved)
      by (apply resolve_overlaps_closed; now apply Forall_sorted).
    rewrite (normalize_enrollments_nonempty today' _ sid resolved).
    + cbn [enrollments issues]. rewrite insert_insert_eq.
      rewrite (sorted_by_start_fixed _ Hasc). unfold resolve_overlaps at 1 2.
      rewrite resolve_fold_fixed; [reflexivity|]. simpl.
      now apply (separated_today today).
    + cbn [enrollments]. now rewrite lookup_insert_eq.
    + now apply resolve_overlaps_nonempty.
Qed.

(** ** The active enrollment *)

Lemma get_active_enrollment_Some self sid day e :
  get_active_enrollment self sid day = Some e ->
  In e (default [] (enrollments self !! sid)) /\ is_active e day = true.
Proof. unfold get_active_enrollment. apply find_some. Qed.

Lemma get_active_enrollment_covered self sid day :
  is_Some (get_active_enrollment self sid day)
  <-> covered (default [] (enrollments self !! sid)) day = true.
Proof.
  unfold get_active_enrollment. rewrite covered_In. split.
  - intros [e He]. apply find_some in He. eauto.
  - intros (s & Hs & Ha).
    destruct (find _ _) as [e|] eqn:E; [eauto|].
    pose proof (find_none _ _ E s Hs) as Hn. simpl in Hn. congruence.
Qed.

Lemma normalize_enrollments_stored today self sid :
  default [] (enrollments (fst (normalize_enrollments today self sid)) !! sid)
  = snd (normalize_enrollments today self sid).
Proof.
  unfold normalize_enrollments.
  destruct (default [] (enrollments self !! sid)) as [|x l] eqn:E; cbn [fst snd].
  - exact E.
  - cbn [enrollments]. now rewrite lookup_insert_eq.
Qed.

Lemma ascending_pairs l l1 x l2 y l3 :
  ascending l -> l = l1 ++ x :: l2 ++ y :: l3 -> start_date x <= start_date y.
Proof.
  intros Hasc ->. apply ascending_app in Hasc as (_ & Hasc & _).
  destruct Hasc as [Hx _]. rewrite List.Forall_forall in Hx. apply Hx.
  apply in_or_app. right. now left.
Qed.

Lemma separated_pairs today l l1 a b l2 :
  separated today l -> l = l1 ++ a :: b :: l2 -> merges today a b = false.
Proof.
  intros Hsep ->. apply separated_app in Hsep as [_ Hsep]. now destruct Hsep.
Qed.

(** ** Properties of the further methods *)

(** X1.  [overlaps_with] gives the same answer whichever of the two spans
    it is called on.  For two dated spans that do not end before they
    start, the flag is set exactly when some day lies in both spans, and
    the number returned is the number of days they have in common: the
    common days are the [days] days from the later of the two starts. *)
Theorem overlaps_with_common_days (today : Z) (a b : EnrollmentSpan) :
  overlaps_with today a b = overlaps_with today b a
  /\ (forall ea eb, end_date a = Some ea -> end_date b = Some eb ->
      start_date a <= ea -> start_date b <= eb ->
      let flag := fst (overlaps_with today a b) in
      let days := snd (overlaps_with today a b) in
      let lo := Z.max (start_date a) (start_date b) in
      (flag = true <-> exists day, is_active a day = true /\ is_active b day = true)
      /\ (flag = true -> 0 < days)
      /\ (flag = false -> days = 0)
      /\ (forall day, is_active a day && is_active b day
                      = (lo <=? day) && (day <? lo + days))).
Proof.
  split; [apply overlaps_with_sym|].
  intros ea eb Ha Hb Hwa Hwb. cbv zeta.
  destruct (overlaps_with_common today a b ea eb Ha Hb Hwa Hwb) as [Hday ->].
  destruct (Z.leb_spec (Z.max (start_date a) (start_date b)) (Z.min ea eb))
    as [Hle|Hgt]; cbn [fst snd].
  - repeat split; try lia; try discriminate.
    + exists (Z.max (start_date a) (start_date b)).
      apply andb_true_iff. rewrite Hday. apply andb_true_iff.
      rewrite !Z.leb_le. lia.
    + intros day. rewrite Hday. f_equal.
      destruct (Z.leb_spec day (Z.min ea eb)), (Z.ltb_spec day
        (Z.max (start_date a) (start_date b)
         + (Z.min ea eb - Z.max (start_date a) (start_date b) + 1)));
        try reflexivity; lia.
  - repeat split; try lia; try discriminate.
    + intros (day & H1 & H2).
      assert (H : is_active a day && is_active b day = true) by now rewrite H1, H2.
      rewrite Hday in H. apply andb_true_iff in H. rewrite !Z.leb_le in H. lia.
    + intros day. rewrite Hday.
      destruct (Z.leb_spec (Z.max (start_date a) (start_date b)) day),
        (Z.leb_spec day (Z.min ea eb)),
        (Z.ltb_spec day (Z.max (start_date a) (start_date b) + 0));
        try reflexivity; lia.
Qed.

(** X2.  For two spans that do not end before they start, [gap_with] gives
    the same answer whichever span it is called on, and flags a gap
    exactly when the number of gap days is positive.  When it flags a gap
    the two spans do not overlap, and the gap days are the days strictly
    between the end of the earlier span and the start of the later one: the
    day before them and the day after them lie in one of the spans, and
    none of them does. *)
Theorem gap_with_uncovered_days (a b : EnrollmentSpan) :
  well_formed a -> well_formed b ->
  gap_with a b = gap_with b a
  /\ (fst (gap_with a b) = true <-> 0 < snd (gap_with a b))
  /\ (fst (gap_with a b) = true ->
      (forall today, fst (overlaps_with today a b) = false)
      /\ exists last_day,
           covered [a; b] last_day = true
           /\ covered [a; b] (last_day + snd (gap_with a b) + 1) = true
           /\ forall day, last_day < day <= last_day + snd (gap_with a b) ->
                covered [a; b] day = false).
Proof.
  intros Hwa Hwb. split; [now apply gap_with_sym|].
  unfold gap_with, overlaps_with, covered, well_formed in *. cbn [existsb].
  unfold is_active.
  destruct (end_date a) as [ea|], (end_date b) as [eb|]; simpl;
    try (split; [split; [discriminate | lia] | discriminate]).
  destruct (Z.ltb_spec ea (start_date b)) as [H1|H1]; simpl.
  - split; [apply Z.ltb_lt|]. intros Hg. apply Z.ltb_lt in Hg. split.
    + intros _. destruct (Z.leb_spec (start_date b) ea); [lia|].
      now rewrite andb_false_r.
    + exists ea. repeat split.
      * apply orb_true_iff. left. apply andb_true_iff. rewrite !Z.leb_le. lia.
      * apply orb_true_iff. right. rewrite orb_false_r.
        apply andb_true_iff. rewrite !Z.leb_le. lia.
      * intros day Hd. rewrite orb_false_r. apply orb_false_iff.
        split; apply andb_false_iff; rewrite !Z.leb_gt; lia.
  - destruct (Z.ltb_spec eb (start_date a)) as [H2|H2]; simpl.
    + split; [apply Z.ltb_lt|]. intros Hg. apply Z.ltb_lt in Hg. split.
      * intros _. destruct (Z.leb_spec (start_date a) eb); [lia|]. reflexivity.
      * exists eb. repeat split.
        -- apply orb_true_iff. right. rewrite orb_false_r.
           apply andb_true_iff. rewrite !Z.leb_le. lia.
        -- apply orb_true_iff. left. apply andb_true_iff. rewrite !Z.leb_le. lia.
        -- intros day Hd. rewrite orb_false_r. apply orb_false_iff.
           split; apply andb_false_iff; rewrite !Z.leb_gt; lia.
    + split; [split; [discriminate | lia] | discriminate].
Qed.

(** X3.  [find_overlaps] leaves the spans as they are and logs one
    [overlap] issue per pair it returns.  It returns exactly the pairs of
    a span and a later span of the student's list for which
    [overlaps_with] flags an overlap of a positive number of days; so two
    ongoing spans, for which the number is 0, are never reported, and the
    pairs are at most n(n-1)/2. *)
Theorem find_overlaps_reported (today : Z) (self : EnrollmentProcessor)
  (sid : string) :
  let spans := default [] (enrollments self !! sid) in
  let res := find_overlaps today self sid in
  enrollments (fst res) = enrollments self
  /\ issues (fst res) = issues self ++ map (issue "overlap" sid) (snd res)
  /\ (forall e1 e2 days,
        In (e1, e2, days) (snd res) <->
        (exists l1 l2, spans = l1 ++ e1 :: l2 /\ In e2 l2)
        /\ overlaps_with today e1 e2 = (true, days) /\ 0 < days)
  /\ (forall e1 e2 days, In (e1, e2, days) (snd res) ->
        is_Some (end_date e1) \/ is_Some (end_date e2))
  /\ (2 * length (snd res) <= length spans * (length spans - 1))%nat.
Proof.
  cbv zeta. unfold find_overlaps. cbn [fst snd enrollments issues].
  split; [reflexivity|]. split; [reflexivity|].
  split; [intros e1 e2 days; apply all_overlaps_In|]. split.
  - intros e1 e2 days H. apply all_overlaps_In in H as (_ & Ho & Hd).
    now apply (overlaps_with_ongoing today e1 e2 days).
  - apply all_overlaps_length.
Qed.

(** X4.  [find_gaps] leaves the spans as they are and logs one [gap]
    issue per pair it returns.  Every pair it returns is a pair of
    neighbours in start order, both dated, for which [gap_with] gives more
    than 5 days; when the later span does not end before it starts, the
    days are those strictly between the end of the earlier span and the
    start of the later one.  There are fewer pairs than spans. *)
Theorem find_gaps_reported (self : EnrollmentProcessor) (sid : string) :
  let spans := default [] (enrollments self !! sid) in
  let res := find_gaps self sid in
  enrollments (fst res) = enrollments self
  /\ issues (fst res) = issues self ++ map (issue "gap" sid) (snd res)
  /\ (forall e1 e2 n, In (e1, e2, n) (snd res) ->
        (exists l1 l2, sorted_by_start spans = l1 ++ e1 :: e2 :: l2)
        /\ In e1 spans /\ In e2 spans
        /\ start_date e1 <= start_date e2
        /\ gap_with e1 e2 = (true, n) /\ 5 < n
        /\ exists d1, end_date e1 = Some d1 /\ is_Some (end_date e2)
             /\ (well_formed e2 -> d1 < start_date e2 /\ n = start_date e2 - d1 - 1))
  /\ (length (snd res) <= length spans - 1)%nat.
Proof.
  cbv zeta. unfold find_gaps. cbn [fst snd enrollments issues].
  split; [reflexivity|]. split; [reflexivity|]. split.
  - intros e1 e2 n H. apply neighbour_gaps_In in H as ((l1 & l2 & Hl) & Hg & Hn).
    assert (Hin1 : In e1 (sorted_by_start (default [] (enrollments self !! sid))))
      by (rewrite Hl; apply in_or_app; right; now left).
    assert (Hin2 : In e2 (sorted_by_start (default [] (enrollments self !! sid))))
      by (rewrite Hl; apply in_or_app; right; right; now left).
    apply (proj1 (sorted_by_start_In _ _)) in Hin1, Hin2.
    assert (Hord : start_date e1 <= start_date e2).
    { apply (ascending_pairs (sorted_by_start (default [] (enrollments self !! sid)))
               l1 e1 [] e2 l2 (sorted_by_start_ascending _)). exact Hl. }
    split; [eauto|]. repeat split; auto.
    unfold gap_with, well_formed in *.
    destruct (end_date e1) as [d1|]; [|discriminate].
    destruct (end_date e2) as [d2|]; [|discriminate].
    exists d1. repeat split; eauto.
    + destruct (Z.ltb_spec d1 (start_date e2)); [lia|].
      destruct (Z.ltb_spec d2 (start_date e1)); [lia|discriminate].
    + destruct (Z.ltb_spec d1 (start_date e2)); [congruence|].
      destruct (Z.ltb_spec d2 (start_date e1)); [lia|discriminate].
  - rewrite <- sorted_by_start_length. apply neighbour_gaps_length.
Qed.

Definition gap_example_first : EnrollmentSpan :=
  example_span "E1" "SCH1" (Py.ordinal 2023 1 9) (Some (Py.ordinal 2023 3 10)).

Definition gap_example_second : EnrollmentSpan :=
  example_span "E2" "SCH2" (Py.ordinal 2023 3 20) (Some (Py.ordinal 2023 6 2)).

(** Nine days lie between 10 March and 20 March. *)
Lemma gap_with_nine_days :
  gap_with gap_example_first gap_example_second
  = gap_with gap_example_second gap_example_first
  /\ snd (gap_with gap_example_first gap_example_second) = 9.
Proof.
  split; [|reflexivity].
  apply (gap_with_uncovered_days gap_example_first gap_example_second);
    vm_compute; discriminate.
Defined.

(** X5.  Whatever the spans, the list [normalize_enrollments] returns is
    in start order, is no longer than the student's list and is empty only
    when that list is; it is stored as the student's list, and the lists
    of the other students and the issue log are left as they are.  When
    every span is dated and none ends before it starts, no span of the
    result and the one after it are an overlapping pair of the same
    school. *)
Theorem normalize_enrollments_postcondition (today : Z)
  (self : EnrollmentProcessor) (sid : string) :
  let spans := default [] (enrollments self !! sid) in
  let res := normalize_enrollments today self sid in
  (forall l1 x l2 y l3, snd res = l1 ++ x :: l2 ++ y :: l3 ->
     start_date x <= start_date y)
  /\ (length (snd res) <= length spans)%nat
  /\ (snd res = [] <-> spans = [])
  /\ default [] (enrollments (fst res) !! sid) = snd res
  /\ (forall other, other <> sid ->
        enrollments (fst res) !! other = enrollments self !! other)
  /\ issues (fst res) = issues self
  /\ (Forall closed spans -> Forall well_formed spans ->
      forall l1 a b l2, snd res = l1 ++ a :: b :: l2 ->
        fst (overlaps_with today a b) = false \/ school_id a <> school_id b).
Proof.
  cbv zeta.
  destruct (default [] (enrollments self !! sid)) as [|x0 l0] eqn:E.
  - assert (H0 : normalize_enrollments today self sid = (self, []))
      by (unfold normalize_enrollments; now rewrite E).
    rewrite H0. cbn [fst snd]. rewrite E. repeat split; auto.
    + intros l1 x l2 y l3 H. now destruct l1.
    + intros _ _ l1 a b l2 H. now destruct l1.
  - assert (Hne : x0 :: l0 <> []) by discriminate.
    rewrite (normalize_enrollments_nonempty today self sid _ E Hne).
    cbn [fst snd enrollments issues].
    split; [|split; [|split; [|split; [|split; [|split]]]]].
    + intros l1 x l2 y l3 H.
      apply (ascending_pairs _ l1 x l2 y l3) in H; [exact H|].
      unfold resolve_overlaps. apply resolve_fold_ascending.
      * apply sorted_by_start_ascending.
      * exact I.
      * constructor.
    + unfold resolve_overlaps.
      pose proof (resolve_fold_length today (sorted_by_start (x0 :: l0)) []) as [H _].
      rewrite sorted_by_start_length in H. exact H.
    + split; [|discriminate]. intros H.
      now apply (resolve_overlaps_nonempty today (x0 :: l0)) in H.
    + now rewrite lookup_insert_eq.
    + intros other Ho. now rewrite lookup_insert_ne.
    + reflexivity.
    + intros Hc Hw l1 a b l2 H.
      destruct (resolve_overlaps_separated today (x0 :: l0) Hc Hw) as [Hsep _].
      apply (separated_pairs today _ l1 a b l2 Hsep) in H.
      unfold merges in H. apply andb_false_iff in H as [H|H]; [now left|right].
      now apply String.eqb_neq.
Qed.

(** X6.  When every span of the student is dated, every one of them lies
    within a span of the normalised list: a span of the same school that
    starts no later and ends no earlier. *)
Theorem normalize_enrollments_keeps_spans (today : Z)
  (self : EnrollmentProcessor) (sid : string) (s : EnrollmentSpan) :
  Forall closed (default [] (enrollments self !! sid)) ->
  In s (default [] (enrollments self !! sid)) ->
  exists r, In r (snd (normalize_enrollments today self sid))
    /\ school_id r = school_id s
    /\ start_date r <= start_date s
    /\ exists es er, end_date s = Some es /\ end_date r = Some er /\ es <= er.
Proof.
  intros Hc Hs.
  destruct (normalize_enrollments_keeps_in today self sid s Hc Hs) as (r & Hr & Hw).
  exists r. split; [exact Hr | exact Hw].
Qed.

Definition keeps_example_spans : list EnrollmentSpan :=
  [example_span "E1" "SCH1" (Py.ordinal 2023 1 1) (Some (Py.ordinal 2023 6 1));
   example_span "E2" "SCH1" (Py.ordinal 2023 5 1) (Some (Py.ordinal 2023 12 1));
   example_span "E3" "SCH2" (Py.ordinal 2023 11 1) (Some (Py.ordinal 2024 6 1))].

(** The second span of the example lies within a span of the result. *)
Lemma normalize_enrollments_keeps_second :
  exists r,
    In r (snd (normalize_enrollments example_today
                 (example_processor keeps_example_spans) "STU1"))
    /\ school_id r = "SCH1"%string
    /\ start_date r <= Py.ordinal 2023 5 1
    /\ exists es er,
         Some (Py.ordinal 2023 12 1) = Some es /\ end_date r = Some er /\ es <= er.
Proof.
  apply (normalize_enrollments_keeps_spans example_today
           (example_processor keeps_example_spans) "STU1"
           (example_span "E2" "SCH1" (Py.ordinal 2023 5 1)
              (Some (Py.ordinal 2023 12 1)))).
  - repeat constructor; eexists; reflexivity.
  - right. left. reflexivity.
Defined.

Lemma normalize_enrollments_example_twice :
  normalize_enrollments (example_today + 1)
    (fst (normalize_enrollments example_today
            (example_processor keeps_example_spans) "STU1")) "STU1"
  = normalize_enrollments example_today
      (example_processor keeps_example_spans) "STU1".
Proof.
  apply (normalize_enrollments_idempotent example_today (example_today + 1)
           (example_processor keeps_example_spans) "STU1").
  - repeat constructor; eexists; reflexivity.
  - repeat constructor; vm_compute; discriminate.
Defined.

(** X8.  [get_active_enrollment] returns a span of the student that is
    active on the day asked for, and returns nothing exactly when no span
    of the student is.  When every span is dated, normalisation does not
    change whether the student has an active enrollment on a day, and a
    student with an active enrollment at a school still has an active
    span of that school on that day afterwards. *)
Theorem get_active_enrollment_after_normalize (today : Z)
  (self : EnrollmentProcessor) (sid : string) :
  let spans := default [] (enrollments self !! sid) in
  let res := normalize_enrollments today self sid in
  (forall day e, get_active_enrollment self sid day = Some e ->
     In e spans /\ is_active e day = true)
  /\ (forall day, get_active_enrollment self sid day = None
                  <-> forall s, In s spans -> is_active s day = false)
  /\ (Forall closed spans -> forall day,
        is_Some (get_active_enrollment (fst res) sid day)
        <-> is_Some (get_active_enrollment self sid day))
  /\ (Forall closed spans -> forall day e,
        get_active_enrollment self sid day = Some e ->
        exists r, In r (snd res) /\ school_id r = school_id e
                  /\ is_active r day = true).
Proof.
  cbv zeta. split; [|split; [|split]].
  - intros day e. apply get_active_enrollment_Some.
  - intros day. unfold get_active_enrollment. split.
    + intros H s Hs. exact (find_none _ _ H s Hs).
    + intros H. destruct (find _ _) as [e|] eqn:E; [|reflexivity].
      apply find_some in E as [Hin Ha]. rewrite (H e Hin) in Ha. discriminate.
  - intros Hc day. rewrite !get_active_enrollment_covered.
    rewrite normalize_enrollments_stored.
    now rewrite normalize_enrollments_covered_closed.
  - intros Hc day e He. apply get_active_enrollment_Some in He as [Hin Ha].
    destruct (normalize_enrollments_keeps_in today self sid e Hc Hin)
      as (r & Hr & Hw).
    exists r. split; [exact Hr|]. split; [apply Hw|].
    now apply (within_active e r).
Qed.

End Enrollment.

(* ===================================================================== *)
(** * reconciliation/engine.py *)
(* ===================================================================== *)

Module Reconciliation.

Open Scope string_scope.

Inductive CheckStatus : Type :=
| PASSED | FAILED | WARNING | SKIPPED | IN_PROGRESS.

Inductive CheckCategory : Type :=
| COUNT | REFERENTIAL | COMPLETENESS | SAMPLING | INTEGRITY | DOMAIN.

Definition status_eqb (a b : CheckStatus) : bool :=
  match a, b with
  | PASSED, PASSED | FAILED, FAILED | WARNING, WARNING
  | SKIPPED, SKIPPED | IN_PROGRESS, IN_PROGRESS => true
  | _, _ => false
  end.

(** [ReconciliationCheck]: the declarative description of a check. *)
Record ReconciliationCheck : Type := mkCheck {
  id : string;
  name : string;
  category : CheckCategory;
  description : string;
  threshold : Q;
  is_blocking : bool
}.

(** [CheckResult], without its message, details and timestamp; its
    [category] and [threshold] attributes are [result_category] and
    [result_threshold] here. *)
Record CheckResult : Type := mkResult {
  check_id : string;
  check_name : string;
  result_category : CheckCategory;
  status : CheckStatus;
  source_value : Py.value;
  target_value : Py.value;
  result_threshold : option Q;
  actual_value : option Q
}.

Record ReconciliationEngine : Type := mkEngine {
  checks : list ReconciliationCheck;
  results : list CheckResult;
  source_data : gmap string (list (gmap string Py.value));
  target_data : gmap string (list (gmap string Py.value))
}.

(** The count checks registered by [_register_default_checks], with the
    entity type [_run_check] runs each of them on. *)
Definition count_students : ReconciliationCheck :=
  mkCheck "count_students" "Student Count Match" COUNT
    "Verify source and target student counts match" 1 true.

Definition count_guardians : ReconciliationCheck :=
  mkCheck "count_guardians" "Guardian Count Match" COUNT
    "Verify source and target guardian counts match" 1 false.

Definition count_enrollments : ReconciliationCheck :=
  mkCheck "count_enrollments" "Enrollment Count Match" COUNT
    "Verify enrollment record counts match" 1 false.

Definition count_grades : ReconciliationCheck :=
  mkCheck "count_grades" "Grade Record Count Match" COUNT
    "Verify grade record counts match" (99 # 100) false.

Definition count_attendance : ReconciliationCheck :=
  mkCheck "count_attendance" "Attendance Record Count Match" COUNT
    "Verify attendance record counts match" (99 # 100) false.

Definition complete_student_contact : ReconciliationCheck :=
  mkCheck "complete_student_contact" "Student Contact Info" COMPLETENESS
    "99%+ students have contact information" (99 # 100) false.

Definition count_check_entity (check : ReconciliationCheck) : option string :=
  if String.eqb (id check) "count_students" then Some "students"
  else if String.eqb (id check) "count_guardians" then Some "guardians"
  else if String.eqb (id check) "count_enrollments" then Some "enrollments"
  else if String.eqb (id check) "count_grades" then Some "grades"
  else if String.eqb (id check) "count_attendance" then Some "attendance"
  else None.

(** [set_source_data] and [set_target_data]. *)
Definition set_source_data (self : ReconciliationEngine) (entity_type : string)
  (data : list (gmap string Py.value)) : ReconciliationEngine :=
  {| checks := checks self; results := results self;
     source_data := <[entity_type := data]> (source_data self);
     target_data := target_data self |}.

Definition set_target_data (self : ReconciliationEngine) (entity_type : string)
  (data : list (gmap string Py.value)) : ReconciliationEngine :=
  {| checks := checks self; results := results self;
     source_data := source_data self;
     target_data := <[entity_type := data]> (target_data self) |}.

Definition source_count (self : ReconciliationEngine) (entity_type : string) : nat :=
  length (default [] (source_data self !! entity_type)).

Definition target_count (self : ReconciliationEngine) (entity_type : string) : nat :=
  length (default [] (target_data self !! entity_type)).

(** [int / int]. *)
Definition ratio (a b : nat) : Q :=
  (inject_Z (Z.of_nat a) / inject_Z (Z.of_nat b))%Q.

(** [ReconciliationEngine.run_count_check(entity_type, check)]. *)
Definition run_count_check (self : ReconciliationEngine) (entity_type : string)
  (check : ReconciliationCheck) : CheckResult :=
  let sc := source_count self entity_type in
  let tc := target_count self entity_type in
  if (sc =? 0)%nat then
    {| check_id := id check; check_name := name check;
       result_category := category check; status := SKIPPED;
       source_value := Py.VInt 0; target_value := Py.VInt 0;
       result_threshold := None; actual_value := None |}
  else
    let match_rate := if (0 <? sc)%nat then ratio tc sc else 0%Q in
    let passed := Qle_bool (threshold check) match_rate in
    {| check_id := id check; check_name := name check;
       result_category := category check;
       status := if passed then PASSED else FAILED;
       source_value := Py.VInt (Z.of_nat sc);
       target_value := Py.VInt (Z.of_nat tc);
       result_threshold := Some (threshold check);
       actual_value := Some match_rate |}.

(** [sum(1 for r in results if p(r))]. *)
Definition count_if {A : Type} (p : A -> bool) (l : list A) : nat :=
  length (List.filter p l).

(** The test of [run_completeness_check] on the value of the required
    field. *)
Definition is_complete (v : Py.value) : bool :=
  Py.truthy v
  && negb (String.eqb (Py.strip (Py.str v)) "")
  && negb (existsb (String.eqb (Py.upper (Py.str v))) ["NULL"; "N/A"]).

(** [ReconciliationEngine.run_completeness_check(entity_type,
    required_field, check)]. *)
Definition run_completeness_check (self : ReconciliationEngine)
  (entity_type required_field : string) (check : ReconciliationCheck)
  : CheckResult :=
  match default [] (target_data self !! entity_type) with
  | [] =>
      {| check_id := id check; check_name := name check;
         result_category := category check; status := SKIPPED;
         source_value := Py.VNone; target_value := Py.VNone;
         result_threshold := None; actual_value := None |}
  | entities =>
      let complete_count :=
        count_if (fun entity => is_complete (Py.get entity required_field))
          entities in
      let completeness_rate := ratio complete_count (length entities) in
      let passed := Qle_bool (threshold check) completeness_rate in
      {| check_id := id check; check_name := name check;
         result_category := category check;
         status := if passed then PASSED else WARNING;
         source_value := Py.VInt (Z.of_nat (length entities));
         target_value := Py.VInt (Z.of_nat complete_count);
         result_threshold := Some (threshold check);
         actual_value := Some completeness_rate |}
  end.

Definition blocking_failure (self : ReconciliationEngine) (r : CheckResult) : bool :=
  status_eqb (status r) FAILED
  && existsb (fun c => String.eqb (id c) (check_id r) && is_blocking c) (checks self).

(** The dictionary returned by [get_summary]. *)
Record Summary : Type := mkSummary {
  total_checks : nat;
  passed : nat;
  failed : nat;
  warnings : nat;
  skipped : nat;
  blocking_failures : nat;
  overall_status : string;
  pass_rate : Q
}.

(** [ReconciliationEngine.get_summary()]. *)
Definition get_summary (self : ReconciliationEngine) : Summary :=
  let n_passed := count_if (fun r => status_eqb (status r) PASSED) (results self) in
  let n_failed := count_if (fun r => status_eqb (status r) FAILED) (results self) in
  let n_warnings := count_if (fun r => status_eqb (status r) WARNING) (results self) in
  let n_skipped := count_if (fun r => status_eqb (status r) SKIPPED) (results self) in
  let n_blocking := count_if (blocking_failure self) (results self) in
  {| total_checks := length (results self);
     passed := n_passed;
     failed := n_failed;
     warnings := n_warnings;
     skipped := n_skipped;
     blocking_failures := n_blocking;
     overall_status :=
       if (n_failed =? 0)%nat then "PASSED"
       else if (0 <? n_blocking)%nat then "BLOCKED" else "WARNING";
     pass_rate :=
       match results self with
       | [] => 0%Q
       | _ => ratio n_passed (length (results self))
       end |}.

(** Some result has status Failed. *)
Definition some_check_failed (self : ReconciliationEngine) : Prop :=
  exists r, In r (results self) /\ status r = FAILED.

(** Some result with status Failed belongs to a check flagged blocking. *)
Definition some_blocking_check_failed (self : ReconciliationEngine) : Prop :=
  exists r, In r (results self) /\ status r = FAILED /\
    exists c, In c (checks self) /\ id c = check_id r /\ is_blocking c = true.

(** ** The summary *)

Lemma status_eqb_eq a b : status_eqb a b = true <-> a = b.
Proof. destruct a, b; simpl; split; congruence. Qed.

Lemma count_if_pos {A : Type} (p : A -> bool) (l : list A) :
  (0 < count_if p l)%nat <-> exists x, In x l /\ p x = true.
Proof.
  unfold count_if. induction l as [|y l IH]; simpl.
  - split; [lia | intros (x & [] & _)].
  - destruct (p y) eqn:Hy; simpl.
    + split; [intros _; exists y; auto | lia].
    + rewrite IH. split; intros (x & Hx & Hp); exists x; split; auto.
      destruct Hx as [->|Hx]; [congruence | assumption].
Qed.

Lemma count_if_zero {A : Type} (p : A -> bool) (l : list A) :
  count_if p l = 0%nat <-> ~ exists x, In x l /\ p x = true.
Proof. rewrite <- count_if_pos. lia. Qed.

Lemma count_if_le_length {A : Type} (p : A -> bool) (l : list A) :
  (count_if p l <= length l)%nat.
Proof.
  unfold count_if. induction l as [|y l IH]; simpl; [lia|].
  destruct (p y); simpl; lia.
Qed.

Lemma count_if_mono {A : Type} (p q : A -> bool) (l : list A) :
  (forall x, p x = true -> q x = true) ->
  (count_if p l <= count_if q l)%nat.
Proof.
  intros Hpq. unfold count_if. induction l as [|y l IH]; simpl; [lia|].
  destruct (p y) eqn:Hp; [rewrite (Hpq y Hp); simpl; lia|].
  destruct (q y); simpl; lia.
Qed.


Lemma blocking_failures_pos_iff self :
  (0 < blocking_failures (get_summary self))%nat
  <-> some_blocking_check_failed self.
Proof.
  simpl. rewrite count_if_pos. unfold some_blocking_check_failed, blocking_failure.
  split.
  - intros (r & Hr & Hb). apply andb_true_iff in Hb as [Hs Hc].
    apply status_eqb_eq in Hs. apply existsb_exists in Hc as (c & Hc & Hb).
    apply andb_true_iff in Hb as [Hid Hbl]. apply String.eqb_eq in Hid.
    exists r. repeat split; auto. exists c. auto.
  - intros (r & Hr & Hs & c & Hc & Hid & Hbl). exists r. split; auto.
    apply andb_true_iff. split; [now apply status_eqb_eq|].
    apply existsb_exists. exists c. split; auto.
    apply andb_true_iff. split; auto. now apply String.eqb_eq.
Qed.

Lemma blocking_failure_is_failure self :
  some_blocking_check_failed self -> some_check_failed self.
Proof. intros (r & Hr & Hs & _). now exists r. Qed.


(** ** The count check *)

Lemma source_count_missing self entity_type :
  source_data self !! entity_type = None -> source_count self entity_type = 0%nat.
Proof. unfold source_count. now intros ->. Qed.

(** C9.  A count check is Skipped exactly when the source collection of its
    entity type is empty (or absent); otherwise it is Passed exactly when
    the ratio of the target count to the source count reaches the check's
    threshold, and Failed exactly when it does not. *)
Theorem run_count_check_status (self : ReconciliationEngine)
  (entity_type : string) (check : ReconciliationCheck) :
  let r := run_count_check self entity_type check in
  let sc := source_count self entity_type in
  let tc := target_count self entity_type in
  (status r = SKIPPED <-> sc = 0%nat)
  /\ (status r = PASSED <-> sc <> 0%nat /\ (threshold check <= ratio tc sc)%Q)
  /\ (status r = FAILED <-> sc <> 0%nat /\ ~ (threshold check <= ratio tc sc)%Q).
Proof.
  cbv zeta. unfold run_count_check.
  destruct (Nat.eqb_spec (source_count self entity_type) 0) as [H0|H0]; simpl.
  - repeat split; try discriminate; tauto.
  - assert (Hpos : (0 <? source_count self entity_type)%nat = true)
      by (apply Nat.ltb_lt; lia).
    rewrite Hpos.
    destruct (Qle_bool (threshold check)
                (ratio (target_count self entity_type)
                   (source_count self entity_type))) eqn:Hq.
    + apply Qle_bool_iff in Hq.
      repeat split; try discriminate; try tauto; intros; tauto.
    + assert (Hn : ~ (threshold check
                      <= ratio (target_count self entity_type)
                           (source_count self entity_type))%Q).
      { intros Hle. apply Qle_bool_iff in Hle. congruence. }
      repeat split; try discriminate; try tauto; intros; tauto.
Qed.

(** ** Concrete runs *)



Definition with_results (self : ReconciliationEngine) (rs : list CheckResult)
  : ReconciliationEngine :=
  {| checks := checks self; results := rs;
     source_data := source_data self; target_data := target_data self |}.





(** ** The referential check *)

(** [a or b]. *)
Definition py_or (a b : Py.value) : Py.value := if Py.truthy a then a else b.

(** A result with status Skipped: no values, no threshold. *)
Definition skipped_result (check : ReconciliationCheck) : CheckResult :=
  {| check_id := id check; check_name := name check;
     result_category := category check; status := SKIPPED;
     source_value := Py.VNone; target_value := Py.VNone;
     result_threshold := None; actual_value := None |}.

(** [parent.get("student_id") or parent.get("id") or parent.get("guardian_id")]. *)
Definition parent_key (parent : gmap string Py.value) : Py.value :=
  py_or (py_or (Py.get parent "student_id") (Py.get parent "id"))
    (Py.get parent "guardian_id").

(** The set [parent_ids]. *)
Definition parent_ids (parents : list (gmap string Py.value)) : gset string :=
  fold_left
    (fun ids parent =>
       let parent_id := parent_key parent in
       if Py.truthy parent_id then ids ∪ {[ Py.str parent_id ]} else ids)
    parents ∅.

(** The test on a child: [fk_value and str(fk_value) in parent_ids]. *)
Definition valid_reference (ids : gset string) (foreign_key : string)
  (child : gmap string Py.value) : bool :=
  let fk_value := Py.get child foreign_key in
  Py.truthy fk_value && bool_decide (Py.str fk_value ∈ ids).

(** [ReconciliationEngine.run_referential_check(child_type, parent_type,
    foreign_key, check)]. *)
Definition run_referential_check (self : ReconciliationEngine)
  (child_type parent_type foreign_key : string) (check : ReconciliationCheck)
  : CheckResult :=
  let children := default [] (target_data self !! child_type) in
  let parents := default [] (target_data self !! parent_type) in
  match children with
  | [] => skipped_result check
  | _ =>
      let ids := parent_ids parents in
      let valid_count := count_if (valid_reference ids foreign_key) children in
      let match_rate :=
        match children with
        | [] => 0%Q
        | _ => ratio valid_count (length children)
        end in
      let passed := Qle_bool (threshold check) match_rate in
      {| check_id := id check; check_name := name check;
         result_category := category check;
         status := if passed then PASSED else FAILED;
         source_value := Py.VInt (Z.of_nat (length children));
         target_value := Py.VInt (Z.of_nat valid_count);
         result_threshold := Some (threshold check);
         actual_value := Some match_rate |}
  end.

(** The child's foreign key is set and is the id of some parent. *)
Definition referenced (parents : list (gmap string Py.value))
  (foreign_key : string) (child : gmap string Py.value) : Prop :=
  Py.truthy (Py.get child foreign_key) = true
  /\ exists parent, In parent parents
       /\ Py.truthy (parent_key parent) = true
       /\ Py.str (parent_key parent) = Py.str (Py.get child foreign_key).

Lemma parent_ids_spec parents s :
  s ∈ parent_ids parents
  <-> exists parent, In parent parents
        /\ Py.truthy (parent_key parent) = true /\ Py.str (parent_key parent) = s.
Proof.
  unfold parent_ids.
  assert (H : forall ids : gset string,
    s ∈ fold_left
          (fun ids parent =>
             let parent_id := parent_key parent in
             if Py.truthy parent_id then ids ∪ {[ Py.str parent_id ]} else ids)
          parents ids
    <-> s ∈ ids \/ exists parent, In parent parents
          /\ Py.truthy (parent_key parent) = true /\ Py.str (parent_key parent) = s).
  { induction parents as [|p parents IH]; intros ids; cbn [fold_left].
    - split; [auto | intros [H|(p & [] & _)]; exact H].
    - rewrite IH. cbv zeta. destruct (Py.truthy (parent_key p)) eqn:E.
      + rewrite elem_of_union, elem_of_singleton. split.
        * intros [[H|H]|(q & Hq & H)]; [now left | right; exists p; simpl; auto |
                                         right; exists q; simpl; tauto].
        * intros [H|(q & [<-|Hq] & Ht & Hs)]; [tauto | left; right; congruence |
                                                right; exists q; tauto].
      + split.
        * intros [H|(q & Hq & H)]; [now left | right; exists q; simpl; tauto].
        * intros [H|(q & [<-|Hq] & Ht & Hs)]; [tauto | congruence |
                                                right; exists q; tauto]. }
  rewrite H. split; [intros [Hs|Hs]; [set_solver | exact Hs] | now right].
Qed.

Lemma valid_reference_spec parents foreign_key child :
  valid_reference (parent_ids parents) foreign_key child = true
  <-> referenced parents foreign_key child.
Proof.
  unfold valid_reference, referenced. cbv zeta.
  rewrite andb_true_iff, bool_decide_eq_true, parent_ids_spec. reflexivity.
Qed.

Lemma count_if_full {A : Type} (p : A -> bool) (l : list A) :
  count_if p l = length l <-> List.Forall (fun x => p x = true) l.
Proof.
  unfold count_if. induction l as [|x l IH]; simpl.
  - split; [constructor | reflexivity].
  - pose proof (List.filter_length_le p l) as Hle.
    destruct (p x) eqn:E; simpl; split.
    + intros H. constructor; [exact E | apply IH; lia].
    + intros H. inversion H; subst. f_equal. now apply IH.
    + intros H. lia.
    + intros H. inversion H; subst. congruence.
Qed.

Lemma ratio_ge_one a b :
  (a <= b)%nat -> (0 < b)%nat -> (1 <= ratio a b)%Q <-> a = b.
Proof.
  intros Hab Hb. unfold ratio, Qle, Qdiv, Qmult, Qinv, inject_Z.
  destruct b as [|b]; [lia|]. simpl. split; [nia | intros ->; nia].
Qed.

Lemma ratio_zero b : (ratio 0 b == 0)%Q.
Proof. unfold ratio, Qdiv. simpl. ring. Qed.

Lemma Qle_bool_spec a b : reflect (a <= b)%Q (Qle_bool a b).
Proof.
  destruct (Qle_bool a b) eqn:E; constructor.
  - now apply Qle_bool_iff.
  - intros H. apply Qle_bool_iff in H. congruence.
Qed.

Lemma run_referential_check_cases self child_type parent_type foreign_key check :
  let r := run_referential_check self child_type parent_type foreign_key check in
  let children := default [] (target_data self !! child_type) in
  let parents := default [] (target_data self !! parent_type) in
  let valid :=
    count_if (valid_reference (parent_ids parents) foreign_key) children in
  (children = [] /\ r = skipped_result check)
  \/ (children <> []
      /\ r = {| check_id := id check; check_name := name check;
                result_category := category check;
                status := if Qle_bool (threshold check)
                               (ratio valid (length children))
                          then PASSED else FAILED;
                source_value := Py.VInt (Z.of_nat (length children));
                target_value := Py.VInt (Z.of_nat valid);
                result_threshold := Some (threshold check);
                actual_value := Some (ratio valid (length children)) |}).
Proof.
  cbv zeta. unfold run_referential_check. cbv zeta.
  destruct (default [] (target_data self !! child_type)) as [|c cs];
    [left | right]; split; try reflexivity; discriminate.
Qed.

(** X28.  A referential check is Skipped exactly when the child collection
    is empty (or absent); otherwise it is Passed exactly when the share of
    children with a valid reference reaches the threshold, and Failed
    exactly when it does not.  A reference is valid exactly when the
    child's foreign key is set and its string is the string of the id of
    some parent, the id of a parent being its [student_id], else its [id],
    else its [guardian_id].  With threshold 1, as for the registered
    referential checks, the check passes exactly when every child has a
    valid reference; with a positive threshold and no parents it fails. *)
Theorem run_referential_check_status (self : ReconciliationEngine)
  (child_type parent_type foreign_key : string) (check : ReconciliationCheck) :
  let r := run_referential_check self child_type parent_type foreign_key check in
  let children := default [] (target_data self !! child_type) in
  let parents := default [] (target_data self !! parent_type) in
  let valid :=
    count_if (valid_reference (parent_ids parents) foreign_key) children in
  (status r = SKIPPED <-> children = [])
  /\ (status r = PASSED
      <-> children <> [] /\ (threshold check <= ratio valid (length children))%Q)
  /\ (status r = FAILED
      <-> children <> [] /\ ~ (threshold check <= ratio valid (length children))%Q)
  /\ (forall child,
        valid_reference (parent_ids parents) foreign_key child = true
        <-> referenced parents foreign_key child)
  /\ (children <> [] ->
      source_value r = Py.VInt (Z.of_nat (length children))
      /\ target_value r = Py.VInt (Z.of_nat valid)
      /\ (valid <= length children)%nat
      /\ actual_value r = Some (ratio valid (length children)))
  /\ ((threshold check == 1)%Q ->
      (status r = PASSED
       <-> children <> [] /\ List.Forall (referenced parents foreign_key) children))
  /\ ((0 < threshold check)%Q -> parents = [] -> children <> [] ->
      status r = FAILED).
Proof.
  cbv zeta.
  pose proof (run_referential_check_cases self child_type parent_type foreign_key
                check) as Hcases.
  cbv zeta in Hcases.
  set (r := run_referential_check self child_type parent_type foreign_key check) in *.
  set (children := default [] (target_data self !! child_type)) in *.
  set (parents := default [] (target_data self !! parent_type)) in *.
  set (valid := count_if (valid_reference (parent_ids parents) foreign_key) children)
    in *.
  assert (Hle : (valid <= length children)%nat) by apply count_if_le_length.
  assert (Hall : List.Forall (referenced parents foreign_key) children
                 <-> valid = length children).
  { split.
    - intros H. apply count_if_full.
      eapply List.Forall_impl; [|exact H]. intros x Hx.
      now apply valid_reference_spec.
    - intros H. apply count_if_full in H.
      eapply List.Forall_impl; [|exact H]. intros x Hx.
      now apply valid_reference_spec. }
  split; [|split; [|split; [|split; [|split; [|split]]]]];
    try (intros child; apply valid_reference_spec).
  - destruct Hcases as [[Hc ->]|[Hc ->]]; cbn [status skipped_result];
      [tauto|]. split; [destruct (Qle_bool _ _); discriminate | tauto].
  - destruct Hcases as [[Hc ->]|[Hc ->]]; cbn [status skipped_result];
      [split; [discriminate | tauto]|].
    destruct (Qle_bool_spec (threshold check) (ratio valid (length children)));
      split; try discriminate; tauto.
  - destruct Hcases as [[Hc ->]|[Hc ->]]; cbn [status skipped_result];
      [split; [discriminate | tauto]|].
    destruct (Qle_bool_spec (threshold check) (ratio valid (length children)));
      split; try discriminate; tauto.
  - intros Hne. destruct Hcases as [[Hc _]|[_ ->]]; [contradiction|].
    cbn [source_value target_value actual_value]. auto.
  - intros Ht. rewrite Hall.
    destruct Hcases as [[Hc ->]|[Hc ->]]; cbn [status skipped_result];
      [split; [discriminate | tauto]|].
    assert (Hpos : (0 < length children)%nat)
      by (destruct children; [congruence | simpl; lia]).
    rewrite <- (ratio_ge_one valid (length children) Hle Hpos).
    destruct (Qle_bool_spec (threshold check) (ratio valid (length children)))
      as [Hq|Hq]; rewrite Ht in Hq.
    + split; [intros _; split; assumption | reflexivity].
    + split; [discriminate | intros [_ H]; contradiction].
  - intros Ht Hp Hne. destruct Hcases as [[Hc _]|[_ ->]]; [contradiction|].
    cbn [status].
    assert (Hv : valid = 0%nat).
    { apply count_if_zero. intros (x & Hx & Hv).
      apply valid_reference_spec in Hv as (_ & p & Hp' & _).
      rewrite Hp in Hp'. destruct Hp'. }
    rewrite Hv.
    destruct (Qle_bool_spec (threshold check) (ratio 0 (length children)))
      as [Hq|Hq]; [|reflexivity].
    rewrite ratio_zero in Hq. lra.
Qed.

(** ** Sampling, hashing and the run of all checks *)

(** The checks registered by [_register_default_checks] besides the count
    checks and the contact check. *)
Definition ref_enrollment_student : ReconciliationCheck :=
  mkCheck "ref_enrollment_student" "Enrollment-Student Reference" REFERENTIAL
    "All enrollments reference valid students" 1 true.

Definition ref_grade_student : ReconciliationCheck :=
  mkCheck "ref_grade_student" "Grade-Student Reference" REFERENTIAL
    "All grades reference valid students" 1 true.

Definition ref_attendance_student : ReconciliationCheck :=
  mkCheck "ref_attendance_student" "Attendance-Student Reference" REFERENTIAL
    "All attendance records reference valid students" 1 true.

Definition ref_guardian_student : ReconciliationCheck :=
  mkCheck "ref_guardian_student" "Guardian-Student Relationship" REFERENTIAL
    "All guardian relationships reference valid students" 1 false.

Definition complete_student_guardian : ReconciliationCheck :=
  mkCheck "complete_student_guardian" "Student Guardian Coverage" COMPLETENESS
    "99.5%+ students have at least one guardian" (995 # 1000) false.

Definition complete_student_enrollment : ReconciliationCheck :=
  mkCheck "complete_student_enrollment" "Student Enrollment" COMPLETENESS
    "All students have at least one enrollment" 1 false.

Definition sample_student_data : ReconciliationCheck :=
  mkCheck "sample_student_data" "Student Data Sampling" SAMPLING
    "Random sample verification of student records" (99 # 100) false.

Definition sample_grade_data : ReconciliationCheck :=
  mkCheck "sample_grade_data" "Grade Data Sampling" SAMPLING
    "Random sample verification of grade records" (99 # 100) false.

Definition integrity_hash : ReconciliationCheck :=
  mkCheck "integrity_hash" "Data Hash Verification" INTEGRITY
    "Verify data integrity via hash comparison" 1 true.

Definition default_checks : list ReconciliationCheck :=
  [count_students; count_guardians; count_enrollments; count_grades;
   count_attendance;
   ref_enrollment_student; ref_grade_student; ref_attendance_student;
   ref_guardian_student;
   complete_student_guardian; complete_student_contact;
   complete_student_enrollment;
   sample_student_data; sample_grade_data;
   integrity_hash].

(** [register_check(check)]. *)
Definition register_check (self : ReconciliationEngine)
  (check : ReconciliationCheck) : ReconciliationEngine :=
  {| checks := (checks self ++ [check])%list; results := results self;
     source_data := source_data self; target_data := target_data self |}.

(** [_register_default_checks()]. *)
Definition _register_default_checks (self : ReconciliationEngine)
  : ReconciliationEngine :=
  fold_left register_check default_checks self.

(** [ReconciliationEngine()]. *)
Definition new_engine : ReconciliationEngine :=
  _register_default_checks
    {| checks := []; results := []; source_data := ∅; target_data := ∅ |}.

(** [record.get("student_id") or record.get("id")]. *)
Definition record_key (record : gmap string Py.value) : Py.value :=
  py_or (Py.get record "student_id") (Py.get record "id").

(** The dictionary [target_lookup]. *)
Definition target_lookup (target : list (gmap string Py.value))
  : gmap string (gmap string Py.value) :=
  fold_left
    (fun lookup record =>
       let key := record_key record in
       if Py.truthy key then <[Py.str key := record]> lookup else lookup)
    target ∅.

Definition fields_to_check : list string :=
  ["first_name"; "last_name"; "email"; "grade"; "status"].

(** [str(v).strip().lower() if v else ""]. *)
Definition field_text (v : Py.value) : string :=
  if Py.truthy v then Py.lower (Py.strip (Py.str v)) else "".

(** One turn of the loop of [_records_match]: [false] when the loop returns
    [False] at this field. *)
Definition field_agrees (source target : gmap string Py.value) (field : string)
  : bool :=
  match source !! field, target !! field with
  | Some s, Some t =>
      let s_val := field_text s in
      let t_val := field_text t in
      negb (negb (String.eqb s_val "") && negb (String.eqb t_val "")
            && negb (String.eqb s_val t_val))
  | _, _ => true
  end.

(** [ReconciliationEngine._records_match(source, target)]. *)
Definition _records_match (source target : gmap string Py.value) : bool :=
  forallb (field_agrees source target) fields_to_check.

(** The test of the sampling loop on a record of the sample. *)
Definition verified_record (lookup : gmap string (gmap string Py.value))
  (source_record : gmap string Py.value) : bool :=
  let key := record_key source_record in
  match lookup !! Py.str key with
  | Some target_record =>
      negb (size target_record =? 0)%nat
      && _records_match source_record target_record
  | None => false
  end.

(** The stable sort of [sorted(records, key=...)], strings compared
    character by character. *)
Fixpoint insert_by_key (key : gmap string Py.value -> string)
  (x : gmap string Py.value) (l : list (gmap string Py.value))
  : list (gmap string Py.value) :=
  match l with
  | [] => [x]
  | y :: l' =>
      if String.leb (key x) (key y) then x :: y :: l'
      else y :: insert_by_key key x l'
  end.

Fixpoint sorted_by_key (key : gmap string Py.value -> string)
  (l : list (gmap string Py.value)) : list (gmap string Py.value) :=
  match l with
  | [] => []
  | x :: l' => insert_by_key key x (sorted_by_key key l')
  end.

(** [record.get("student_id") or record.get("id", "")]. *)
Definition hash_key (record : gmap string Py.value) : Py.value :=
  py_or (Py.get record "student_id") (Py.get_or record "id" (Py.VStr "")).

(** The text a record adds to [hash_input]. *)
Definition hash_line (record : gmap string Py.value) : string :=
  let key := hash_key record in
  let name := Py.str (Py.get_or record "first_name" (Py.VStr ""))
              ++ Py.str (Py.get_or record "last_name" (Py.VStr "")) in
  Py.str key ++ "|" ++ name ++ "|".

Section Checks.

(** [random.sample(population, k)]. *)
Variable sample : list (gmap string Py.value) -> nat -> list (gmap string Py.value).

(** [hashlib.sha256(s.encode()).hexdigest()]. *)
Variable sha256 : string -> string.

(** [ReconciliationEngine.run_sampling_check(entity_type, sample_size,
    check)] for a sample size that is not negative; [None] stands for the
    [ZeroDivisionError] of an empty sample. *)
Definition run_sampling_check (self : ReconciliationEngine) (entity_type : string)
  (sample_size : nat) (check : ReconciliationCheck) : option CheckResult :=
  let source := default [] (source_data self !! entity_type) in
  let target := default [] (target_data self !! entity_type) in
  match source, target with
  | [], _ | _, [] => Some (skipped_result check)
  | _, _ =>
      let lookup := target_lookup target in
      let sample_records := sample source (Nat.min sample_size (length source)) in
      let matches := count_if (verified_record lookup) sample_records in
      match sample_records with
      | [] => None
      | _ =>
          let match_rate := ratio matches (length sample_records) in
          let passed := Qle_bool (threshold check) match_rate in
          Some {| check_id := id check; check_name := name check;
                  result_category := category check;
                  status := if passed then PASSED else FAILED;
                  source_value := Py.VInt (Z.of_nat (length sample_records));
                  target_value := Py.VInt (Z.of_nat matches);
                  result_threshold := Some (threshold check);
                  actual_value := Some match_rate |}
      end
  end.

(** [ReconciliationEngine._calculate_collection_hash(records)]. *)
Definition _calculate_collection_hash (records : list (gmap string Py.value))
  : string :=
  let sorted_records :=
    sorted_by_key (fun r => Py.str (hash_key r)) records in
  let hash_input :=
    fold_left (fun acc record => acc ++ hash_line record) sorted_records "" in
  sha256 hash_input.

(** [ReconciliationEngine.run_hash_check(entity_type, check)]. *)
Definition run_hash_check (self : ReconciliationEngine) (entity_type : string)
  (check : ReconciliationCheck) : CheckResult :=
  let source := default [] (source_data self !! entity_type) in
  let target := default [] (target_data self !! entity_type) in
  match source, target with
  | [], _ | _, [] => skipped_result check
  | _, _ =>
      let source_hash := _calculate_collection_hash source in
      let target_hash := _calculate_collection_hash target in
      let passed := String.eqb source_hash target_hash in
      {| check_id := id check; check_name := name check;
         result_category := category check;
         status := if passed then PASSED else WARNING;
         source_value := Py.VStr (Py.prefix 16 source_hash);
         target_value := Py.VStr (Py.prefix 16 target_hash);
         result_threshold := None; actual_value := None |}
  end.

(** [ReconciliationEngine._run_check(check)]; [None] stands for an
    exception. *)
Definition _run_check (self : ReconciliationEngine) (check : ReconciliationCheck)
  : option CheckResult :=
  if String.eqb (id check) "count_students"
  then Some (run_count_check self "students" check)
  else if String.eqb (id check) "count_guardians"
  then Some (run_count_check self "guardians" check)
  else if String.eqb (id check) "count_enrollments"
  then Some (run_count_check self "enrollments" check)
  else if String.eqb (id check) "count_grades"
  then Some (run_count_check self "grades" check)
  else if String.eqb (id check) "count_attendance"
  then Some (run_count_check self "attendance" check)
  else if String.eqb (id check) "ref_enrollment_student"
  then Some (run_referential_check self "enrollments" "students" "student_id" check)
  else if String.eqb (id check) "ref_grade_student"
  then Some (run_referential_check self "grades" "students" "student_id" check)
  else if String.eqb (id check) "ref_attendance_student"
  then Some (run_referential_check self "attendance" "students" "student_id" check)
  else if String.eqb (id check) "ref_guardian_student"
  then Some (run_referential_check self "relationships" "students" "student_id"
               check)
  else if String.eqb (id check) "complete_student_guardian"
  then Some (run_completeness_check self "students" "guardian_id" check)
  else if String.eqb (id check) "complete_student_contact"
  then Some (run_completeness_check self "students" "email" check)
  else if String.eqb (id check) "complete_student_enrollment"
  then Some (run_completeness_check self "students" "enrollment_id" check)
  else if String.eqb (id check) "sample_student_data"
  then run_sampling_check self "students" 10 check
  else if String.eqb (id check) "sample_grade_data"
  then run_sampling_check self "grades" 20 check
  else if String.eqb (id check) "integrity_hash"
  then Some (run_hash_check self "students" check)
  else Some (skipped_result check).

(** The loop of [run_all_checks]: the results so far, then one result per
    check; [None] when a check raises. *)
Fixpoint run_checks (self : ReconciliationEngine) (cs : list ReconciliationCheck)
  (acc : list CheckResult) : option (list CheckResult) :=
  match cs with
  | [] => Some acc
  | check :: cs' =>
      match _run_check self check with
      | Some result => run_checks self cs' (acc ++ [result])%list
      | None => None
      end
  end.

(** [ReconciliationEngine.run_all_checks()]: the new engine and the
    returned list. *)
Definition run_all_checks (self : ReconciliationEngine)
  : option (ReconciliationEngine * list CheckResult) :=
  match run_checks self (checks self) [] with
  | Some rs => Some (with_results self rs, rs)
  | None => None
  end.

End Checks.

(** The result of a check carries the id, the name and the category of
    the check. *)
Definition attributed (check : ReconciliationCheck) (r : CheckResult) : Prop :=
  check_id r = id check /\ check_name r = name check
  /\ result_category r = category check.

Lemma run_count_check_attributed self entity_type check :
  attributed check (run_count_check self entity_type check)
  /\ In (status (run_count_check self entity_type check)) [PASSED; FAILED; SKIPPED].
Proof.
  unfold run_count_check, attributed. cbv zeta.
  destruct (_ =? _)%nat; cbn [check_id check_name result_category status];
    [simpl; tauto|].
  destruct (Qle_bool _ _); simpl; tauto.
Qed.

Lemma run_referential_check_attributed self child_type parent_type foreign_key check :
  attributed check
    (run_referential_check self child_type parent_type foreign_key check)
  /\ In (status (run_referential_check self child_type parent_type foreign_key
                   check)) [PASSED; FAILED; SKIPPED].
Proof.
  destruct (run_referential_check_cases self child_type parent_type foreign_key
              check) as [[_ ->]|[_ ->]]; unfold attributed;
    cbn [check_id check_name result_category status skipped_result];
    [simpl; tauto|].
  destruct (Qle_bool _ _); simpl; tauto.
Qed.

Lemma run_completeness_check_attributed self entity_type required_field check :
  attributed check (run_completeness_check self entity_type required_field check)
  /\ In (status (run_completeness_check self entity_type required_field check))
       [PASSED; WARNING; SKIPPED].
Proof.
  unfold run_completeness_check, attributed.
  destruct (default [] (target_data self !! entity_type));
    cbn [check_id check_name result_category status]; [simpl; tauto|].
  destruct (Qle_bool _ _); simpl; tauto.
Qed.

Lemma run_hash_check_attributed sha256 self entity_type check :
  attributed check (run_hash_check sha256 self entity_type check)
  /\ In (status (run_hash_check sha256 self entity_type check))
       [PASSED; WARNING; SKIPPED].
Proof.
  unfold run_hash_check, attributed.
  destruct (default [] (source_data self !! entity_type));
    [cbn [check_id check_name result_category status skipped_result]; simpl; tauto|].
  destruct (default [] (target_data self !! entity_type));
    cbn [check_id check_name result_category status skipped_result];
    [simpl; tauto|].
  cbv zeta. cbn [check_id check_name result_category status].
  destruct (String.eqb _ _); simpl; tauto.
Qed.

(** The checks that can have a Failed result. *)
Definition failing_checks : list string :=
  ["count_students"; "count_guardians"; "count_enrollments"; "count_grades";
   "count_attendance"; "ref_enrollment_student"; "ref_grade_student";
   "ref_attendance_student"; "ref_guardian_student"; "sample_student_data";
   "sample_grade_data"].

(** The counts of a list of results without a result in progress. *)
Lemma count_if_statuses (rs : list CheckResult) :
  List.Forall (fun r => In (status r) [PASSED; FAILED; WARNING; SKIPPED]) rs ->
  (count_if (fun r => status_eqb (status r) PASSED) rs
   + count_if (fun r => status_eqb (status r) FAILED) rs
   + count_if (fun r => status_eqb (status r) WARNING) rs
   + count_if (fun r => status_eqb (status r) SKIPPED) rs = length rs)%nat.
Proof.
  unfold count_if. induction 1 as [|r rs Hr _ IH]; [reflexivity|].
  cbn [List.filter length].
  destruct Hr as [<-|[<-|[<-|[<-|[]]]]]; cbn [status_eqb length]; lia.
Qed.

Lemma blocked_iff self :
  overall_status (get_summary self) = "BLOCKED" <-> some_blocking_check_failed self.
Proof.
  rewrite <- blocking_failures_pos_iff.
  assert (Hle : (blocking_failures (get_summary self)
                 <= failed (get_summary self))%nat).
  { simpl. apply count_if_mono. intros r Hr.
    unfold blocking_failure in Hr. now apply andb_true_iff in Hr as [Hr _]. }
  assert (Hs : overall_status (get_summary self) =
               if (failed (get_summary self) =? 0)%nat then "PASSED"
               else if (0 <? blocking_failures (get_summary self))%nat
                    then "BLOCKED" else "WARNING") by reflexivity.
  rewrite Hs.
  destruct (Nat.eqb_spec (failed (get_summary self)) 0) as [H0|H0];
    [split; [discriminate | lia]|].
  destruct (Nat.ltb_spec 0 (blocking_failures (get_summary self))) as [H1|H1];
    [tauto | split; [discriminate | lia]].
Qed.

Section Run.

Variable sample : list (gmap string Py.value) -> nat -> list (gmap string Py.value).
Variable sha256 : string -> string.

(** A sample of [k] records of a list of at least [k] has [k] records. *)
Hypothesis sample_length :
  forall l k, (k <= length l)%nat -> length (sample l k) = k.

Lemma run_sampling_check_attributed self entity_type sample_size check :
  (0 < sample_size)%nat ->
  exists r, run_sampling_check sample self entity_type sample_size check = Some r
            /\ attributed check r
            /\ In (status r) [PASSED; FAILED; SKIPPED].
Proof.
  intros Hpos. unfold run_sampling_check, attributed.
  destruct (default [] (source_data self !! entity_type)) as [|s src];
    [eexists; split; [reflexivity|]; simpl; tauto|].
  destruct (default [] (target_data self !! entity_type)) as [|t tgt];
    [eexists; split; [reflexivity|]; simpl; tauto|].
  cbv zeta.
  pose proof (sample_length (s :: src) (Nat.min sample_size (length (s :: src)))
                (Nat.le_min_r _ _)) as Hlen.
  destruct (sample (s :: src) (Nat.min sample_size (length (s :: src))))
    as [|x xs] eqn:E.
  - cbn [length] in Hlen. lia.
  - eexists. split; [reflexivity|].
    cbn [check_id check_name result_category status].
    destruct (Qle_bool _ _); simpl; tauto.
Qed.

Lemma _run_check_result self check :
  exists r, _run_check sample sha256 self check = Some r
            /\ attributed check r
            /\ In (status r) [PASSED; FAILED; WARNING; SKIPPED]
            /\ (status r = FAILED -> In (id check) failing_checks).
Proof.
  unfold _run_check.
  repeat match goal with
  | |- context [String.eqb (id check) ?s] =>
      destruct (String.eqb_spec (id check) s) as [E|?]; cbv iota
  end.
  all: try (eexists; split; [reflexivity|];
            match goal with
            | |- attributed _ (run_count_check ?e ?t ?c) /\ _ =>
                destruct (run_count_check_attributed e t c) as [Ha Hs]
            | |- attributed _ (run_referential_check ?e ?a ?b ?f ?c) /\ _ =>
                destruct (run_referential_check_attributed e a b f c) as [Ha Hs]
            | |- attributed _ (run_completeness_check ?e ?a ?b ?c) /\ _ =>
                destruct (run_completeness_check_attributed e a b c) as [Ha Hs]
            | |- attributed _ (run_hash_check ?h ?e ?a ?c) /\ _ =>
                destruct (run_hash_check_attributed h e a c) as [Ha Hs]
            | |- attributed _ (skipped_result ?c) /\ _ =>
                assert (Ha : attributed c (skipped_result c))
                  by (unfold attributed; simpl; tauto);
                assert (Hs : In (status (skipped_result c)) [SKIPPED])
                  by (simpl; tauto)
            end;
            split; [exact Ha|]; split;
            [simpl in Hs |- *; tauto|];
            intros Hf; rewrite Hf in Hs; simpl in Hs;
            first [ rewrite E; simpl; tauto
                  | exfalso; intuition discriminate ]).
  - destruct (run_sampling_check_attributed self "students" 10 check)
      as (r & Hr & Ha & Hs); [lia|].
    exists r. split; [exact Hr|]. split; [exact Ha|].
    split; [simpl in Hs |- *; tauto|]. intros _. rewrite E. simpl. tauto.
  - destruct (run_sampling_check_attributed self "grades" 20 check)
      as (r & Hr & Ha & Hs); [lia|].
    exists r. split; [exact Hr|]. split; [exact Ha|].
    split; [simpl in Hs |- *; tauto|]. intros _. rewrite E. simpl. tauto.
Qed.

(** The result [_run_check] returns for a check. *)
Definition result_of (self : ReconciliationEngine) (check : ReconciliationCheck)
  : CheckResult :=
  default (skipped_result check) (_run_check sample sha256 self check).

Lemma result_of_eq self check :
  _run_check sample sha256 self check = Some (result_of self check).
Proof.
  unfold result_of.
  destruct (_run_check_result self check) as (r & -> & _). reflexivity.
Qed.

Lemma run_checks_map self cs : forall acc,
  run_checks sample sha256 self cs acc = Some (acc ++ map (result_of self) cs)%list.
Proof.
  induction cs as [|c cs IH]; intros acc; cbn [run_checks map].
  - now rewrite app_nil_r.
  - rewrite result_of_eq, IH, <- app_assoc. reflexivity.
Qed.

Lemma result_of_status self check :
  attributed check (result_of self check)
  /\ In (status (result_of self check)) [PASSED; FAILED; WARNING; SKIPPED]
  /\ (status (result_of self check) = FAILED -> In (id check) failing_checks).
Proof.
  destruct (_run_check_result self check) as (r & Hr & H).
  rewrite result_of_eq in Hr. injection Hr as <-. exact H.
Qed.

Lemma integrity_hash_not_failed self :
  status (result_of self integrity_hash) <> FAILED.
Proof.
  intros H. apply (proj2 (proj2 (result_of_status self integrity_hash))) in H.
  simpl in H. intuition discriminate.
Qed.

(** With the registered checks, a blocking check has failed exactly when
    one of four checks has. *)
Lemma default_checks_blocking self :
  (exists c', In c' default_checks /\ status (result_of self c') = FAILED
     /\ exists c, In c default_checks /\ id c = id c' /\ is_blocking c = true)
  <-> status (run_count_check self "students" count_students) = FAILED
      \/ status (run_referential_check self "enrollments" "students" "student_id"
                   ref_enrollment_student) = FAILED
      \/ status (run_referential_check self "grades" "students" "student_id"
                   ref_grade_student) = FAILED
      \/ status (run_referential_check self "attendance" "students" "student_id"
                   ref_attendance_student) = FAILED.
Proof.
  split.
  - intros (c' & Hc' & Hf & c & Hc & Hid & Hb).
    unfold default_checks in Hc'. cbn [In] in Hc'.
    repeat (destruct Hc' as [<-|Hc']);
      try (exfalso; exact Hc');
      try (exfalso; exact (integrity_hash_not_failed self Hf));
      try (left; exact Hf);
      try (right; left; exact Hf);
      try (right; right; left; exact Hf);
      try (right; right; right; exact Hf);
      exfalso; unfold default_checks in Hc; cbn [In] in Hc;
      repeat (destruct Hc as [<-|Hc]); try exact Hc; discriminate.
  - intros [H|[H|[H|H]]].
    + exists count_students. split; [simpl; tauto|]. split; [exact H|].
      exists count_students. split; [simpl; tauto|]. split; reflexivity.
    + exists ref_enrollment_student. split; [simpl; tauto|]. split; [exact H|].
      exists ref_enrollment_student. split; [simpl; tauto|]. split; reflexivity.
    + exists ref_grade_student. split; [simpl; tauto|]. split; [exact H|].
      exists ref_grade_student. split; [simpl; tauto|]. split; reflexivity.
    + exists ref_attendance_student. split; [simpl; tauto|]. split; [exact H|].
      exists ref_attendance_student. split; [simpl; tauto|]. split; reflexivity.
Qed.

(** X29.  [run_all_checks] returns, and stores as the results, one result
    per registered check, in the order of the checks, each with the id,
    the name and the category of its check and with status Passed, Failed,
    Warning or Skipped.  Only count, referential and sampling checks can
    have a Failed result: the completeness checks, the hash check and the
    checks [_run_check] does not know never fail.  The summary of the run
    counts every check once, and with the checks registered by default its
    overall status is BLOCKED exactly when the student count check or one
    of the three blocking referential checks has failed; the hash check,
    although flagged blocking, never blocks. *)
Theorem run_all_checks_results (self : ReconciliationEngine) :
  exists rs,
    run_all_checks sample sha256 self = Some (with_results self rs, rs)
    /\ map check_id rs = map id (checks self)
    /\ map check_name rs = map name (checks self)
    /\ map result_category rs = map category (checks self)
    /\ List.Forall (fun r => In (status r) [PASSED; FAILED; WARNING; SKIPPED]) rs
    /\ List.Forall (fun r => status r = FAILED -> In (check_id r) failing_checks) rs
    /\ (let s := get_summary (with_results self rs) in
        total_checks s = length (checks self)
        /\ (passed s + failed s + warnings s + skipped s = total_checks s)%nat
        /\ (blocking_failures s <= failed s)%nat
        /\ (checks self = default_checks ->
            (overall_status s = "BLOCKED"
             <-> status (run_count_check self "students" count_students) = FAILED
                 \/ status (run_referential_check self "enrollments" "students"
                              "student_id" ref_enrollment_student) = FAILED
                 \/ status (run_referential_check self "grades" "students"
                              "student_id" ref_grade_student) = FAILED
                 \/ status (run_referential_check self "attendance" "students"
                              "student_id" ref_attendance_student) = FAILED))).
Proof.
  exists (map (result_of self) (checks self)).
  assert (Hst : List.Forall
            (fun r => In (status r) [PASSED; FAILED; WARNING; SKIPPED])
            (map (result_of self) (checks self))).
  { apply List.Forall_forall. intros r Hr. apply in_map_iff in Hr as (c & <- & _).
    apply (result_of_status self c). }
  split; [unfold run_all_checks; now rewrite run_checks_map|].
  split; [rewrite map_map; apply map_ext; intros c;
          apply (result_of_status self c)|].
  split; [rewrite map_map; apply map_ext; intros c;
          apply (result_of_status self c)|].
  split; [rewrite map_map; apply map_ext; intros c;
          apply (result_of_status self c)|].
  split; [exact Hst|].
  split.
  { apply List.Forall_forall. intros r Hr. apply in_map_iff in Hr as (c & <- & _).
    destruct (result_of_status self c) as ((Hid & _) & _ & Hf).
    rewrite Hid. exact Hf. }
  cbv zeta. split; [cbn; now rewrite length_map|].
  split; [cbn [get_summary passed failed warnings skipped total_checks
               with_results results]; now apply count_if_statuses|].
  split.
  { cbn [get_summary blocking_failures failed]. apply count_if_mono. intros r Hr.
    unfold blocking_failure in Hr. now apply andb_true_iff in Hr as [Hr _]. }
  intros Hchecks. rewrite blocked_iff, <- default_checks_blocking.
  unfold some_blocking_check_failed. cbn [with_results results checks].
  rewrite Hchecks. split.
  - intros (r & Hr & Hf & c & Hc & Hid & Hb).
    apply in_map_iff in Hr as (c' & <- & Hc').
    exists c'. split; [exact Hc'|]. split; [exact Hf|].
    exists c. split; [exact Hc|]. split; [|exact Hb].
    rewrite Hid. apply (result_of_status self c').
  - intros (c' & Hc' & Hf & c & Hc & Hid & Hb).
    exists (result_of self c'). split; [now apply in_map|]. split; [exact Hf|].
    exists c. split; [exact Hc|]. split; [|exact Hb].
    rewrite Hid. symmetry. apply (result_of_status self c').
Qed.

End Run.

(** A sample that takes the first records, and a digest that is the text
    itself, for concrete runs. *)
Definition first_records (l : list (gmap string Py.value)) (k : nat)
  : list (gmap string Py.value) := firstn k l.

Definition plain_digest (s : string) : string := s.

Lemma first_records_length l k :
  (k <= length l)%nat -> length (first_records l k) = k.
Proof. intros H. unfold first_records. rewrite length_firstn. lia. Qed.

Lemma first_records_In l k x : In x (first_records l k) -> In x l.
Proof.
  unfold first_records. intros H. rewrite <- (firstn_skipn k l).
  apply in_or_app. now left.
Qed.

Definition migrated_students : list (gmap string Py.value) :=
  [ {[ "student_id" := Py.VStr "S1"; "first_name" := Py.VStr "Ada" ]};
    {[ "student_id" := Py.VStr "S2"; "first_name" := Py.VStr "Alan" ]} ].

(** A new engine whose two source students are both in the target. *)
Definition migrated_engine : ReconciliationEngine :=
  set_target_data (set_source_data new_engine "students" migrated_students)
    "students" migrated_students.

(** The run of the fifteen registered checks on the two students. *)
Lemma run_all_checks_migrated :
  exists rs,
    run_all_checks first_records plain_digest migrated_engine
    = Some (with_results migrated_engine rs, rs)
    /\ map check_id rs = map id default_checks
    /\ overall_status (get_summary (with_results migrated_engine rs)) <> "BLOCKED".
Proof.
  destruct (run_all_checks_results first_records plain_digest first_records_length
              migrated_engine) as (rs & H1 & H2 & _ & _ & _ & _ & _ & _ & _ & H3).
  exists rs. split; [exact H1|]. split; [exact H2|].
  intros H. apply (H3 eq_refl) in H.
  vm_compute in H. intuition discriminate.
Defined.

(** ** Sampling records that were migrated *)

Lemma field_agrees_refl a f : field_agrees a a f = true.
Proof.
  unfold field_agrees. destruct (a !! f); [|reflexivity]. cbv zeta.
  now rewrite String.eqb_refl, andb_false_r.
Qed.

Lemma field_agrees_sym a b f : field_agrees a b f = field_agrees b a f.
Proof.
  unfold field_agrees. destruct (a !! f), (b !! f); try reflexivity. cbv zeta.
  rewrite (String.eqb_sym (field_text v0) (field_text v)).
  destruct (String.eqb (field_text v) ""), (String.eqb (field_text v0) "");
    reflexivity.
Qed.

Lemma _records_match_refl a : _records_match a a = true.
Proof.
  unfold _records_match. apply forallb_forall. intros f _.
  apply field_agrees_refl.
Qed.

Lemma _records_match_sym a b : _records_match a b = _records_match b a.
Proof.
  unfold _records_match. generalize fields_to_check.
  induction l as [|f l IH]; simpl; [reflexivity|].
  now rewrite field_agrees_sym, IH.
Qed.

Lemma record_key_size r :
  Py.truthy (record_key r) = true -> size r <> 0%nat.
Proof.
  intros Ht Hs. apply map_size_empty_inv in Hs. subst r.
  unfold record_key, py_or, Py.get in Ht. rewrite !lookup_empty in Ht.
  discriminate.
Qed.

Lemma target_lookup_snoc target t :
  target_lookup (target ++ [t])
  = if Py.truthy (record_key t)
    then <[Py.str (record_key t) := t]> (target_lookup target)
    else target_lookup target.
Proof. unfold target_lookup. now rewrite fold_left_app. Qed.

(** With distinct keys, a record of the target is found under its key. *)
Lemma target_lookup_keyed target :
  List.NoDup (map (fun t => Py.str (record_key t))
                (List.filter (fun t => Py.truthy (record_key t)) target)) ->
  forall t, In t target -> Py.truthy (record_key t) = true ->
  target_lookup target !! Py.str (record_key t) = Some t.
Proof.
  induction target as [|x target IH] using rev_ind; intros Hnd t Hin Ht;
    [destruct Hin|].
  rewrite target_lookup_snoc.
  rewrite List.filter_app, map_app in Hnd. cbn [List.filter] in Hnd.
  apply in_app_or in Hin. destruct Hin as [Hin|[<-|[]]].
  - destruct (Py.truthy (record_key x)) eqn:Ex.
    + cbn [map] in Hnd.
      destruct (String.eqb_spec (Py.str (record_key x)) (Py.str (record_key t)))
        as [Heq|Hne].
      * exfalso. apply List.NoDup_remove_2 in Hnd. apply Hnd.
        rewrite app_nil_r, Heq. apply in_map_iff. exists t.
        split; [reflexivity|]. apply List.filter_In. auto.
      * rewrite lookup_insert_ne by exact Hne.
        apply IH; auto. apply List.NoDup_remove_1 in Hnd.
        now rewrite app_nil_r in Hnd.
    + cbn [map] in Hnd. rewrite app_nil_r in Hnd. now apply IH.
  - rewrite Ht. apply lookup_insert_eq.
Qed.

Section Sampling.

Variable sample : list (gmap string Py.value) -> nat -> list (gmap string Py.value).

(** X30.  Sampling records that were migrated as they are.  Two records
    match whichever comes first, and a record matches itself.  When the
    sample has as many records as asked for, all of them from the source,
    every source record has a key ([student_id], else [id]) and is also a
    target record, and the keyed target records have distinct keys, a
    sampling check with a positive sample size and a threshold of at most
    1 passes on a non-empty source: every sampled record is verified. *)
Theorem run_sampling_check_migrated (self : ReconciliationEngine)
  (entity_type : string) (sample_size : nat) (check : ReconciliationCheck) :
  let source := default [] (source_data self !! entity_type) in
  let target := default [] (target_data self !! entity_type) in
  let n := Nat.min sample_size (length source) in
  (forall l k, (k <= length l)%nat -> length (sample l k) = k) ->
  (forall l k x, In x (sample l k) -> In x l) ->
  (0 < sample_size)%nat ->
  source <> [] ->
  List.Forall (fun s => Py.truthy (record_key s) = true /\ In s target) source ->
  List.NoDup (map (fun t => Py.str (record_key t))
                (List.filter (fun t => Py.truthy (record_key t)) target)) ->
  (threshold check <= 1)%Q ->
  (forall a b, _records_match a b = _records_match b a)
  /\ (forall a, _records_match a a = true)
  /\ exists r,
       run_sampling_check sample self entity_type sample_size check = Some r
       /\ status r = PASSED
       /\ source_value r = Py.VInt (Z.of_nat n)
       /\ target_value r = Py.VInt (Z.of_nat n)
       /\ actual_value r = Some (ratio n n).
Proof.
  cbv zeta. intros sample_length sample_In Hpos Hne Hsrc Hnd Hthr.
  split; [exact _records_match_sym|]. split; [exact _records_match_refl|].
  unfold run_sampling_check.
  destruct (default [] (source_data self !! entity_type)) as [|s src] eqn:Es;
    [congruence|].
  rewrite <- Es in *.
  set (source := default [] (source_data self !! entity_type)) in *.
  assert (Hmatch : match source with
                   | [] => @None CheckResult
                   | _ => Some (skipped_result check)
                   end = Some (skipped_result check)) by now rewrite Es.
  destruct (default [] (target_data self !! entity_type)) as [|t tgt] eqn:Et.
  { exfalso. rewrite Es in Hsrc. inversion Hsrc as [|? ? [_ []] _]. }
  rewrite <- Et in *.
  set (target := default [] (target_data self !! entity_type)) in *.
  cbv zeta.
  set (n := Nat.min sample_size (length source)).
  assert (Hn : (0 < n)%nat) by (unfold n; rewrite Es; cbn [length]; lia).
  assert (Hlen : length (sample source n) = n)
    by (apply sample_length; unfold n; lia).
  assert (Hall : count_if (verified_record (target_lookup target)) (sample source n)
                 = length (sample source n)).
  { apply count_if_full. apply List.Forall_forall. intros x Hx.
    apply sample_In in Hx.
    rewrite List.Forall_forall in Hsrc. destruct (Hsrc x Hx) as [Hk Hin].
    unfold verified_record. cbv zeta.
    rewrite (target_lookup_keyed target Hnd x Hin Hk).
    rewrite _records_match_refl, andb_true_r.
    apply negb_true_iff, Nat.eqb_neq. now apply record_key_size. }
  rewrite Es, Et. rewrite <- Es, <- Et. fold source target. fold n.
  rewrite Hall, Hlen.
  destruct (sample source n) as [|x xs] eqn:E; [cbn [length] in Hlen; lia|].
  eexists. split; [reflexivity|].
  cbn [status source_value target_value actual_value].
  assert (Hq : Qle_bool (threshold check) (ratio n n) = true).
  { apply Qle_bool_iff. eapply Qle_trans; [exact Hthr|].
    apply ratio_ge_one; [lia | exact Hn | reflexivity]. }
  rewrite Hq. repeat split.
Qed.

End Sampling.

Lemma migrated_source :
  default [] (source_data migrated_engine !! "students") = migrated_students.
Proof. reflexivity. Qed.

Lemma migrated_target :
  default [] (target_data migrated_engine !! "students") = migrated_students.
Proof. reflexivity. Qed.

(** The first ten of the two migrated students are verified. *)
Lemma run_sampling_check_migrated_students :
  exists r,
    run_sampling_check first_records migrated_engine "students" 10
      sample_student_data = Some r
    /\ status r = PASSED
    /\ source_value r = Py.VInt 2
    /\ target_value r = Py.VInt 2.
Proof.
  destruct (run_sampling_check_migrated first_records migrated_engine "students" 10
              sample_student_data first_records_length first_records_In)
    as (_ & _ & r & H1 & H2 & H3 & H4 & _).
  - lia.
  - rewrite migrated_source. discriminate.
  - rewrite migrated_source, migrated_target. apply List.Forall_forall.
    intros s Hs. split; [|exact Hs].
    destruct Hs as [<-|[<-|[]]]; reflexivity.
  - rewrite migrated_target. vm_compute.
    repeat constructor; simpl; intuition discriminate.
  - discriminate.
  - exists r. split; [exact H1|]. split; [exact H2|]. split; [exact H3 | exact H4].
Defined.

End Reconciliation.

(* ===================================================================== *)
(** * modules/identity.py *)
(* ===================================================================== *)

Module Identity.

Open Scope string_scope.

Inductive MatchConfidence : Type :=
| EXACT | HIGH | MEDIUM | LOW | NO_MATCH.

Record MatchResult : Type := mkMatchResult {
  source_id : string;
  target_id : string;
  confidence : MatchConfidence;
  match_score : float;
  matched_fields : list string;
  mismatched_fields : list string;
  notes : string
}.

(** [GoldenRecord]; its [confidence] attribute is [golden_confidence] here. *)
Record GoldenRecord : Type := mkGolden {
  golden_id : string;
  primary_source : string;
  source_ids : gmap string string;
  first_name : string;
  last_name : string;
  date_of_birth : Py.value;
  email : Py.value;
  state_id : Py.value;
  merged_from : list string;
  golden_confidence : float
}.

Definition mem (x : string) (l : list string) : bool :=
  existsb (String.eqb x) l.

(** [GoldenRecord.add_source_id(source, source_id)]. *)
Definition add_source_id (self : GoldenRecord) (source sid : string) : GoldenRecord :=
  {| golden_id := golden_id self; primary_source := primary_source self;
     source_ids := <[source := sid]> (source_ids self);
     first_name := first_name self; last_name := last_name self;
     date_of_birth := date_of_birth self; email := email self;
     state_id := state_id self;
     merged_from := if mem source (merged_from self) then merged_from self
                    else merged_from self ++ [source];
     golden_confidence := golden_confidence self |}.

Definition set_golden_id (self : GoldenRecord) (gid : string) : GoldenRecord :=
  {| golden_id := gid; primary_source := primary_source self;
     source_ids := source_ids self;
     first_name := first_name self; last_name := last_name self;
     date_of_birth := date_of_birth self; email := email self;
     state_id := state_id self; merged_from := merged_from self;
     golden_confidence := golden_confidence self |}.

(** [re.sub(r'\s+', ' ', s)]. *)
Fixpoint collapse_spaces (in_run : bool) (s : string) : string :=
  match s with
  | EmptyString => EmptyString
  | String c r =>
      if Py.isspace c then
        (if in_run then collapse_spaces true r
         else String " " (collapse_spaces true r))
      else String c (collapse_spaces false r)
  end.

(** [IdentityResolver.normalize_name(name)]. *)
Definition normalize_name (name : Py.value) : string :=
  if negb (Py.truthy name) then ""
  else
    let normalized :=
      Py.filter_string (fun c => Py.isword c || Py.isspace c)
        (Py.lower (Py.strip (Py.str name))) in
    collapse_spaces false normalized.

(** [IdentityResolver.normalize_email(email)]. *)
Definition normalize_email (email : Py.value) : string :=
  if negb (Py.truthy email) then ""
  else Py.lower (Py.strip (Py.str email)).

(** [IdentityResolver.normalize_phone(phone)]. *)
Definition normalize_phone (phone : Py.value) : string :=
  if negb (Py.truthy phone) then ""
  else Py.filter_string Py.isdigit (Py.str phone).

Definition nonempty (s : string) : bool := negb (String.eqb s "").

(** [a or b]. *)
Definition py_or (a b : Py.value) : Py.value := if Py.truthy a then a else b.

(** The three accumulators of [match_records]. *)
Record Tally : Type := mkTally {
  matched : list string;
  mismatched : list string;
  score : float
}.

Definition hit (t : Tally) (field : string) (weight : float) : Tally :=
  {| matched := matched t ++ [field]; mismatched := mismatched t;
     score := (score t + weight)%float |}.

Definition miss (t : Tally) (field : string) : Tally :=
  {| matched := matched t; mismatched := mismatched t ++ [field];
     score := score t |}.

(** Rule 1: state id. *)
Definition rule_state_id (record1 record2 : gmap string Py.value) (t : Tally) : Tally :=
  if Py.truthy (Py.get record1 "state_id") && Py.truthy (Py.get record2 "state_id")
  then
    if String.eqb (Py.strip (Py.str (Py.get record1 "state_id")))
                  (Py.strip (Py.str (Py.get record2 "state_id")))
    then hit t "state_id" 0.4
    else miss t "state_id"
  else t.

(** Rule 2: email. *)
Definition rule_email (record1 record2 : gmap string Py.value) (t : Tally) : Tally :=
  let email1 := normalize_email (Py.get_or record1 "email" (Py.VStr "")) in
  let email2 := normalize_email (Py.get_or record2 "email" (Py.VStr "")) in
  if nonempty email1 && nonempty email2 then
    if String.eqb email1 email2 then hit t "email" 0.25 else miss t "email"
  else t.

(** Rule 3: first and last name. *)
Definition rule_name (field : string) (record1 record2 : gmap string Py.value)
  (t : Tally) : Tally :=
  let n1 := normalize_name (Py.get_or record1 field (Py.VStr "")) in
  let n2 := normalize_name (Py.get_or record2 field (Py.VStr "")) in
  if String.eqb n1 n2 && nonempty n1 then hit t field 0.15
  else if nonempty n1 && nonempty n2 then miss t field
  else t.

(** Rule 4: date of birth. *)
Definition rule_dob (record1 record2 : gmap string Py.value) (t : Tally) : Tally :=
  let dob1 := py_or (Py.get record1 "date_of_birth") (Py.get record1 "dob") in
  let dob2 := py_or (Py.get record2 "date_of_birth") (Py.get record2 "dob") in
  if Py.truthy dob1 && Py.truthy dob2 then
    if String.eqb (Py.str dob1) (Py.str dob2) then hit t "date_of_birth" 0.15
    else miss t "date_of_birth"
  else t.

(** Rule 5: phone, on the last ten digits. *)
Definition rule_phone (record1 record2 : gmap string Py.value) (t : Tally) : Tally :=
  let phone1 := normalize_phone (Py.get_or record1 "phone" (Py.VStr "")) in
  let phone2 := normalize_phone (Py.get_or record2 "phone" (Py.VStr "")) in
  if nonempty phone1 && nonempty phone2
     && (10 <=? String.length phone1)%nat && (10 <=? String.length phone2)%nat
  then
    if String.eqb (Py.suffix 10 phone1) (Py.suffix 10 phone2)
    then hit t "phone" 0.1 else t
  else t.

(** The confidence tier for a list of matched fields and a score. *)
Definition confidence_level (matched_fields : list string) (score : float)
  : MatchConfidence :=
  if mem "state_id" matched_fields then EXACT
  else if (0.8 <=? score)%float then HIGH
  else if (0.5 <=? score)%float then MEDIUM
  else if (0.3 <=? score)%float then LOW
  else NO_MATCH.

Definition tally (record1 record2 : gmap string Py.value) : Tally :=
  let t := {| matched := []; mismatched := []; score := 0.0 |} in
  let t := rule_state_id record1 record2 t in
  let t := rule_email record1 record2 t in
  let t := rule_name "first_name" record1 record2 t in
  let t := rule_name "last_name" record1 record2 t in
  let t := rule_dob record1 record2 t in
  rule_phone record1 record2 t.

Definition record_label (source : string) (record : gmap string Py.value) : string :=
  source ++ ":" ++
  Py.str (Py.get_or record "student_id" (Py.get_or record "id" (Py.VStr "unknown"))).

(** [IdentityResolver.match_records(record1, record2, source1, source2)]. *)
Definition match_records (record1 record2 : gmap string Py.value)
  (source1 source2 : string) : MatchResult :=
  let t := tally record1 record2 in
  {| source_id := record_label source1 record1;
     target_id := record_label source2 record2;
     confidence := confidence_level (matched t) (score t);
     match_score := score t;
     matched_fields := matched t;
     mismatched_fields := mismatched t;
     notes := "" |}.

(** An insertion-ordered dictionary: [d[k] = v] replaces the value of an
    existing key in place and appends a new key at the end. *)
Fixpoint dict_set {V : Type} (k : string) (v : V) (d : list (string * V))
  : list (string * V) :=
  match d with
  | [] => [(k, v)]
  | (k', v') :: d' =>
      if String.eqb k' k then (k, v) :: d' else (k', v') :: dict_set k v d'
  end.

Fixpoint dict_get {V : Type} (k : string) (d : list (string * V)) : option V :=
  match d with
  | [] => None
  | (k', v') :: d' => if String.eqb k' k then Some v' else dict_get k d'
  end.

(** [IdentityResolver] (its household graph plays no part below). *)
Record IdentityResolver : Type := mkResolver {
  golden_records : list (string * GoldenRecord);
  source_to_golden : gmap string (gmap string string);
  duplicates : list MatchResult
}.

(** [IdentityResolver()]. *)
Definition new_resolver : IdentityResolver :=
  {| golden_records := []; source_to_golden := ∅; duplicates := [] |}.

(** The dictionary built from a golden record for the comparison. *)
Definition golden_dict (golden : GoldenRecord) : gmap string Py.value :=
  <["first_name" := Py.VStr (first_name golden)]>
  (<["last_name" := Py.VStr (last_name golden)]>
  (<["email" := email golden]>
  (<["state_id" := state_id golden]>
  (<["date_of_birth" := date_of_birth golden]> ∅)))).

Definition accepts (record : gmap string Py.value) (source : string)
  (golden : GoldenRecord) : bool :=
  match confidence (match_records record (golden_dict golden) source "golden") with
  | EXACT | HIGH => true
  | _ => false
  end.

(** The loop over [golden_records.items()]: the first record, in insertion
    order, that matches with confidence Exact or High receives the source
    id (the record object is updated where it sits in the table). *)
Fixpoint merge_first_match (record : gmap string Py.value) (source sid : string)
  (d : list (string * GoldenRecord))
  : option (string * list (string * GoldenRecord)) :=
  match d with
  | [] => None
  | (gid, golden) :: d' =>
      if accepts record source golden
      then Some (gid, (gid, add_source_id golden source sid) :: d')
      else
        match merge_first_match record source sid d' with
        | Some (g, d'') => Some (g, (gid, golden) :: d'')
        | None => None
        end
  end.

(** [self.source_to_golden[source][source_id] = golden_id], creating the
    inner dictionary when the source is new. *)
Definition set_mapping (m : gmap string (gmap string string))
  (source sid gid : string) : gmap string (gmap string string) :=
  <[source := <[sid := gid]> (default ∅ (m !! source))]> m.

(** The normalised attributes a new golden record is created with. *)
Definition golden_key (record : gmap string Py.value)
  : string * string * Py.value * Py.value :=
  (Py.title (Py.strip (Py.str (Py.get_or record "first_name" (Py.VStr "")))),
   Py.title (Py.strip (Py.str (Py.get_or record "last_name" (Py.VStr "")))),
   Py.get record "date_of_birth",
   Py.get record "state_id").

(** [GoldenRecord.generate_golden_id()]. *)
Definition generate_golden_id (self : GoldenRecord) : string :=
  let key := first_name self ++ "|" ++ last_name self ++ "|"
             ++ Py.str (date_of_birth self) ++ "|" ++ Py.str (state_id self) in
  "GR-" ++ Py.upper (Py.prefix 12 (Py.md5_hexdigest key)).

(** [IdentityResolver.resolve_identity(record, source)]: the new resolver
    state and the pair [(golden_id, is_new_record)]. *)
Definition resolve_identity (self : IdentityResolver)
  (record : gmap string Py.value) (source : string)
  : IdentityResolver * (string * bool) :=
  let sid := Py.str (Py.get_or record "student_id"
                       (Py.get_or record "id" (Py.VStr ""))) in
  match source_to_golden self !! source ≫= (fun m => m !! sid) with
  | Some gid => (self, (gid, false))
  | None =>
      match merge_first_match record source sid (golden_records self) with
      | Some (gid, merged) =>
          ({| golden_records := merged;
              source_to_golden := set_mapping (source_to_golden self) source sid gid;
              duplicates := duplicates self |},
           (gid, false))
      | None =>
          let golden :=
            {| golden_id := ""; primary_source := source; source_ids := ∅;
               first_name := Py.title (Py.strip (Py.str
                               (Py.get_or record "first_name" (Py.VStr ""))));
               last_name := Py.title (Py.strip (Py.str
                               (Py.get_or record "last_name" (Py.VStr ""))));
               date_of_birth := Py.get record "date_of_birth";
               email := Py.get record "email";
               state_id := Py.get record "state_id";
               merged_from := []; golden_confidence := 1.0 |} in
          let golden := add_source_id golden source sid in
          let golden := set_golden_id golden (generate_golden_id golden) in
          ({| golden_records :=
                dict_set (golden_id golden) golden (golden_records self);
              source_to_golden :=
                set_mapping (source_to_golden self) source sid (golden_id golden);
              duplicates := duplicates self |},
           (golden_id golden, true))
      end
  end.

(** The id [generate_golden_id] derives from a key. *)
Definition golden_id_of_key (key : string * string * Py.value * Py.value) : string :=
  let '(fn, ln, dob, sid) := key in
  "GR-" ++ Py.upper (Py.prefix 12
    (Py.md5_hexdigest (fn ++ "|" ++ ln ++ "|" ++ Py.str dob ++ "|" ++ Py.str sid))).

(** ** Symmetry of the scoring rules *)

Lemma rule_state_id_sym a b t : rule_state_id a b t = rule_state_id b a t.
Proof.
  unfold rule_state_id.
  rewrite (andb_comm (Py.truthy (Py.get a "state_id"))).
  now rewrite (String.eqb_sym (Py.strip (Py.str (Py.get a "state_id")))).
Qed.

Lemma rule_email_sym a b t : rule_email a b t = rule_email b a t.
Proof.
  unfold rule_email. cbv zeta.
  rewrite (andb_comm (nonempty (normalize_email (Py.get_or a "email" (Py.VStr ""))))).
  now rewrite (String.eqb_sym (normalize_email (Py.get_or a "email" (Py.VStr "")))).
Qed.

Lemma rule_name_sym field a b t : rule_name field a b t = rule_name field b a t.
Proof.
  unfold rule_name. cbv zeta.
  set (n1 := normalize_name (Py.get_or a field (Py.VStr ""))).
  set (n2 := normalize_name (Py.get_or b field (Py.VStr ""))).
  rewrite (andb_comm (nonempty n2)).
  destruct (String.eqb_spec n1 n2) as [->|Hne].
  - now rewrite String.eqb_refl.
  - assert (H : String.eqb n2 n1 = false)
      by (apply String.eqb_neq; congruence).
    now rewrite H.
Qed.

Lemma rule_dob_sym a b t : rule_dob a b t = rule_dob b a t.
Proof.
  unfold rule_dob. cbv zeta.
  set (d1 := py_or (Py.get a "date_of_birth") (Py.get a "dob")).
  set (d2 := py_or (Py.get b "date_of_birth") (Py.get b "dob")).
  now rewrite (andb_comm (Py.truthy d1)), (String.eqb_sym (Py.str d1)).
Qed.

Lemma rule_phone_sym a b t : rule_phone a b t = rule_phone b a t.
Proof.
  unfold rule_phone. cbv zeta.
  set (p1 := normalize_phone (Py.get_or a "phone" (Py.VStr ""))).
  set (p2 := normalize_phone (Py.get_or b "phone" (Py.VStr ""))).
  rewrite (String.eqb_sym (Py.suffix 10 p1)).
  destruct (nonempty p1), (nonempty p2), (10 <=? String.length p1)%nat,
    (10 <=? String.length p2)%nat; reflexivity.
Qed.

Lemma tally_sym a b : tally a b = tally b a.
Proof.
  unfold tally. cbv zeta.
  now rewrite (rule_state_id_sym a b), (rule_email_sym a b),
    (rule_name_sym "first_name" a b), (rule_name_sym "last_name" a b),
    (rule_dob_sym a b), (rule_phone_sym a b).
Qed.

(** C10.  Swapping the two records leaves the score, the confidence tier
    and the lists of matched and mismatched fields unchanged; only the two
    labels change places. *)
Theorem match_records_symmetric (a b : gmap string Py.value) (sa sb : string) :
  let ab := match_records a b sa sb in
  let ba := match_records b a sb sa in
  match_score ab = match_score ba
  /\ confidence ab = confidence ba
  /\ matched_fields ab = matched_fields ba
  /\ mismatched_fields ab = mismatched_fields ba
  /\ source_id ab = target_id ba
  /\ target_id ab = source_id ba.
Proof.
  cbv zeta. unfold match_records. simpl. rewrite (tally_sym a b). tauto.
Qed.

(** ** The confidence tier *)

(** Both records carry a state id and the two agree once stripped. *)
Definition state_ids_match (record1 record2 : gmap string Py.value) : bool :=
  Py.truthy (Py.get record1 "state_id") && Py.truthy (Py.get record2 "state_id")
  && String.eqb (Py.strip (Py.str (Py.get record1 "state_id")))
                (Py.strip (Py.str (Py.get record2 "state_id"))).

Lemma mem_snoc x y l : mem x (l ++ [y]) = mem x l || String.eqb x y.
Proof. unfold mem. rewrite existsb_app. simpl. now rewrite orb_false_r. Qed.

Lemma mem_hit_other x t field w :
  String.eqb x field = false -> mem x (matched (hit t field w)) = mem x (matched t).
Proof. intros H. simpl. now rewrite mem_snoc, H, orb_false_r. Qed.

Ltac rule_keeps :=
  repeat match goal with
         | |- context [if ?b then _ else _] => destruct b
         end;
  try reflexivity; try (apply mem_hit_other; reflexivity).

Lemma state_id_matched a b :
  mem "state_id" (matched (tally a b)) = state_ids_match a b.
Proof.
  unfold tally. cbv zeta.
  set (t0 := {| matched := []; mismatched := []; score := 0.0 |}).
  set (t1 := rule_state_id a b t0).
  assert (H1 : mem "state_id" (matched t1) = state_ids_match a b).
  { unfold t1, rule_state_id, state_ids_match.
    destruct (Py.truthy (Py.get a "state_id") && Py.truthy (Py.get b "state_id"));
      [|reflexivity].
    now destruct (String.eqb _ _). }
  rewrite <- H1. clearbody t1. clear.
  assert (Hphone : forall t, mem "state_id" (matched (rule_phone a b t))
                             = mem "state_id" (matched t)).
  { intros t. unfold rule_phone. cbv zeta. rule_keeps. }
  assert (Hdob : forall t, mem "state_id" (matched (rule_dob a b t))
                           = mem "state_id" (matched t)).
  { intros t. unfold rule_dob. cbv zeta. rule_keeps. }
  assert (Hname : forall f t, String.eqb "state_id" f = false ->
            mem "state_id" (matched (rule_name f a b t)) = mem "state_id" (matched t)).
  { intros f t Hf. unfold rule_name. cbv zeta.
    destruct (_ && _); [now apply mem_hit_other|].
    now destruct (_ && _). }
  assert (Hemail : forall t, mem "state_id" (matched (rule_email a b t))
                             = mem "state_id" (matched t)).
  { intros t. unfold rule_email. cbv zeta. rule_keeps. }
  now rewrite Hphone, Hdob, !Hname, Hemail.
Qed.

(** C3, as the code has it.  The confidence is Exact exactly when both
    records carry a (truthy) state id and the two agree after [str] and
    [strip]; otherwise it is High from a score of 0.8, Medium from 0.5, Low
    from 0.3 and NoMatch below. *)
Theorem match_records_confidence (record1 record2 : gmap string Py.value)
  (source1 source2 : string) :
  let m := match_records record1 record2 source1 source2 in
  mem "state_id" (matched_fields m) = state_ids_match record1 record2
  /\ confidence m =
     if state_ids_match record1 record2 then EXACT
     else if (0.8 <=? match_score m)%float then HIGH
     else if (0.5 <=? match_score m)%float then MEDIUM
     else if (0.3 <=? match_score m)%float then LOW
     else NO_MATCH.
Proof.
  cbv zeta. unfold match_records. simpl. unfold confidence_level.
  now rewrite state_id_matched.
Qed.

(** ** Concrete runs *)

Definition person (fields : list (string * Py.value)) : gmap string Py.value :=
  list_to_map fields.

Example match_records_same_state_id :
  confidence (match_records
    (person [("state_id", Py.VStr "S1"); ("first_name", Py.VStr "ann")])
    (person [("state_id", Py.VStr " S1 "); ("first_name", Py.VStr "Bob")])
    "a" "b") = EXACT.
Proof. vm_compute. reflexivity. Qed.

(** Every field but the state id agrees: the float sum is
    0.8000000000000000444 and the tier is High. *)
Example match_records_high :
  let m := match_records
    (person [("email", Py.VStr "A@x.org"); ("first_name", Py.VStr "Ann ");
             ("last_name", Py.VStr "O'Lee"); ("dob", Py.VStr "2010-01-01");
             ("phone", Py.VStr "(555) 123-4567 8")])
    (person [("email", Py.VStr "a@x.org "); ("first_name", Py.VStr "ann");
             ("last_name", Py.VStr "olee"); ("date_of_birth", Py.VStr "2010-01-01");
             ("phone", Py.VStr "1-555-123-45678")])
    "a" "b" in
  confidence m = HIGH
  /\ matched_fields m = ["email"; "first_name"; "last_name"; "date_of_birth"; "phone"]
  /\ (0.8 <=? match_score m)%float = true.
Proof. vm_compute. repeat split; reflexivity. Qed.

(** C3 (counterexample).  Two records whose state ids are both blank have
    identical state ids after normalisation, yet the state id is not
    matched and the confidence is NoMatch. *)
Lemma match_records_blank_state_ids :
  let r1 := person [("state_id", Py.VStr ""); ("first_name", Py.VStr "Ann")] in
  let r2 := person [("state_id", Py.VStr ""); ("first_name", Py.VStr "Bob")] in
  Py.strip (Py.str (Py.get r1 "state_id")) = Py.strip (Py.str (Py.get r2 "state_id"))
  /\ confidence (match_records r1 r2 "a" "b") = NO_MATCH.
Proof. vm_compute. split; reflexivity. Qed.

(** ** Matching against a golden record *)

Lemma golden_dict_state_id g : Py.get (golden_dict g) "state_id" = state_id g.
Proof. reflexivity. Qed.

Lemma golden_dict_phone g :
  normalize_phone (Py.get_or (golden_dict g) "phone" (Py.VStr "")) = "".
Proof. reflexivity. Qed.

(** Against a golden record, which has no phone, the score without a state
    id match stays below 0.8: only a state id match is accepted. *)
Lemma accepts_state_ids_match record source golden :
  accepts record source golden = state_ids_match record (golden_dict golden).
Proof.
  unfold accepts, match_records. cbn [confidence]. unfold confidence_level.
  rewrite state_id_matched.
  destruct (state_ids_match record (golden_dict golden)) eqn:Hm; [reflexivity|].
  unfold match_records, tally. cbv zeta. simpl match_score.
  unfold rule_phone. cbv zeta. rewrite golden_dict_phone.
  replace (nonempty "") with false by reflexivity.
  rewrite andb_false_r. simpl.
  unfold rule_dob, rule_name, rule_email, rule_state_id. cbv zeta.
  unfold state_ids_match in Hm.
  destruct (Py.truthy (Py.get record "state_id")
            && Py.truthy (Py.get (golden_dict golden) "state_id")) eqn:Ht;
    simpl in Hm; [rewrite Hm|];
    repeat match goal with
           | |- context [if ?b then _ else _] =>
               lazymatch b with
               | context [PrimFloat.leb] => fail
               | _ => destruct b
               end
           end; reflexivity.
Qed.

Definition accepts_by_state_id (v : Py.value) (golden : GoldenRecord) : bool :=
  Py.truthy v && Py.truthy (state_id golden)
  && String.eqb (Py.strip (Py.str v)) (Py.strip (Py.str (state_id golden))).

Lemma accepts_by_state record source golden :
  accepts record source golden
  = accepts_by_state_id (Py.get record "state_id") golden.
Proof. now rewrite accepts_state_ids_match. Qed.

Lemma accepts_add_source_id record source golden s sid :
  accepts record source (add_source_id golden s sid) = accepts record source golden.
Proof. now rewrite !accepts_by_state. Qed.

Lemma accepts_same_state_id r1 r2 s1 s2 golden :
  Py.get r1 "state_id" = Py.get r2 "state_id" ->
  accepts r1 s1 golden = accepts r2 s2 golden.
Proof. intros H. now rewrite !accepts_by_state, H. Qed.

(** ** The golden-record table *)

Lemma dict_get_set {V : Type} (k k' : string) (v : V) d :
  dict_get k' (dict_set k v d)
  = if String.eqb k k' then Some v else dict_get k' d.
Proof.
  induction d as [|[k0 v0] d IH]; simpl.
  - reflexivity.
  - destruct (String.eqb_spec k0 k) as [->|Hne]; simpl.
    + now destruct (String.eqb k k').
    + destruct (String.eqb_spec k0 k') as [->|Hne'].
      * destruct (String.eqb_spec k k'); [congruence|reflexivity].
      * exact IH.
Qed.

(** A merge keeps every key of the table, and the [golden_id] of the record
    under each key. *)
Lemma merge_first_match_keeps record source sid d gid0 d' :
  merge_first_match record source sid d = Some (gid0, d') ->
  forall gid g, dict_get gid d = Some g ->
  exists g', dict_get gid d' = Some g' /\ golden_id g' = golden_id g.
Proof.
  revert gid0 d'. induction d as [|[k g0] d IH]; simpl; intros gid0 d' H gid g Hg.
  - discriminate.
  - destruct (accepts record source g0).
    + injection H as <- <-. simpl.
      destruct (String.eqb k gid); [|eauto].
      injection Hg as <-. eauto.
    + destruct (merge_first_match record source sid d) as [[g1 d1]|] eqn:E;
        [|discriminate].
      injection H as <- <-. simpl.
      destruct (String.eqb k gid); [eauto|].
      eapply IH; eauto.
Qed.

(** A second record with the same state id is merged into the same golden
    record as the first. *)
Lemma merge_first_match_again r1 s1 sid1 r2 s2 sid2 d gid d' :
  Py.get r1 "state_id" = Py.get r2 "state_id" ->
  merge_first_match r1 s1 sid1 d = Some (gid, d') ->
  exists d'', merge_first_match r2 s2 sid2 d' = Some (gid, d'').
Proof.
  intros Hs. revert gid d'.
  induction d as [|[k g0] d IH]; simpl; intros gid d' H; [discriminate|].
  destruct (accepts r1 s1 g0) eqn:Ha.
  - injection H as <- <-. simpl.
    rewrite accepts_add_source_id, <- (accepts_same_state_id r1 r2 s1 s2 g0 Hs), Ha.
    eauto.
  - destruct (merge_first_match r1 s1 sid1 d) as [[g1 d1]|] eqn:E; [|discriminate].
    injection H as <- <-. simpl.
    rewrite <- (accepts_same_state_id r1 r2 s1 s2 g0 Hs), Ha.
    destruct (IH _ _ eq_refl) as [d'' ->]. eauto.
Qed.

(** When the first record matched nothing and its new golden record was
    stored under [k], a second record with the same state id matches the
    new record or nothing. *)
Lemma merge_first_match_created r1 s1 sid1 r2 s2 sid2 d k (golden : GoldenRecord) :
  Py.get r1 "state_id" = Py.get r2 "state_id" ->
  merge_first_match r1 s1 sid1 d = None ->
  merge_first_match r2 s2 sid2 (dict_set k golden d) = None
  \/ exists d'', merge_first_match r2 s2 sid2 (dict_set k golden d) = Some (k, d'').
Proof.
  intros Hs. induction d as [|[k0 g0] d IH]; simpl; intros H.
  - destruct (accepts r2 s2 golden); eauto.
  - destruct (accepts r1 s1 g0) eqn:Ha; [discriminate|].
    destruct (merge_first_match r1 s1 sid1 d) as [[g1 d1]|] eqn:E; [discriminate|].
    destruct (String.eqb k0 k); simpl.
    + destruct (accepts r2 s2 golden); [eauto|].
      assert (Hn : merge_first_match r2 s2 sid2 d = None).
      { clear -Hs E. induction d as [|[k1 g1] d IHd]; simpl in *; [reflexivity|].
        rewrite <- (accepts_same_state_id r1 r2 s1 s2 g1 Hs).
        destruct (accepts r1 s1 g1); [discriminate|].
        destruct (merge_first_match r1 s1 sid1 d) as [[? ?]|]; [discriminate|].
        now rewrite IHd. }
      rewrite Hn. now left.
    + rewrite <- (accepts_same_state_id r1 r2 s1 s2 g0 Hs), Ha.
      destruct (IH eq_refl) as [->|[d'' ->]]; eauto.
Qed.

Lemma cached_set_mapping (m : gmap string (gmap string string))
  (s sid g s' sid' : string) :
  (set_mapping m s sid g !! s' ≫= (fun c => c !! sid'))
  = if decide (s = s' /\ sid = sid') then Some g
    else m !! s' ≫= (fun c => c !! sid').
Proof.
  unfold set_mapping.
  destruct (decide (s = s')) as [->|Hs].
  - rewrite lookup_insert_eq. simpl.
    destruct (decide (sid = sid')) as [->|Hi].
    + rewrite lookup_insert_eq. now rewrite decide_True.
    + rewrite lookup_insert_ne by assumption.
      rewrite decide_False by tauto.
      now destruct (m !! s').
  - rewrite lookup_insert_ne by assumption. now rewrite decide_False by tauto.
Qed.

(** ** Resolution *)

Definition record_sid (record : gmap string Py.value) : string :=
  Py.str (Py.get_or record "student_id" (Py.get_or record "id" (Py.VStr ""))).

Definition cached (self : IdentityResolver) (source sid : string) : option string :=
  source_to_golden self !! source ≫= (fun m => m !! sid).

Lemma resolve_identity_cached self record source gid :
  cached self source (record_sid record) = Some gid ->
  resolve_identity self record source = (self, (gid, false)).
Proof. unfold cached, record_sid, resolve_identity. cbv zeta. now intros ->. Qed.

Lemma resolve_identity_merged self record source gid d' :
  cached self source (record_sid record) = None ->
  merge_first_match record source (record_sid record) (golden_records self)
  = Some (gid, d') ->
  resolve_identity self record source
  = ({| golden_records := d';
        source_to_golden :=
          set_mapping (source_to_golden self) source (record_sid record) gid;
        duplicates := duplicates self |}, (gid, false)).
Proof.
  unfold cached, record_sid, resolve_identity. cbv zeta. intros -> H.
  now rewrite H.
Qed.

Lemma resolve_identity_created self record source :
  cached self source (record_sid record) = None ->
  merge_first_match record source (record_sid record) (golden_records self) = None ->
  exists golden,
    golden_id golden = golden_id_of_key (golden_key record) /\
    resolve_identity self record source
    = ({| golden_records :=
            dict_set (golden_id_of_key (golden_key record)) golden (golden_records self);
          source_to_golden :=
            set_mapping (source_to_golden self) source (record_sid record)
              (golden_id_of_key (golden_key record));
          duplicates := duplicates self |},
       (golden_id_of_key (golden_key record), true)).
Proof.
  unfold cached, record_sid, resolve_identity. cbv zeta. intros -> H. rewrite H.
  eexists. split; [|reflexivity]. reflexivity.
Qed.

(** Resolving on a newly constructed resolver creates a record whose id is
    derived from the key alone. *)
Lemma resolve_identity_new record source :
  snd (resolve_identity new_resolver record source) = (golden_id_of_key (golden_key record), true).
Proof.
  destruct (resolve_identity_created new_resolver record source)
    as (g & _ & ->); reflexivity.
Qed.

(** Two records with the same key, resolved one after the other in any
    resolver in which neither is already cached, get the same golden id. *)
Lemma resolve_identity_twice self r1 s1 r2 s2 :
  golden_key r1 = golden_key r2 ->
  cached self s1 (record_sid r1) = None ->
  cached self s2 (record_sid r2) = None ->
  fst (snd (resolve_identity (fst (resolve_identity self r1 s1)) r2 s2))
  = fst (snd (resolve_identity self r1 s1)).
Proof.
  intros Hk Hc1 Hc2.
  assert (Hs : Py.get r1 "state_id" = Py.get r2 "state_id")
    by (unfold golden_key in Hk; congruence).
  assert (Hcache : forall d gid,
            let st1 := {| golden_records := d;
                          source_to_golden :=
                            set_mapping (source_to_golden self) s1 (record_sid r1) gid;
                          duplicates := duplicates self |} in
            cached st1 s2 (record_sid r2) = None
            \/ cached st1 s2 (record_sid r2) = Some gid).
  { intros d gid st1. unfold cached, st1. cbn [source_to_golden].
    rewrite cached_set_mapping. destruct (decide _); [now right|now left]. }
  destruct (merge_first_match r1 s1 (record_sid r1) (golden_records self))
    as [[gid d']|] eqn:Hm.
  - rewrite (resolve_identity_merged _ _ _ _ _ Hc1 Hm). cbn [fst snd].
    destruct (Hcache d' gid) as [Hc|Hc].
    + destruct (merge_first_match_again r1 s1 (record_sid r1) r2 s2 (record_sid r2)
                  _ _ _ Hs Hm) as [d'' Hm2].
      now rewrite (resolve_identity_merged _ _ _ _ _ Hc Hm2).
    + now rewrite (resolve_identity_cached _ _ _ _ Hc).
  - destruct (resolve_identity_created _ _ _ Hc1 Hm) as (golden & Hg & ->).
    cbn [fst snd].
    destruct (Hcache (dict_set (golden_id_of_key (golden_key r1)) golden (golden_records self))
                (golden_id_of_key (golden_key r1))) as [Hc|Hc].
    + destruct (merge_first_match_created r1 s1 (record_sid r1) r2 s2 (record_sid r2)
                  (golden_records self) (golden_id_of_key (golden_key r1)) golden Hs Hm)
        as [Hn|[d'' Hm2]].
      * destruct (resolve_identity_created _ r2 s2 Hc Hn) as (g2 & _ & ->).
        cbn [fst snd]. now rewrite Hk.
      * now rewrite (resolve_identity_merged _ _ _ _ _ Hc Hm2).
    + now rewrite (resolve_identity_cached _ _ _ _ Hc).
Qed.

(** Every golden record of the table is still there after a resolution,
    under the same id. *)
Lemma resolve_identity_keeps_ids self record source gid g :
  dict_get gid (golden_records self) = Some g -> golden_id g = gid ->
  exists g',
    dict_get gid (golden_records (fst (resolve_identity self record source))) = Some g'
    /\ golden_id g' = gid.
Proof.
  intros Hg Hid.
  destruct (cached self source (record_sid record)) as [c|] eqn:Hc.
  - rewrite (resolve_identity_cached _ _ _ _ Hc). cbn [fst]. eauto.
  - destruct (merge_first_match record source (record_sid record)
                (golden_records self)) as [[gid0 d']|] eqn:Hm.
    + rewrite (resolve_identity_merged _ _ _ _ _ Hc Hm). cbn [fst golden_records].
      destruct (merge_first_match_keeps _ _ _ _ _ _ Hm gid g Hg) as (g' & H1 & H2).
      exists g'. split; [exact H1 | now rewrite H2].
    + destruct (resolve_identity_created _ _ _ Hc Hm) as (golden & Hgold & ->).
      cbn [fst golden_records]. rewrite dict_get_set.
      destruct (String.eqb_spec (golden_id_of_key (golden_key record)) gid) as [E|E]; eauto.
      exists golden. split; [reflexivity | now rewrite Hgold].
Qed.

(** When no golden record matches, nothing is merged. *)
Lemma merge_first_match_no_match record source sid d :
  Forall (fun entry => accepts record source (snd entry) = false) d ->
  merge_first_match record source sid d = None.
Proof.
  induction 1 as [|[gid g] d Hg _ IH]; simpl; [reflexivity|].
  simpl in Hg. now rewrite Hg, IH.
Qed.

(** The first golden record that matches receives the source. *)
Lemma merge_first_match_first record source sid l1 gid golden l2 :
  Forall (fun entry => accepts record source (snd entry) = false) l1 ->
  accepts record source golden = true ->
  exists d',
    merge_first_match record source sid (l1 ++ (gid, golden) :: l2)%list
    = Some (gid, d').
Proof.
  intros Hl1 Hg. induction Hl1 as [|[k g] l1 Hk _ IH]; simpl.
  - rewrite Hg. eauto.
  - simpl in Hk. rewrite Hk. destruct IH as [d' ->]. eauto.
Qed.

(** C4, as the code has it.  The id generated for a golden record is a
    function of its four key attributes (names stripped and title-cased,
    date of birth and state id as given).  Two records with the same key
    get the same id from two newly constructed resolvers, from one newly
    constructed resolver that resolves them one after the other, and from
    any resolver that resolves them one after the other when neither
    source id is already mapped.  A resolution, whether it merges a source
    into a golden record or creates a new one, leaves every golden record
    of the table under the id it had.  The id a resolution returns is the
    mapped id when the source id of the record is already mapped;
    otherwise the id of the first stored golden record the record matches
    with confidence Exact or High; and the id generated from the record's
    own key only when it matches none. *)
Theorem golden_id_deterministic :
  (forall g1 g2 : GoldenRecord,
     first_name g1 = first_name g2 -> last_name g1 = last_name g2 ->
     date_of_birth g1 = date_of_birth g2 -> state_id g1 = state_id g2 ->
     generate_golden_id g1 = generate_golden_id g2)
  /\ (forall r1 r2 s1 s2, golden_key r1 = golden_key r2 ->
        fst (snd (resolve_identity new_resolver r1 s1))
        = fst (snd (resolve_identity new_resolver r2 s2)))
  /\ (forall r1 r2 s1 s2, golden_key r1 = golden_key r2 ->
        fst (snd (resolve_identity (fst (resolve_identity new_resolver r1 s1)) r2 s2))
        = fst (snd (resolve_identity new_resolver r1 s1)))
  /\ (forall self r1 r2 s1 s2, golden_key r1 = golden_key r2 ->
        cached self s1 (record_sid r1) = None ->
        cached self s2 (record_sid r2) = None ->
        fst (snd (resolve_identity (fst (resolve_identity self r1 s1)) r2 s2))
        = fst (snd (resolve_identity self r1 s1)))
  /\ (forall self record source gid g,
        dict_get gid (golden_records self) = Some g -> golden_id g = gid ->
        exists g',
          dict_get gid (golden_records (fst (resolve_identity self record source))) = Some g'
          /\ golden_id g' = gid)
  /\ (forall self record source gid,
        cached self source (record_sid record) = Some gid ->
        resolve_identity self record source = (self, (gid, false)))
  /\ (forall self record source l1 gid golden l2,
        cached self source (record_sid record) = None ->
        golden_records self = (l1 ++ (gid, golden) :: l2)%list ->
        Forall (fun entry => accepts record source (snd entry) = false) l1 ->
        accepts record source golden = true ->
        snd (resolve_identity self record source) = (gid, false))
  /\ (forall self record source,
        cached self source (record_sid record) = None ->
        Forall (fun entry => accepts record source (snd entry) = false)
          (golden_records self) ->
        snd (resolve_identity self record source)
        = (golden_id_of_key (golden_key record), true)).
Proof.
  split; [|split; [|split; [|split; [|split; [|split; [|split]]]]]];
    [| | | | | apply resolve_identity_cached
     | intros self record source l1 gid golden l2 Hc Hd Hl1 Hg;
       destruct (merge_first_match_first record source (record_sid record)
                   l1 gid golden l2 Hl1 Hg) as [d' Hm];
       rewrite <- Hd in Hm;
       now rewrite (resolve_identity_merged _ _ _ _ _ Hc Hm)
     | intros self record source Hc Hall;
       destruct (resolve_identity_created _ _ _ Hc
                   (merge_first_match_no_match _ _ _ _ Hall))
         as (golden & _ & ->); reflexivity].
  - intros g1 g2 H1 H2 H3 H4. unfold generate_golden_id. now rewrite H1, H2, H3, H4.
  - intros r1 r2 s1 s2 Hk. now rewrite !resolve_identity_new, Hk.
  - intros r1 r2 s1 s2 Hk.
    destruct (decide (s1 = s2 /\ record_sid r1 = record_sid r2)) as [[<- E]|Hne].
    + destruct (resolve_identity_created new_resolver r1 s1 eq_refl eq_refl)
        as (golden & _ & ->). cbn [fst snd].
      erewrite resolve_identity_cached; [reflexivity|].
      unfold cached. cbn [source_to_golden].
      rewrite cached_set_mapping, <- E. now rewrite decide_True.
    + apply resolve_identity_twice; auto.
  - intros. now apply resolve_identity_twice.
  - apply resolve_identity_keeps_ids.
Qed.

(** ** Concrete resolutions *)

Definition ann_sis : gmap string Py.value :=
  person [("student_id", Py.VStr "1001"); ("state_id", Py.VStr "S1");
          ("first_name", Py.VStr " ann "); ("last_name", Py.VStr "LEE");
          ("date_of_birth", Py.VStr "2010-01-01")].

Definition ann_lms : gmap string Py.value :=
  person [("id", Py.VStr "u-77"); ("state_id", Py.VStr "S1");
          ("first_name", Py.VStr "Ann"); ("last_name", Py.VStr "lee");
          ("date_of_birth", Py.VStr "2010-01-01");
          ("email", Py.VStr "ann@example.org")].

(** The id of a new golden record is "GR-" and the first twelve hex digits
    of the MD5 of "Ann|Lee|2010-01-01|S1", in upper case. *)
Example resolve_identity_new_record :
  snd (resolve_identity new_resolver ann_sis "sis") = ("GR-ADBD5CF24A41", true).
Proof. vm_compute. reflexivity. Qed.

(** The second source is merged into the record of the first: same id, not
    new, and the record now lists both sources. *)
Example resolve_identity_merge :
  let st1 := fst (resolve_identity new_resolver ann_sis "sis") in
  let res := resolve_identity st1 ann_lms "lms" in
  snd res = ("GR-ADBD5CF24A41", false)
  /\ (merged_from <$> dict_get "GR-ADBD5CF24A41" (golden_records (fst res)))
     = Some ["sis"; "lms"]
  /\ (golden_id <$> dict_get "GR-ADBD5CF24A41" (golden_records (fst res)))
     = Some "GR-ADBD5CF24A41".
Proof. vm_compute. repeat split; reflexivity. Qed.

(** C4 (counterexample).  Two records with the same key need not get the
    same id.  In a resolver that holds Bob, state id S1, Robert with state
    id S1 is merged into Bob's golden record and gets Bob's id, while a
    newly constructed resolver generates an id from Robert's own key.  And
    in one resolver, a record of Robert that carries the source id already
    mapped for Bob gets Bob's id, while the record of the same key under a
    new source id gets a generated one. *)
Lemma resolve_identity_depends_on_resolver :
  let bob := person [("student_id", Py.VStr "1"); ("state_id", Py.VStr "S1");
                     ("first_name", Py.VStr "Bob"); ("last_name", Py.VStr "Lee");
                     ("date_of_birth", Py.VStr "2010-01-01")] in
  let robert := person [("student_id", Py.VStr "2"); ("state_id", Py.VStr "S1");
                        ("first_name", Py.VStr "Robert");
                        ("last_name", Py.VStr "Ray");
                        ("date_of_birth", Py.VStr "2011-02-02")] in
  let holding_bob := fst (resolve_identity new_resolver bob "sis") in
  let bob_plain := person [("student_id", Py.VStr "1");
                           ("first_name", Py.VStr "Bob");
                           ("last_name", Py.VStr "Lee");
                           ("date_of_birth", Py.VStr "2010-01-01")] in
  let robert_1 := person [("student_id", Py.VStr "1");
                          ("first_name", Py.VStr "Robert");
                          ("last_name", Py.VStr "Ray");
                          ("date_of_birth", Py.VStr "2011-02-02")] in
  let robert_2 := person [("student_id", Py.VStr "2");
                          ("first_name", Py.VStr "Robert");
                          ("last_name", Py.VStr "Ray");
                          ("date_of_birth", Py.VStr "2011-02-02")] in
  let first_run := resolve_identity
                     (fst (resolve_identity new_resolver bob_plain "sis"))
                     robert_1 "sis" in
  let second_run := resolve_identity (fst first_run) robert_2 "sis" in
  (snd (resolve_identity holding_bob robert "sis")
   = (fst (snd (resolve_identity new_resolver bob "sis")), false)
   /\ fst (snd (resolve_identity holding_bob robert "sis"))
      <> fst (snd (resolve_identity new_resolver robert "sis")))
  /\ (golden_key robert_1 = golden_key robert_2
      /\ snd first_run
         = (fst (snd (resolve_identity new_resolver bob_plain "sis")), false)
      /\ snd (snd second_run) = true
      /\ fst (snd first_run) <> fst (snd second_run)).
Proof.
  cbv zeta. vm_compute. repeat split; try reflexivity; discriminate.
Qed.

(** Two newly constructed resolvers give the two records the same id. *)
Lemma resolve_identity_two_resolvers :
  fst (snd (resolve_identity new_resolver ann_sis "sis"))
  = fst (snd (resolve_identity new_resolver ann_lms "lms")).
Proof.
  apply (proj1 (proj2 golden_id_deterministic)). vm_compute. reflexivity.
Defined.

(** ** Resolving the same record again *)

(** After a resolution the source id of the record is mapped to the id
    returned. *)
Lemma resolve_identity_caches self record source :
  cached (fst (resolve_identity self record source)) source (record_sid record)
  = Some (fst (snd (resolve_identity self record source))).
Proof.
  destruct (cached self source (record_sid record)) as [c|] eqn:Hc.
  - now rewrite (resolve_identity_cached _ _ _ _ Hc).
  - destruct (merge_first_match record source (record_sid record)
                (golden_records self)) as [[gid d']|] eqn:Hm.
    + rewrite (resolve_identity_merged _ _ _ _ _ Hc Hm). cbn [fst snd].
      unfold cached. cbn [source_to_golden].
      rewrite cached_set_mapping. now rewrite decide_True.
    + destruct (resolve_identity_created _ _ _ Hc Hm) as (golden & _ & ->).
      cbn [fst snd]. unfold cached. cbn [source_to_golden].
      rewrite cached_set_mapping. now rewrite decide_True.
Qed.

(** X9.  Resolving a record a second time from the same source returns
    the id the first resolution returned, reports that the record is not
    new, and leaves the resolver as the first resolution left it. *)
Theorem resolve_identity_idempotent (self : IdentityResolver)
  (record : gmap string Py.value) (source : string) :
  let res := resolve_identity self record source in
  resolve_identity (fst res) record source = (fst res, (fst (snd res), false)).
Proof.
  cbv zeta. apply resolve_identity_cached. apply resolve_identity_caches.
Qed.

(** ** Merging needs a state id *)

Lemma merge_first_match_None record source sid d :
  merge_first_match record source sid d = None
  <-> Forall (fun entry => accepts_by_state_id (Py.get record "state_id") (snd entry)
                          = false) d.
Proof.
  induction d as [|[gid g] d IH]; simpl.
  - split; [constructor | reflexivity].
  - rewrite accepts_by_state.
    destruct (accepts_by_state_id (Py.get record "state_id") g) eqn:Ha.
    + split; [discriminate|]. intros H. inversion H; subst. simpl in *. congruence.
    + destruct (merge_first_match record source sid d) as [[g1 d1]|].
      * split; [discriminate|]. intros H. inversion H as [|? ? _ H']; subst.
        now apply IH in H'.
      * split; [|reflexivity]. intros _. constructor; [exact Ha|]. now apply IH.
Qed.

Lemma merge_first_match_Some record source sid d gid d' :
  merge_first_match record source sid d = Some (gid, d') ->
  exists l1 g l2,
    d = (l1 ++ (gid, g) :: l2)%list
    /\ accepts_by_state_id (Py.get record "state_id") g = true
    /\ Forall (fun entry => accepts_by_state_id (Py.get record "state_id") (snd entry)
                            = false) l1
    /\ d' = (l1 ++ (gid, add_source_id g source sid) :: l2)%list.
Proof.
  revert gid d'. induction d as [|[k g0] d IH]; simpl; intros gid d' H; [discriminate|].
  rewrite accepts_by_state in H.
  destruct (accepts_by_state_id (Py.get record "state_id") g0) eqn:Ha.
  - injection H as <- <-. exists [], g0, d. repeat split; auto.
  - destruct (merge_first_match record source sid d) as [[g1 d1]|] eqn:E; [|discriminate].
    injection H as <- <-.
    destruct (IH _ _ eq_refl) as (l1 & g & l2 & -> & Hg & Hl & ->).
    exists ((k, g0) :: l1), g, l2. repeat split; auto.
Qed.

(** X10.  A record whose source id is not yet mapped is merged into the
    first golden record, in insertion order, whose state id agrees with
    its own (both non-empty, equal once stripped), whatever the names, the
    email and the date of birth; it becomes a new golden record exactly
    when no golden record has such a state id.  So a record without a
    state id always becomes a new golden record. *)
Theorem resolve_identity_merges_on_state_id (self : IdentityResolver)
  (record : gmap string Py.value) (source : string) :
  cached self source (record_sid record) = None ->
  let res := resolve_identity self record source in
  let agrees (golden : GoldenRecord) :=
    accepts_by_state_id (Py.get record "state_id") golden in
  (snd (snd res) = true
   <-> Forall (fun entry => agrees (snd entry) = false) (golden_records self))
  /\ (snd (snd res) = false ->
      exists l1 golden l2,
        golden_records self = (l1 ++ (fst (snd res), golden) :: l2)%list
        /\ agrees golden = true
        /\ Forall (fun entry => agrees (snd entry) = false) l1
        /\ golden_records (fst res)
           = (l1 ++ (fst (snd res), add_source_id golden source (record_sid record))
                 :: l2)%list)
  /\ (Py.truthy (Py.get record "state_id") = false -> snd (snd res) = true).
Proof.
  intros Hc. cbv zeta.
  assert (Hnew : snd (snd (resolve_identity self record source)) = true
                 <-> Forall (fun entry =>
                               accepts_by_state_id (Py.get record "state_id") (snd entry)
                               = false) (golden_records self)).
  { rewrite <- (merge_first_match_None record source (record_sid record)).
    destruct (merge_first_match record source (record_sid record)
                (golden_records self)) as [[gid d']|] eqn:Hm.
    - rewrite (resolve_identity_merged _ _ _ _ _ Hc Hm). cbn [snd].
      split; discriminate.
    - destruct (resolve_identity_created _ _ _ Hc Hm) as (golden & _ & ->).
      cbn [snd]. tauto. }
  split; [exact Hnew|]. split.
  - destruct (merge_first_match record source (record_sid record)
                (golden_records self)) as [[gid d']|] eqn:Hm.
    + rewrite (resolve_identity_merged _ _ _ _ _ Hc Hm). cbn [fst snd golden_records].
      intros _. destruct (merge_first_match_Some _ _ _ _ _ _ Hm)
        as (l1 & g & l2 & H1 & H2 & H3 & H4).
      exists l1, g, l2. auto.
    + destruct (resolve_identity_created _ _ _ Hc Hm) as (golden & _ & ->).
      cbn [snd]. discriminate.
  - intros Ht. apply Hnew. apply List.Forall_forall. intros entry _.
    unfold accepts_by_state_id. now rewrite Ht.
Qed.

(** A record of the same person as [ann_sis], without a state id. *)
Definition ann_portal : gmap string Py.value :=
  person [("id", Py.VStr "p-9"); ("first_name", Py.VStr "Ann");
          ("last_name", Py.VStr "Lee"); ("date_of_birth", Py.VStr "2010-01-01");
          ("email", Py.VStr "ann@example.org")].

(** Without a state id the record is not merged into the golden record of
    the same name, date of birth and email. *)
Lemma resolve_identity_without_state_id :
  snd (snd (resolve_identity
              (fst (resolve_identity (fst (resolve_identity new_resolver ann_sis "sis"))
                      ann_lms "lms"))
              ann_portal "portal")) = true.
Proof.
  apply (resolve_identity_merges_on_state_id
           (fst (resolve_identity (fst (resolve_identity new_resolver ann_sis "sis"))
                   ann_lms "lms"))
           ann_portal "portal").
  - vm_compute. reflexivity.
  - vm_compute. reflexivity.
Defined.

(** ** The resolver states a run leads to *)

(** The states reached from a new resolver by resolutions. *)
Inductive reachable : IdentityResolver -> Prop :=
| reachable_new : reachable new_resolver
| reachable_resolve (self : IdentityResolver) (record : gmap string Py.value)
    (source : string) :
    reachable self -> reachable (fst (resolve_identity self record source)).

(** Every golden record sits under its own id, no id occurs twice, every
    mapped source id leads to a golden record of the table, and every
    golden record lists exactly the sources it has an id of. *)
Definition consistent (self : IdentityResolver) : Prop :=
  (forall gid g, In (gid, g) (golden_records self) -> golden_id g = gid)
  /\ List.NoDup (map fst (golden_records self))
  /\ (forall source sid gid, cached self source sid = Some gid ->
        is_Some (dict_get gid (golden_records self)))
  /\ (forall gid g, In (gid, g) (golden_records self) ->
        forall s, mem s (merged_from g) = true <-> is_Some (source_ids g !! s)).

Lemma dict_get_In {V : Type} (k : string) (d : list (string * V)) :
  is_Some (dict_get k d) <-> In k (map fst d).
Proof.
  induction d as [|[k0 v0] d IH]; simpl.
  - split; [intros [? H]; discriminate | tauto].
  - destruct (String.eqb_spec k0 k) as [->|Hne].
    + split; eauto.
    + rewrite IH. split; [tauto|]. intros [H|H]; [congruence | exact H].
Qed.

Lemma dict_set_In {V : Type} (k : string) (v : V) d x w :
  In (x, w) (dict_set k v d) -> (x, w) = (k, v) \/ In (x, w) d.
Proof.
  induction d as [|[k0 v0] d IH]; simpl.
  - intros [H|[]]. left. congruence.
  - destruct (String.eqb k0 k); simpl; intros [H|H]; auto.
    destruct (IH H); auto.
Qed.

Lemma dict_set_keys {V : Type} (k : string) (v : V) d :
  map fst (dict_set k v d)
  = if existsb (String.eqb k) (map fst d) then map fst d
    else (map fst d ++ [k])%list.
Proof.
  induction d as [|[k0 v0] d IH]; simpl; [reflexivity|].
  rewrite (String.eqb_sym k k0).
  destruct (String.eqb_spec k0 k) as [->|Hne]; simpl; [reflexivity|].
  rewrite IH. now destruct (existsb _ _).
Qed.

Lemma dict_set_NoDup {V : Type} (k : string) (v : V) d :
  List.NoDup (map fst d) -> List.NoDup (map fst (dict_set k v d)).
Proof.
  intros H. rewrite dict_set_keys.
  destruct (existsb (String.eqb k) (map fst d)) eqn:E; [exact H|].
  apply List.NoDup_app; [exact H | repeat constructor; intros [] |].
  intros x Hx [E'|[]]. subst x.
  assert (Hex : existsb (String.eqb k) (map fst d) = true).
  { apply existsb_exists. exists k. split; [exact Hx | apply String.eqb_refl]. }
  congruence.
Qed.

Lemma mem_true x l : mem x l = true <-> In x l.
Proof.
  unfold mem. rewrite existsb_exists. split.
  - intros (y & Hy & E). apply String.eqb_eq in E. now subst.
  - intros H. exists x. split; [exact H | apply String.eqb_refl].
Qed.

Lemma add_source_id_lists self source sid s :
  (mem s (merged_from self) = true <-> is_Some (source_ids self !! s)) ->
  (mem s (merged_from (add_source_id self source sid)) = true
   <-> is_Some (source_ids (add_source_id self source sid) !! s)).
Proof.
  intros H. simpl. destruct (decide (source = s)) as [->|Hne].
  - rewrite lookup_insert_eq. split; [eauto|]. intros _.
    destruct (mem s (merged_from self)) eqn:E; [exact E|].
    rewrite mem_snoc, String.eqb_refl. apply orb_true_r.
  - rewrite lookup_insert_ne by assumption. rewrite <- H.
    destruct (mem source (merged_from self)); [tauto|].
    rewrite mem_snoc.
    assert (E : String.eqb s source = false) by (apply String.eqb_neq; congruence).
    now rewrite E, orb_false_r.
Qed.

(** The golden record a resolution creates when nothing matches. *)
Definition new_golden (record : gmap string Py.value) (source : string)
  : GoldenRecord :=
  let golden :=
    {| golden_id := ""; primary_source := source; source_ids := ∅;
       first_name := Py.title (Py.strip (Py.str
                       (Py.get_or record "first_name" (Py.VStr ""))));
       last_name := Py.title (Py.strip (Py.str
                       (Py.get_or record "last_name" (Py.VStr ""))));
       date_of_birth := Py.get record "date_of_birth";
       email := Py.get record "email";
       state_id := Py.get record "state_id";
       merged_from := []; golden_confidence := 1.0 |} in
  let golden := add_source_id golden source (record_sid record) in
  set_golden_id golden (generate_golden_id golden).

Lemma resolve_identity_created_record self record source :
  cached self source (record_sid record) = None ->
  merge_first_match record source (record_sid record) (golden_records self) = None ->
  resolve_identity self record source
  = ({| golden_records :=
          dict_set (golden_id (new_golden record source)) (new_golden record source)
            (golden_records self);
        source_to_golden :=
          set_mapping (source_to_golden self) source (record_sid record)
            (golden_id (new_golden record source));
        duplicates := duplicates self |},
     (golden_id (new_golden record source), true)).
Proof.
  unfold cached, record_sid, resolve_identity. cbv zeta. intros -> H. now rewrite H.
Qed.

Lemma resolve_identity_consistent self record source :
  consistent self -> consistent (fst (resolve_identity self record source)).
Proof.
  intros (Hid & Hnd & Hmap & Hsrc).
  destruct (cached self source (record_sid record)) as [c|] eqn:Hc.
  - rewrite (resolve_identity_cached _ _ _ _ Hc). cbn [fst].
    unfold consistent. auto.
  - destruct (merge_first_match record source (record_sid record)
                (golden_records self)) as [[gid d']|] eqn:Hm.
    + rewrite (resolve_identity_merged _ _ _ _ _ Hc Hm). cbn [fst].
      destruct (merge_first_match_Some _ _ _ _ _ _ Hm)
        as (l1 & g & l2 & H1 & H2 & H3 & ->).
      assert (Hkeys : map fst (l1 ++ (gid, add_source_id g source (record_sid record))
                                 :: l2)%list
                      = map fst (golden_records self)).
      { rewrite H1, !map_app. reflexivity. }
      unfold consistent. cbn [golden_records].
      split; [|split; [|split]].
      * intros k g' Hin. apply in_app_or in Hin as [Hin|[Hin|Hin]].
        -- apply Hid. rewrite H1. apply in_or_app. now left.
        -- injection Hin as <- <-. simpl. apply Hid. rewrite H1.
           apply in_or_app. right. now left.
        -- apply Hid. rewrite H1. apply in_or_app. right. now right.
      * now rewrite Hkeys.
      * intros s' sid' gid' Hc'. apply dict_get_In. rewrite Hkeys.
        unfold cached in Hc'. cbn [source_to_golden] in Hc'.
        rewrite cached_set_mapping in Hc'. destruct (decide _) as [_|_].
        -- injection Hc' as <-. rewrite H1, map_app. apply in_or_app.
           right. now left.
        -- apply dict_get_In. now apply (Hmap s' sid').
      * intros k g' Hin. apply in_app_or in Hin as [Hin|[Hin|Hin]].
        -- apply (Hsrc k). rewrite H1. apply in_or_app. now left.
        -- injection Hin as <- <-. intros s. apply add_source_id_lists.
           apply (Hsrc gid). rewrite H1. apply in_or_app. right. now left.
        -- apply (Hsrc k). rewrite H1. apply in_or_app. right. now right.
    + rewrite (resolve_identity_created_record _ _ _ Hc Hm).
      cbn [fst]. unfold consistent. cbn [golden_records].
      set (k := golden_id (new_golden record source)).
      split; [|split; [|split]].
      * intros x w Hin. apply dict_set_In in Hin as [Hin|Hin]; [|auto].
        now injection Hin as -> ->.
      * now apply dict_set_NoDup.
      * intros s' sid' gid' Hc'. unfold cached in Hc'. cbn [source_to_golden] in Hc'.
        rewrite cached_set_mapping in Hc'. rewrite dict_get_set.
        destruct (decide _) as [_|_].
        -- injection Hc' as <-. rewrite String.eqb_refl. eauto.
        -- destruct (String.eqb k gid'); [eauto|]. now apply (Hmap s' sid').
      * intros x w Hin. apply dict_set_In in Hin as [Hin|Hin]; [|now apply (Hsrc x)].
        injection Hin as -> ->. intros s. simpl.
        destruct (String.eqb_spec s source) as [->|Hne].
        -- rewrite lookup_insert_eq. split; eauto.
        -- rewrite lookup_insert_ne by congruence. rewrite lookup_empty.
           split; [discriminate | intros [? ?]; discriminate].
Qed.

(** X11.  In every state that resolutions lead to from a new resolver,
    every golden record is stored under its own id, no id is stored twice,
    every mapped source id leads to a golden record of the table, and
    every golden record lists in [merged_from] exactly the sources it holds
    an id of.  So the id a resolution returns always names a golden record
    of the table. *)
Theorem reachable_consistent (self : IdentityResolver) :
  reachable self ->
  (forall gid g, In (gid, g) (golden_records self) -> golden_id g = gid)
  /\ List.NoDup (map fst (golden_records self))
  /\ (forall source sid gid, cached self source sid = Some gid ->
        is_Some (dict_get gid (golden_records self)))
  /\ (forall gid g, In (gid, g) (golden_records self) ->
        forall s, mem s (merged_from g) = true <-> is_Some (source_ids g !! s))
  /\ (forall record source,
        let res := resolve_identity self record source in
        is_Some (dict_get (fst (snd res)) (golden_records (fst res)))).
Proof.
  intros Hr.
  assert (Hc : consistent self).
  { induction Hr as [|self record source _ IH].
    - unfold consistent. simpl. repeat split; try constructor; try contradiction.
      + intros source sid gid H. unfold cached in H. simpl in H.
        rewrite lookup_empty in H. discriminate.
    - now apply resolve_identity_consistent. }
  destruct Hc as (H1 & H2 & H3 & H4).
  split; [exact H1|]. split; [exact H2|]. split; [exact H3|]. split; [exact H4|].
  intros record source. cbv zeta.
  destruct (resolve_identity_consistent self record source) as (_ & _ & H3' & _);
    [unfold consistent; auto|].
  apply (H3' source (record_sid record)). apply resolve_identity_caches.
Qed.

(** After two sources of the same student, no golden id is stored twice. *)
Lemma reachable_two_sources :
  List.NoDup
    (map fst (golden_records
                (fst (resolve_identity (fst (resolve_identity new_resolver ann_sis "sis"))
                        ann_lms "lms")))).
Proof.
  apply (reachable_consistent
           (fst (resolve_identity (fst (resolve_identity new_resolver ann_sis "sis"))
                   ann_lms "lms"))).
  apply reachable_resolve. apply reachable_resolve. apply reachable_new.
Defined.

(** ** The fields of a match *)

Lemma disjoint_fields (l1 l2 : list string) :
  forallb (fun f => negb (mem f l2)) l1 = true ->
  forall f, In f l1 -> ~ In f l2.
Proof.
  intros H f H1 H2. rewrite forallb_forall in H. specialize (H f H1).
  apply mem_true in H2. now rewrite H2 in H.
Qed.

Definition confidence_eqb (a b : MatchConfidence) : bool :=
  match a, b with
  | EXACT, EXACT | HIGH, HIGH | MEDIUM, MEDIUM | LOW, LOW | NO_MATCH, NO_MATCH => true
  | _, _ => false
  end.

Lemma confidence_eqb_eq a b : confidence_eqb a b = true <-> a = b.
Proof. destruct a, b; simpl; split; congruence. Qed.

(** The facts of X12 as one boolean test on the three results of the
    rules. *)
Definition fields_check (matched mismatched : list string) (score : float) : bool :=
  let c := confidence_level matched score in
  Bool.eqb (confidence_eqb c HIGH)
    (bool_decide
       (matched = ["email"; "first_name"; "last_name"; "date_of_birth"; "phone"]))
  && forallb (fun f => negb (mem f mismatched)) matched
  && negb (mem "phone" mismatched)
  && (negb (confidence_eqb c EXACT) || (0.4 <=? score)%float)
  && (0 <=? score)%float
  && (score <=? 1.2000000000000002)%float.

(** X12.  Whatever the two records, the confidence of [match_records] is
    High exactly when the state id is not matched and the five other
    fields all are; no field is both matched and mismatched; a phone
    mismatch is never recorded; an Exact match has a score of at least
    0.4; and the score lies between 0 and 1.2000000000000002, the float
    sum of the six weights. *)
Theorem match_records_fields (record1 record2 : gmap string Py.value)
  (source1 source2 : string) :
  let m := match_records record1 record2 source1 source2 in
  (confidence m = HIGH
   <-> matched_fields m
       = ["email"; "first_name"; "last_name"; "date_of_birth"; "phone"])
  /\ (forall f, In f (matched_fields m) -> ~ In f (mismatched_fields m))
  /\ ~ In "phone" (mismatched_fields m)
  /\ (confidence m = EXACT -> (0.4 <=? match_score m)%float = true)
  /\ (0 <=? match_score m)%float = true
  /\ (match_score m <=? 1.2000000000000002)%float = true.
Proof.
  cbv zeta. unfold match_records.
  cbn [confidence matched_fields mismatched_fields match_score].
  set (t := tally record1 record2).
  assert (Hcheck : fields_check (matched t) (mismatched t) (score t) = true).
  { unfold t, tally, rule_phone, rule_dob, rule_name, rule_email, rule_state_id.
    cbv zeta.
    repeat match goal with
           | |- context [if ?b then _ else _] => destruct b
           end; vm_compute; reflexivity. }
  unfold fields_check in Hcheck. cbv zeta in Hcheck.
  repeat (apply andb_true_iff in Hcheck as [Hcheck ?]).
  repeat split; auto.
  - intros Hc. apply confidence_eqb_eq in Hc. rewrite Hc in Hcheck.
    apply (proj1 (bool_decide_eq_true _)). now destruct (bool_decide _).
  - intros Hm. apply (proj2 (bool_decide_eq_true _)) in Hm. rewrite Hm in Hcheck.
    apply confidence_eqb_eq. now destruct (confidence_eqb _ HIGH).
  - now apply disjoint_fields.
  - intros Hin. apply mem_true in Hin.
    now destruct (mem "phone" (mismatched t)).
  - intros Hc. apply confidence_eqb_eq in Hc.
    match goal with
    | Hx : negb (confidence_eqb _ EXACT) || _ = true |- _ =>
        rewrite Hc in Hx; exact Hx
    end.
Qed.

(** ** Duplicates within one data set *)

(** The confidence tiers [find_duplicates] keeps. *)
Definition is_duplicate (m : MatchResult) : bool :=
  match confidence m with
  | EXACT | HIGH | MEDIUM => true
  | _ => false
  end.

(** The inner loop of [find_duplicates]: [rec1] against the records after
    it. *)
Fixpoint duplicates_after (rec1 : gmap string Py.value)
  (rest : list (gmap string Py.value)) (source : string) : list MatchResult :=
  match rest with
  | [] => []
  | rec2 :: rest' =>
      let result := match_records rec1 rec2 source source in
      if is_duplicate result
      then result :: duplicates_after rec1 rest' source
      else duplicates_after rec1 rest' source
  end.

Fixpoint all_duplicates (records : list (gmap string Py.value)) (source : string)
  : list MatchResult :=
  match records with
  | [] => []
  | rec1 :: rest =>
      (duplicates_after rec1 rest source ++ all_duplicates rest source)%list
  end.

(** [IdentityResolver.find_duplicates(records, source)]. *)
Definition find_duplicates (self : IdentityResolver)
  (records : list (gmap string Py.value)) (source : string)
  : IdentityResolver * list MatchResult :=
  let found := all_duplicates records source in
  ({| golden_records := golden_records self;
      source_to_golden := source_to_golden self;
      duplicates := (duplicates self ++ found)%list |},
   found).

Lemma duplicates_after_In rec1 rest source m :
  In m (duplicates_after rec1 rest source)
  <-> exists rec2, In rec2 rest /\ m = match_records rec1 rec2 source source
                   /\ is_duplicate m = true.
Proof.
  induction rest as [|r rest IH]; simpl.
  - split; [tauto | intros (? & [] & _)].
  - destruct (is_duplicate (match_records rec1 r source source)) eqn:E; simpl;
      rewrite IH; split.
    + intros [<-|(rec2 & H1 & H2 & H3)]; [exists r; auto | exists rec2; auto].
    + intros (rec2 & [<-|H1] & H2 & H3); [now left | right; eauto].
    + intros (rec2 & H1 & H2 & H3); eauto.
    + intros (rec2 & [<-|H1] & H2 & H3); [congruence | eauto].
Qed.

Lemma all_duplicates_In records source m :
  In m (all_duplicates records source)
  <-> exists l1 rec1 l2 rec2 l3,
        records = (l1 ++ rec1 :: l2 ++ rec2 :: l3)%list
        /\ m = match_records rec1 rec2 source source /\ is_duplicate m = true.
Proof.
  induction records as [|r records IH]; simpl.
  - split; [tauto|]. intros (l1 & ? & ? & ? & ? & H & _). now destruct l1.
  - rewrite in_app_iff, duplicates_after_In, IH. split.
    + intros [(rec2 & Hin & Hm & Hd)|(l1 & rec1 & l2 & rec2 & l3 & -> & Hm & Hd)].
      * apply in_split in Hin as (l2 & l3 & ->).
        exists [], r, l2, rec2, l3. auto.
      * exists (r :: l1), rec1, l2, rec2, l3. auto.
    + intros (l1 & rec1 & l2 & rec2 & l3 & Hl & Hm & Hd).
      destruct l1 as [|x l1]; simpl in Hl; injection Hl as -> ->.
      * left. exists rec2. split; [|auto]. apply in_or_app. right. now left.
      * right. exists l1, rec1, l2, rec2, l3. auto.
Qed.

Lemma duplicates_after_length rec1 rest source :
  (length (duplicates_after rec1 rest source) <= length rest)%nat.
Proof.
  induction rest as [|r rest IH]; simpl; [lia|].
  destruct (is_duplicate _); simpl; lia.
Qed.

Lemma all_duplicates_length records source :
  (2 * length (all_duplicates records source)
   <= length records * (length records - 1))%nat.
Proof.
  induction records as [|r records IH]; simpl; [lia|].
  rewrite length_app. pose proof (duplicates_after_length r records source).
  rewrite Nat.sub_0_r. nia.
Qed.

(** X13.  [find_duplicates] touches neither the golden records nor the
    source mappings and appends what it returns to the resolver's list of
    duplicates.  It returns, for the pairs of a record and a later record
    of the data set, the match results of confidence Exact, High or
    Medium, and only those; two records whose state ids agree (both
    non-empty, equal once stripped) are always among them; and the
    results are at most n(n-1)/2. *)
Theorem find_duplicates_pairs (self : IdentityResolver)
  (records : list (gmap string Py.value)) (source : string) :
  let res := find_duplicates self records source in
  golden_records (fst res) = golden_records self
  /\ source_to_golden (fst res) = source_to_golden self
  /\ duplicates (fst res) = (duplicates self ++ snd res)%list
  /\ (forall m, In m (snd res) <->
        exists l1 rec1 l2 rec2 l3,
          records = (l1 ++ rec1 :: l2 ++ rec2 :: l3)%list
          /\ m = match_records rec1 rec2 source source
          /\ (confidence m = EXACT \/ confidence m = HIGH \/ confidence m = MEDIUM))
  /\ (forall l1 rec1 l2 rec2 l3,
        records = (l1 ++ rec1 :: l2 ++ rec2 :: l3)%list ->
        state_ids_match rec1 rec2 = true ->
        In (match_records rec1 rec2 source source) (snd res))
  /\ (2 * length (snd res) <= length records * (length records - 1))%nat.
Proof.
  cbv zeta. unfold find_duplicates. cbn [fst snd golden_records source_to_golden duplicates].
  assert (Hdup : forall m, is_duplicate m = true
                 <-> confidence m = EXACT \/ confidence m = HIGH \/ confidence m = MEDIUM).
  { intros m. unfold is_duplicate.
    destruct (confidence m); split; auto; try discriminate;
      intros [H|[H|H]]; discriminate. }
  split; [reflexivity|]. split; [reflexivity|]. split; [reflexivity|].
  split; [|split].
  - intros m. rewrite all_duplicates_In.
    split; intros (l1 & rec1 & l2 & rec2 & l3 & H1 & H2 & H3);
      exists l1, rec1, l2, rec2, l3; repeat split; auto; now apply Hdup.
  - intros l1 rec1 l2 rec2 l3 Hl Hs. apply all_duplicates_In.
    exists l1, rec1, l2, rec2, l3. repeat split; auto.
    unfold is_duplicate, match_records. cbn [confidence]. unfold confidence_level.
    now rewrite state_id_matched, Hs.
  - apply all_duplicates_length.
Qed.

(** ** Similarity of two names *)

(** [set(s)]: the characters of a string. *)
Definition chars (s : string) : gset ascii :=
  list_to_set (list_ascii_of_string s).

(** [int / int]. *)
Definition ratio (a b : nat) : Q :=
  (inject_Z (Z.of_nat a) / inject_Z (Z.of_nat b))%Q.

(** [IdentityResolver.calculate_name_similarity(name1, name2)]. *)
Definition calculate_name_similarity (name1 name2 : Py.value) : Q :=
  let n1 := normalize_name name1 in
  let n2 := normalize_name name2 in
  if String.eqb n1 n2 then 1%Q
  else if negb (nonempty n1) || negb (nonempty n2) then 0%Q
  else
    let set1 := chars n1 in
    let set2 := chars n2 in
    let intersection := size (set1 ∩ set2) in
    let union := size (set1 ∪ set2) in
    if (0 <? union)%nat then ratio intersection union else 0%Q.

Lemma ratio_unit a b :
  (a <= b)%nat -> (0 < b)%nat -> (0 <= ratio a b)%Q /\ (ratio a b <= 1)%Q.
Proof.
  intros Hab Hb. unfold ratio, Qle, Qdiv, Qmult, Qinv, inject_Z.
  destruct b as [|b]; [lia|]. simpl. split; nia.
Qed.

Lemma ratio_one b : (0 < b)%nat -> (ratio b b == 1)%Q.
Proof.
  intros Hb. unfold ratio. field.
  intros H. apply (inject_Z_injective (Z.of_nat b) 0) in H. lia.
Qed.

Lemma chars_nonempty s : nonempty s = true -> (0 < size (chars s))%nat.
Proof.
  destruct s as [|c s]; [discriminate|]. intros _.
  unfold chars. simpl.
  assert (H : size ({[c]} ∪ list_to_set (list_ascii_of_string s) : gset ascii) <> 0%nat).
  { intros H. apply size_empty_iff in H.
    apply (not_elem_of_empty (C := gset ascii) c). rewrite <- H.
    apply elem_of_union_l. now apply elem_of_singleton. }
  lia.
Qed.

(** X14.  The similarity of two names lies between 0 and 1 and does not
    depend on their order.  It is 1 when the two names are the same once
    normalised, also when both are empty, and when they are written with
    the same set of characters; it is 0 when exactly one of them is empty
    once normalised. *)
Theorem calculate_name_similarity_bounds (name1 name2 : Py.value) :
  let sim := calculate_name_similarity name1 name2 in
  (0 <= sim)%Q /\ (sim <= 1)%Q
  /\ calculate_name_similarity name2 name1 = sim
  /\ (normalize_name name1 = normalize_name name2 -> sim = 1%Q)
  /\ (normalize_name name1 <> "" -> normalize_name name2 <> "" ->
      chars (normalize_name name1) = chars (normalize_name name2) -> (sim == 1)%Q)
  /\ (normalize_name name1 <> normalize_name name2 ->
      normalize_name name1 = "" \/ normalize_name name2 = "" -> sim = 0%Q).
Proof.
  cbv zeta. unfold calculate_name_similarity. cbv zeta.
  set (n1 := normalize_name name1). set (n2 := normalize_name name2).
  rewrite (String.eqb_sym n2 n1), (orb_comm (negb (nonempty n2))).
  assert (Hi : chars n2 ∩ chars n1 = chars n1 ∩ chars n2) by apply (comm_L (∩)).
  assert (Hu : chars n2 ∪ chars n1 = chars n1 ∪ chars n2) by apply (comm_L (∪)).
  rewrite Hi, Hu. clear Hi Hu.
  assert (Hne : forall n, nonempty n = true <-> n <> "").
  { intros n. unfold nonempty. rewrite negb_true_iff. apply String.eqb_neq. }
  destruct (String.eqb_spec n1 n2) as [E|E].
  - repeat split; easy.
  - destruct (nonempty n1) eqn:E1; simpl.
    + destruct (nonempty n2) eqn:E2; simpl.
      * assert (Hpos : (0 < size (chars n1 ∪ chars n2))%nat).
        { pose proof (chars_nonempty n1 E1) as H1.
          assert (H : (size (chars n1) <= size (chars n1 ∪ chars n2))%nat)
            by (apply subseteq_size, union_subseteq_l).
          lia. }
        assert (Hle : (size (chars n1 ∩ chars n2) <= size (chars n1 ∪ chars n2))%nat).
        { apply subseteq_size. etransitivity;
            [apply intersection_subseteq_l | apply union_subseteq_l]. }
        assert (Hlt : (0 <? size (chars n1 ∪ chars n2))%nat = true)
          by now apply Nat.ltb_lt.
        rewrite Hlt. destruct (ratio_unit _ _ Hle Hpos) as [H0 H1].
        repeat split; auto; try congruence.
        -- intros _ _ Hc. rewrite Hc.
           assert (Hi : chars n2 ∩ chars n2 = chars n2) by apply (idemp_L (∩)).
           assert (Hu : chars n2 ∪ chars n2 = chars n2) by apply (idemp_L (∪)).
           rewrite Hi, Hu.
           apply ratio_one. now apply chars_nonempty.
        -- intros _ [H|H]; apply Hne in E1, E2; congruence.
      * repeat split; try easy. intros _ H2. apply Hne in H2. congruence.
    + repeat split; try easy. intros H1. apply Hne in H1. congruence.
Qed.

(** ** The household graph *)

(** The entries of [HouseholdGraph.relationships]. *)
Record Relationship : Type := mkRelationship {
  guardian_id : string;
  student_id : string;
  relationship_type : string;
  custody_type : string;
  emergency_priority : Z
}.

Record HouseholdGraph : Type := mkGraph {
  households : gmap string (list string);
  person_to_household : gmap string string;
  relationships : list Relationship
}.

(** [HouseholdGraph.add_household(household_id, members)]. *)
Definition add_household (self : HouseholdGraph) (household_id : string)
  (members : list string) : HouseholdGraph :=
  {| households := <[household_id := members]> (households self);
     person_to_household :=
       fold_left (fun m member => <[member := household_id]> m) members
         (person_to_household self);
     relationships := relationships self |}.

(** [HouseholdGraph.add_relationship(guardian_id, student_id,
    relationship_type, custody_type, emergency_priority)]. *)
Definition add_relationship (self : HouseholdGraph) (gid sid rtype custody : string)
  (priority : Z) : HouseholdGraph :=
  {| households := households self;
     person_to_household := person_to_household self;
     relationships :=
       (relationships self ++ [mkRelationship gid sid rtype custody priority])%list |}.

(** [HouseholdGraph.get_guardians_for_student(student_id)] and
    [get_students_for_guardian(guardian_id)]. *)
Definition get_guardians_for_student (self : HouseholdGraph) (sid : string)
  : list Relationship :=
  List.filter (fun r => String.eqb (student_id r) sid) (relationships self).

Definition get_students_for_guardian (self : HouseholdGraph) (gid : string)
  : list Relationship :=
  List.filter (fun r => String.eqb (guardian_id r) gid) (relationships self).

Lemma fold_insert_lookup (members : list string) (h : string) :
  forall (m : gmap string string) (p : string),
  fold_left (fun m member => <[member := h]> m) members m !! p
  = if mem p members then Some h else m !! p.
Proof.
  induction members as [|x members IH]; intros m p; simpl; [reflexivity|].
  rewrite IH. unfold mem. destruct (existsb (String.eqb p) members).
  - now rewrite orb_true_r.
  - rewrite orb_false_r. destruct (String.eqb_spec p x) as [->|Hne].
    + apply lookup_insert_eq.
    + apply lookup_insert_ne. congruence.
Qed.

(** X15.  A relationship added to the household graph is returned, last,
    for its student and for its guardian, and for no other student or
    guardian; the relationships returned for a student (a guardian) are the
    recorded ones with that student (guardian), in order.  After
    [add_household] the household has the members given, every member
    maps to it, and everyone else maps to the household they had; the
    member lists of the other households are left as they are, also
    those that list a member who has moved. *)
Theorem household_graph_lookups (self : HouseholdGraph) :
  (forall gid sid rtype custody priority sid',
     get_guardians_for_student (add_relationship self gid sid rtype custody priority) sid'
     = (get_guardians_for_student self sid'
        ++ if String.eqb sid sid'
           then [mkRelationship gid sid rtype custody priority] else [])%list)
  /\ (forall gid sid rtype custody priority gid',
        get_students_for_guardian (add_relationship self gid sid rtype custody priority) gid'
        = (get_students_for_guardian self gid'
           ++ if String.eqb gid gid'
              then [mkRelationship gid sid rtype custody priority] else [])%list)
  /\ (forall r sid, In r (get_guardians_for_student self sid)
                    <-> In r (relationships self) /\ student_id r = sid)
  /\ (forall r gid, In r (get_students_for_guardian self gid)
                    <-> In r (relationships self) /\ guardian_id r = gid)
  /\ (forall hid members,
        let g := add_household self hid members in
        households g !! hid = Some members
        /\ (forall other, other <> hid -> households g !! other = households self !! other)
        /\ (forall p, In p members -> person_to_household g !! p = Some hid)
        /\ (forall p, ~ In p members ->
              person_to_household g !! p = person_to_household self !! p)
        /\ relationships g = relationships self).
Proof.
  split; [|split; [|split; [|split]]].
  - intros. unfold get_guardians_for_student, add_relationship. cbn [relationships].
    rewrite List.filter_app. simpl. now destruct (String.eqb sid sid').
  - intros. unfold get_students_for_guardian, add_relationship. cbn [relationships].
    rewrite List.filter_app. simpl. now destruct (String.eqb gid gid').
  - intros r sid. unfold get_guardians_for_student. rewrite List.filter_In.
    now rewrite String.eqb_eq.
  - intros r gid. unfold get_students_for_guardian. rewrite List.filter_In.
    now rewrite String.eqb_eq.
  - intros hid members. cbv zeta. unfold add_household.
    cbn [households person_to_household relationships].
    split; [apply lookup_insert_eq|]. split; [intros; now apply lookup_insert_ne|].
    split; [|split; [|reflexivity]]; intros p Hp; rewrite fold_insert_lookup.
    + apply mem_true in Hp. now rewrite Hp.
    + destruct (mem p members) eqn:E; [|reflexivity].
      apply mem_true in E. contradiction.
Qed.

End Identity.

(* ===================================================================== *)
(** * modules/grades.py: the transcript and its GPA *)
(* ===================================================================== *)

Module Transcript.

Open Scope string_scope.
Open Scope list_scope.

Record TranscriptEntry : Type := mkEntry {
  course_code : string;
  course_name : string;
  term : string;
  school_year : string;
  letter_grade : string;
  credits_attempted : Binary64.float64;
  credits_earned : Binary64.float64;
  grade_points : Binary64.float64;
  is_weighted : bool
}.

(** [TranscriptEntry.quality_points()]. *)
Definition quality_points (self : TranscriptEntry) : Binary64.float64 :=
  Binary64.mul (grade_points self) (credits_attempted self).

Record StudentTranscript : Type := mkTranscript {
  student_id : string;
  entries : list TranscriptEntry;
  cumulative_gpa : Binary64.float64;
  weighted_gpa : Binary64.float64;
  total_credits_attempted : Binary64.float64;
  total_credits_earned : Binary64.float64
}.

(** The literal [0.5]. *)
Definition half : Binary64.float64 := Prim2SF 0.5%float.

(** [0.5 if entry.is_weighted else 0.0]. *)
Definition weight_bonus (entry : TranscriptEntry) : Binary64.float64 :=
  if is_weighted entry then half else Binary64.zero.

(** One turn of the loop of [calculate_gpa], on the three running sums
    [(total_quality_points, weighted_quality_points, total_credits)]. *)
Definition gpa_step
  (acc : Binary64.float64 * Binary64.float64 * Binary64.float64)
  (entry : TranscriptEntry)
  : Binary64.float64 * Binary64.float64 * Binary64.float64 :=
  let '(total_quality_points, weighted_quality_points, total_credits) := acc in
  if Binary64.ltb Binary64.zero (credits_attempted entry) then
    (Binary64.add total_quality_points
       (Binary64.mul (grade_points entry) (credits_attempted entry)),
     Binary64.add weighted_quality_points
       (Binary64.mul (Binary64.add (grade_points entry) (weight_bonus entry))
          (credits_attempted entry)),
     Binary64.add total_credits (credits_attempted entry))
  else acc.

Definition gpa_sums (entries : list TranscriptEntry)
  : Binary64.float64 * Binary64.float64 * Binary64.float64 :=
  fold_left gpa_step entries (Binary64.zero, Binary64.zero, Binary64.zero).

(** [round(points / total_credits, 3) if total_credits > 0 else 0.0]. *)
Definition gpa_of (points total_credits : Binary64.float64) : Binary64.float64 :=
  if Binary64.ltb Binary64.zero total_credits
  then Binary64.round (Binary64.div points total_credits) 3
  else Binary64.zero.

(** [StudentTranscript.calculate_gpa()]: the new transcript state and the
    returned pair [(cumulative_gpa, weighted_gpa)]. *)
Definition calculate_gpa (self : StudentTranscript)
  : StudentTranscript * (Binary64.float64 * Binary64.float64) :=
  match entries self with
  | [] => (self, (Binary64.zero, Binary64.zero))
  | _ =>
      let '(total_quality_points, weighted_quality_points, total_credits) :=
        gpa_sums (entries self) in
      let cumulative := gpa_of total_quality_points total_credits in
      let weighted := gpa_of weighted_quality_points total_credits in
      ({| student_id := student_id self; entries := entries self;
          cumulative_gpa := cumulative; weighted_gpa := weighted;
          total_credits_attempted := total_credits;
          total_credits_earned := total_credits_earned self |},
       (cumulative, weighted))
  end.

Definition with_entries (self : StudentTranscript) (l : list TranscriptEntry)
  : StudentTranscript :=
  {| student_id := student_id self; entries := l;
     cumulative_gpa := cumulative_gpa self; weighted_gpa := weighted_gpa self;
     total_credits_attempted := total_credits_attempted self;
     total_credits_earned := total_credits_earned self |}.

(** The entry with its weighting flag cleared. *)
Definition unweighted (e : TranscriptEntry) : TranscriptEntry :=
  {| course_code := course_code e; course_name := course_name e;
     term := term e; school_year := school_year e;
     letter_grade := letter_grade e;
     credits_attempted := credits_attempted e;
     credits_earned := credits_earned e;
     grade_points := grade_points e; is_weighted := false |}.

(** The entries that count: those with [credits_attempted > 0]. *)
Definition counted (entries : list TranscriptEntry) : list TranscriptEntry :=
  List.filter (fun e => Binary64.ltb Binary64.zero (credits_attempted e)) entries.

(** A sum accumulated from [0.0], term by term. *)
Definition total (terms : list Binary64.float64) : Binary64.float64 :=
  fold_left Binary64.add terms Binary64.zero.

(** ** Entries without attempted credits *)

Lemma gpa_step_skip acc e :
  Binary64.ltb Binary64.zero (credits_attempted e) = false -> gpa_step acc e = acc.
Proof. intros H. unfold gpa_step. destruct acc as [[t w] c]. now rewrite H. Qed.

Lemma gpa_sums_skip l1 e l2 :
  Binary64.ltb Binary64.zero (credits_attempted e) = false ->
  gpa_sums (l1 ++ e :: l2) = gpa_sums (l1 ++ l2).
Proof.
  intros H. unfold gpa_sums. rewrite !fold_left_app. simpl.
  now rewrite (gpa_step_skip _ _ H).
Qed.

Lemma calculate_gpa_skip self l1 e l2 :
  Binary64.ltb Binary64.zero (credits_attempted e) = false ->
  snd (calculate_gpa (with_entries self (l1 ++ e :: l2)))
  = snd (calculate_gpa (with_entries self (l1 ++ l2))).
Proof.
  intros H. unfold calculate_gpa. simpl entries.
  rewrite (gpa_sums_skip l1 e l2 H).
  destruct (l1 ++ l2) as [|x l] eqn:E.
  - destruct l1; [|discriminate]. simpl in E. subst l2. reflexivity.
  - destruct (l1 ++ e :: l2) eqn:E'; [now destruct l1|].
    now destruct (gpa_sums (x :: l)) as [[tq wq] tc].
Qed.

(** ** The weighting bonus *)

Lemma calculate_gpa_keeps_entries self :
  entries (fst (calculate_gpa self)) = entries self.
Proof.
  unfold calculate_gpa. destruct (entries self) as [|x l] eqn:E; [exact E|].
  now destruct (gpa_sums (x :: l)) as [[tq wq] c].
Qed.

Lemma gpa_fold_unweighted l : forall t w w' c,
  let '(t1, _, c1) := fold_left gpa_step (map unweighted l) (t, w, c) in
  let '(t2, _, c2) := fold_left gpa_step l (t, w', c) in
  t1 = t2 /\ c1 = c2.
Proof.
  induction l as [|e l IH]; intros t w w' c; simpl; [auto|].
  destruct (Binary64.ltb Binary64.zero (credits_attempted e)); apply IH.
Qed.

Lemma calculate_gpa_cumulative_unweighted self :
  fst (snd (calculate_gpa (with_entries self (map unweighted (entries self)))))
  = fst (snd (calculate_gpa self)).
Proof.
  unfold calculate_gpa. simpl entries.
  destruct (entries self) as [|e l] eqn:E; [reflexivity|].
  change (map unweighted (e :: l)) with (unweighted e :: map unweighted l) at 1.
  cbv iota beta.
  pose proof (gpa_fold_unweighted (e :: l) Binary64.zero Binary64.zero
                Binary64.zero Binary64.zero) as H.
  fold (gpa_sums (map unweighted (e :: l))) in H. fold (gpa_sums (e :: l)) in H.
  change (unweighted e :: map unweighted l) with (map unweighted (e :: l)).
  destruct (gpa_sums (map unweighted (e :: l))) as [[t1 w1] c1].
  destruct (gpa_sums (e :: l)) as [[t2 w2] c2].
  destruct H as [-> ->]. reflexivity.
Qed.

(** The loop computes three sums over the entries that count. *)
Lemma gpa_fold_sums l : forall t w c,
  fold_left gpa_step l (t, w, c)
  = (fold_left Binary64.add (map quality_points (counted l)) t,
     fold_left Binary64.add
       (map (fun e => Binary64.mul (Binary64.add (grade_points e) (weight_bonus e))
                        (credits_attempted e)) (counted l)) w,
     fold_left Binary64.add (map credits_attempted (counted l)) c).
Proof.
  induction l as [|e l IH]; intros t w c; [reflexivity|].
  cbn [fold_left counted List.filter]. unfold gpa_step at 2.
  destruct (Binary64.ltb Binary64.zero (credits_attempted e)).
  - rewrite IH. reflexivity.
  - rewrite IH. reflexivity.
Qed.

Lemma calculate_gpa_sums self :
  entries self <> [] ->
  calculate_gpa self
  = let total_credits := total (map credits_attempted (counted (entries self))) in
    let cumulative :=
      gpa_of (total (map quality_points (counted (entries self)))) total_credits in
    let weighted :=
      gpa_of
        (total (map (fun e => Binary64.mul
                                (Binary64.add (grade_points e) (weight_bonus e))
                                (credits_attempted e))
                  (counted (entries self)))) total_credits in
    ({| student_id := student_id self; entries := entries self;
        cumulative_gpa := cumulative; weighted_gpa := weighted;
        total_credits_attempted := total_credits;
        total_credits_earned := total_credits_earned self |},
     (cumulative, weighted)).
Proof.
  intros Hne. unfold calculate_gpa, gpa_sums.
  destruct (entries self) as [|e l] eqn:E; [congruence|].
  rewrite gpa_fold_sums. reflexivity.
Qed.

(** C5.  An empty entry list gives (0.0, 0.0) and leaves the transcript as
    it is.  An entry whose attempted credits are not above 0, so one with
    zero credits, changes neither the sums nor the returned pair.  The
    computation leaves the entries, and so their stored grade points, as
    they are, and the cumulative GPA does not depend on the weighting
    flags.  For a transcript with entries, the returned pair is the pair
    stored: with [total_credits] the sum of the attempted credits of the
    entries that count, the cumulative GPA is the sum of
    [grade_points * credits_attempted] over [total_credits] and the
    weighted GPA the sum of [(grade_points + bonus) * credits_attempted]
    over [total_credits], the bonus being 0.5 for a weighted entry and 0.0
    otherwise, each rounded to three decimals, and both are 0.0 when
    [total_credits] is not above 0. *)
Theorem calculate_gpa_properties :
  (forall self, entries self = [] ->
     calculate_gpa self = (self, (Binary64.zero, Binary64.zero)))
  /\ (forall self l1 e l2,
        Binary64.ltb Binary64.zero (credits_attempted e) = false ->
        gpa_sums (l1 ++ e :: l2) = gpa_sums (l1 ++ l2)
        /\ snd (calculate_gpa (with_entries self (l1 ++ e :: l2)))
           = snd (calculate_gpa (with_entries self (l1 ++ l2))))
  /\ (forall e sign, credits_attempted e = S754_zero sign ->
        Binary64.ltb Binary64.zero (credits_attempted e) = false)
  /\ (forall self, entries (fst (calculate_gpa self)) = entries self)
  /\ (forall self,
        fst (snd (calculate_gpa (with_entries self (map unweighted (entries self)))))
        = fst (snd (calculate_gpa self)))
  /\ (forall self, entries self <> [] ->
        let scored := counted (entries self) in
        let total_credits := total (map credits_attempted scored) in
        let total_quality_points :=
          total (map (fun e => Binary64.mul (grade_points e) (credits_attempted e))
                   scored) in
        let weighted_quality_points :=
          total (map (fun e =>
                        Binary64.mul
                          (Binary64.add (grade_points e)
                             (if is_weighted e then Prim2SF 0.5%float
                              else Binary64.zero))
                          (credits_attempted e)) scored) in
        let expected :=
          if Binary64.ltb Binary64.zero total_credits
          then (Binary64.round (Binary64.div total_quality_points total_credits) 3,
                Binary64.round (Binary64.div weighted_quality_points total_credits) 3)
          else (Binary64.zero, Binary64.zero) in
        snd (calculate_gpa self) = expected
        /\ (cumulative_gpa (fst (calculate_gpa self)),
            weighted_gpa (fst (calculate_gpa self))) = expected
        /\ total_credits_attempted (fst (calculate_gpa self)) = total_credits).
Proof.
  split; [|split; [|split; [|split; [|split]]]].
  - intros self H. unfold calculate_gpa. now rewrite H.
  - intros self l1 e l2 H. split; [now apply gpa_sums_skip|].
    now apply calculate_gpa_skip.
  - intros e sign ->. now destruct sign.
  - apply calculate_gpa_keeps_entries.
  - apply calculate_gpa_cumulative_unweighted.
  - intros self Hne. cbv zeta. rewrite (calculate_gpa_sums self Hne).
    cbv zeta. cbn [fst snd cumulative_gpa weighted_gpa total_credits_attempted].
    unfold gpa_of.
    destruct (Binary64.ltb Binary64.zero _); repeat split.
Qed.

(** ** Concrete runs *)

Definition example_entry (code : string) (credits points : PrimFloat.float)
  (weighted : bool) : TranscriptEntry :=
  {| course_code := code; course_name := code; term := "Fall";
     school_year := "2023-2024"; letter_grade := "A";
     credits_attempted := Prim2SF credits; credits_earned := Prim2SF credits;
     grade_points := Prim2SF points; is_weighted := weighted |}.

Definition example_transcript (l : list TranscriptEntry) : StudentTranscript :=
  {| student_id := "STU1"; entries := l; cumulative_gpa := Binary64.zero;
     weighted_gpa := Binary64.zero; total_credits_attempted := Binary64.zero;
     total_credits_earned := Binary64.zero |}.

(** A 4.0 in a weighted one-credit course, a 3.0 in a plain one-credit
    course and a zero-credit entry: GPA 3.5, weighted GPA 3.75, and the
    stored grade points are as they were. *)
Example calculate_gpa_run :
  let t := example_transcript
             [example_entry "AP-BIO" 1 4 true; example_entry "ENG" 1 3 false;
              example_entry "LAB" 0 2 true] in
  snd (calculate_gpa t) = (Prim2SF 3.5%float, Prim2SF 3.75%float)
  /\ map grade_points (entries (fst (calculate_gpa t)))
     = [Prim2SF 4%float; Prim2SF 3%float; Prim2SF 2%float].
Proof. vm_compute. repeat split; reflexivity. Qed.

(** One weighted course: the bonus raises the weighted GPA only. *)
Example calculate_gpa_weighted_course :
  snd (calculate_gpa (example_transcript [example_entry "AP-BIO" 1 4 true]))
  = (Prim2SF 4%float, Prim2SF 4.5%float).
Proof. vm_compute. reflexivity. Qed.

(** 3.7 points on one credit and 0.0 points on seven: the quotient
    3.7 / 8 is a binary64 number above 0.4625, and the GPA is 0.463. *)
Example calculate_gpa_rounds_the_float :
  snd (calculate_gpa
         (example_transcript
            [example_entry "ENG" 1 3.7 false; example_entry "ART" 7 0 false]))
  = (Prim2SF 0.463%float, Prim2SF 0.463%float).
Proof. vm_compute. reflexivity. Qed.

(** Credits that are infinite count, and the GPA is not a number. *)
Example calculate_gpa_infinite_credits :
  snd (calculate_gpa
         (example_transcript [example_entry "ENG" infinity 4 false]))
  = (S754_nan, S754_nan).
Proof. vm_compute. reflexivity. Qed.

(** A zero-credit entry between two others changes nothing. *)
Lemma calculate_gpa_zero_credit_entry :
  snd (calculate_gpa
         (example_transcript
            ([example_entry "AP-BIO" 1 4 true] ++ example_entry "LAB" 0 2 true
             :: [example_entry "ENG" 1 3 false])))
  = snd (calculate_gpa
           (example_transcript
              ([example_entry "AP-BIO" 1 4 true] ++ [example_entry "ENG" 1 3 false]))).
Proof.
  apply (proj2 (proj1 (proj2 calculate_gpa_properties)
                  (example_transcript [])
                  [example_entry "AP-BIO" 1 4 true] (example_entry "LAB" 0 2 true)
                  [example_entry "ENG" 1 3 false] eq_refl)).
Defined.

End Transcript.

(* ===================================================================== *)
(** * modules/grades.py: grade scales, the processor and the builder *)
(* ===================================================================== *)

Module Grades.

Open Scope Q_scope.

(** The grade numbers of the processor and of the builder (percentages,
    credits, grade points) are rationals in this module; the GPA on binary64
    numbers is [Transcript.calculate_gpa]. *)
Record TranscriptEntry : Type := mkEntry {
  course_code : string;
  course_name : string;
  term : string;
  school_year : string;
  letter_grade : string;
  credits_attempted : Q;
  credits_earned : Q;
  grade_points : Q;
  is_weighted : bool
}.

(** [TranscriptEntry.quality_points()]. *)
Definition quality_points (self : TranscriptEntry) : Q :=
  grade_points self * credits_attempted self.

Record StudentTranscript : Type := mkTranscript {
  student_id : string;
  entries : list TranscriptEntry;
  cumulative_gpa : Q;
  weighted_gpa : Q;
  total_credits_attempted : Q;
  total_credits_earned : Q
}.

(** The three running sums of [calculate_gpa]:
    [(total_quality_points, weighted_quality_points, total_credits)]. *)
Definition gpa_step (acc : Q * Q * Q) (entry : TranscriptEntry) : Q * Q * Q :=
  let '(total_quality_points, weighted_quality_points, total_credits) := acc in
  if Py.Qltb 0 (credits_attempted entry) then
    let weight_bonus := if is_weighted entry then 1 # 2 else 0 in
    (total_quality_points + grade_points entry * credits_attempted entry,
     weighted_quality_points
       + (grade_points entry + weight_bonus) * credits_attempted entry,
     total_credits + credits_attempted entry)
  else acc.

Definition gpa_sums (entries : list TranscriptEntry) : Q * Q * Q :=
  fold_left gpa_step entries (0, 0, 0).

(** [StudentTranscript.calculate_gpa()]: the new transcript state and the
    returned pair [(cumulative_gpa, weighted_gpa)]. *)
Definition calculate_gpa (self : StudentTranscript)
  : StudentTranscript * (Q * Q) :=
  match entries self with
  | [] => (self, (0, 0))
  | _ =>
      let '(total_quality_points, weighted_quality_points, total_credits) :=
        gpa_sums (entries self) in
      let cumulative :=
        if Py.Qltb 0 total_credits
        then Py.round (total_quality_points / total_credits) 3 else 0 in
      let weighted :=
        if Py.Qltb 0 total_credits
        then Py.round (weighted_quality_points / total_credits) 3 else 0 in
      ({| student_id := student_id self; entries := entries self;
          cumulative_gpa := cumulative; weighted_gpa := weighted;
          total_credits_attempted := total_credits;
          total_credits_earned := total_credits_earned self |},
       (cumulative, weighted))
  end.

Lemma calculate_gpa_entries self :
  entries (fst (calculate_gpa self)) = entries self.
Proof.
  unfold calculate_gpa. destruct (entries self) as [|x l] eqn:E; [exact E|].
  now destruct (gpa_sums (x :: l)) as [[tq wq] c].
Qed.

(** ** Grade scales *)

Open Scope string_scope.

Inductive GradeType : Type :=
| LETTER | NUMERIC | PERCENTAGE | PASS_FAIL | STANDARDS_BASED.

Inductive GradeStatus : Type :=
| FINAL | IN_PROGRESS | INCOMPLETE | WITHDRAWN | TRANSFER.

(** [GradeProcessor.LETTER_TO_POINTS]; the value of "P", "NP", "I" and "W"
    is [None]. *)
Definition LETTER_TO_POINTS : gmap string (option Q) :=
  list_to_map
    [ ("A+", Some 4%Q); ("A", Some 4%Q); ("A-", Some (37 # 10)%Q);
      ("B+", Some (33 # 10)%Q); ("B", Some 3%Q); ("B-", Some (27 # 10)%Q);
      ("C+", Some (23 # 10)%Q); ("C", Some 2%Q); ("C-", Some (17 # 10)%Q);
      ("D+", Some (13 # 10)%Q); ("D", Some 1%Q); ("D-", Some (7 # 10)%Q);
      ("F", Some 0%Q);
      ("P", None); ("NP", None); ("I", None); ("W", None) ].

(** [GradeProcessor.PERCENTAGE_TO_LETTER] and [NUMERIC_TO_LETTER]. *)
Definition PERCENTAGE_TO_LETTER : list (Q * string) :=
  [ (97%Q, "A+"); (93%Q, "A"); (90%Q, "A-");
    (87%Q, "B+"); (83%Q, "B"); (80%Q, "B-");
    (77%Q, "C+"); (73%Q, "C"); (70%Q, "C-");
    (67%Q, "D+"); (63%Q, "D"); (60%Q, "D-");
    (0%Q, "F") ].

Definition NUMERIC_TO_LETTER : list (Q * string) :=
  [ (4%Q, "A"); ((37 # 10)%Q, "A-");
    ((33 # 10)%Q, "B+"); (3%Q, "B"); ((27 # 10)%Q, "B-");
    ((23 # 10)%Q, "C+"); (2%Q, "C"); ((17 # 10)%Q, "C-");
    ((13 # 10)%Q, "D+"); (1%Q, "D"); ((7 # 10)%Q, "D-");
    (0%Q, "F") ].

(** The loop over a table of thresholds: the letter of the first threshold
    the value reaches, "F" when it reaches none. *)
Fixpoint first_reached (table : list (Q * string)) (x : Q) : string :=
  match table with
  | [] => "F"
  | (threshold, letter) :: rest =>
      if Qle_bool threshold x then letter else first_reached rest x
  end.

(** [GradeProcessor.percentage_to_letter(percentage)] and
    [numeric_to_letter(numeric)]. *)
Definition percentage_to_letter (percentage : Q) : string :=
  first_reached PERCENTAGE_TO_LETTER percentage.

Definition numeric_to_letter (numeric : Q) : string :=
  first_reached NUMERIC_TO_LETTER numeric.

(** [not grade or str(grade).upper() in ["NULL", "N/A", ""]]. *)
Definition is_null (grade : Py.value) : bool :=
  negb (Py.truthy grade)
  || existsb (String.eqb (Py.upper (Py.str grade))) ["NULL"; "N/A"; ""].

(** [re.match(r'^[A-F][+-]?$', s)] on a stripped string. *)
Definition is_letter_grade (s : string) : bool :=
  match s with
  | String c rest =>
      (65 <=? Py.code c)%nat && (Py.code c <=? 70)%nat
      && (String.eqb rest "" || String.eqb rest "+" || String.eqb rest "-")
  | EmptyString => false
  end.

(** The dictionary [variations] of [normalize_letter_grade]. *)
Definition variations : gmap string string :=
  list_to_map
    [ ("A PLUS", "A+"); ("A MINUS", "A-"); ("B PLUS", "B+"); ("B MINUS", "B-");
      ("C PLUS", "C+"); ("C MINUS", "C-"); ("D PLUS", "D+"); ("D MINUS", "D-");
      ("PASS", "P"); ("FAIL", "F");
      ("SATISFACTORY", "P"); ("UNSATISFACTORY", "F");
      ("S", "P"); ("U", "F") ].

(** [GradeProcessor.normalize_letter_grade(grade)]. *)
Definition normalize_letter_grade (grade : Py.value) : option string :=
  if is_null grade then None
  else
    let grade_str := Py.upper (Py.strip (Py.str grade)) in
    match variations !! grade_str with
    | Some letter => Some letter
    | None => if is_letter_grade grade_str then Some grade_str else None
    end.

(** [GradeProcessor.letter_to_points(letter)]. *)
Definition letter_to_points (letter : Py.value) : option Q :=
  if negb (Py.truthy letter) then None
  else
    match normalize_letter_grade letter with
    | Some normalized =>
        if negb (String.eqb normalized "") then mjoin (LETTER_TO_POINTS !! normalized)
        else None
    | None => None
    end.

(** [s.replace("%", "")]. *)
Definition drop_percent (s : string) : string :=
  Py.filter_string (fun c => negb (Ascii.eqb c "%")) s.

Section Detection.

(** [float(s)]: [None] when it raises [ValueError], and when it gives an
    infinity or a NaN, which pass neither of the two range tests. *)
Variable parse_float : string -> option Q.

(** [GradeProcessor.detect_grade_type(grade)]. *)
Definition detect_grade_type (grade : Py.value) : GradeType :=
  if is_null grade then LETTER
  else
    let grade_str := Py.upper (Py.strip (Py.str grade)) in
    if is_letter_grade grade_str then LETTER
    else if existsb (String.eqb grade_str) ["P"; "NP"; "PASS"; "FAIL"; "S"; "U"]
    then PASS_FAIL
    else
      match parse_float (drop_percent grade_str) with
      | Some value =>
          if Qle_bool 0 value && Qle_bool value 100 then PERCENTAGE
          else if Qle_bool 0 value && Qle_bool value 5 then NUMERIC
          else LETTER
      | None => LETTER
      end.

End Detection.

(** ** Properties of the grade scales *)

Lemma Qle_bool_false a b : Qle_bool a b = false -> (b < a)%Q.
Proof.
  intros H. apply Qnot_le_lt. intros Hle. apply Qle_bool_iff in Hle. congruence.
Qed.

(** The letter of a percentage, threshold by threshold. *)
Lemma percentage_to_letter_cases (p : Q) :
  (97 <= p /\ percentage_to_letter p = "A+")%Q
  \/ (93 <= p /\ p < 97 /\ percentage_to_letter p = "A")%Q
  \/ (90 <= p /\ p < 93 /\ percentage_to_letter p = "A-")%Q
  \/ (87 <= p /\ p < 90 /\ percentage_to_letter p = "B+")%Q
  \/ (83 <= p /\ p < 87 /\ percentage_to_letter p = "B")%Q
  \/ (80 <= p /\ p < 83 /\ percentage_to_letter p = "B-")%Q
  \/ (77 <= p /\ p < 80 /\ percentage_to_letter p = "C+")%Q
  \/ (73 <= p /\ p < 77 /\ percentage_to_letter p = "C")%Q
  \/ (70 <= p /\ p < 73 /\ percentage_to_letter p = "C-")%Q
  \/ (67 <= p /\ p < 70 /\ percentage_to_letter p = "D+")%Q
  \/ (63 <= p /\ p < 67 /\ percentage_to_letter p = "D")%Q
  \/ (60 <= p /\ p < 63 /\ percentage_to_letter p = "D-")%Q
  \/ (p < 60 /\ percentage_to_letter p = "F")%Q.
Proof.
  unfold percentage_to_letter, PERCENTAGE_TO_LETTER, first_reached.
  repeat match goal with
         | |- context [Qle_bool ?t p] =>
             let E := fresh "E" in
             destruct (Qle_bool t p) eqn:E;
             [apply Qle_bool_iff in E | apply Qle_bool_false in E]
         end;
    try (left; repeat split; (assumption || reflexivity));
    repeat (first [ right; left; repeat split; (assumption || reflexivity)
                  | right ]);
    repeat split; (assumption || reflexivity).
Qed.

(** X17.  Whatever the percentage, [percentage_to_letter] gives one of the
    thirteen letters of the table, "A+" from 97 and "F" below 60, also
    below 0; the letter always has grade points, between 0 and 4; and a
    higher percentage never gives a letter of fewer grade points. *)
Theorem percentage_to_letter_monotone :
  (forall p : Q,
     In (percentage_to_letter p)
       ["A+"; "A"; "A-"; "B+"; "B"; "B-"; "C+"; "C"; "C-"; "D+"; "D"; "D-"; "F"]
     /\ exists a, letter_to_points (Py.VStr (percentage_to_letter p)) = Some a
                  /\ (0 <= a)%Q /\ (a <= 4)%Q)
  /\ (forall p : Q, (97 <= p)%Q -> percentage_to_letter p = "A+")
  /\ (forall p : Q, (p < 60)%Q -> percentage_to_letter p = "F")
  /\ (forall p q : Q, (p <= q)%Q ->
        exists a b,
          letter_to_points (Py.VStr (percentage_to_letter p)) = Some a
          /\ letter_to_points (Py.VStr (percentage_to_letter q)) = Some b
          /\ (a <= b)%Q).
Proof.
  split; [|split; [|split]].
  - intros p.
    destruct (percentage_to_letter_cases p)
      as [H|[H|[H|[H|[H|[H|[H|[H|[H|[H|[H|[H|H]]]]]]]]]]]];
      repeat match goal with H : _ /\ _ |- _ => destruct H as [? H] end;
      rewrite H; (split; [simpl; tauto|]);
      eexists; (split; [vm_compute; reflexivity|]); split; vm_compute; discriminate.
  - intros p Hp.
    destruct (percentage_to_letter_cases p)
      as [H|[H|[H|[H|[H|[H|[H|[H|[H|[H|[H|[H|H]]]]]]]]]]]];
      repeat match goal with H : _ /\ _ |- _ => destruct H as [? H] end;
      try exact H; exfalso; lra.
  - intros p Hp.
    destruct (percentage_to_letter_cases p)
      as [H|[H|[H|[H|[H|[H|[H|[H|[H|[H|[H|[H|H]]]]]]]]]]]];
      repeat match goal with H : _ /\ _ |- _ => destruct H as [? H] end;
      try exact H; exfalso; lra.
  - intros p q Hpq.
    destruct (percentage_to_letter_cases p)
      as [H|[H|[H|[H|[H|[H|[H|[H|[H|[H|[H|[H|H]]]]]]]]]]]];
      repeat match goal with H : _ /\ _ |- _ => destruct H as [? H] end;
      rewrite H; clear H;
      destruct (percentage_to_letter_cases q)
        as [H|[H|[H|[H|[H|[H|[H|[H|[H|[H|[H|[H|H]]]]]]]]]]]];
      repeat match goal with H : _ /\ _ |- _ => destruct H as [? H] end;
      rewrite H; clear H;
      try (exfalso; lra);
      eexists; eexists; (split; [vm_compute; reflexivity|]);
      (split; [vm_compute; reflexivity|]); vm_compute; discriminate.
Qed.

(** ** Letter grades *)

Lemma is_letter_grade_In s :
  is_letter_grade s = true ->
  In s ["A"; "A+"; "A-"; "B"; "B+"; "B-"; "C"; "C+"; "C-";
        "D"; "D+"; "D-"; "E"; "E+"; "E-"; "F"; "F+"; "F-"].
Proof.
  destruct s as [|c rest]; [discriminate|]. unfold is_letter_grade.
  rewrite !andb_true_iff, !orb_true_iff, !String.eqb_eq, !Nat.leb_le.
  intros [[Hlo Hhi] Hrest].
  assert (Hc : c = ascii_of_nat (Py.code c))
    by (unfold Py.code; now rewrite ascii_nat_embedding).
  assert (Hn : (Py.code c = 65 \/ Py.code c = 66 \/ Py.code c = 67
                \/ Py.code c = 68 \/ Py.code c = 69 \/ Py.code c = 70)%nat) by lia.
  destruct Hn as [E|[E|[E|[E|[E|E]]]]]; rewrite E in Hc; simpl in Hc; subst c;
    destruct Hrest as [[->| ->]| ->]; simpl;
    repeat (first [left; reflexivity | right]).
Qed.

Lemma variations_In s l :
  variations !! s = Some l ->
  In l ["A+"; "A-"; "B+"; "B-"; "C+"; "C-"; "D+"; "D-"; "P"; "F"].
Proof.
  intros H. apply elem_of_list_to_map_2 in H. apply list_elem_of_In in H.
  simpl in H.
  repeat match goal with
         | H : _ \/ _ |- _ => destruct H as [H|H]
         end; try contradiction; injection H as _ <-; simpl;
    repeat (first [left; reflexivity | right]).
Qed.

Definition letters : list string :=
  ["A"; "A+"; "A-"; "B"; "B+"; "B-"; "C"; "C+"; "C-";
   "D"; "D+"; "D-"; "E"; "E+"; "E-"; "F"; "F+"; "F-"; "P"].

Lemma normalize_letter_grade_In grade l :
  normalize_letter_grade grade = Some l -> In l letters.
Proof.
  unfold normalize_letter_grade.
  destruct (is_null grade); [discriminate|]. cbv zeta.
  destruct (variations !! _) as [v|] eqn:E.
  - intros H. injection H as <-. apply variations_In in E.
    unfold letters. simpl in *. tauto.
  - destruct (is_letter_grade _) eqn:El; [|discriminate].
    intros H. injection H as <-. apply is_letter_grade_In in El.
    unfold letters. simpl in *. tauto.
Qed.

(** X18.  [normalize_letter_grade] returns nothing or one of the letters A
    to F, with or without a sign, or "P".  Normalising such a letter again
    gives the letter, except for "P": "PASS" gives "P", but "P" itself
    gives nothing.  And the grade points [letter_to_points] gives, when it
    gives any, lie between 0 and 4. *)
Theorem normalize_letter_grade_letters :
  (forall grade l, normalize_letter_grade grade = Some l ->
     In l ["A"; "A+"; "A-"; "B"; "B+"; "B-"; "C"; "C+"; "C-";
           "D"; "D+"; "D-"; "E"; "E+"; "E-"; "F"; "F+"; "F-"; "P"]
     /\ (l <> "P" -> normalize_letter_grade (Py.VStr l) = Some l))
  /\ normalize_letter_grade (Py.VStr "PASS") = Some "P"
  /\ normalize_letter_grade (Py.VStr "P") = None
  /\ (forall letter a, letter_to_points letter = Some a -> (0 <= a)%Q /\ (a <= 4)%Q).
Proof.
  split; [|split; [|split]]; try (vm_compute; reflexivity).
  - intros grade l H. apply normalize_letter_grade_In in H.
    split; [exact H|]. intros Hp. unfold letters in H. simpl in H.
    repeat match goal with
           | H : _ \/ _ |- _ => destruct H as [H|H]
           end; try contradiction; subst l; try congruence;
      vm_compute; reflexivity.
  - intros letter a. unfold letter_to_points.
    destruct (negb (Py.truthy letter)); [discriminate|].
    destruct (normalize_letter_grade letter) as [n|] eqn:E; [|discriminate].
    apply normalize_letter_grade_In in E. unfold letters in E. simpl in E.
    repeat match goal with
           | H : _ \/ _ |- _ => destruct H as [H|H]
           end; try contradiction; subst n; vm_compute;
      intros H; try discriminate H; injection H as <-; split; discriminate.
Qed.

Ltac break_hyps :=
  repeat match goal with
         | H : _ /\ _ |- _ => destruct H
         | H : exists _, _ |- _ => destruct H
         end.

(** X19.  [detect_grade_type] never answers NUMERIC or STANDARDS_BASED:
    a number between 0 and 5 is between 0 and 100, so the percentage test
    takes it first.  The answer is PERCENTAGE exactly for a grade that is
    not blank, not a letter grade, not a pass or fail word, and whose text
    without percent signs is a number between 0 and 100; PASS_FAIL exactly
    for the six pass or fail words; and LETTER otherwise. *)
Theorem detect_grade_type_never_numeric (parse_float : string -> option Q)
  (grade : Py.value) :
  let t := detect_grade_type parse_float grade in
  let grade_str := Py.upper (Py.strip (Py.str grade)) in
  let pass_fail := existsb (String.eqb grade_str) ["P"; "NP"; "PASS"; "FAIL"; "S"; "U"] in
  t <> NUMERIC /\ t <> STANDARDS_BASED
  /\ (t = PASS_FAIL <->
      is_null grade = false /\ is_letter_grade grade_str = false /\ pass_fail = true)
  /\ (t = PERCENTAGE <->
      is_null grade = false /\ is_letter_grade grade_str = false /\ pass_fail = false
      /\ exists value, parse_float (drop_percent grade_str) = Some value
                       /\ (0 <= value)%Q /\ (value <= 100)%Q)
  /\ (t = LETTER \/ t = PASS_FAIL \/ t = PERCENTAGE).
Proof.
  cbv zeta. unfold detect_grade_type. cbv zeta.
  assert (Hletter : forall (P1 P2 : Prop), (P1 -> False) -> (P2 -> False) ->
            LETTER <> NUMERIC /\ LETTER <> STANDARDS_BASED
            /\ (LETTER = PASS_FAIL <-> P1) /\ (LETTER = PERCENTAGE <-> P2)
            /\ (LETTER = LETTER \/ LETTER = PASS_FAIL \/ LETTER = PERCENTAGE)).
  { intros P1 P2 H1 H2. repeat split; try discriminate; auto; intros H; tauto. }
  destruct (is_null grade);
    [apply Hletter; intros H; break_hyps; congruence|].
  destruct (is_letter_grade _);
    [apply Hletter; intros H; break_hyps; congruence|].
  destruct (existsb _ _).
  { split; [discriminate|]. split; [discriminate|].
    split; [tauto|]. split; [|tauto].
    split; [discriminate|]. intros H. break_hyps. congruence. }
  destruct (parse_float _) as [value|];
    [|apply Hletter; intros H; break_hyps; congruence].
  destruct (Qle_bool 0 value) eqn:E0; cbn [andb].
  - apply Qle_bool_iff in E0.
    destruct (Qle_bool value 100) eqn:E100.
    + apply Qle_bool_iff in E100.
      split; [discriminate|]. split; [discriminate|].
      split; [split; [discriminate | intros H; break_hyps; congruence]|].
      split; [|tauto].
      split; [|reflexivity]. intros _. repeat split. exists value. auto.
    + apply Qle_bool_false in E100.
      assert (E5 : Qle_bool value 5 = false).
      { destruct (Qle_bool value 5) eqn:E5; [|reflexivity].
        apply Qle_bool_iff in E5. exfalso. lra. }
      rewrite E5. apply Hletter; intros H; break_hyps; try congruence.
      match goal with Hv : Some _ = Some _ |- _ => injection Hv as <- end.
      lra.
  - apply Qle_bool_false in E0.
    apply Hletter; intros H; break_hyps; try congruence.
    match goal with Hv : Some _ = Some _ |- _ => injection Hv as <- end.
    lra.
Qed.

(** ** Grade records and transcripts *)

(** [GradeRecord]; the attributes it shares with the transcript entry
    carry the prefix [record_] here. *)
Record GradeRecord : Type := mkGrade {
  record_id : string;
  record_student_id : string;
  record_course_code : string;
  record_course_name : string;
  record_term : string;
  record_school_year : string;
  raw_grade : string;
  record_letter_grade : option string;
  numeric_grade : option Q;
  record_credits_attempted : Q;
  record_credits_earned : Q;
  record_grade_points : Q;
  record_is_weighted : bool;
  is_honors : bool;
  is_ap : bool;
  instructor_name : option string;
  status : GradeStatus;
  source_system : option string
}.

(** The entries of the issue list: the dictionaries with ["type"]
    [invalid_grade] and [duplicate_grade]. *)
Inductive GradeIssue : Type :=
| InvalidGrade (student course raw : string)
| DuplicateGrade (student course term_name : string).

Record GradeProcessor : Type := mkGradeProcessor {
  grades : gmap string (list GradeRecord);
  issues : list GradeIssue;
  transcripts : gmap string StudentTranscript
}.

(** The test of [find_duplicates] on two records. *)
Definition same_course (g1 g2 : GradeRecord) : bool :=
  String.eqb (record_course_code g1) (record_course_code g2)
  && String.eqb (record_term g1) (record_term g2)
  && String.eqb (record_school_year g1) (record_school_year g2).

Fixpoint duplicates_of (g1 : GradeRecord) (rest : list GradeRecord)
  : list (GradeRecord * GradeRecord) :=
  match rest with
  | [] => []
  | g2 :: rest' =>
      if same_course g1 g2 then (g1, g2) :: duplicates_of g1 rest'
      else duplicates_of g1 rest'
  end.

Fixpoint duplicate_grades (l : list GradeRecord) : list (GradeRecord * GradeRecord) :=
  match l with
  | [] => []
  | g1 :: rest => (duplicates_of g1 rest ++ duplicate_grades rest)%list
  end.

(** [GradeProcessor.find_duplicates(student_id)]. *)
Definition find_duplicates (self : GradeProcessor) (sid : string)
  : GradeProcessor * list (GradeRecord * GradeRecord) :=
  let found := duplicate_grades (default [] (grades self !! sid)) in
  ({| grades := grades self;
      issues :=
        (issues self
         ++ map (fun pair => DuplicateGrade sid (record_course_code (fst pair))
                               (record_term (fst pair))) found)%list;
      transcripts := transcripts self |},
   found).

(** The key of [build_transcript]:
    [f"{grade.course_code}-{grade.term}-{grade.school_year}"]. *)
Definition grade_key (grade : GradeRecord) : string :=
  record_course_code grade ++ "-" ++ record_term grade ++ "-"
  ++ record_school_year grade.

(** One turn of the first loop of [build_transcript], on the
    insertion-ordered dictionary [unique_grades]. *)
Definition keep_highest (unique : list (string * GradeRecord)) (grade : GradeRecord)
  : list (string * GradeRecord) :=
  let key := grade_key grade in
  match Identity.dict_get key unique with
  | None => Identity.dict_set key grade unique
  | Some kept =>
      if Py.Qltb (record_grade_points kept) (record_grade_points grade)
      then Identity.dict_set key grade unique
      else unique
  end.

Definition unique_grades (l : list GradeRecord) : list (string * GradeRecord) :=
  fold_left keep_highest l [].

(** [grade.status == GradeStatus.FINAL and grade.letter_grade]. *)
Definition on_transcript (grade : GradeRecord) : bool :=
  match status grade, record_letter_grade grade with
  | FINAL, Some letter => negb (String.eqb letter "")
  | _, _ => false
  end.

Definition to_entry (grade : GradeRecord) : TranscriptEntry :=
  {| course_code := record_course_code grade;
     course_name := record_course_name grade;
     term := record_term grade;
     school_year := record_school_year grade;
     letter_grade := default "" (record_letter_grade grade);
     credits_attempted := record_credits_attempted grade;
     credits_earned := record_credits_earned grade;
     grade_points := record_grade_points grade;
     is_weighted := record_is_weighted grade |}.

(** [TranscriptBuilder.build_transcript(student_id)], on the processor the
    builder holds: the new processor and the transcript. *)
Definition build_transcript (processor : GradeProcessor) (sid : string)
  : GradeProcessor * StudentTranscript :=
  let unique := unique_grades (default [] (grades processor !! sid)) in
  let new_entries := map to_entry (List.filter on_transcript (map snd unique)) in
  let transcript :=
    {| student_id := sid; entries := new_entries;
       cumulative_gpa := 0; weighted_gpa := 0; total_credits_attempted := 0;
       total_credits_earned :=
         fold_left (fun total entry => total + credits_earned entry) new_entries 0 |} in
  let transcript := fst (calculate_gpa transcript) in
  ({| grades := grades processor; issues := issues processor;
      transcripts := <[sid := transcript]> (transcripts processor) |},
   transcript).

(** ** Duplicate grade records *)

Definition course_of (g : GradeRecord) : string * string * string :=
  (record_course_code g, record_term g, record_school_year g).

Lemma same_course_eq g1 g2 : same_course g1 g2 = true <-> course_of g1 = course_of g2.
Proof.
  unfold same_course, course_of.
  rewrite !andb_true_iff, !String.eqb_eq. split.
  - intros [[-> ->] ->]. reflexivity.
  - intros H. injection H as -> -> ->. auto.
Qed.

Lemma duplicates_of_In g1 rest x y :
  In (x, y) (duplicates_of g1 rest)
  <-> x = g1 /\ In y rest /\ course_of g1 = course_of y.
Proof.
  induction rest as [|g2 rest IH]; simpl; [tauto|].
  destruct (same_course g1 g2) eqn:E; simpl; rewrite IH; split.
  - intros [H|H]; [injection H as <- <-; apply same_course_eq in E; auto | tauto].
  - intros (-> & [->|Hy] & Hc); auto.
  - tauto.
  - intros (-> & [->|Hy] & Hc); auto.
    apply same_course_eq in Hc. congruence.
Qed.

Lemma duplicate_grades_In l x y :
  In (x, y) (duplicate_grades l)
  <-> (exists l1 l2, l = (l1 ++ x :: l2)%list /\ In y l2)
      /\ course_of x = course_of y.
Proof.
  induction l as [|g l IH]; simpl.
  - split; [tauto|]. intros [(l1 & l2 & H & _) _]. now destruct l1.
  - rewrite in_app_iff, duplicates_of_In, IH. split.
    + intros [(-> & Hy & Hc)|[(l1 & l2 & -> & Hy) Hc]].
      * split; auto. exists [], l. auto.
      * split; auto. exists (g :: l1), l2. auto.
    + intros [(l1 & l2 & Hl & Hy) Hc].
      destruct l1 as [|z l1]; simpl in Hl; injection Hl as -> ->.
      * left. auto.
      * right. split; eauto.
Qed.

Lemma duplicates_of_nil g1 rest :
  duplicates_of g1 rest = [] <-> ~ In (course_of g1) (map course_of rest).
Proof.
  induction rest as [|g2 rest IH]; simpl; [tauto|].
  destruct (same_course g1 g2) eqn:E.
  - apply same_course_eq in E. split; [discriminate|]. intros H. exfalso. auto.
  - rewrite IH. split.
    + intros H [Hc|Hc]; [|auto]. symmetry in Hc. apply same_course_eq in Hc. congruence.
    + tauto.
Qed.

Lemma duplicate_grades_nil l :
  duplicate_grades l = [] <-> List.NoDup (map course_of l).
Proof.
  induction l as [|g l IH]; simpl.
  - split; [constructor | reflexivity].
  - split.
    + intros H. apply app_eq_nil in H as [H1 H2].
      constructor; [now apply duplicates_of_nil | now apply IH].
    + intros H. inversion H as [|? ? Hn Hl]; subst.
      apply duplicates_of_nil in Hn. apply IH in Hl. now rewrite Hn, Hl.
Qed.

Lemma duplicates_of_length g1 rest :
  (length (duplicates_of g1 rest) <= length rest)%nat.
Proof.
  induction rest as [|g2 rest IH]; simpl; [lia|].
  destruct (same_course g1 g2); simpl; lia.
Qed.

Lemma duplicate_grades_length l :
  (2 * length (duplicate_grades l) <= length l * (length l - 1))%nat.
Proof.
  induction l as [|g l IH]; simpl; [lia|].
  rewrite length_app. pose proof (duplicates_of_length g l).
  rewrite Nat.sub_0_r. nia.
Qed.

(** X20.  [find_duplicates] on the grade processor leaves the grade
    records and the transcripts as they are and logs one [duplicate_grade]
    issue per pair it returns.  It returns exactly the pairs of a record
    and a later record of the student with the same course code, term and
    school year; it returns nothing exactly when no two records of the
    student agree on the three; and the pairs are at most n(n-1)/2. *)
Theorem find_duplicates_same_course (self : GradeProcessor) (sid : string) :
  let records := default [] (grades self !! sid) in
  let res := find_duplicates self sid in
  grades (fst res) = grades self
  /\ transcripts (fst res) = transcripts self
  /\ issues (fst res)
     = (issues self
        ++ map (fun pair => DuplicateGrade sid (record_course_code (fst pair))
                              (record_term (fst pair))) (snd res))%list
  /\ (forall g1 g2, In (g1, g2) (snd res) <->
        (exists l1 l2, records = (l1 ++ g1 :: l2)%list /\ In g2 l2)
        /\ record_course_code g1 = record_course_code g2
        /\ record_term g1 = record_term g2
        /\ record_school_year g1 = record_school_year g2)
  /\ (snd res = [] <->
      List.NoDup (map (fun g => (record_course_code g, record_term g,
                                 record_school_year g)) records))
  /\ (2 * length (snd res) <= length records * (length records - 1))%nat.
Proof.
  cbv zeta. unfold find_duplicates. cbn [fst snd grades transcripts issues].
  split; [reflexivity|]. split; [reflexivity|]. split; [reflexivity|].
  split; [|split].
  - intros g1 g2. rewrite duplicate_grades_In. unfold course_of.
    split; intros [H1 H2]; (split; [exact H1|]).
    + injection H2 as -> -> ->. auto.
    + destruct H2 as (-> & -> & ->). reflexivity.
  - apply duplicate_grades_nil.
  - apply duplicate_grades_length.
Qed.

(** ** The transcript *)

Lemma dict_get_Some_In {V : Type} (k : string) (v : V) d :
  Identity.dict_get k d = Some v -> In (k, v) d.
Proof.
  induction d as [|[k0 v0] d IH]; simpl; [discriminate|].
  destruct (String.eqb_spec k0 k) as [->|Hne].
  - intros H. injection H as <-. now left.
  - intros H. right. auto.
Qed.

Lemma dict_In_get {V : Type} (k : string) (v : V) d :
  List.NoDup (map fst d) -> In (k, v) d -> Identity.dict_get k d = Some v.
Proof.
  induction d as [|[k0 v0] d IH]; simpl; [tauto|].
  intros Hnd [H|H].
  - injection H as -> ->. now rewrite String.eqb_refl.
  - inversion Hnd as [|? ? Hn Hd]; subst.
    destruct (String.eqb_spec k0 k) as [->|Hne]; [|auto].
    exfalso. apply Hn. apply (in_map fst) in H. exact H.
Qed.

Lemma dict_set_In_inv {V : Type} (k : string) (v : V) d x w :
  List.NoDup (map fst d) -> In (x, w) (Identity.dict_set k v d) ->
  (x = k /\ w = v) \/ (x <> k /\ In (x, w) d).
Proof.
  induction d as [|[k0 v0] d IH]; simpl.
  - intros _ [H|[]]. injection H as <- <-. now left.
  - intros Hnd. inversion Hnd as [|? ? Hn Hd]; subst.
    destruct (String.eqb_spec k0 k) as [->|Hne]; simpl.
    + intros [H|H]; [injection H as <- <-; now left|].
      right. split; [|now right]. intros ->. apply Hn.
      apply (in_map fst) in H. exact H.
    + intros [H|H].
      * injection H as <- <-. right. split; [congruence | now left].
      * destruct (IH Hd H) as [?|[? ?]]; [now left | right; auto].
Qed.

Lemma dict_set_In_new {V : Type} (k : string) (v : V) d :
  In (k, v) (Identity.dict_set k v d).
Proof.
  induction d as [|[k0 v0] d IH]; simpl; [now left|].
  destruct (String.eqb k0 k); [now left | now right].
Qed.

Lemma dict_set_In_old {V : Type} (k : string) (v : V) d x w :
  x <> k -> In (x, w) d -> In (x, w) (Identity.dict_set k v d).
Proof.
  intros Hne. induction d as [|[k0 v0] d IH]; simpl; [tauto|].
  destruct (String.eqb_spec k0 k) as [->|Hk]; simpl.
  - intros [H|H]; [injection H as -> _; congruence | now right].
  - intros [H|H]; [now left | right; auto].
Qed.

Lemma dict_set_length {V : Type} (k : string) (v : V) d :
  (length (Identity.dict_set k v d) <= S (length d))%nat.
Proof.
  induction d as [|[k0 v0] d IH]; simpl; [lia|].
  destruct (String.eqb k0 k); simpl; lia.
Qed.

(** What the first loop of [build_transcript] keeps: under each key the
    record of the highest grade points among the records seen with that
    key. *)
Definition highest_kept (unique : list (string * GradeRecord))
  (seen : list GradeRecord) : Prop :=
  List.NoDup (map fst unique)
  /\ (forall k g, In (k, g) unique ->
        In g seen /\ grade_key g = k
        /\ forall g', In g' seen -> grade_key g' = k ->
              (record_grade_points g' <= record_grade_points g)%Q)
  /\ (forall g', In g' seen -> is_Some (Identity.dict_get (grade_key g') unique))
  /\ (length unique <= length seen)%nat.

Lemma keep_highest_kept unique seen grade :
  highest_kept unique seen ->
  highest_kept (keep_highest unique grade) (seen ++ [grade]).
Proof.
  intros (Hnd & Hmax & Hall & Hlen). unfold keep_highest. cbv zeta.
  assert (Hlen' : forall d : list (string * GradeRecord),
            (length d <= S (length unique))%nat ->
            (length d <= length (seen ++ [grade]))%nat).
  { intros d Hd. rewrite length_app. simpl. lia. }
  destruct (Identity.dict_get (grade_key grade) unique) as [kept|] eqn:Eg.
  - pose proof (dict_get_Some_In _ _ _ Eg) as Hin.
    destruct (Hmax _ _ Hin) as (Hks & Hkk & Hkm).
    destruct (Py.Qltb (record_grade_points kept) (record_grade_points grade)) eqn:Elt.
    + apply Py.Qltb_lt in Elt.
      split; [now apply Identity.dict_set_NoDup|]. split; [|split].
      * intros k g Hkg. apply dict_set_In_inv in Hkg as [[-> ->]|[Hne Hkg]]; auto.
        -- split; [apply in_or_app; right; now left|]. split; [reflexivity|].
           intros g' Hg' Hk'. apply in_app_or in Hg' as [Hg'|[<-|[]]]; [|lra].
           specialize (Hkm g' Hg' Hk'). lra.
        -- destruct (Hmax _ _ Hkg) as (H1 & H2 & H3).
           split; [apply in_or_app; now left|]. split; [exact H2|].
           intros g' Hg' Hk'. apply in_app_or in Hg' as [Hg'|[<-|[]]]; [auto|].
           congruence.
      * intros g' Hg'. apply Identity.dict_get_In. rewrite Identity.dict_set_keys.
        assert (Hk : In (grade_key g') (map fst unique) \/ grade_key g' = grade_key grade).
        { apply in_app_or in Hg' as [Hg'|[<-|[]]]; [left|now right].
          apply Identity.dict_get_In. auto. }
        destruct (existsb _ _) eqn:Ex.
        -- destruct Hk as [Hk|Hk]; [exact Hk|]. rewrite Hk.
           apply Identity.dict_get_In. eauto.
        -- apply in_or_app. destruct Hk as [Hk|Hk]; [now left | right; now left].
      * apply Hlen'. apply dict_set_length.
    + assert (Hle : (record_grade_points grade <= record_grade_points kept)%Q).
      { destruct (Qlt_le_dec (record_grade_points kept) (record_grade_points grade))
          as [Hlt|Hle]; [|exact Hle].
        apply Py.Qltb_lt in Hlt. congruence. }
      split; [exact Hnd|]. split; [|split].
      * intros k g Hkg. destruct (Hmax _ _ Hkg) as (H1 & H2 & H3).
        split; [apply in_or_app; now left|]. split; [exact H2|].
        intros g' Hg' Hk'. apply in_app_or in Hg' as [Hg'|[<-|[]]]; [auto|].
        assert (g = kept).
        { rewrite Hk' in Eg. apply (dict_In_get _ _ _ Hnd) in Hkg. congruence. }
        now subst g.
      * intros g' Hg'. apply in_app_or in Hg' as [Hg'|[<-|[]]]; [auto|eauto].
      * apply Hlen'. lia.
  - assert (Hfresh : forall g', In g' seen -> grade_key g' <> grade_key grade).
    { intros g' Hg' Hk'. destruct (Hall g' Hg') as [v Hv]. congruence. }
    split; [now apply Identity.dict_set_NoDup|]. split; [|split].
    + intros k g Hkg. apply dict_set_In_inv in Hkg as [[-> ->]|[Hne Hkg]]; auto.
      * split; [apply in_or_app; right; now left|]. split; [reflexivity|].
        intros g' Hg' Hk'. apply in_app_or in Hg' as [Hg'|[<-|[]]]; [|lra].
        now apply Hfresh in Hg'.
      * destruct (Hmax _ _ Hkg) as (H1 & H2 & H3).
        split; [apply in_or_app; now left|]. split; [exact H2|].
        intros g' Hg' Hk'. apply in_app_or in Hg' as [Hg'|[<-|[]]]; [auto|].
        congruence.
    + intros g' Hg'. apply Identity.dict_get_In. rewrite Identity.dict_set_keys.
      destruct (existsb _ _) eqn:Ex.
      * apply in_app_or in Hg' as [Hg'|[<-|[]]].
        -- apply Identity.dict_get_In. auto.
        -- apply existsb_exists in Ex as (x & Hx & Ex). apply String.eqb_eq in Ex.
           now subst x.
      * apply in_or_app. apply in_app_or in Hg' as [Hg'|[<-|[]]]; [left|right; now left].
        apply Identity.dict_get_In. auto.
    + apply Hlen'. apply dict_set_length.
Qed.

Lemma unique_grades_kept l : highest_kept (unique_grades l) l.
Proof.
  unfold unique_grades.
  assert (H : highest_kept [] []).
  { repeat split; simpl; try constructor; try contradiction. }
  change l with ([] ++ l)%list at 2. revert H.
  generalize (@nil (string * GradeRecord)) (@nil GradeRecord).
  induction l as [|g l IH]; intros unique seen H; simpl.
  - now rewrite app_nil_r.
  - replace (seen ++ g :: l)%list with ((seen ++ [g]) ++ l)%list
      by (now rewrite <- app_assoc).
    apply IH. now apply keep_highest_kept.
Qed.

Lemma NoDup_map_filter {A B : Type} (f : A -> B) (p : A -> bool) (l : list A) :
  List.NoDup (map f l) -> List.NoDup (map f (List.filter p l)).
Proof.
  induction l as [|x l IH]; simpl; [auto|].
  intros H. inversion H as [|? ? Hn Hl]; subst.
  destruct (p x); simpl; [|auto].
  constructor; [|auto]. intros Hin. apply Hn.
  apply in_map_iff in Hin as (y & Hy & Hin). apply List.filter_In in Hin as [Hin _].
  rewrite <- Hy. now apply in_map.
Qed.

Lemma calculate_gpa_stored (t0 : StudentTranscript) :
  cumulative_gpa t0 = 0%Q -> weighted_gpa t0 = 0%Q ->
  (cumulative_gpa (fst (calculate_gpa t0)), weighted_gpa (fst (calculate_gpa t0)))
  = snd (calculate_gpa (fst (calculate_gpa t0))).
Proof.
  intros Hc Hw. unfold calculate_gpa.
  destruct (entries t0) as [|e l] eqn:E; cbn [fst snd].
  - rewrite E. cbn [snd]. now rewrite Hc, Hw.
  - destruct (gpa_sums (e :: l)) as [[tq wq] tc] eqn:Es.
    cbn [fst snd entries cumulative_gpa weighted_gpa]. now rewrite Es.
Qed.

(** The key of a transcript entry. *)
Definition entry_key (entry : TranscriptEntry) : string :=
  course_code entry ++ "-" ++ term entry ++ "-" ++ school_year entry.

(** X21.  [build_transcript] leaves the grade records and the issue list
    as they are and stores the transcript it returns.  No two entries of
    the transcript have the same key (course code, term and school year
    joined by "-"), and the entries are no more than the student's grade
    records.  Every entry is made from a record of the student that is
    final, has a letter grade, and has the highest grade points among the
    student's records of the same key; and for every record of the student
    there is a record of the same key, with grade points at least as high,
    that is on the transcript if it is final and has a letter grade.  The
    credits earned are the sum over the entries, and the GPAs are those
    [calculate_gpa] gives for the entries. *)
Theorem build_transcript_highest (processor : GradeProcessor) (sid : string) :
  let records := default [] (grades processor !! sid) in
  let res := build_transcript processor sid in
  let transcript := snd res in
  grades (fst res) = grades processor
  /\ issues (fst res) = issues processor
  /\ transcripts (fst res) !! sid = Some transcript
  /\ List.NoDup (map entry_key (entries transcript))
  /\ (length (entries transcript) <= length records)%nat
  /\ (forall entry, In entry (entries transcript) ->
        exists grade letter,
          In grade records /\ entry = to_entry grade
          /\ status grade = FINAL
          /\ record_letter_grade grade = Some letter /\ letter <> ""
          /\ letter_grade entry = letter
          /\ forall other, In other records -> grade_key other = grade_key grade ->
                (record_grade_points other <= record_grade_points grade)%Q)
  /\ (forall grade, In grade records ->
        exists kept,
          In kept records /\ grade_key kept = grade_key grade
          /\ (record_grade_points grade <= record_grade_points kept)%Q
          /\ (on_transcript kept = true -> In (to_entry kept) (entries transcript)))
  /\ total_credits_earned transcript
     = fold_left (fun total entry => (total + credits_earned entry)%Q)
         (entries transcript) 0%Q
  /\ (cumulative_gpa transcript, weighted_gpa transcript)
     = snd (calculate_gpa transcript).
Proof.
  cbv zeta. unfold build_transcript. cbv zeta. cbn [fst snd grades issues transcripts].
  set (records := default [] (grades processor !! sid)).
  destruct (unique_grades_kept records) as (Hnd & Hmax & Hall & Hlen).
  set (kept_records := List.filter on_transcript (map snd (unique_grades records))).
  set (t0 := {| student_id := sid; entries := map to_entry kept_records |}).
  assert (Hentries : entries (fst (calculate_gpa t0)) = map to_entry kept_records)
    by (rewrite calculate_gpa_entries; reflexivity).
  assert (Hkeys : map grade_key (map snd (unique_grades records))
                  = map fst (unique_grades records)).
  { rewrite map_map. apply map_ext_in. intros [k g] Hin. simpl.
    now destruct (Hmax k g Hin) as (_ & H & _). }
  split; [reflexivity|]. split; [reflexivity|].
  split; [apply lookup_insert_eq|].
  rewrite Hentries. split; [|split; [|split; [|split; [|split]]]].
  - rewrite map_map.
    change (map (fun x => entry_key (to_entry x)) kept_records)
      with (map grade_key kept_records).
    unfold kept_records. apply NoDup_map_filter. now rewrite Hkeys.
  - rewrite length_map. unfold kept_records.
    pose proof (List.filter_length_le on_transcript (map snd (unique_grades records))) as H.
    rewrite length_map in H. lia.
  - intros entry Hin. apply in_map_iff in Hin as (g & <- & Hin).
    unfold kept_records in Hin. apply List.filter_In in Hin as [Hin Hon].
    apply in_map_iff in Hin as ([k g'] & Hg & Hin). simpl in Hg. subst g'.
    destruct (Hmax k g Hin) as (H1 & H2 & H3).
    unfold on_transcript in Hon.
    destruct (status g) eqn:Es; try discriminate.
    destruct (record_letter_grade g) as [letter|] eqn:El; [|discriminate].
    exists g, letter. repeat split; auto.
    + intros ->. discriminate.
    + simpl. now rewrite El.
    + intros other Ho Hk. apply H3; congruence.
  - intros grade Hin. destruct (Hall grade Hin) as [kept Hk].
    apply dict_get_Some_In in Hk. destruct (Hmax _ _ Hk) as (H1 & H2 & H3).
    exists kept. repeat split; auto.
    intros Hon. apply in_map. unfold kept_records. apply List.filter_In.
    split; [|exact Hon]. apply in_map_iff. exists (grade_key grade, kept). auto.
  - unfold calculate_gpa. cbn [entries].
    destruct (map to_entry kept_records) eqn:E; [reflexivity|].
    now destruct (gpa_sums _) as [[tq wq] tc].
  - apply calculate_gpa_stored; reflexivity.
Qed.

End Grades.

(* ===================================================================== *)
(** * modules/attendance.py *)
(* ===================================================================== *)

Module Attendance.

Open Scope string_scope.

Inductive AttendanceStatus : Type :=
| PRESENT | ABSENT | TARDY | EXCUSED | UNEXCUSED | REMOTE | EARLY_DEPARTURE
| HALF_DAY.

Inductive AttendanceType : Type :=
| DAILY | PERIOD | COURSE.

Definition status_eqb (a b : AttendanceStatus) : bool :=
  match a, b with
  | PRESENT, PRESENT | ABSENT, ABSENT | TARDY, TARDY | EXCUSED, EXCUSED
  | UNEXCUSED, UNEXCUSED | REMOTE, REMOTE
  | EARLY_DEPARTURE, EARLY_DEPARTURE | HALF_DAY, HALF_DAY => true
  | _, _ => false
  end.

Record AttendanceRecord : Type := mkRecord {
  id : string;
  student_id : string;
  date : Z;
  status : AttendanceStatus;
  attendance_type : AttendanceType;
  period : option Z;
  section_id : option string;
  teacher_name : option string;
  notes : Py.value;
  source_code : option string;
  source_system : option string
}.

(** [AttendanceRecord.is_present()] and [is_absent()]. *)
Definition is_present (self : AttendanceRecord) : bool :=
  match status self with
  | PRESENT | TARDY | REMOTE | HALF_DAY => true
  | _ => false
  end.

Definition is_absent (self : AttendanceRecord) : bool :=
  match status self with
  | ABSENT | EXCUSED | UNEXCUSED => true
  | _ => false
  end.

(** [sum(1 for r in records if p(r))]. *)
Definition count_if (p : AttendanceRecord -> bool) (l : list AttendanceRecord) : nat :=
  length (List.filter p l).

(** [DailyAttendanceSummary]; its [student_id] and [date] attributes are
    [summary_student_id] and [summary_date] here. *)
Record DailyAttendanceSummary : Type := mkSummary {
  summary_student_id : string;
  summary_date : Z;
  periods_present : nat;
  periods_absent : nat;
  periods_tardy : nat;
  total_periods : nat;
  daily_status : AttendanceStatus;
  period_records : list AttendanceRecord
}.

(** [int / int] and an [int] as a number. *)
Definition ratio (a b : nat) : Q :=
  (inject_Z (Z.of_nat a) / inject_Z (Z.of_nat b))%Q.

Definition number (a : nat) : Q := inject_Z (Z.of_nat a).

(** The status chosen from the three counts. *)
Definition status_of_counts (absent tardy total : nat) : AttendanceStatus :=
  if (absent =? total)%nat then ABSENT
  else if Py.Qltb (ratio total 2) (number absent) then HALF_DAY
  else if (0 <? tardy)%nat && (absent =? 0)%nat then TARDY
  else PRESENT.

(** [DailyAttendanceSummary.calculate_daily_status()]: the new summary and
    the returned status. *)
Definition calculate_daily_status (self : DailyAttendanceSummary)
  : DailyAttendanceSummary * AttendanceStatus :=
  match period_records self with
  | [] => (self, daily_status self)
  | _ =>
      let total := length (period_records self) in
      let present := count_if is_present (period_records self) in
      let absent := count_if is_absent (period_records self) in
      let tardy := count_if (fun r => status_eqb (status r) TARDY)
                     (period_records self) in
      let st := status_of_counts absent tardy total in
      ({| summary_student_id := summary_student_id self;
          summary_date := summary_date self;
          periods_present := present; periods_absent := absent;
          periods_tardy := tardy; total_periods := total;
          daily_status := st; period_records := period_records self |}, st)
  end.

(** [AttendanceAggregate]; its [student_id] attribute is
    [aggregate_student_id] here. *)
Record AttendanceAggregate : Type := mkAggregate {
  aggregate_student_id : string;
  start_date : Z;
  end_date : Z;
  days_present : nat;
  days_absent : nat;
  days_tardy : nat;
  days_excused : nat;
  days_unexcused : nat;
  total_days : nat;
  attendance_rate : Binary64.float64
}.

Definition set_rate (self : AttendanceAggregate) (r : Binary64.float64)
  : AttendanceAggregate :=
  {| aggregate_student_id := aggregate_student_id self;
     start_date := start_date self; end_date := end_date self;
     days_present := days_present self; days_absent := days_absent self;
     days_tardy := days_tardy self; days_excused := days_excused self;
     days_unexcused := days_unexcused self; total_days := total_days self;
     attendance_rate := r |}.

(** [(days_present + days_tardy) / total_days * 100]: the quotient of the
    two integers as a binary64 number, times 100.0. *)
Definition percentage (present total : nat) : Binary64.float64 :=
  Binary64.mul (Binary64.int_div (Z.of_nat present) (Z.of_nat total))
    (Binary64.of_int 100).

(** [AttendanceAggregate.calculate_rate()]: the new aggregate and the
    returned rate, a binary64 number. *)
Definition calculate_rate (self : AttendanceAggregate)
  : AttendanceAggregate * Binary64.float64 :=
  if (0 <? total_days self)%nat then
    let r := Binary64.round
               (percentage (days_present self + days_tardy self)
                  (total_days self)) 2 in
    (set_rate self r, r)
  else (self, attendance_rate self).

(** [AttendanceCodeMapper.CODE_MAPPINGS]. *)
Definition CODE_MAPPINGS : gmap string AttendanceStatus :=
  list_to_map
    [ ("p", PRESENT); ("present", PRESENT); ("pres", PRESENT); ("pr", PRESENT);
      ("1", PRESENT); ("y", PRESENT); ("yes", PRESENT); ("in", PRESENT);
      ("a", ABSENT); ("absent", ABSENT); ("abs", ABSENT); ("ab", ABSENT);
      ("0", ABSENT); ("n", ABSENT); ("no", ABSENT); ("out", ABSENT);
      ("t", TARDY); ("tardy", TARDY); ("late", TARDY); ("l", TARDY);
      ("lt", TARDY);
      ("e", EXCUSED); ("excused", EXCUSED); ("exc", EXCUSED); ("ex", EXCUSED);
      ("ea", EXCUSED); ("excused absence", EXCUSED);
      ("u", UNEXCUSED); ("unexcused", UNEXCUSED); ("unex", UNEXCUSED);
      ("ua", UNEXCUSED); ("unexcused absence", UNEXCUSED);
      ("r", REMOTE); ("remote", REMOTE); ("virtual", REMOTE); ("v", REMOTE);
      ("online", REMOTE);
      ("ed", EARLY_DEPARTURE); ("early", EARLY_DEPARTURE);
      ("early departure", EARLY_DEPARTURE); ("left early", EARLY_DEPARTURE) ].

Record AttendanceCodeMapper : Type := mkMapper {
  unmapped_codes : gset string;
  custom_mappings : gmap string AttendanceStatus
}.

(** [AttendanceCodeMapper()]. *)
Definition new_mapper : AttendanceCodeMapper :=
  {| unmapped_codes := ∅; custom_mappings := ∅ |}.

(** [AttendanceCodeMapper.add_custom_mapping(code, status)]. *)
Definition add_custom_mapping (self : AttendanceCodeMapper) (code : string)
  (st : AttendanceStatus) : AttendanceCodeMapper :=
  {| unmapped_codes := unmapped_codes self;
     custom_mappings := <[Py.strip (Py.lower code) := st]> (custom_mappings self) |}.

(** [AttendanceCodeMapper.map_code(code)]: the new mapper and the returned
    pair [(status, was_mapped)]. *)
Definition map_code (self : AttendanceCodeMapper) (code : string)
  : AttendanceCodeMapper * (AttendanceStatus * bool) :=
  if String.eqb code "" then (self, (ABSENT, false))
  else
    let normalized := Py.strip (Py.lower code) in
    match custom_mappings self !! normalized with
    | Some st => (self, (st, true))
    | None =>
        match CODE_MAPPINGS !! normalized with
        | Some st => (self, (st, true))
        | None =>
            ({| unmapped_codes := {[ code ]} ∪ unmapped_codes self;
                custom_mappings := custom_mappings self |},
             (ABSENT, false))
        end
    end.

(** The entries of the issue list: the dictionaries with ["type"]
    [unmapped_code], [duplicate_attendance] and [total_mismatch]. *)
Inductive Issue : Type :=
| UnmappedCode (student : string) (day : string) (code : string)
| DuplicateAttendance (student : string) (day : string) (period : option Z)
| TotalMismatch (student : string) (expected_present actual_present : Z)
    (expected_absent actual_absent : Z).

Definition issue_type (i : Issue) : string :=
  match i with
  | UnmappedCode _ _ _ => "unmapped_code"
  | DuplicateAttendance _ _ _ => "duplicate_attendance"
  | TotalMismatch _ _ _ _ _ => "total_mismatch"
  end.

Record AttendanceProcessor : Type := mkProcessor {
  records : gmap string (list AttendanceRecord);
  daily_summaries : gmap string (gmap Z DailyAttendanceSummary);
  aggregates : gmap string AttendanceAggregate;
  issues : list Issue;
  code_mapper : AttendanceCodeMapper
}.

(** [AttendanceProcessor()]. *)
Definition new_processor : AttendanceProcessor :=
  {| records := ∅; daily_summaries := ∅; aggregates := ∅; issues := [];
     code_mapper := new_mapper |}.

(** [int(s)] for a string of digits, with single underscores between
    digits and an optional sign. *)
Fixpoint parse_digits (s : string) (acc : Z) : option Z :=
  match s with
  | EmptyString => Some acc
  | String c r =>
      if Py.isdigit c
      then parse_digits r (acc * 10 + Z.of_nat (Py.code c - 48))%Z
      else if Ascii.eqb c "_" then
        match r with
        | String c2 _ => if Py.isdigit c2 then parse_digits r acc else None
        | EmptyString => None
        end
      else None
  end.

(** The digits start with a digit. *)
Definition parse_unsigned (s : string) : option Z :=
  match s with
  | String c _ => if Py.isdigit c then parse_digits s 0 else None
  | EmptyString => None
  end.

Definition parse_int (s : string) : option Z :=
  match s with
  | EmptyString => None
  | String c r =>
      if Ascii.eqb c "-" then Z.opp <$> parse_unsigned r
      else if Ascii.eqb c "+" then parse_unsigned r
      else parse_unsigned s
  end.

Example parse_int_forms :
  map parse_int ["7"; "-12"; "+3"; "1_0"; "007"; "_1"; "1_"; "1__0"; "-"; ""; "2a"]
  = [Some 7; Some (-12); Some 3; Some 10; Some 7; None; None; None; None; None;
     None]%Z.
Proof. reflexivity. Qed.

(** [int(v)], [None] standing for [ValueError] and [TypeError]. *)
Definition py_int (v : Py.value) : option Z :=
  match v with
  | Py.VNone => None
  | Py.VStr s => parse_int (Py.strip s)
  | Py.VInt z => Some z
  end.

Definition ordinal_suffix (c1 c2 : ascii) : bool :=
  (Ascii.eqb c1 "s" && Ascii.eqb c2 "t") || (Ascii.eqb c1 "n" && Ascii.eqb c2 "d")
  || (Ascii.eqb c1 "r" && Ascii.eqb c2 "d") || (Ascii.eqb c1 "t" && Ascii.eqb c2 "h").

(** [re.sub(r'(\d+)(st|nd|rd|th)', r'\1', s)]. *)
Fixpoint strip_ordinals (after_digit : bool) (s : string) : string :=
  match s with
  | EmptyString => EmptyString
  | String c r =>
      match r with
      | String c2 r' =>
          if after_digit && ordinal_suffix c c2 then strip_ordinals false r'
          else String c (strip_ordinals (Py.isdigit c) r)
      | EmptyString => String c EmptyString
      end
  end.

Definition date_formats : list string :=
  ["%Y-%m-%d"; "%Y/%m/%d"; "%m-%d-%Y"; "%m/%d/%Y"; "%d-%m-%Y";
   "%B %d %Y"; "%B %d, %Y"; "%b %d %Y"; "%b %d, %Y"].

Section Processing.

(** [date.today()]. *)
Variable today : Z.

(** [datetime.strptime(s, fmt).date()], [None] standing for [ValueError]. *)
Variable strptime : string -> string -> option Z.

(** [str(d)] for a date [d]. *)
Variable isoformat : Z -> string.

Fixpoint first_format (s : string) (formats : list string) : option Z :=
  match formats with
  | [] => None
  | fmt :: rest =>
      match strptime s fmt with
      | Some d => Some d
      | None => first_format s rest
      end
  end.

(** [AttendanceProcessor.parse_date(date_str)]. *)
Definition parse_date (date_str : Py.value) : option Z :=
  if negb (Py.truthy date_str)
     || existsb (String.eqb (Py.upper (Py.str date_str))) ["NULL"; "N/A"; ""]
  then None
  else first_format (strip_ordinals false (Py.strip (Py.str date_str))) date_formats.

(** [str(date_value)] for an optional date. *)
Definition date_str (d : option Z) : string :=
  match d with
  | Some z => isoformat z
  | None => "None"
  end.

(** [AttendanceProcessor.process_record(record, source)]: the new processor
    state and the returned record. *)
Definition process_record (self : AttendanceProcessor)
  (record : gmap string Py.value) (source : string)
  : AttendanceProcessor * AttendanceRecord :=
  let sid := Py.str (Py.get_or record "StudentID"
                       (Py.get_or record "student_id" (Py.VStr ""))) in
  let date_value := parse_date (Py.get_or record "Date"
                                  (Py.get_or record "date" (Py.VStr ""))) in
  let raw_code := Py.strip (Py.str (Py.get_or record "Status"
                                      (Py.get_or record "status" (Py.VStr "")))) in
  let '(mapper, (st, was_mapped)) := map_code (code_mapper self) raw_code in
  let issues' :=
    if negb was_mapped && negb (String.eqb raw_code "")
    then (issues self ++ [UnmappedCode sid (date_str date_value) raw_code])%list
    else issues self in
  let raw_period := Py.get_or record "Period" (Py.get record "period") in
  let '(period_int, attendance_type) :=
    match raw_period with
    | Py.VNone => (None, DAILY)
    | _ =>
        match py_int raw_period with
        | Some n => (Some n, PERIOD)
        | None => (None, DAILY)
        end
    end in
  let default_id :=
    sid ++ "-" ++ date_str date_value ++ "-" ++ Py.str_int (default 0%Z period_int) in
  let attendance_record :=
    {| id := Py.str (Py.get_or record "ID"
                       (Py.get_or record "id" (Py.VStr default_id)));
       student_id := sid;
       date := default today date_value;
       status := st;
       attendance_type := attendance_type;
       period := period_int;
       section_id := None;
       teacher_name :=
         Some (Py.title (Py.strip (Py.str
                 (Py.get_or record "Teacher"
                    (Py.get_or record "teacher" (Py.VStr ""))))));
       notes := Py.get_or record "Notes" (Py.get record "notes");
       source_code := Some raw_code;
       source_system := Some source |} in
  ({| records :=
        <[sid := (default [] (records self !! sid) ++ [attendance_record])%list]>
          (records self);
      daily_summaries := daily_summaries self;
      aggregates := aggregates self;
      issues := issues';
      code_mapper := mapper |},
   attendance_record).

End Processing.

(** [AttendanceProcessor.build_daily_summary(student_id, target_date)]. *)
Definition build_daily_summary (self : AttendanceProcessor) (sid : string)
  (target_date : Z) : AttendanceProcessor * DailyAttendanceSummary :=
  let day_records :=
    List.filter (fun r => (date r =? target_date)%Z)
      (default [] (records self !! sid)) in
  let summary :=
    fst (calculate_daily_status
           {| summary_student_id := sid; summary_date := target_date;
              periods_present := 0; periods_absent := 0; periods_tardy := 0;
              total_periods := 0; daily_status := PRESENT;
              period_records := day_records |}) in
  ({| records := records self;
      daily_summaries :=
        <[sid := <[target_date := summary]>
                   (default ∅ (daily_summaries self !! sid))]>
          (daily_summaries self);
      aggregates := aggregates self;
      issues := issues self;
      code_mapper := code_mapper self |},
   summary).

(** The dictionary [by_date], in order of first appearance of each date. *)
Fixpoint group_add (r : AttendanceRecord)
  (groups : list (Z * list AttendanceRecord)) : list (Z * list AttendanceRecord) :=
  match groups with
  | [] => [(date r, [r])]
  | (d, rs) :: groups' =>
      if (d =? date r)%Z then (d, (rs ++ [r])%list) :: groups'
      else (d, rs) :: group_add r groups'
  end.

Definition group_by_date (l : list AttendanceRecord)
  : list (Z * list AttendanceRecord) :=
  fold_left (fun groups r => group_add r groups) l [].

(** The counter of the aggregate that a daily status increments. *)
Definition count_day (agg : AttendanceAggregate) (st : AttendanceStatus)
  : AttendanceAggregate :=
  let bump (p a t e u : nat) :=
    {| aggregate_student_id := aggregate_student_id agg;
       start_date := start_date agg; end_date := end_date agg;
       days_present := days_present agg + p; days_absent := days_absent agg + a;
       days_tardy := days_tardy agg + t; days_excused := days_excused agg + e;
       days_unexcused := days_unexcused agg + u; total_days := total_days agg;
       attendance_rate := attendance_rate agg |} in
  match st with
  | PRESENT => bump 1 0 0 0 0
  | TARDY => bump 0 0 1 0 0
  | EXCUSED => bump 0 0 0 1 0
  | UNEXCUSED => bump 0 0 0 0 1
  | ABSENT | HALF_DAY => bump 0 1 0 0 0
  | _ => agg
  end%nat.

Definition aggregate_step (sid : string)
  (acc : AttendanceProcessor * AttendanceAggregate)
  (entry : Z * list AttendanceRecord)
  : AttendanceProcessor * AttendanceAggregate :=
  let '(self, agg) := acc in
  let '(self', summary) := build_daily_summary self sid (fst entry) in
  (self', count_day agg (daily_status summary)).

(** The records of the student that fall in the range, grouped by date. *)
Definition by_date (self : AttendanceProcessor) (sid : string) (start end_ : Z)
  : list (Z * list AttendanceRecord) :=
  group_by_date
    (List.filter (fun r => (start <=? date r)%Z && (date r <=? end_)%Z)
       (default [] (records self !! sid))).

(** [AttendanceProcessor.calculate_aggregate(student_id, start, end)]. *)
Definition calculate_aggregate (self : AttendanceProcessor) (sid : string)
  (start end_ : Z) : AttendanceProcessor * AttendanceAggregate :=
  let groups := by_date self sid start end_ in
  let aggregate :=
    {| aggregate_student_id := sid; start_date := start; end_date := end_;
       days_present := 0; days_absent := 0; days_tardy := 0;
       days_excused := 0; days_unexcused := 0;
       total_days := length groups; attendance_rate := Binary64.zero |} in
  let '(self', aggregate) :=
    fold_left (aggregate_step sid) groups (self, aggregate) in
  let aggregate := fst (calculate_rate aggregate) in
  ({| records := records self';
      daily_summaries := daily_summaries self';
      aggregates := <[sid := aggregate]> (aggregates self');
      issues := issues self';
      code_mapper := code_mapper self' |},
   aggregate).

(** The daily status of a recorded day, as [build_daily_summary] derives
    it from the student's records. *)
Definition day_status (self : AttendanceProcessor) (sid : string) (day : Z)
  : AttendanceStatus :=
  daily_status (snd (build_daily_summary self sid day)).

(** The days of the range on which the student has a record. *)
Definition recorded_days (self : AttendanceProcessor) (sid : string)
  (start end_ : Z) : list Z :=
  map fst (by_date self sid start end_).

(** ** The daily status *)

Lemma half_exceeded absent total :
  Py.Qltb (ratio total 2) (number absent) = (total <? 2 * absent)%nat.
Proof.
  apply eq_true_iff_eq. rewrite Py.Qltb_lt, Nat.ltb_lt.
  unfold ratio, number, Qlt, Qdiv, Qmult, Qinv, inject_Z. simpl. lia.
Qed.

Lemma status_of_counts_priority absent tardy total :
  status_of_counts absent tardy total =
  if (absent =? total)%nat then ABSENT
  else if (total <? 2 * absent)%nat then HALF_DAY
  else if (0 <? tardy)%nat && (absent =? 0)%nat then TARDY
  else PRESENT.
Proof. unfold status_of_counts. now rewrite half_exceeded. Qed.

(** C6.  For a non-empty list of period records the daily status follows
    the priority order: Absent when every period is absent, else HalfDay
    when the absent periods are more than half of all, else Tardy when some
    period is tardy and none is absent, else Present. *)
Theorem calculate_daily_status_priority (self : DailyAttendanceSummary) :
  period_records self <> [] ->
  let absent := count_if is_absent (period_records self) in
  let tardy := count_if (fun r => status_eqb (status r) TARDY) (period_records self) in
  let total := length (period_records self) in
  let expected :=
    if (absent =? total)%nat then ABSENT
    else if (total <? 2 * absent)%nat then HALF_DAY
    else if (0 <? tardy)%nat && (absent =? 0)%nat then TARDY
    else PRESENT in
  snd (calculate_daily_status self) = expected
  /\ daily_status (fst (calculate_daily_status self)) = expected.
Proof.
  intros Hne. cbv zeta. unfold calculate_daily_status.
  destruct (period_records self) as [|r rs]; [congruence|].
  cbn [fst snd daily_status]. now rewrite status_of_counts_priority.
Qed.

Definition example_record (st : AttendanceStatus) (p : Z) : AttendanceRecord :=
  {| id := "R"; student_id := "STU1"; date := Py.ordinal 2024 3 4; status := st;
     attendance_type := PERIOD; period := Some p; section_id := None;
     teacher_name := None; notes := Py.VNone; source_code := None;
     source_system := None |}.

Definition example_summary (l : list AttendanceRecord) : DailyAttendanceSummary :=
  {| summary_student_id := "STU1"; summary_date := Py.ordinal 2024 3 4;
     periods_present := 0; periods_absent := 0; periods_tardy := 0;
     total_periods := 0; daily_status := PRESENT; period_records := l |}.

(** Two absent periods of three give HalfDay. *)
Lemma calculate_daily_status_two_of_three :
  snd (calculate_daily_status
         (example_summary [example_record ABSENT 1; example_record ABSENT 2;
                           example_record PRESENT 3])) = HALF_DAY
  /\ daily_status (fst (calculate_daily_status
         (example_summary [example_record ABSENT 1; example_record ABSENT 2;
                           example_record PRESENT 3]))) = HALF_DAY.
Proof.
  apply (calculate_daily_status_priority
           (example_summary [example_record ABSENT 1; example_record ABSENT 2;
                             example_record PRESENT 3])).
  discriminate.
Defined.

Example calculate_daily_status_three_of_three :
  snd (calculate_daily_status
         (example_summary [example_record ABSENT 1; example_record EXCUSED 2;
                           example_record UNEXCUSED 3])) = ABSENT.
Proof. reflexivity. Qed.

Example calculate_daily_status_tardy :
  snd (calculate_daily_status
         (example_summary [example_record TARDY 1; example_record PRESENT 2]))
  = TARDY.
Proof. reflexivity. Qed.

(** The codes "P", "Present" and "PRES" of three periods give Present. *)
Example calculate_daily_status_present_codes :
  let st code := fst (snd (map_code new_mapper code)) in
  snd (calculate_daily_status
         (example_summary [example_record (st "P") 1;
                           example_record (st "Present") 2;
                           example_record (st "PRES") 3])) = PRESENT.
Proof. vm_compute. reflexivity. Qed.

(** ** The attendance rate *)

Lemma build_daily_summary_records self sid day :
  records (fst (build_daily_summary self sid day)) = records self.
Proof. reflexivity. Qed.

Lemma day_status_records self self' sid day :
  records self' = records self -> day_status self' sid day = day_status self sid day.
Proof. unfold day_status, build_daily_summary. simpl. now intros ->. Qed.

Definition counted (agg : AttendanceAggregate) : nat :=
  (days_present agg + days_tardy agg)%nat.

Lemma count_day_counted agg st :
  (counted agg <= counted (count_day agg st) <= counted agg + 1)%nat
  /\ total_days (count_day agg st) = total_days agg.
Proof. unfold counted. destruct st; simpl; lia. Qed.

Lemma count_day_present agg :
  days_present (count_day agg PRESENT) = (days_present agg + 1)%nat
  /\ days_tardy (count_day agg PRESENT) = days_tardy agg.
Proof. simpl. lia. Qed.

Lemma aggregate_step_eq sid self agg d rs :
  aggregate_step sid (self, agg) (d, rs)
  = (fst (build_daily_summary self sid d), count_day agg (day_status self sid d)).
Proof. reflexivity. Qed.

Lemma aggregate_fold sid groups : forall self agg,
  let res := fold_left (aggregate_step sid) groups (self, agg) in
  records (fst res) = records self
  /\ total_days (snd res) = total_days agg
  /\ (counted agg <= counted (snd res) <= counted agg + length groups)%nat
  /\ (Forall (fun d => day_status self sid d = PRESENT) (map fst groups) ->
      days_present (snd res) = (days_present agg + length groups)%nat
      /\ days_tardy (snd res) = days_tardy agg).
Proof.
  induction groups as [|[d rs] groups IH]; intros self agg; cbv zeta.
  - simpl. repeat split; auto; lia.
  - cbn [fold_left]. rewrite aggregate_step_eq.
    set (self' := fst (build_daily_summary self sid d)).
    assert (Hrec : records self' = records self) by reflexivity.
    specialize (IH self' (count_day agg (day_status self sid d))).
    cbv zeta in IH. destruct IH as (H1 & H2 & H3 & H4).
    pose proof (count_day_counted agg (day_status self sid d)) as [Hc Ht].
    split; [congruence|]. split; [congruence|]. split; [cbn [length]; lia|].
    intros HF. cbn [map fst] in HF. inversion HF as [|? ? Hd HF']; subst.
    rewrite Hd in H4 |- *.
    destruct H4 as [Hp Hq].
    { eapply Forall_impl; [exact HF'|]. intros x Hx. cbn beta in *.
      rewrite <- Hx. now apply day_status_records. }
    rewrite Hp, Hq. simpl. cbn [length]. lia.
Qed.

Lemma aggregate_fold_rate sid groups : forall self agg,
  attendance_rate (snd (fold_left (aggregate_step sid) groups (self, agg)))
  = attendance_rate agg.
Proof.
  induction groups as [|[d rs] groups IH]; intros self agg; [reflexivity|].
  cbn [fold_left]. rewrite aggregate_step_eq, IH.
  now destruct (day_status self sid d).
Qed.

(** The rate of [present] days of [total] is between 0 and 100. *)
Lemma percentage_below present total :
  (present <= total)%nat -> (0 < total)%nat ->
  Binary64.below 100 (Binary64.round (percentage present total) 2).
Proof.
  intros Hle Hpos. apply Binary64.round_below; [lia | reflexivity|].
  unfold percentage. change 100%Z with (1 * 100)%Z.
  apply Binary64.mul_below; try reflexivity.
  - apply Binary64.int_div_below; [split; reflexivity | lia | lia | lia].
  - vm_compute. split; discriminate.
  - discriminate.
Qed.

(** All days of [total]: exactly 100.0. *)
Lemma percentage_all total :
  (0 < total)%nat ->
  Binary64.round (percentage total total) 2 = Binary64.of_int 100.
Proof.
  intros Hpos. unfold percentage.
  rewrite Binary64.int_div_same by lia. reflexivity.
Qed.

Lemma calculate_aggregate_result self sid start end_ :
  snd (calculate_aggregate self sid start end_)
  = fst (calculate_rate
           (snd (fold_left (aggregate_step sid) (by_date self sid start end_)
                   (self,
                    {| aggregate_student_id := sid; start_date := start;
                       end_date := end_; days_present := 0; days_absent := 0;
                       days_tardy := 0; days_excused := 0; days_unexcused := 0;
                       total_days := length (by_date self sid start end_);
                       attendance_rate := Binary64.zero |})))).
Proof.
  unfold calculate_aggregate. cbv zeta.
  now destruct (fold_left _ _ _) as [self' agg].
Qed.

(** C7, as the code has it.  The rate of an aggregate is a binary64
    number that stands for a number between 0 and 100.  When the range
    holds at least one recorded day it is
    (days_present + days_tardy) / total_days * 100, computed on binary64
    numbers and rounded to two decimals, and it is exactly 100.0 when every
    recorded day has daily status Present.  When the range holds no
    recorded day it is 0.0. *)
Theorem calculate_aggregate_rate (self : AttendanceProcessor) (sid : string)
  (start end_ : Z) :
  let agg := snd (calculate_aggregate self sid start end_) in
  (exists q, Binary64.exact (attendance_rate agg) = Some q
             /\ (0 <= q)%Q /\ (q <= 100)%Q)
  /\ snd (calculate_rate agg) = attendance_rate agg
  /\ total_days agg = length (recorded_days self sid start end_)
  /\ (total_days agg <> 0%nat ->
      attendance_rate agg
      = Binary64.round
          (Binary64.mul
             (Binary64.int_div (Z.of_nat (days_present agg + days_tardy agg))
                (Z.of_nat (total_days agg)))
             (Binary64.of_int 100)) 2)
  /\ (total_days agg <> 0%nat ->
      Forall (fun d => day_status self sid d = PRESENT)
        (recorded_days self sid start end_) ->
      attendance_rate agg = Binary64.of_int 100)
  /\ (total_days agg = 0%nat -> attendance_rate agg = Binary64.zero).
Proof.
  cbv zeta. rewrite calculate_aggregate_result.
  set (a0 := {| aggregate_student_id := sid; total_days := _ |}).
  pose proof (aggregate_fold sid (by_date self sid start end_) self a0) as H.
  cbv zeta in H. destruct H as (_ & Ht & Hc & Hp).
  set (agg := snd (fold_left (aggregate_step sid) (by_date self sid start end_)
                     (self, a0))) in *.
  assert (Hlen : total_days agg = length (by_date self sid start end_))
    by (rewrite Ht; reflexivity).
  assert (Hle : (days_present agg + days_tardy agg <= total_days agg)%nat).
  { unfold counted in Hc. rewrite Hlen. simpl in Hc. lia. }
  unfold recorded_days. rewrite length_map.
  unfold calculate_rate.
  destruct (Nat.ltb_spec 0 (total_days agg)) as [Hpos|Hzero]; cbn [fst snd].
  - cbn [attendance_rate set_rate days_present days_tardy total_days].
    assert (E : (0 <? total_days agg)%nat = true) by now apply Nat.ltb_lt.
    rewrite E. cbn [snd].
    split; [apply (Binary64.below_exact 100); [lia|];
            now apply percentage_below|].
    split; [reflexivity|]. split; [exact Hlen|]. split; [reflexivity|].
    split; [|intros; lia].
    intros _ HF. destruct (Hp HF) as [Hdp Hdt].
    assert (Hall : (days_present agg + days_tardy agg)%nat = total_days agg).
    { rewrite Hdp, Hdt, Hlen. simpl. lia. }
    rewrite Hall. now apply percentage_all.
  - assert (E : total_days agg = 0%nat) by lia.
    assert (Hrate : attendance_rate agg = Binary64.zero)
      by (unfold agg; now rewrite aggregate_fold_rate).
    assert (E' : (0 <? total_days agg)%nat = false) by now apply Nat.ltb_ge.
    rewrite ?E'. cbn [snd]. rewrite Hrate.
    split; [exists 0%Q; split; [reflexivity|]; split; discriminate|].
    split; [reflexivity|]. split; [exact Hlen|].
    split; [intros; lia|]. split; [intros; lia | reflexivity].
Qed.

(** A student present on 10 January 2024 only, asked for February 2024. *)
Definition january_processor : AttendanceProcessor :=
  {| records :=
       {[ "STU1" :=
            [ {| id := "R1"; student_id := "STU1"; date := Py.ordinal 2024 1 10;
                 status := PRESENT; attendance_type := DAILY; period := None;
                 section_id := None; teacher_name := None; notes := Py.VNone;
                 source_code := Some "P"; source_system := Some "default" |} ] ]};
     daily_summaries := ∅; aggregates := ∅; issues := [];
     code_mapper := new_mapper |}.

(** C7 (counterexample).  February 2024 holds no recorded day of the
    student: every recorded day of the range is Present, and so is every
    calendar day of it, whose summary keeps the default status Present;
    yet the rate is 0, not 100. *)
Lemma calculate_aggregate_empty_range :
  let agg := snd (calculate_aggregate january_processor "STU1"
                    (Py.ordinal 2024 2 1) (Py.ordinal 2024 2 29)) in
  Forall (fun d => day_status january_processor "STU1" d = PRESENT)
    (recorded_days january_processor "STU1"
       (Py.ordinal 2024 2 1) (Py.ordinal 2024 2 29))
  /\ Forall (fun d => day_status january_processor "STU1" d = PRESENT)
       (map (fun k => (Py.ordinal 2024 2 1 + Z.of_nat k)%Z) (seq 0 29))
  /\ total_days agg = 0%nat
  /\ snd (calculate_rate agg) = Binary64.zero
  /\ snd (calculate_rate agg) <> Binary64.of_int 100.
Proof.
  cbv zeta. vm_compute. repeat split; try (repeat constructor). discriminate.
Qed.

(** On the days it holds a record, January has a rate of 100. *)
Example calculate_aggregate_january :
  attendance_rate
    (snd (calculate_aggregate january_processor "STU1"
            (Py.ordinal 2024 1 1) (Py.ordinal 2024 1 31)))
  = Prim2SF 100%float.
Proof. vm_compute. reflexivity. Qed.

(** 23 present days of 160: the product 14.374999999999998 is below the
    tie, and the rate is 14.37. *)
Example calculate_rate_23_of_160 :
  let agg :=
    {| aggregate_student_id := "STU1"; start_date := Py.ordinal 2024 1 1;
       end_date := Py.ordinal 2024 12 31; days_present := 23; days_absent := 137;
       days_tardy := 0; days_excused := 0; days_unexcused := 0;
       total_days := 160; attendance_rate := Binary64.zero |} in
  percentage 23 160 = Prim2SF 14.374999999999998%float
  /\ snd (calculate_rate agg) = Prim2SF 14.37%float
  /\ attendance_rate (fst (calculate_rate agg)) = Prim2SF 14.37%float.
Proof. vm_compute. repeat split; reflexivity. Qed.

(** ** Unrecognised codes *)

Lemma map_code_unrecognized (self : AttendanceCodeMapper) (code : string) :
  custom_mappings self !! Py.strip (Py.lower code) = None ->
  CODE_MAPPINGS !! Py.strip (Py.lower code) = None ->
  snd (map_code self code) = (ABSENT, false).
Proof.
  intros Hc Hs. unfold map_code.
  destruct (String.eqb code ""); [reflexivity|]. cbv zeta. now rewrite Hc, Hs.
Qed.

Lemma map_code_unrecognized_tracked (self : AttendanceCodeMapper) (code : string) :
  code <> "" ->
  custom_mappings self !! Py.strip (Py.lower code) = None ->
  CODE_MAPPINGS !! Py.strip (Py.lower code) = None ->
  map_code self code
  = ({| unmapped_codes := {[ code ]} ∪ unmapped_codes self;
        custom_mappings := custom_mappings self |}, (ABSENT, false)).
Proof.
  intros Hne Hc Hs. unfold map_code.
  destruct (String.eqb_spec code ""); [congruence|]. cbv zeta. now rewrite Hc, Hs.
Qed.

(** A custom mapping is looked up before the standard table. *)
Lemma map_code_custom_first (self : AttendanceCodeMapper) (code : string)
  (st : AttendanceStatus) :
  code <> "" ->
  custom_mappings self !! Py.strip (Py.lower code) = Some st ->
  snd (map_code self code) = (st, true).
Proof.
  intros Hne Hc. unfold map_code.
  destruct (String.eqb_spec code ""); [congruence|]. cbv zeta. now rewrite Hc.
Qed.

Section Unmapped.

Variable today : Z.
Variable strptime : string -> string -> option Z.
Variable isoformat : Z -> string.

(** The status string of a raw record, as [process_record] reads it. *)
Definition raw_code_of (record : gmap string Py.value) : string :=
  Py.strip (Py.str (Py.get_or record "Status"
                      (Py.get_or record "status" (Py.VStr "")))).

Definition student_of (record : gmap string Py.value) : string :=
  Py.str (Py.get_or record "StudentID"
            (Py.get_or record "student_id" (Py.VStr ""))).

Definition date_of (record : gmap string Py.value) : string :=
  date_str isoformat
    (parse_date strptime
       (Py.get_or record "Date" (Py.get_or record "date" (Py.VStr "")))).

(** A record without the keys [Status] and [status], or whose status is a
    string of blanks, has the empty code. *)
Lemma raw_code_of_blank (record : gmap string Py.value) :
  (record !! "Status" = None -> record !! "status" = None ->
   raw_code_of record = "")
  /\ (forall s,
        Py.get_or record "Status" (Py.get_or record "status" (Py.VStr ""))
        = Py.VStr s ->
        Py.strip s = "" -> raw_code_of record = "").
Proof.
  unfold raw_code_of, Py.get_or. split.
  - intros -> ->. reflexivity.
  - intros s -> Hs. exact Hs.
Qed.

(** The empty code is mapped to Absent silently. *)
Lemma process_record_empty_code (self : AttendanceProcessor)
  (record : gmap string Py.value) (source : string) :
  raw_code_of record = "" ->
  let res := process_record today strptime isoformat self record source in
  status (snd res) = ABSENT
  /\ source_code (snd res) = Some ""
  /\ issues (fst res) = issues self
  /\ code_mapper (fst res) = code_mapper self.
Proof.
  intros Hc. cbv zeta. unfold process_record. cbv zeta.
  fold (raw_code_of record). rewrite Hc.
  change (map_code (code_mapper self) "") with (code_mapper self, (ABSENT, false)).
  cbn [negb andb String.eqb].
  match goal with
  | |- context [let '(_, _) := ?m in _] => destruct m as [period_int atype]
  end.
  cbn [fst snd status source_code issues code_mapper]. repeat split.
Qed.

(** C8, as the code has it.  A code found neither in the custom mappings
    nor in the standard table maps to Absent, unmapped; when the code of a
    raw record is such a code and is not empty, [process_record] stores
    the record with status Absent and appends one [unmapped_code] issue
    carrying the code to the issue list; and a record whose status is
    missing or blank, so that its code is empty, is stored with status
    Absent while the issue list and the code mapper stay as they were. *)
Theorem process_record_unmapped_code :
  (forall (mapper : AttendanceCodeMapper) (code : string),
     custom_mappings mapper !! Py.strip (Py.lower code) = None ->
     CODE_MAPPINGS !! Py.strip (Py.lower code) = None ->
     snd (map_code mapper code) = (ABSENT, false))
  /\ (forall (self : AttendanceProcessor) (record : gmap string Py.value)
        (source : string),
        let code := raw_code_of record in
        let res := process_record today strptime isoformat self record source in
        code <> "" ->
        custom_mappings (code_mapper self) !! Py.strip (Py.lower code) = None ->
        CODE_MAPPINGS !! Py.strip (Py.lower code) = None ->
        status (snd res) = ABSENT
        /\ issues (fst res)
           = (issues self
              ++ [UnmappedCode (student_of record) (date_of record) code])%list
        /\ issue_type (UnmappedCode (student_of record) (date_of record) code)
           = "unmapped_code"
        /\ code ∈ unmapped_codes (code_mapper (fst res)))
  /\ (forall (self : AttendanceProcessor) (record : gmap string Py.value)
        (source : string),
        let res := process_record today strptime isoformat self record source in
        raw_code_of record = "" ->
        status (snd res) = ABSENT
        /\ source_code (snd res) = Some ""
        /\ issues (fst res) = issues self
        /\ code_mapper (fst res) = code_mapper self)
  /\ (forall record : gmap string Py.value,
        record !! "Status" = None -> record !! "status" = None ->
        raw_code_of record = "")
  /\ (forall (record : gmap string Py.value) (s : string),
        Py.get_or record "Status" (Py.get_or record "status" (Py.VStr ""))
        = Py.VStr s ->
        Py.strip s = "" -> raw_code_of record = "").
Proof.
  split; [exact map_code_unrecognized|].
  split; [|split; [|split]];
    [| intros self record source res Hc;
       now apply process_record_empty_code
     | intros record; apply (proj1 (raw_code_of_blank record))
     | intros record; apply (proj2 (raw_code_of_blank record))].
  intros self record source code res Hne Hc Hs.
  unfold res, process_record. cbv zeta.
  fold (raw_code_of record). fold code.
  rewrite (map_code_unrecognized_tracked _ _ Hne Hc Hs).
  destruct (String.eqb_spec code ""); [congruence|].
  cbn [negb andb].
  match goal with
  | |- context [let '(_, _) := ?m in _] => destruct m as [period_int atype]
  end.
  cbn [fst snd status issues code_mapper unmapped_codes].
  repeat split. set_solver.
Qed.

End Unmapped.

(** ** Concrete runs *)

Definition raw_record (fields : list (string * Py.value)) : gmap string Py.value :=
  list_to_map fields.

Definition no_strptime (s fmt : string) : option Z := None.
Definition no_isoformat (d : Z) : string := "".

Definition run_record (fields : list (string * Py.value))
  : AttendanceProcessor * AttendanceRecord :=
  process_record (Py.ordinal 2026 11 3) no_strptime no_isoformat
    new_processor (raw_record fields) "default".

(** The code "XYZ" is in no table: the record is Absent and the issue list
    holds the code. *)
Lemma process_record_xyz :
  status (snd (run_record [("StudentID", Py.VStr "S1"); ("Status", Py.VStr "XYZ")]))
  = ABSENT
  /\ issues (fst (run_record [("StudentID", Py.VStr "S1"); ("Status", Py.VStr "XYZ")]))
     = [UnmappedCode "S1" "None" "XYZ"].
Proof.
  destruct (proj1 (proj2 (process_record_unmapped_code (Py.ordinal 2026 11 3)
                            no_strptime no_isoformat))
              new_processor
              (raw_record [("StudentID", Py.VStr "S1"); ("Status", Py.VStr "XYZ")])
              "default") as (H1 & H2 & _);
    [vm_compute; discriminate | vm_compute; reflexivity | vm_compute; reflexivity |].
  split; [exact H1 | exact H2].
Defined.

(** C8 (counterexample).  A record whose status is blank has a code found
    in neither table, and is stored as Absent, but no issue is recorded. *)
Lemma process_record_blank_code :
  let res := run_record [("StudentID", Py.VStr "S1"); ("Status", Py.VStr "  ")] in
  let code := raw_code_of (raw_record [("StudentID", Py.VStr "S1");
                                      ("Status", Py.VStr "  ")]) in
  custom_mappings new_mapper !! Py.strip (Py.lower code) = None
  /\ CODE_MAPPINGS !! Py.strip (Py.lower code) = None
  /\ status (snd res) = ABSENT
  /\ issues (fst res) = [].
Proof. vm_compute. repeat split; reflexivity. Qed.

Example map_code_present_codes :
  map (fun c => snd (map_code new_mapper c)) ["P"; "Present"; " pres "; "LATE"; "xyz"]
  = [(PRESENT, true); (PRESENT, true); (PRESENT, true); (TARDY, true);
     (ABSENT, false)].
Proof. vm_compute. reflexivity. Qed.

Example map_code_custom_override :
  snd (map_code (add_custom_mapping new_mapper "P" REMOTE) " p ") = (REMOTE, true).
Proof. vm_compute. reflexivity. Qed.

(** The student's only recorded day of January 2024 is Present: rate 100. *)
Lemma calculate_aggregate_all_present :
  attendance_rate
    (snd (calculate_aggregate january_processor "STU1"
            (Py.ordinal 2024 1 1) (Py.ordinal 2024 1 31)))
  = Binary64.of_int 100.
Proof.
  apply (proj1 (proj2 (proj2 (proj2 (proj2
           (calculate_aggregate_rate january_processor "STU1"
              (Py.ordinal 2024 1 1) (Py.ordinal 2024 1 31))))))).
  - vm_compute. discriminate.
  - vm_compute. repeat constructor.
Defined.

(** ** The counters of an aggregate *)

(** The daily status is one of four. *)
Lemma status_of_counts_values absent tardy total :
  In (status_of_counts absent tardy total) [ABSENT; HALF_DAY; TARDY; PRESENT].
Proof.
  unfold status_of_counts.
  destruct (_ =? _)%nat; [simpl; auto|].
  destruct (Py.Qltb _ _); [simpl; auto|].
  destruct (_ && _); simpl; auto.
Qed.

Lemma day_status_values self sid day :
  In (day_status self sid day) [ABSENT; HALF_DAY; TARDY; PRESENT].
Proof.
  unfold day_status, build_daily_summary. cbn [snd]. unfold calculate_daily_status.
  cbn [period_records daily_status].
  destruct (List.filter _ _) as [|r rs]; cbn [fst daily_status]; [simpl; auto|].
  apply status_of_counts_values.
Qed.

Definition days_counted (agg : AttendanceAggregate) : nat :=
  (days_present agg + days_tardy agg + days_absent agg)%nat.

Lemma count_day_days agg st :
  In st [ABSENT; HALF_DAY; TARDY; PRESENT] ->
  days_counted (count_day agg st) = S (days_counted agg)
  /\ days_excused (count_day agg st) = days_excused agg
  /\ days_unexcused (count_day agg st) = days_unexcused agg.
Proof.
  unfold days_counted.
  intros [<-|[<-|[<-|[<-|[]]]]]; simpl; repeat split; lia.
Qed.

Lemma aggregate_fold_days sid groups : forall self agg,
  let res := fold_left (aggregate_step sid) groups (self, agg) in
  days_counted (snd res) = (days_counted agg + length groups)%nat
  /\ days_excused (snd res) = days_excused agg
  /\ days_unexcused (snd res) = days_unexcused agg
  /\ aggregates (fst res) = aggregates self
  /\ issues (fst res) = issues self
  /\ code_mapper (fst res) = code_mapper self.
Proof.
  induction groups as [|[d rs] groups IH]; intros self agg; cbv zeta.
  - simpl. repeat split; lia.
  - cbn [fold_left]. rewrite aggregate_step_eq.
    specialize (IH (fst (build_daily_summary self sid d))
                  (count_day agg (day_status self sid d))).
    cbv zeta in IH. destruct IH as (H1 & H2 & H3 & H5 & H6 & H7).
    destruct (count_day_days agg (day_status self sid d) (day_status_values self sid d))
      as (G1 & G2 & G3).
    rewrite H1, H2, H3, H5, H6, H7, G1, G2, G3. cbn [length].
    repeat split; lia.
Qed.

(** The grouping by date. *)
Lemma group_add_keys r groups :
  map fst (group_add r groups)
  = if existsb (Z.eqb (date r)) (map fst groups) then map fst groups
    else (map fst groups ++ [date r])%list.
Proof.
  induction groups as [|[d rs] groups IH]; simpl; [reflexivity|].
  rewrite (Z.eqb_sym (date r) d).
  destruct (d =? date r)%Z; simpl; [reflexivity|].
  rewrite IH. now destruct (existsb _ _).
Qed.

Definition grouped (groups : list (Z * list AttendanceRecord))
  (l : list AttendanceRecord) : Prop :=
  List.NoDup (map fst groups)
  /\ (forall d, In d (map fst groups) <-> In d (map date l))
  /\ (length groups <= length l)%nat.

Lemma group_add_grouped r groups l :
  grouped groups l -> grouped (group_add r groups) (l ++ [r])%list.
Proof.
  intros (Hnd & Hin & Hlen).
  assert (Hk := group_add_keys r groups).
  assert (Hl : length (group_add r groups) = length (map fst (group_add r groups)))
    by (now rewrite length_map).
  unfold grouped. rewrite Hl, Hk, length_app. cbn [length].
  destruct (existsb (Z.eqb (date r)) (map fst groups)) eqn:Ex.
  - apply existsb_exists in Ex as (d & Hd & E). apply Z.eqb_eq in E. subst d.
    split; [exact Hnd|]. split.
    + intros d. rewrite map_app, in_app_iff, <- Hin. simpl.
      split; [tauto|]. intros [H|[<-|[]]]; assumption.
    + rewrite length_map. lia.
  - split; [|split].
    + apply List.NoDup_app; [exact Hnd | repeat constructor; intros [] |].
      intros x Hx [<-|[]].
      assert (Hex : existsb (Z.eqb (date r)) (map fst groups) = true).
      { apply existsb_exists. exists (date r). split; [exact Hx | apply Z.eqb_refl]. }
      congruence.
    + intros d. rewrite !map_app, !in_app_iff, <- Hin. simpl. tauto.
    + rewrite length_app, length_map. simpl. lia.
Qed.

Lemma group_fold_grouped l : forall groups seen,
  grouped groups seen ->
  grouped (fold_left (fun groups r => group_add r groups) l groups) (seen ++ l)%list.
Proof.
  induction l as [|r l IH]; intros groups seen H; simpl.
  - now rewrite app_nil_r.
  - replace (seen ++ r :: l)%list with ((seen ++ [r]) ++ l)%list
      by (now rewrite <- app_assoc).
    apply IH. now apply group_add_grouped.
Qed.

Lemma group_by_date_grouped l : grouped (group_by_date l) l.
Proof.
  apply (group_fold_grouped l [] []).
  split; [constructor|]. split; [reflexivity | simpl; lia].
Qed.

(** A list of distinct days of a range is no longer than the range. *)
Lemma distinct_days_length (days : list Z) (start end_ : Z) :
  List.NoDup days -> List.Forall (fun d => (start <= d <= end_)%Z) days ->
  (Z.of_nat (length days) <= Z.max 0 (end_ - start + 1))%Z.
Proof.
  intros Hnd Hrange.
  assert (Hincl : incl (map (fun d => Z.to_nat (d - start)) days)
                    (seq 0 (Z.to_nat (end_ - start + 1)))).
  { intros n Hn. apply in_map_iff in Hn as (d & <- & Hd).
    rewrite List.Forall_forall in Hrange. specialize (Hrange d Hd).
    apply in_seq. lia. }
  assert (Hnd' : List.NoDup (map (fun d => Z.to_nat (d - start)) days)).
  { rewrite List.Forall_forall in Hrange.
    clear Hincl. induction days as [|d days IH]; simpl; [constructor|].
    inversion Hnd as [|? ? Hn Hd]; subst.
    constructor.
    - intros Hin. apply in_map_iff in Hin as (d' & E & Hd').
      assert (d' = d).
      { pose proof (Hrange d (or_introl eq_refl)).
        pose proof (Hrange d' (or_intror Hd')). lia. }
      subst d'. contradiction.
    - apply IH; auto. intros x Hx. apply Hrange. now right. }
  pose proof (List.NoDup_incl_length Hnd' Hincl) as Hlen.
  rewrite length_map, length_seq in Hlen. lia.
Qed.

(** The periods of a day: every record is present, absent or an early
    departure, and a tardy record is a present one. *)
Definition is_early_departure (r : AttendanceRecord) : bool :=
  status_eqb (status r) EARLY_DEPARTURE.

Lemma count_if_partition l :
  (count_if is_present l + count_if is_absent l + count_if is_early_departure l
   = length l)%nat
  /\ (count_if (fun r => status_eqb (status r) TARDY) l <= count_if is_present l)%nat.
Proof.
  unfold count_if, is_present, is_absent, is_early_departure.
  induction l as [|r l [IH1 IH2]]; [simpl; lia|].
  cbn [List.filter]. destruct (status r); cbn [status_eqb length]; lia.
Qed.

Lemma count_if_all p l :
  count_if p l = length l <-> List.Forall (fun r => p r = true) l.
Proof.
  unfold count_if. induction l as [|r l IH]; simpl.
  - split; [constructor | reflexivity].
  - pose proof (List.filter_length_le p l) as Hle.
    destruct (p r) eqn:E; simpl; split.
    + intros H. constructor; [exact E | apply IH; lia].
    + intros H. inversion H; subst. f_equal. now apply IH.
    + intros H. lia.
    + intros H. inversion H; subst. congruence.
Qed.

Lemma count_if_none p l :
  List.Forall (fun r => p r = false) l -> count_if p l = 0%nat.
Proof.
  unfold count_if. induction 1 as [|r l E _ IH]; simpl; [reflexivity|].
  now rewrite E.
Qed.

(** [DailyAttendanceSummary(student_id, date, period_records)] after
    [calculate_daily_status()]. *)
Definition summarize (sid : string) (day : Z) (l : list AttendanceRecord)
  : DailyAttendanceSummary :=
  fst (calculate_daily_status
         {| summary_student_id := sid; summary_date := day;
            periods_present := 0; periods_absent := 0; periods_tardy := 0;
            total_periods := 0; daily_status := PRESENT; period_records := l |}).

Lemma summarize_counts sid day l :
  let summary := summarize sid day l in
  period_records summary = l
  /\ total_periods summary = length l
  /\ (periods_present summary + periods_absent summary
      + count_if is_early_departure l = total_periods summary)%nat
  /\ (periods_tardy summary <= periods_present summary)%nat
  /\ In (daily_status summary) [ABSENT; HALF_DAY; TARDY; PRESENT]
  /\ (daily_status summary = ABSENT
      <-> l <> [] /\ List.Forall (fun r => is_absent r = true) l)
  /\ (List.Forall (fun r => is_early_departure r = true) l ->
      daily_status summary = PRESENT /\ periods_present summary = 0%nat).
Proof.
  cbv zeta. unfold summarize, calculate_daily_status.
  cbn [period_records daily_status].
  destruct l as [|r rs] eqn:E.
  - cbn [fst period_records total_periods periods_present periods_absent
         periods_tardy daily_status].
    split; [reflexivity|]. split; [reflexivity|]. split; [reflexivity|].
    split; [lia|]. split; [simpl; auto|].
    split; [split; [discriminate | intros [H _]; congruence]|].
    intros _; split; reflexivity.
  - rewrite <- E.
    cbn [fst period_records total_periods periods_present periods_absent
         periods_tardy daily_status].
    destruct (count_if_partition l) as [Hp Ht].
    assert (Hlen : length l <> 0%nat) by (rewrite E; discriminate).
    split; [reflexivity|]. split; [reflexivity|].
    split; [exact Hp|].
    split; [exact Ht|].
    split; [apply status_of_counts_values|].
    split.
    + rewrite status_of_counts_priority.
      destruct (Nat.eqb_spec (count_if is_absent l) (length l)) as [Ha|Ha].
      * split; [intros _|reflexivity].
        split; [rewrite E; discriminate | now apply count_if_all].
      * split.
        -- destruct (_ <? _)%nat; [discriminate|]. destruct (_ && _); discriminate.
        -- intros [_ H]. apply count_if_all in H. contradiction.
    + intros HF.
      assert (Hab : count_if is_absent l = 0%nat).
      { apply count_if_none. eapply List.Forall_impl; [|exact HF].
        intros x. unfold is_early_departure, is_absent.
        now destruct (status x). }
      assert (Hpr : count_if is_present l = 0%nat).
      { apply count_if_none. eapply List.Forall_impl; [|exact HF].
        intros x. unfold is_early_departure, is_present.
        now destruct (status x). }
      split; [|exact Hpr].
      rewrite status_of_counts_priority, Hab.
      assert (Htz : count_if (fun r => status_eqb (status r) TARDY) l = 0%nat)
        by lia.
      rewrite Htz.
      destruct (Nat.eqb_spec 0 (length l)); [lia|].
      destruct (Nat.ltb_spec (length l) (2 * 0)); [lia|]. reflexivity.
Qed.

Lemma build_daily_summary_eq self sid day :
  snd (build_daily_summary self sid day)
  = summarize sid day
      (List.filter (fun r => (date r =? day)%Z) (default [] (records self !! sid))).
Proof. reflexivity. Qed.

(** X22.  The summary [build_daily_summary] builds for a student and a day
    holds exactly the student's records of that day, and is stored under
    the student and the day.  Its present, absent and early-departure
    periods add up to the number of periods, its tardy periods are among
    the present ones, and its status is Absent, HalfDay, Tardy or Present:
    Absent exactly when the day has a record and every record of it is an
    absence, and Present when the day has no record at all or only early
    departures.  The records, aggregates and issues are left as they
    were, and so are the summaries of the other students. *)
Theorem build_daily_summary_counts (self : AttendanceProcessor) (sid : string)
  (day : Z) :
  let res := build_daily_summary self sid day in
  let summary := snd res in
  let day_records :=
    List.filter (fun r => (date r =? day)%Z) (default [] (records self !! sid)) in
  period_records summary = day_records
  /\ total_periods summary = length day_records
  /\ (periods_present summary + periods_absent summary
      + count_if is_early_departure day_records = total_periods summary)%nat
  /\ (periods_tardy summary <= periods_present summary)%nat
  /\ In (daily_status summary) [ABSENT; HALF_DAY; TARDY; PRESENT]
  /\ (daily_status summary = ABSENT
      <-> day_records <> [] /\ List.Forall (fun r => is_absent r = true) day_records)
  /\ (List.Forall (fun r => is_early_departure r = true) day_records ->
      daily_status summary = PRESENT /\ periods_present summary = 0%nat)
  /\ (exists m, daily_summaries (fst res) !! sid = Some m
                /\ m !! day = Some summary)
  /\ (forall other, other <> sid ->
        daily_summaries (fst res) !! other = daily_summaries self !! other)
  /\ records (fst res) = records self
  /\ aggregates (fst res) = aggregates self
  /\ issues (fst res) = issues self.
Proof.
  cbv zeta. rewrite build_daily_summary_eq.
  destruct (summarize_counts sid day
              (List.filter (fun r => (date r =? day)%Z)
                 (default [] (records self !! sid))))
    as (H1 & H2 & H3 & H4 & H5 & H6 & H7).
  repeat (split; [assumption|]).
  split; [|split; [|repeat split]].
  - eexists. split; [apply lookup_insert_eq | apply lookup_insert_eq].
  - intros other Hne. unfold build_daily_summary. cbn [fst daily_summaries].
    now apply lookup_insert_ne.
Qed.

(** ** The aggregate of a range *)

(** The recorded days with a daily status among [sts]. *)
Definition days_with (self : AttendanceProcessor) (sid : string)
  (sts : list AttendanceStatus) (days : list Z) : nat :=
  length (List.filter
            (fun d => existsb (status_eqb (day_status self sid d)) sts) days).

Lemma days_with_records self self' sid sts days :
  records self' = records self ->
  days_with self' sid sts days = days_with self sid sts days.
Proof.
  intros H. unfold days_with. f_equal. apply List.filter_ext.
  intros d. now rewrite (day_status_records self self' sid d H).
Qed.

Lemma count_day_each agg st :
  let one sts := if existsb (status_eqb st) sts then 1%nat else 0%nat in
  days_present (count_day agg st) = (days_present agg + one [PRESENT])%nat
  /\ days_tardy (count_day agg st) = (days_tardy agg + one [TARDY])%nat
  /\ days_absent (count_day agg st) = (days_absent agg + one [ABSENT; HALF_DAY])%nat.
Proof. destruct st; simpl; lia. Qed.

Lemma aggregate_fold_each sid groups : forall self agg,
  let res := fold_left (aggregate_step sid) groups (self, agg) in
  let days := map fst groups in
  days_present (snd res) = (days_present agg + days_with self sid [PRESENT] days)%nat
  /\ days_tardy (snd res) = (days_tardy agg + days_with self sid [TARDY] days)%nat
  /\ days_absent (snd res)
     = (days_absent agg + days_with self sid [ABSENT; HALF_DAY] days)%nat.
Proof.
  induction groups as [|[d rs] groups IH]; intros self agg; cbv zeta.
  - unfold days_with. simpl. lia.
  - cbn [fold_left]. rewrite aggregate_step_eq.
    specialize (IH (fst (build_daily_summary self sid d))
                  (count_day agg (day_status self sid d))).
    cbv zeta in IH. destruct IH as (H1 & H2 & H3).
    rewrite !(days_with_records self (fst (build_daily_summary self sid d)))
      in H1, H2, H3 by reflexivity.
    destruct (count_day_each agg (day_status self sid d)) as (G1 & G2 & G3).
    rewrite H1, H2, H3, G1, G2, G3.
    unfold days_with. cbn [map fst List.filter].
    repeat split.
    + destruct (existsb _ [PRESENT]); cbn [length]; lia.
    + destruct (existsb _ [TARDY]); cbn [length]; lia.
    + destruct (existsb _ [ABSENT; HALF_DAY]); cbn [length]; lia.
Qed.

Lemma calculate_rate_counters agg :
  let agg' := fst (calculate_rate agg) in
  days_present agg' = days_present agg /\ days_tardy agg' = days_tardy agg
  /\ days_absent agg' = days_absent agg /\ days_excused agg' = days_excused agg
  /\ days_unexcused agg' = days_unexcused agg /\ total_days agg' = total_days agg.
Proof.
  cbv zeta. unfold calculate_rate. destruct (_ <? _)%nat; repeat split.
Qed.

Lemma calculate_aggregate_state self sid start end_ :
  let res := calculate_aggregate self sid start end_ in
  aggregates (fst res) = <[sid := snd res]> (aggregates self)
  /\ records (fst res) = records self
  /\ issues (fst res) = issues self
  /\ code_mapper (fst res) = code_mapper self.
Proof.
  cbv zeta. unfold calculate_aggregate. cbv zeta.
  set (a0 := {| aggregate_student_id := sid; total_days := _ |}).
  pose proof (aggregate_fold_days sid (by_date self sid start end_) self a0) as H.
  pose proof (aggregate_fold sid (by_date self sid start end_) self a0) as H'.
  cbv zeta in H, H'. destruct H as (_ & _ & _ & H1 & H2 & H3).
  destruct H' as (H4 & _).
  destruct (fold_left _ _ _) as [self' agg]. cbn [fst snd] in *.
  cbn [aggregates records issues code_mapper]. now rewrite H1.
Qed.

Lemma recorded_days_spec self sid start end_ :
  let days := recorded_days self sid start end_ in
  List.NoDup days
  /\ (forall d, In d days
        <-> (start <= d <= end_)%Z
            /\ exists r, In r (default [] (records self !! sid)) /\ date r = d)
  /\ (length days <= length (default [] (records self !! sid)))%nat
  /\ (Z.of_nat (length days) <= Z.max 0 (end_ - start + 1))%Z.
Proof.
  cbv zeta. unfold recorded_days, by_date.
  set (l := default [] (records self !! sid)).
  set (rel := List.filter _ l).
  destruct (group_by_date_grouped rel) as (Hnd & Hin & Hlen).
  assert (Hiff : forall d, In d (map fst (group_by_date rel))
            <-> (start <= d <= end_)%Z /\ exists r, In r l /\ date r = d).
  { intros d. rewrite Hin, in_map_iff. unfold rel. split.
    - intros (r & <- & Hr). apply List.filter_In in Hr as [Hr Hb].
      apply andb_true_iff in Hb as [Hb1 Hb2].
      apply Z.leb_le in Hb1, Hb2. split; [lia|]. now exists r.
    - intros (Hd & r & Hr & <-). exists r. split; [reflexivity|].
      apply List.filter_In. split; [exact Hr|].
      apply andb_true_iff. split; apply Z.leb_le; lia. }
  split; [exact Hnd|]. split; [exact Hiff|]. split.
  - rewrite length_map. etransitivity; [exact Hlen|]. apply List.filter_length_le.
  - apply distinct_days_length; [exact Hnd|].
    apply List.Forall_forall. intros d Hd. now apply Hiff in Hd as [Hd _].
Qed.

(** X23.  The aggregate [calculate_aggregate] returns for a student and a
    range counts each recorded day of the range once: [total_days] is the
    number of distinct days of the range on which the student has a
    record, at most the number of calendar days of the range;
    [days_present], [days_tardy] and [days_absent] are the numbers of
    those days whose daily status is Present, Tardy, and Absent or
    HalfDay, and they add up to [total_days]; [days_excused] and
    [days_unexcused] are always 0.  The aggregate is stored under the
    student, and the records, the issues and the other students'
    aggregates are left as they were. *)
Theorem calculate_aggregate_counters (self : AttendanceProcessor) (sid : string)
  (start end_ : Z) :
  let res := calculate_aggregate self sid start end_ in
  let agg := snd res in
  let days := recorded_days self sid start end_ in
  total_days agg = length days
  /\ List.NoDup days
  /\ (forall d, In d days
        <-> (start <= d <= end_)%Z
            /\ exists r, In r (default [] (records self !! sid)) /\ date r = d)
  /\ (Z.of_nat (total_days agg) <= Z.max 0 (end_ - start + 1))%Z
  /\ days_present agg = days_with self sid [PRESENT] days
  /\ days_tardy agg = days_with self sid [TARDY] days
  /\ days_absent agg = days_with self sid [ABSENT; HALF_DAY] days
  /\ (days_present agg + days_tardy agg + days_absent agg = total_days agg)%nat
  /\ days_excused agg = 0%nat /\ days_unexcused agg = 0%nat
  /\ aggregates (fst res) !! sid = Some agg
  /\ (forall other, other <> sid ->
        aggregates (fst res) !! other = aggregates self !! other)
  /\ records (fst res) = records self
  /\ issues (fst res) = issues self.
Proof.
  cbv zeta.
  destruct (calculate_aggregate_state self sid start end_) as (Ha & Hr & Hi & _).
  destruct (recorded_days_spec self sid start end_) as (Hnd & Hin & _ & Hcal).
  rewrite Ha, calculate_aggregate_result.
  set (a0 := {| aggregate_student_id := sid; total_days := _ |}).
  pose proof (aggregate_fold_days sid (by_date self sid start end_) self a0) as H.
  pose proof (aggregate_fold_each sid (by_date self sid start end_) self a0) as H'.
  pose proof (aggregate_fold sid (by_date self sid start end_) self a0) as H''.
  cbv zeta in H, H', H''.
  destruct H as (Hc & He & Hu & _). destruct H' as (Hp & Ht & Hb).
  destruct H'' as (_ & Htot & _).
  set (agg := snd (fold_left _ _ _)) in *.
  destruct (calculate_rate_counters agg) as (R1 & R2 & R3 & R4 & R5 & R6).
  rewrite R1, R2, R3, R4, R5, R6.
  fold (recorded_days self sid start end_) in Hp, Ht, Hb.
  assert (Hlen : total_days agg = length (recorded_days self sid start end_)).
  { rewrite Htot. unfold recorded_days. now rewrite length_map. }
  unfold days_counted in Hc. cbn [days_present days_tardy days_absent a0] in *.
  split; [exact Hlen|]. split; [exact Hnd|]. split; [exact Hin|].
  split; [rewrite Hlen; exact Hcal|].
  split; [rewrite Hp; reflexivity|]. split; [rewrite Ht; reflexivity|].
  split; [rewrite Hb; reflexivity|].
  split; [rewrite Hc, Htot; reflexivity|].
  split; [rewrite He; reflexivity|]. split; [rewrite Hu; reflexivity|].
  split; [apply lookup_insert_eq|].
  split; [intros other Hne; now apply lookup_insert_ne|].
  split; assumption.
Qed.

(** ** Verification of the totals *)

(** The dictionary [verify_totals] returns: the one with the key ["error"],
    or the one with the seven keys ["verified"], ["expected_present"],
    ["actual_present"], ["present_match"], ["expected_absent"],
    ["actual_absent"] and ["absent_match"]. *)
Inductive Verification : Type :=
| NoAggregateData
| Totals (verified : bool) (expected_present actual_present : Z)
    (present_match : bool) (expected_absent actual_absent : Z)
    (absent_match : bool).

(** [result["verified"]]. *)
Definition verified (v : Verification) : bool :=
  match v with
  | NoAggregateData => false
  | Totals b _ _ _ _ _ _ => b
  end.

Definition add_issue (self : AttendanceProcessor) (i : Issue) : AttendanceProcessor :=
  {| records := records self; daily_summaries := daily_summaries self;
     aggregates := aggregates self; issues := (issues self ++ [i])%list;
     code_mapper := code_mapper self |}.

(** [AttendanceProcessor.verify_totals(student_id, expected_present,
    expected_absent)]: the new processor state and the returned
    dictionary.  The [total_mismatch] issue carries the student and the
    numbers of the result. *)
Definition verify_totals (self : AttendanceProcessor) (sid : string)
  (expected_present expected_absent : Z) : AttendanceProcessor * Verification :=
  match aggregates self !! sid with
  | None => (self, NoAggregateData)
  | Some aggregate =>
      let actual_present :=
        Z.of_nat (days_present aggregate + days_tardy aggregate) in
      let present_match := (actual_present =? expected_present)%Z in
      let absent_match :=
        (Z.of_nat (days_absent aggregate + days_excused aggregate
                   + days_unexcused aggregate) =? expected_absent)%Z in
      let result :=
        Totals (present_match && absent_match) expected_present actual_present
          present_match expected_absent (Z.of_nat (days_absent aggregate))
          absent_match in
      if negb (verified result) then
        (add_issue self
           (TotalMismatch sid expected_present actual_present expected_absent
              (Z.of_nat (days_absent aggregate))),
         result)
      else (self, result)
  end.

Lemma aggregate_totals self sid start end_ :
  let agg := snd (calculate_aggregate self sid start end_) in
  (days_present agg + days_tardy agg + days_absent agg = total_days agg)%nat
  /\ days_excused agg = 0%nat /\ days_unexcused agg = 0%nat
  /\ total_days agg = length (recorded_days self sid start end_).
Proof.
  cbv zeta. rewrite calculate_aggregate_result.
  set (a0 := {| aggregate_student_id := sid; total_days := _ |}).
  pose proof (aggregate_fold_days sid (by_date self sid start end_) self a0) as H.
  pose proof (aggregate_fold sid (by_date self sid start end_) self a0) as H'.
  cbv zeta in H, H'.
  destruct H as (Hc & He & Hu & _). destruct H' as (_ & Htot & _).
  set (agg := snd (fold_left _ _ _)) in *.
  destruct (calculate_rate_counters agg) as (R1 & R2 & R3 & R4 & R5 & R6).
  rewrite R1, R2, R3, R4, R5, R6.
  unfold days_counted in Hc. cbn [days_present days_tardy days_absent a0] in *.
  unfold recorded_days. rewrite length_map.
  repeat split; [rewrite Hc, Htot; reflexivity | rewrite He; reflexivity
                | rewrite Hu; reflexivity | rewrite Htot; reflexivity].
Qed.

(** X24.  [verify_totals] after [calculate_aggregate]: the totals of a
    student are verified exactly when the expected present days are the
    aggregate's present and tardy days and the expected absent days are its
    absent days; verified totals add up to the number of recorded days of
    the range and leave the processor as it was; totals that are not
    verified append one [total_mismatch] issue with the expected and the
    actual numbers, and nothing else changes.  For a student without an
    aggregate the result is the error dictionary, it is not verified and
    no issue is appended. *)
Theorem verify_totals_after_aggregate (self : AttendanceProcessor) (sid : string)
  (start end_ : Z) (expected_present expected_absent : Z) :
  let st := fst (calculate_aggregate self sid start end_) in
  let agg := snd (calculate_aggregate self sid start end_) in
  let res := verify_totals st sid expected_present expected_absent in
  let actual_present := Z.of_nat (days_present agg + days_tardy agg) in
  let actual_absent := Z.of_nat (days_absent agg) in
  snd res
  = Totals (verified (snd res)) expected_present actual_present
      (actual_present =? expected_present)%Z expected_absent actual_absent
      (actual_absent =? expected_absent)%Z
  /\ (verified (snd res) = true
      <-> expected_present = actual_present /\ expected_absent = actual_absent)
  /\ (verified (snd res) = true ->
      (expected_present + expected_absent)%Z
      = Z.of_nat (length (recorded_days self sid start end_))
      /\ fst res = st)
  /\ (verified (snd res) = false ->
      fst res
      = add_issue st (TotalMismatch sid expected_present actual_present
                        expected_absent actual_absent)
      /\ issues (fst res)
         = (issues self
            ++ [TotalMismatch sid expected_present actual_present
                  expected_absent actual_absent])%list)
  /\ (forall other, aggregates st !! other = None ->
        verify_totals st other expected_present expected_absent
        = (st, NoAggregateData)).
Proof.
  cbv zeta.
  pose proof (calculate_aggregate_state self sid start end_) as Hst.
  cbv zeta in Hst. destruct Hst as (Ha & _ & Hi & _).
  pose proof (aggregate_totals self sid start end_) as Hag.
  cbv zeta in Hag. destruct Hag as (Hsum & He & Hu & Hlen).
  set (st := fst (calculate_aggregate self sid start end_)) in *.
  set (agg := snd (calculate_aggregate self sid start end_)) in *.
  assert (Hlook : aggregates st !! sid = Some agg)
    by (rewrite Ha; apply lookup_insert_eq).
  unfold verify_totals. rewrite Hlook. cbv zeta.
  rewrite He, Hu, !Nat.add_0_r.
  set (pm := (Z.of_nat (days_present agg + days_tardy agg) =? expected_present)%Z).
  set (am := (Z.of_nat (days_absent agg) =? expected_absent)%Z).
  assert (Hv : pm && am = true
               <-> expected_present = Z.of_nat (days_present agg + days_tardy agg)
                   /\ expected_absent = Z.of_nat (days_absent agg)).
  { unfold pm, am. rewrite andb_true_iff, !Z.eqb_eq. intuition congruence. }
  cbn [verified].
  destruct (pm && am) eqn:E; cbn [negb fst snd verified].
  - split; [reflexivity|]. split; [exact Hv|].
    split; [|split; [discriminate|]].
    + intros _. split; [|reflexivity].
      destruct (proj1 Hv eq_refl) as [-> ->]. rewrite <- Hlen, <- Hsum. lia.
    + intros other Ho. now rewrite Ho.
  - split; [reflexivity|]. split; [exact Hv|].
    split; [discriminate|]. split.
    + intros _. split; [reflexivity|]. cbn [add_issue issues]. now rewrite Hi.
    + intros other Ho. now rewrite Ho.
Qed.

(** ** Custom code mappings *)

(** X25.  A custom mapping overrides the standard table: after
    [add_custom_mapping(code, status)], every non-empty code that is [code]
    up to case and surrounding blanks maps to [status], mapped, and the
    mapper does not change; every code that differs from [code] after
    lower-casing and stripping maps as before.  The empty code maps to
    Absent, unmapped, whatever the custom mappings are.  [map_code] never
    changes the custom mappings and never forgets an unmapped code. *)
Theorem add_custom_mapping_overrides (self : AttendanceCodeMapper) (code : string)
  (st : AttendanceStatus) :
  let mapper := add_custom_mapping self code st in
  (forall code', code' <> "" ->
     Py.strip (Py.lower code') = Py.strip (Py.lower code) ->
     map_code mapper code' = (mapper, (st, true)))
  /\ (forall code', Py.strip (Py.lower code') <> Py.strip (Py.lower code) ->
        snd (map_code mapper code') = snd (map_code self code')
        /\ unmapped_codes (fst (map_code mapper code'))
           = unmapped_codes (fst (map_code self code')))
  /\ map_code mapper "" = (mapper, (ABSENT, false))
  /\ (forall code',
        custom_mappings (fst (map_code self code')) = custom_mappings self
        /\ unmapped_codes self ⊆ unmapped_codes (fst (map_code self code'))).
Proof.
  cbv zeta. split; [|split; [|split]].
  - intros code' Hne Heq.
    assert (Hl : custom_mappings (add_custom_mapping self code st)
                 !! Py.strip (Py.lower code') = Some st).
    { unfold add_custom_mapping. cbn [custom_mappings].
      rewrite Heq. apply lookup_insert_eq. }
    unfold map_code.
    destruct (String.eqb_spec code' ""); [congruence|]. cbv zeta.
    now rewrite Hl.
  - intros code' Hne.
    assert (Hl : custom_mappings (add_custom_mapping self code st)
                 !! Py.strip (Py.lower code')
                 = custom_mappings self !! Py.strip (Py.lower code')).
    { unfold add_custom_mapping. cbn [custom_mappings].
      apply lookup_insert_ne. congruence. }
    unfold map_code.
    destruct (String.eqb code' ""); [split; reflexivity|]. cbv zeta.
    rewrite Hl.
    destruct (custom_mappings self !! _); [split; reflexivity|].
    destruct (CODE_MAPPINGS !! _); split; reflexivity.
  - reflexivity.
  - intros code'. unfold map_code.
    destruct (String.eqb code' ""); [split; [reflexivity | set_solver]|].
    cbv zeta.
    destruct (custom_mappings self !! _); [split; [reflexivity | set_solver]|].
    destruct (CODE_MAPPINGS !! _); cbn [fst custom_mappings unmapped_codes];
      (split; [reflexivity | set_solver]).
Qed.

(** ** Duplicate records *)

Section Duplicates.

(** [str(d)] for a date [d]. *)
Variable isoformat : Z -> string.

(** [f"{record.date}-{record.period or 'daily'}"]. *)
Definition duplicate_key (r : AttendanceRecord) : string :=
  isoformat (date r) ++ "-"
  ++ match period r with
     | Some p => if (p =? 0)%Z then "daily" else Py.str_int p
     | None => "daily"
     end.

Definition duplicate_issue (sid : string) (record : AttendanceRecord) : Issue :=
  DuplicateAttendance sid (isoformat (date record)) (period record).

(** One turn of the loop over the records: the dictionary [seen], the list
    [duplicates] and the issue list. *)
Definition duplicate_step (sid : string)
  (acc : gmap string AttendanceRecord
         * list (AttendanceRecord * AttendanceRecord) * list Issue)
  (record : AttendanceRecord)
  : gmap string AttendanceRecord
    * list (AttendanceRecord * AttendanceRecord) * list Issue :=
  let '(seen, duplicates, issues) := acc in
  let key := duplicate_key record in
  match seen !! key with
  | Some first_seen =>
      (seen, (duplicates ++ [(first_seen, record)])%list,
       (issues ++ [duplicate_issue sid record])%list)
  | None => (<[key := record]> seen, duplicates, issues)
  end.

(** [AttendanceProcessor.find_duplicates(student_id)]: the new processor
    state and the returned list of pairs. *)
Definition find_duplicates (self : AttendanceProcessor) (sid : string)
  : AttendanceProcessor * list (AttendanceRecord * AttendanceRecord) :=
  let '(_, duplicates, issues') :=
    fold_left (duplicate_step sid) (default [] (records self !! sid))
      (∅, [], issues self) in
  ({| records := records self; daily_summaries := daily_summaries self;
      aggregates := aggregates self; issues := issues';
      code_mapper := code_mapper self |},
   duplicates).

(** The first record of a list with the key of [r]. *)
Definition first_with_key (k : string) (l : list AttendanceRecord)
  : option AttendanceRecord :=
  List.find (fun a => String.eqb (duplicate_key a) k) l.

Lemma first_with_key_app k l1 l2 a :
  first_with_key k l1 = Some a -> first_with_key k (l1 ++ l2)%list = Some a.
Proof.
  unfold first_with_key. induction l1 as [|x l1 IH]; simpl; [discriminate|].
  destruct (String.eqb _ _); auto.
Qed.

Lemma first_with_key_snoc k l r :
  first_with_key k (l ++ [r])%list
  = match first_with_key k l with
    | Some a => Some a
    | None => if String.eqb (duplicate_key r) k then Some r else None
    end.
Proof.
  unfold first_with_key. induction l as [|x l IH]; simpl; [reflexivity|].
  destruct (String.eqb (duplicate_key x) k); auto.
Qed.

Lemma first_with_key_Some k l a :
  first_with_key k l = Some a -> In a l /\ duplicate_key a = k.
Proof.
  unfold first_with_key. intros H. apply List.find_some in H as [H1 H2].
  split; [exact H1 | now apply String.eqb_eq].
Qed.

Lemma first_with_key_None k l :
  first_with_key k l = None <-> ~ In k (map duplicate_key l).
Proof.
  unfold first_with_key. split.
  - intros H Hin. apply in_map_iff in Hin as (a & <- & Ha).
    pose proof (List.find_none _ _ H a Ha) as Hf. cbn beta in Hf.
    now rewrite String.eqb_refl in Hf.
  - intros H. destruct (List.find _ l) as [a|] eqn:E; [|reflexivity].
    apply List.find_some in E as [E1 E2]. apply String.eqb_eq in E2.
    exfalso. apply H. apply in_map_iff. now exists a.
Qed.

(** What the loop has established after the records [pre]. *)
Definition scanned (sid : string) (issues0 : list Issue)
  (pre : list AttendanceRecord)
  (acc : gmap string AttendanceRecord
         * list (AttendanceRecord * AttendanceRecord) * list Issue) : Prop :=
  let '(seen, duplicates, issues) := acc in
  (forall k, seen !! k = first_with_key k pre)
  /\ (length duplicates + size seen = length pre)%nat
  /\ List.Forall
       (fun p => In (snd p) pre
                 /\ first_with_key (duplicate_key (snd p)) pre = Some (fst p))
       duplicates
  /\ issues = (issues0 ++ map (fun p => duplicate_issue sid (snd p)) duplicates)%list.

Lemma duplicate_step_scanned sid issues0 pre acc r :
  scanned sid issues0 pre acc ->
  scanned sid issues0 (pre ++ [r])%list (duplicate_step sid acc r).
Proof.
  destruct acc as [[seen dups] iss]. intros (Hseen & Hsize & Hall & Hiss).
  assert (Hold : List.Forall
            (fun p => In (snd p) (pre ++ [r])%list
                      /\ first_with_key (duplicate_key (snd p)) (pre ++ [r])%list
                         = Some (fst p)) dups).
  { eapply List.Forall_impl; [|exact Hall]. intros p [H1 H2].
    split; [apply in_or_app; now left | now apply first_with_key_app]. }
  unfold duplicate_step. cbv zeta.
  destruct (seen !! duplicate_key r) as [a|] eqn:E; unfold scanned.
  - rewrite Hseen in E. split; [|split; [|split]].
    + intros k. rewrite first_with_key_snoc, Hseen.
      destruct (first_with_key k pre) eqn:Ek; [reflexivity|].
      destruct (String.eqb_spec (duplicate_key r) k); [congruence | reflexivity].
    + rewrite !length_app. cbn [length]. lia.
    + apply List.Forall_app. split; [exact Hold|]. constructor; [|constructor].
      cbn [fst snd]. split; [apply in_or_app; right; now left|].
      now apply first_with_key_app.
    + rewrite map_app, app_assoc, Hiss. reflexivity.
  - split; [|split; [|split]].
    + intros k. rewrite first_with_key_snoc.
      destruct (String.eqb_spec (duplicate_key r) k) as [<-|Hne].
      * rewrite lookup_insert_eq. rewrite <- Hseen, E. reflexivity.
      * rewrite lookup_insert_ne by exact Hne. rewrite Hseen.
        now destruct (first_with_key k pre).
    + rewrite map_size_insert_None by exact E.
      rewrite length_app. cbn [length]. lia.
    + exact Hold.
    + exact Hiss.
Qed.

Lemma duplicate_fold_scanned sid issues0 l : forall pre acc,
  scanned sid issues0 pre acc ->
  scanned sid issues0 (pre ++ l)%list (fold_left (duplicate_step sid) l acc).
Proof.
  induction l as [|r l IH]; intros pre acc H; simpl.
  - now rewrite app_nil_r.
  - replace (pre ++ r :: l)%list with ((pre ++ [r]) ++ l)%list
      by (now rewrite <- app_assoc).
    apply IH. now apply duplicate_step_scanned.
Qed.

Lemma seen_size (seen : gmap string AttendanceRecord) pre :
  (forall k, seen !! k = first_with_key k pre) ->
  size seen = size (list_to_set (map duplicate_key pre) : gset string).
Proof.
  intros H. rewrite <- size_dom. f_equal. apply set_eq. intros k.
  rewrite elem_of_dom, elem_of_list_to_set, list_elem_of_In, H.
  destruct (first_with_key k pre) as [a|] eqn:E.
  - split; [intros _ | intros _; now exists a].
    apply first_with_key_Some in E as [E1 <-]. now apply in_map.
  - apply first_with_key_None in E. split; [intros [x Hx]; discriminate | tauto].
Qed.

(** X26.  [find_duplicates] pairs every record of the student that is not
    the first with its key with the first one: the key is the date with
    the period, a missing period and period 0 both reading "daily".  In
    each returned pair both records are the student's, they have the same
    key, and the first is the first record with that key; the pairs and
    the distinct keys together are as many as the records; each pair
    appends one [duplicate_attendance] issue with the date and the period
    of its second record, in order, and nothing else changes.  Records
    of the same day whose periods are equal, or missing or 0, have the
    same key. *)
Theorem find_duplicates_first_seen (self : AttendanceProcessor) (sid : string) :
  let res := find_duplicates self sid in
  let student_records := default [] (records self !! sid) in
  List.Forall
    (fun p => In (fst p) student_records /\ In (snd p) student_records
              /\ duplicate_key (fst p) = duplicate_key (snd p)
              /\ first_with_key (duplicate_key (snd p)) student_records
                 = Some (fst p))
    (snd res)
  /\ (length (snd res)
      + size (list_to_set (map duplicate_key student_records) : gset string)
      = length student_records)%nat
  /\ issues (fst res)
     = (issues self ++ map (fun p => duplicate_issue sid (snd p)) (snd res))%list
  /\ records (fst res) = records self
  /\ daily_summaries (fst res) = daily_summaries self
  /\ aggregates (fst res) = aggregates self
  /\ (forall a b, date a = date b ->
        default 0%Z (period a) = default 0%Z (period b) ->
        duplicate_key a = duplicate_key b).
Proof.
  cbv zeta. unfold find_duplicates.
  pose proof (duplicate_fold_scanned sid (issues self)
                (default [] (records self !! sid)) [] (∅, [], issues self)) as H.
  cbn [app] in H.
  destruct (fold_left _ _ _) as [[seen dups] iss].
  destruct H as (Hseen & Hsize & Hall & Hiss).
  { split; [intros k; apply lookup_empty|].
    split; [reflexivity|]. split; [constructor|].
    cbn [map]. now rewrite app_nil_r. }
  cbn [fst snd issues records daily_summaries aggregates].
  split; [|split; [|split; [exact Hiss|repeat split]]].
  - eapply List.Forall_impl; [|exact Hall]. intros p [H1 H2].
    destruct (first_with_key_Some _ _ _ H2) as [H3 H4]. auto.
  - rewrite <- (seen_size seen _ Hseen). exact Hsize.
  - intros a b Hd Hp. unfold duplicate_key. rewrite Hd. f_equal. f_equal.
    destruct (period a) as [pa|], (period b) as [pb|]; simpl in Hp;
      subst; reflexivity.
Qed.

End Duplicates.

(** ** Storing a record *)

Section Stored.

Variable today : Z.
Variable strptime : string -> string -> option Z.
Variable isoformat : Z -> string.

Lemma process_record_state self record source :
  let res := process_record today strptime isoformat self record source in
  student_id (snd res) = student_of record
  /\ date (snd res)
     = default today
         (parse_date strptime
            (Py.get_or record "Date" (Py.get_or record "date" (Py.VStr ""))))
  /\ records (fst res)
     = <[student_of record :=
           (default [] (records self !! student_of record) ++ [snd res])%list]>
         (records self)
  /\ daily_summaries (fst res) = daily_summaries self
  /\ aggregates (fst res) = aggregates self
  /\ (issues (fst res) = issues self
      \/ issues (fst res)
         = (issues self
            ++ [UnmappedCode (student_of record) (date_of strptime isoformat record)
                  (raw_code_of record)])%list)
  /\ (attendance_type (snd res) = PERIOD <-> is_Some (period (snd res)))
  /\ (attendance_type (snd res) = DAILY <-> period (snd res) = None).
Proof.
  cbv zeta. unfold process_record. cbv zeta.
  fold (raw_code_of record). fold (student_of record).
  destruct (map_code (code_mapper self) (raw_code_of record)) as [mapper [st mapped]].
  match goal with
  | |- context [let '(_, _) := ?m in _] =>
      assert (Hm : (snd m = PERIOD <-> is_Some (fst m))
                   /\ (snd m = DAILY <-> fst m = None));
      [|destruct m as [period_int atype]]
  end.
  { destruct (Py.get_or record "Period" (Py.get record "period")) as [|s|z];
      cbn [fst snd].
    - split; split; try discriminate; try reflexivity. intros [x Hx]. discriminate.
    - destruct (py_int (Py.VStr s)); cbn [fst snd]; split; split;
        try discriminate; try reflexivity; try (intros [x Hx]; discriminate).
      intros _. now eexists.
    - destruct (py_int (Py.VInt z)); cbn [fst snd]; split; split;
        try discriminate; try reflexivity; try (intros [x Hx]; discriminate).
      intros _. now eexists. }
  cbn [fst snd] in Hm.
  cbn [fst snd student_id date records daily_summaries aggregates issues
       attendance_type period].
  repeat (split; [reflexivity|]).
  split; [|exact Hm].
  destruct (negb mapped && negb (String.eqb (raw_code_of record) ""));
    [right; reflexivity | left; reflexivity].
Qed.

(** X27.  [process_record] stores the record it returns as the last of the
    records of its student, the student being the string of the raw
    [StudentID]; the records of the other students, the summaries and the
    aggregates do not change, and at most one issue, an [unmapped_code]
    one, is appended.  The record is a period record exactly when it has
    a period.  The daily summary then built for its student and its date
    ends with the record and counts one period more than the student had
    on that date before. *)
Theorem process_record_stored (self : AttendanceProcessor)
  (record : gmap string Py.value) (source : string) :
  let res := process_record today strptime isoformat self record source in
  let sid := student_of record in
  let before :=
    List.filter (fun r => (date r =? date (snd res))%Z)
      (default [] (records self !! sid)) in
  let summary := snd (build_daily_summary (fst res) sid (date (snd res))) in
  student_id (snd res) = sid
  /\ records (fst res) !! sid
     = Some (default [] (records self !! sid) ++ [snd res])%list
  /\ (forall other, other <> sid ->
        records (fst res) !! other = records self !! other)
  /\ daily_summaries (fst res) = daily_summaries self
  /\ aggregates (fst res) = aggregates self
  /\ (issues (fst res) = issues self
      \/ exists i, issues (fst res) = (issues self ++ [i])%list
                   /\ issue_type i = "unmapped_code")
  /\ (attendance_type (snd res) = PERIOD <-> is_Some (period (snd res)))
  /\ period_records summary = (before ++ [snd res])%list
  /\ total_periods summary = S (length before).
Proof.
  cbv zeta.
  pose proof (process_record_state self record source) as H. cbv zeta in H.
  destruct H as (Hsid & _ & Hrec & Hsum & Hagg & Hiss & Hper & _).
  set (res := process_record today strptime isoformat self record source) in *.
  assert (Hlook : records (fst res) !! student_of record
                  = Some (default [] (records self !! student_of record)
                          ++ [snd res])%list)
    by (rewrite Hrec; apply lookup_insert_eq).
  split; [exact Hsid|]. split; [exact Hlook|].
  split; [intros other Hne; rewrite Hrec; now apply lookup_insert_ne|].
  split; [exact Hsum|]. split; [exact Hagg|].
  split; [destruct Hiss as [Hi|Hi]; [now left | right; eexists; split;
                                                  [exact Hi | reflexivity]]|].
  split; [exact Hper|].
  rewrite build_daily_summary_eq, Hlook. cbn [default from_option Datatypes.id].
  rewrite List.filter_app. cbn [List.filter]. rewrite Z.eqb_refl.
  destruct (summarize_counts (student_of record) (date (snd res))
              (List.filter (fun r => (date r =? date (snd res))%Z)
                 (default [] (records self !! student_of record)) ++ [snd res])%list)
    as (H1 & H2 & _).
  split; [exact H1|]. rewrite H2, length_app. cbn [length]. lia.
Qed.

End Stored.

End Attendance.
